(* ===== verification/_CoqProject ===== *)
-Q . S2P
Prelude.v
GoSort.v
GoFloat.v
GoMath.v
GoStrings.v
KubeTypes.v
BandwidthTypes.v
Client.v
Store.v
Framework.v
OperatorHelpers.v
Sync.v
SyncProofs.v
SyncTheorems.v
Reconciler.v
ReconcilerProofs.v
Demo.v
OperatorClaims.v
VaclabHandle.v
VaclabScheduling.v
VaclabProofs.v
VaclabClaims.v
Resource.v
ElasticQuota.v
ElasticQuotaProofs.v
Capacity.v
CapacityProofs.v
Preemption.v
PreemptionProofs.v
CapacityClaims.v
Requeue.v
RequeueProofs.v
RequeueClaims.v
Coscheduling.v
CoschedulingProofs.v
CoschedulingClaims.v
PodGroupController.v
QuotaController.v
ControllerClaims.v
NetworkUtil.v
NetworkOverhead.v
TopologicalSort.v
NetworkProofs.v
NetworkClaims.v
Toleration.v
TolerationClaims.v
Evaluator.v
EvaluatorClaims.v
Scoring.v
ScoringClaims.v
NumaTopology.v
NumaScore.v
NumaCache.v
NumaProofs.v
NumaCacheProofs.v
NumaScoreProofs.v
NumaClaims.v
SySched.v
SySchedProofs.v
SySchedClaims.v
ArgsTypes.v
Trimaran.v
TrimaranProofs.v
LoadAware.v
LoadAwareProofs.v
TrimaranClaims.v
ArgsV1.v
Args.v
NumaSetup.v
NumaSetupClaims.v
ArgsClaims.v
GoFmt.v
HealthTypes.v
HealthApi.v
HealthList.v
HealthScript.v
HealthBench.v
HealthProofs.v
HealthSim.v
HealthClaims.v
