(* ===== verification/Prelude.v ===== *)
(** * Vaclab Kubernetes plugins: a verification library

    This library models the Go programs of the repository that decide where
    pods run and how much network bandwidth they may use, and proves what makes
    them correct. The repository has three programs: the bandwidth operator
    ([src/bandwidth-operator]), a scheduler with plugins
    ([src/scheduler-plugins]) and a benchmarking command
    ([src/kubectl-plugins]).

    ** How the programs work together

    The operator keeps one [Bandwidth] object per node: a capacity, the requests
    charged to the node, and a status with what remains. The scheduler's plugin
    VaclabScheduling reads the status to filter and score nodes and appends a
    request when it reserves a node for a pod; the operator later rebuilds
    requests and status from the pods it finds. The two share nothing but the API
    server. CapacityScheduling, which limits namespaces by elastic quotas and
    evicts pods for them, and Coscheduling, which starts groups of pods
    together, run in the same scheduler on state of their own. The command, a
    kubectl plugin, starts iperf servers and clients, waits for the clients and
    saves and lists what they measured; it shares nothing with the other two.

    ** Files

    Shared vocabulary:
    - [Prelude]: int64 arithmetic with its wrap-around, sums over lists, decimal
      parsing and printing ([strconv]), the state monad, API errors.
    - [KubeTypes], [BandwidthTypes]: the objects ([k8s.io/api/core/v1],
      [bandwidth-operator/api/v1/bandwidth_types.go]).
    - [Client]: the API client as a type class with its laws; [Store] is an
      instance with injected faults, and [Demo] concrete clusters on it.
    - [GoFloat]: [float64] and [float32]; [GoMath]: [math.Max], [Min], [Round]
      and ranges of floating-point results; [GoSort]: [sort.Sort] as a type class
      with its laws; [GoStrings], [GoFmt]: the parts of [strings], [path], [fmt]
      and [time.Duration] the programs call.
    - [Framework]: the vocabulary of the scheduling framework.
    - [Resource]: resource vectors and the request of a pod
      ([pkg/util/resource.go], [framework.Resource]).

    The operator:
    - [OperatorHelpers]: [internal/controller/helpers.go].
    - [Sync]: the synchronisation of [setup_bandwidth.go]: [SyncFromSpecAndPods],
      its loop with the sibling cache, [syncSingleNodeBandwidth] and the
      background task. [SyncProofs] and [SyncTheorems] have the ledger invariant,
      the reference specification [keep] and the handler's theorems.
    - [Reconciler]: [bandwidth_controller.go], [SetupBandwidthResource] and the
      creation of objects at start; lemmas in [ReconcilerProofs].
    - [OperatorClaims]: the operator's properties.

    The scheduler's bandwidth plugin ([pkg/vaclabscheduling]):
    - [VaclabHandle]: [bandwidth_resource.go]; [VaclabScheduling]:
      [vaclab_scheduling.go] with the defaults and validation of its arguments;
      [VaclabProofs]: lemmas; [VaclabClaims]: properties of the plugin, and of the
      plugin and the operator together.

    Elastic quotas ([pkg/capacityscheduling]):
    - [ElasticQuota]: [elasticquota.go]; [Capacity]: the plugin and its informer
      handlers; [Preemption]: victims and disruption budgets; [ElasticQuotaProofs],
      [CapacityProofs], [PreemptionProofs]: lemmas; [CapacityClaims]: properties.

    Retrying of rejected pods:
    - [Requeue]: the events the plugins register for ([EventsToRegister]), the
      scheduler's table of hints and its test whether an event retries a pod
      ([buildQueueingHintMap], [isPodWorthRequeuing]), and the event each change
      of the quotas comes with; [RequeueProofs]: lemmas; [RequeueClaims]:
      properties.

    Gangs ([pkg/coscheduling], [pkg/util/podgroup.go]):
    - [Coscheduling]: the manager of pod groups and the plugin;
      [CoschedulingProofs]: lemmas and the step relation over scheduling cycles;
      [CoschedulingClaims]: properties.

    The controllers ([pkg/controllers]):
    - [PodGroupController]: the phases of pod groups; [QuotaController]: the used
      vector in the status of elastic quotas; [ControllerClaims]: properties.

    The network-aware plugins ([pkg/networkaware]), which place a pod by the
    network costs to the pods it depends on:
    - [NetworkUtil]: [util/util.go] with its binary searches; [NetworkOverhead]:
      [networkoverhead.go]; [TopologicalSort]: [topologicalsort.go];
      [NetworkProofs]: lemmas; [NetworkClaims]: properties.

    NUMA-aware scheduling ([pkg/noderesourcetopology]):
    - [NumaTopology]: topology objects, the lists of NUMA nodes and the handlers
      of [filter.go]; [NumaScore]: [score.go], [least_numa.go] and the
      strategies; [NumaCache]: [cache/], the interface of the caches as a type
      class with its three instances, and the plugin's extension points.
    - [NumaProofs], [NumaCacheProofs], [NumaScoreProofs]: lemmas, and the laws of
      the cache interface with their instances; [NumaClaims]: properties.
    - [NumaSetup]: [New], the choice of the cache, the detection of foreign pods
      by the names of profiles and the watcher of a topology; [NumaSetupClaims]:
      properties.

    System-call aware scheduling ([pkg/sysched]):
    - [SySched]: the calls of pods and nodes, the handlers of pod events and the
      score of [sysched.go]; [SySchedProofs]: lemmas and the step relation over
      events; [SySchedClaims]: properties.

    Load-aware scheduling ([pkg/trimaran]):
    - [Trimaran]: the collector of metrics with the making of the load watcher's
      client and the handler of pod assignments ([collector.go], [handler.go])
      with its cleanup; [LoadAware]: the scores of
      TargetLoadPacking, LoadVariationRiskBalancing and LowRiskOverCommitment.
    - [TrimaranProofs], [LoadAwareProofs]: lemmas; [TrimaranClaims]: properties.

    The plugins' arguments ([apis/config]):
    - [ArgsTypes]: the internal types ([types.go]); [ArgsV1]: the versioned types
      and their defaults ([v1/types.go], [v1/defaults.go]); [Args]: conversions,
      loading, and what each plugin accepts; [ArgsClaims]: properties.

    Benchmarks ([src/kubectl-plugins/health]):
    - [HealthTypes]: the data of [types.go] and [vars.go] and the API objects;
      [HealthApi]: the clientset, the clock, the output and the codecs as type
      classes with their laws; [HealthScript]: the text of the clients' script.
    - [HealthList]: [list_benchmark.go]; [HealthBench]: [create_benchmark.go] and
      the commands of [args/parser.go].
    - [HealthProofs]: lemmas; [HealthSim]: a concrete cluster with a clock and
      injected faults; [HealthClaims]: properties.

    Smaller plugins:
    - [Toleration]: [pkg/preemptiontoleration]; [TolerationClaims]: properties.
    - [Evaluator]: the framework's preemption evaluator, with a type class for
      the plugin that it calls back and an instance for each of CapacityScheduling
      and PreemptionToleration, and their [PostFilter]; [EvaluatorClaims]: lemmas
      and properties.
    - [Scoring]: [pkg/noderesources], [pkg/podstate], [pkg/qos];
      [ScoringClaims]: properties.

    ** What the theorems show

    - Accounting (operator). A successful synchronisation leaves its object
      balanced: used is the total of the kept requests, by datapath, and
      remaining is capacity less used. The loop with its caches computes the
      specification [keep]; a second synchronisation writes nothing; whatever the
      client answers, the totals are those of the kept requests. Bootstrapping
      covers every node. What a failed list or a stale status leads to is stated
      as well.
    - Admission (VaclabScheduling). [Filter] is characterised on every branch, a
      [PreFilter] rejection is sound, [Reserve] and [Unreserve] are inverse, a
      filtered reservation keeps a balanced node within its capacity, scores are
      normalised without overflow, and what is extracted from a pod is what the
      operator charges. Three theorems give the interleavings with the operator
      that oversubscribe a node.
    - Quotas (CapacityScheduling). The used vector of a quota is the total of the
      pods it holds after every sequence of events; [PreFilter] is exact; an
      admitted and reserved pod leaves the quotas respected; the victims of
      [SelectVictimsOnNode] are sound, those of other quotas while these are over
      their minimum, although the loop ranges over the slice it changes; victims split within the disruption budgets.
    - Preemption (CapacityScheduling, PreemptionToleration). Whatever fails,
      [PostFilter] evicts only pods of one unschedulable node that the plugin may
      evict, and a nominated node has room for the preemptor; if some node can be
      freed, the node of the best candidate is nominated.
    - Retrying. A change that lifts a rejection by the quotas comes with an event
      that retries the pod, under stated conditions; no event about bandwidth
      retries a pod rejected for it.
    - Gangs (Coscheduling). Over all runs in which no pod is rejected or leaves
      between a snapshot and its [Permit] the pods of a group are let through
      only when it has its minimum, and then none is left waiting; without that
      condition it may not. The cluster check, the queue's order, the
      backoff and the single-precision gap test are characterised.
    - Network costs (NetworkOverhead, TopologicalSort). The verdicts and scores
      read off the slices sorted in place by bisection are those of linear
      look-ups; the bisection ends and finds what is there; normalised costs are
      exact; the queue's order has cycles across groups of different kinds.
    - NUMA (NodeResourceTopologyMatch). A request goes to the lowest NUMA node
      where it fits; an accepted pod's containers can be assigned without
      overdrawing any NUMA node; the caches' copies are what their history of
      events says; accounting a pod against every zone is safe for pods aligned
      as a whole and not for pods aligned by container; which nodes a
      resynchronisation cleans; the fewest NUMA nodes are found; which pods count
      as foreign after the profiles are set up; a watcher that ended is never
      started again. The panics on
      sparse NUMA IDs and what a resynchronisation forgets are stated as well.
    - Preemption toleration and small scores. Tolerating pods are never victims
      and no victim could be spared; annotations round-trip; normalised scores
      are exact and keep the order.
    - System calls (SySched). The calls cached for a node and its score after every
      history of events are those of the pods tracked on it; normalised scores are
      exact; what a pod's calls are read from, and in which order, is stated too.
    - Load-aware scores. What a cleanup of the cache of assigned pods keeps; the
      bands of the packing score, and that a target above 100 percent leaves them;
      the other scores stay within 0 and 100 for every metric, those of
      LowRiskOverCommitment for every configuration that loads with numbers.
    - Arguments. From which written configurations each plugin can be made after
      defaulting and conversion, and which end the scheduler; a loaded
      configuration written out loads as itself.
    - Benchmarks. Every wait ends; what a benchmark created is gone when it
      returns unless a warning was printed or its first steps failed; saved
      results are listed; the listing of the latest results is exact.
    - Controllers. The phase of a pod group settles in three calls on what its
      pods call for; the used vector stored for a quota is exact, and differs
      from the scheduler's own for pods with an overhead.

    ** Conventions

    An [int64], [int] or [float32] is kept at its width: [int64] wraps where the
    code adds, [int32] where it converts, and floating point is the Standard
    Library's IEEE arithmetic. A quantity is its exact value in units of 10^-9.
    Errors are values of [result]; a panic is [None]. State is passed explicitly
    and handlers that run under a lock are one step. Maps whose iteration order
    is unspecified are folded with stdpp's [map_fold], and the theorems hold for
    every order. Loops range over finite lists, except the binary search of
    [NetworkUtil]: its fuel is one more than the length of the slice, which
    [NetworkClaims] shows to be enough, the [sort.Search] of [GoSort], whose fuel is
    the length of the interval, and the waits of [HealthBench]: [wait_fuel] is the
    number of sleeps of two seconds in twenty minutes and two more, which
    [HealthClaims] shows to be enough for every wait. The removal loop of [Preemption] counts
    the positions it has left, and the printing of numbers in [Prelude] the
    digits.

    Parameters stand for code outside the repository: [resource.ParseQuantity],
    [IsScalarResourceName], [sort.Slice], label selectors, the filters of other
    plugins, the lister of pods and the client, the QoS class of a pod, pod
    fingerprints, gonum's statistics and beta distribution, seccomp profiles and
    the order of annotations. So do [math.Pow], [strconv.ParseFloat], JSON, the
    parsing and printing of times, and the conversion of a float out of range,
    which Go leaves to the processor. Their laws are named hypotheses
    and every theorem with a hypothesis has a witness that evaluates the model
    where it holds.

    ** Not modelled

    Cross-node preemption, whose file is commented out as a whole; logging,
    metrics and the texts of events; the wiring of informers, webhooks and
    executables, which only calls libraries; the scheduler's queue beyond the
    test whether an event retries a pod (backoff, flush and pods in flight are
    vendored); extenders, of which none is configured; the run of the script that
    the benchmark clients execute, which is shell and iperf; the alignment of
    columns in printed tables and the creation of the command's namespace at
    start; and generated code (clients, informers, deep copies). *)

From stdpp Require Export base tactics list strings gmap sets.
From Stdlib Require Export Ascii ZArith Lia.


Declare Scope go_scope.
Delimit Scope go_scope with go.

#[export] Set Warnings "-clear-no-such-hyp".
#[global] Open Scope Z_scope.

Create HintDb go.
Create Rewrite HintDb go.
Create Rewrite HintDb int64.

(** ** int64: two's complement arithmetic of Go's [int64] (and of [int] on the
    64-bit platforms the images are built for). *)

Definition int64 (z : Z) : Z :=
  (z + 9223372036854775808) mod 18446744073709551616 - 9223372036854775808.

Definition in_int64 (z : Z) : Prop :=
  -9223372036854775808 <= z < 9223372036854775808.

#[export] Instance in_int64_dec z : Decision (in_int64 z).
Proof. unfold in_int64. apply _. Defined.

Definition add64 (a b : Z) : Z := int64 (a + b).
Definition sub64 (a b : Z) : Z := int64 (a - b).
Definition mul64 (a b : Z) : Z := int64 (a * b).
(** Go's integer division truncates towards zero. *)
Definition div64 (a b : Z) : Z := int64 (Z.quot a b).

Notation "a +! b" := (add64 a b) (at level 50, left associativity) : go_scope.
Notation "a -! b" := (sub64 a b) (at level 50, left associativity) : go_scope.
Notation "a *! b" := (mul64 a b) (at level 40, left associativity) : go_scope.
Notation "a /! b" := (div64 a b) (at level 40, left associativity) : go_scope.
#[global] Open Scope go_scope.

Lemma int64_range z : in_int64 (int64 z).
Proof.
  unfold in_int64, int64.
  pose proof (Z.mod_pos_bound (z + 9223372036854775808) 18446744073709551616).
  lia.
Qed.

Lemma int64_id z : in_int64 z -> int64 z = z.
Proof. unfold in_int64, int64. intros H. rewrite Z.mod_small; lia. Qed.

Lemma int64_0 : int64 0 = 0.
Proof. reflexivity. Qed.

Lemma int64_add_l a b : int64 (int64 a + b) = int64 (a + b).
Proof.
  unfold int64. f_equal.
  replace ((a + 9223372036854775808) mod 18446744073709551616
           - 9223372036854775808 + b + 9223372036854775808)
    with ((a + 9223372036854775808) mod 18446744073709551616 + b) by lia.
  rewrite Zplus_mod_idemp_l. f_equal. lia.
Qed.

Lemma int64_add_r a b : int64 (a + int64 b) = int64 (a + b).
Proof. rewrite Z.add_comm, int64_add_l. f_equal. lia. Qed.

Lemma int64_opp a : int64 (- int64 a) = int64 (- a).
Proof.
  assert (exists k, int64 a = a + k * 18446744073709551616) as [k ->].
  { unfold int64.
    pose proof (Z.div_mod (a + 9223372036854775808) 18446744073709551616).
    exists (- ((a + 9223372036854775808) / 18446744073709551616)). lia. }
  unfold int64. f_equal.
  replace (- (a + k * 18446744073709551616) + 9223372036854775808)
    with (- a + 9223372036854775808 + (- k) * 18446744073709551616) by lia.
  apply Z_mod_plus_full.
Qed.

Lemma int64_sub_r a b : int64 (a - int64 b) = int64 (a - b).
Proof.
  replace (a - int64 b) with (a + (- int64 b)) by lia.
  rewrite <- int64_add_r, int64_opp, int64_add_r. f_equal.
Qed.

Lemma int64_sub_l a b : int64 (int64 a - b) = int64 (a - b).
Proof.
  replace (int64 a - b) with (int64 a + (- b)) by lia.
  rewrite int64_add_l. f_equal.
Qed.

Lemma int64_idemp a : int64 (int64 a) = int64 a.
Proof. apply int64_id, int64_range. Qed.

#[export] Hint Rewrite int64_add_l int64_add_r int64_sub_l int64_sub_r int64_idemp
  int64_opp : int64.

(** Pushes every wrap-around to the outside of a sum, then compares the sums. *)
Ltac int64_ring :=
  unfold add64, sub64; autorewrite with int64; f_equal; lia.

Lemma add64_exact a b : in_int64 (a + b) -> a +! b = a + b.
Proof. apply int64_id. Qed.

Lemma sub64_exact a b : in_int64 (a - b) -> a -! b = a - b.
Proof. apply int64_id. Qed.

#[export] Hint Resolve int64_range int64_id add64_exact sub64_exact : go.

(** [int32]: what a conversion to 32 bits keeps. *)
Definition int32 (z : Z) : Z := (z + 2147483648) mod 4294967296 - 2147483648.
Definition in_int32 (z : Z) : Prop := -2147483648 <= z < 2147483648.

#[export] Instance in_int32_dec z : Decision (in_int32 z).
Proof. unfold in_int32. apply _. Defined.

Lemma int32_id z : in_int32 z -> int32 z = z.
Proof. unfold in_int32, int32. intros H. rewrite Z.mod_small; lia. Qed.

(** ** Sums over lists *)

Definition sumZ {A} (f : A -> Z) (l : list A) : Z :=
  foldr (fun x s => f x + s) 0 l.

Lemma sumZ_app {A} (f : A -> Z) l1 l2 : sumZ f (l1 ++ l2) = sumZ f l1 + sumZ f l2.
Proof. induction l1; cbn; [done|]. unfold sumZ in *. lia. Qed.

Lemma sumZ_cons {A} (f : A -> Z) x l : sumZ f (x :: l) = f x + sumZ f l.
Proof. done. Qed.

Lemma sumZ_nil {A} (f : A -> Z) : sumZ f [] = 0.
Proof. done. Qed.

Lemma sumZ_ext {A} (f g : A -> Z) l :
  (forall x, x ∈ l -> f x = g x) -> sumZ f l = sumZ g l.
Proof.
  induction l as [|a l IH]; intros H; [done|].
  rewrite !sumZ_cons, IH, (H a); [done|left|]. intros; apply H; by right.
Qed.

Lemma sumZ_nonneg {A} (f : A -> Z) l :
  (forall x, x ∈ l -> 0 <= f x) -> 0 <= sumZ f l.
Proof.
  induction l as [|a l IH]; intros H; [done|].
  rewrite sumZ_cons. pose proof (H a ltac:(left)).
  assert (0 <= sumZ f l) by (apply IH; intros; apply H; by right). lia.
Qed.

#[export] Instance sumZ_permutation {A} (f : A -> Z) :
  Proper (Permutation ==> eq) (sumZ f).
Proof. induction 1; rewrite ?sumZ_cons; congruence || lia. Qed.

#[export] Hint Rewrite @sumZ_app @sumZ_cons @sumZ_nil : go.

(** ** Sublists *)

Lemma sublist_length_eq {A} (l1 l2 : list A) :
  l1 `sublist_of` l2 -> length l1 = length l2 -> l1 = l2.
Proof.
  induction 1 as [|x l1 l2 H IH|x l1 l2 H IH]; cbn; intros Hlen; [done| |].
  - f_equal. apply IH. lia.
  - apply sublist_length in H. lia.
Qed.

(** ** Strings: the parts of Go's [strings] and [strconv] the programs call *)

(** [strings.EqualFold] on ASCII strings (Kubernetes names, kinds and UIDs are
    ASCII): equality after folding the letters' case. *)
Definition fold_ascii (c : Ascii.ascii) : Ascii.ascii :=
  let n := Ascii.nat_of_ascii c in
  if ((65 <=? n)%nat && (n <=? 90)%nat)%bool then Ascii.ascii_of_nat (n + 32) else c.

Fixpoint fold_case (s : string) : string :=
  match s with
  | EmptyString => EmptyString
  | String c s' => String (fold_ascii c) (fold_case s')
  end.

Definition EqualFold (s t : string) : bool := bool_decide (fold_case s = fold_case t).

Lemma EqualFold_refl s : EqualFold s s = true.
Proof. by apply bool_decide_eq_true. Qed.

Lemma EqualFold_sym s t : EqualFold s t = EqualFold t s.
Proof. unfold EqualFold. apply bool_decide_ext. naive_solver. Qed.

Lemma EqualFold_trans s t u :
  EqualFold s t = true -> EqualFold t u = true -> EqualFold s u = true.
Proof. unfold EqualFold. rewrite !bool_decide_eq_true. congruence. Qed.

Definition digit_val (c : Ascii.ascii) : option Z :=
  let n := Z.of_nat (Ascii.nat_of_ascii c) in
  if (48 <=? n) && (n <=? 57) then Some (n - 48) else None.

Definition digit_char (d : Z) : Ascii.ascii := Ascii.ascii_of_nat (Z.to_nat (d + 48)).

Fixpoint parse_digits (acc : Z) (s : string) : option Z :=
  match s with
  | EmptyString => Some acc
  | String c s' =>
      match digit_val c with
      | Some d => parse_digits (acc * 10 + d) s'
      | None => None
      end
  end.

(** The sign and the digits of a decimal literal. *)
Definition split_sign (s : string) : bool * string :=
  match s with
  | String "-"%char s' => (true, s')
  | String "+"%char s' => (false, s')
  | _ => (false, s)
  end.

(** [strconv.Atoi]: an optional sign, at least one decimal digit, and a value
    of the [int] range; every other input is an error. *)
Definition Atoi (s : string) : option Z :=
  let '(neg, body) := split_sign s in
  match body with
  | EmptyString => None
  | _ =>
      match parse_digits 0 body with
      | Some v =>
          let z := if (neg : bool) then - v else v in
          if bool_decide (in_int64 z) then Some z else None
      | None => None
      end
  end.

Fixpoint fmt_digits (fuel : nat) (n : Z) (acc : string) : string :=
  match fuel with
  | O => acc
  | S f =>
      let acc' := String (digit_char (n mod 10)) acc in
      if n <? 10 then acc' else fmt_digits f (n / 10) acc'
  end.

(** [strconv.FormatInt(n, 10)], also what [%d] prints. An int64 has at most
    nineteen digits, so twenty units of fuel are enough ([FormatInt_Atoi]). *)
Definition FormatInt (n : Z) : string :=
  if n <? 0 then String "-"%char (fmt_digits 20 (- n) "") else fmt_digits 20 n "".

Lemma digit_cases (P : Z -> Prop) d :
  P 0 -> P 1 -> P 2 -> P 3 -> P 4 -> P 5 -> P 6 -> P 7 -> P 8 -> P 9 ->
  0 <= d < 10 -> P d.
Proof.
  intros ?????????? H.
  destruct (decide (d < 5)) as [?|?];
    [assert (d = 0 \/ d = 1 \/ d = 2 \/ d = 3 \/ d = 4) by lia
    |assert (d = 5 \/ d = 6 \/ d = 7 \/ d = 8 \/ d = 9) by lia]; naive_solver.
Qed.

Lemma digit_val_char d : 0 <= d < 10 -> digit_val (digit_char d) = Some d.
Proof. by apply (digit_cases (fun d => digit_val (digit_char d) = Some d)). Qed.

Lemma parse_digits_fmt f n a s :
  0 <= n < 10 ^ Z.of_nat f -> (0 < f)%nat ->
  exists k, parse_digits a (fmt_digits f n s) = parse_digits (a * k + n) s.
Proof.
  revert n s. induction f as [|f IH]; intros n s Hn Hf; [lia|]. cbn [fmt_digits].
  pose proof (Z.mod_pos_bound n 10). pose proof (Z.div_mod n 10).
  destruct (Z.ltb_spec n 10) as [Hlt|Hge].
  - exists 10. cbn. rewrite Z.mod_small by lia. by rewrite digit_val_char by lia.
  - assert (0 < f)%nat.
    { destruct f; [|lia]. cbn in Hn. lia. }
    destruct (IH (n / 10) (String (digit_char (n mod 10)) s)) as [k Hk]; [|done|].
    { rewrite Nat2Z.inj_succ, Z.pow_succ_r in Hn by lia.
      split; [apply Z.div_pos; lia|]. apply Z.div_lt_upper_bound; lia. }
    exists (k * 10). rewrite Hk. cbn. rewrite digit_val_char by lia.
    f_equal. lia.
Qed.

Lemma fmt_digits_head f n s :
  0 <= n -> (0 < f)%nat ->
  exists d t, fmt_digits f n s = String (digit_char d) t /\ 0 <= d < 10.
Proof.
  revert n s. induction f as [|f IH]; intros n s Hn Hf; [lia|]. cbn [fmt_digits].
  pose proof (Z.mod_pos_bound n 10).
  destruct (n <? 10); [naive_solver lia|].
  destruct f as [|f']; [cbn; naive_solver lia|].
  apply IH; [|lia]. apply Z.div_pos; lia.
Qed.

Lemma split_sign_digit d t :
  0 <= d < 10 -> split_sign (String (digit_char d) t) = (false, String (digit_char d) t).
Proof.
  by apply (digit_cases (fun d => split_sign (String (digit_char d) t)
                                  = (false, String (digit_char d) t))).
Qed.

Lemma Atoi_fmt f n :
  (0 < f)%nat -> 0 <= n < 10 ^ Z.of_nat f -> in_int64 n ->
  Atoi (fmt_digits f n "") = Some n.
Proof.
  intros Hf Hn Hr.
  destruct (fmt_digits_head f n "") as (d & t & Ht & Hd); [lia..|].
  destruct (parse_digits_fmt f n 0 "") as [k Hk]; [done..|].
  unfold Atoi. rewrite Ht in Hk |- *. rewrite split_sign_digit by done.
  rewrite Hk. replace (0 * k + n) with n by lia. cbn [parse_digits].
  by rewrite bool_decide_true.
Qed.

Lemma FormatInt_neg n : 0 < n -> in_int64 n -> Atoi (FormatInt (- n)) = Some (- n).
Proof.
  intros Hn Hr. unfold FormatInt. rewrite (proj2 (Z.ltb_lt (- n) 0)), Z.opp_involutive by lia.
  unfold in_int64 in Hr.
  destruct (fmt_digits_head 20 n "") as (d & t & Ht & Hd); [lia..|].
  destruct (parse_digits_fmt 20 n 0 "") as [k Hk];
    [change (10 ^ Z.of_nat 20) with 100000000000000000000; lia|lia|].
  unfold Atoi. cbn [split_sign]. rewrite Ht in Hk |- *. rewrite Hk.
  replace (0 * k + n) with n by lia. cbn [parse_digits].
  rewrite bool_decide_true; [done|]. unfold in_int64. lia.
Qed.

(** Parsing back what [FormatInt] prints, for the whole non-negative int64 range. *)
Lemma FormatInt_Atoi n : 0 <= n -> in_int64 n -> Atoi (FormatInt n) = Some n.
Proof.
  intros Hn Hr. unfold FormatInt.
  rewrite (proj2 (Z.ltb_ge n 0)) by done.
  apply Atoi_fmt; [lia| |done]. unfold in_int64 in Hr.
  change (10 ^ Z.of_nat 20) with 100000000000000000000. lia.
Qed.

Lemma split_sign_cases c t :
  split_sign (String c t) = (true, t) \/ split_sign (String c t) = (false, t) \/
  split_sign (String c t) = (false, String c t).
Proof. destruct c as [[] [] [] [] [] [] [] []]; cbn; auto. Qed.

(** A literal with a character that is no digit after its digits. *)
Lemma parse_digits_suffix a s c t : digit_val c = None -> parse_digits a (s +:+ String c t) = None.
Proof.
  intros Hc. revert a. induction s as [|c' s IH]; intros a.
  - change ("" +:+ String c t) with (String c t). cbn [parse_digits]. by rewrite Hc.
  - change (String c' s +:+ String c t) with (String c' (s +:+ String c t)). cbn [parse_digits].
    destruct (digit_val c'); [apply IH|done].
Qed.

Lemma Atoi_suffix s c : digit_val c = None -> Atoi (s +:+ String c "") = None.
Proof.
  intros Hc. unfold Atoi.
  destruct (s +:+ String c "") as [|c0 t] eqn:E; [by destruct s|].
  assert (exists s', t = s' +:+ String c "" \/ t = "") as [s' Ht].
  { destruct s as [|c1 s1]; injection E as _ <-; [exists ""; by right|exists s1; by left]. }
  assert (parse_digits 0 (String c0 t) = None) as Hall
    by (rewrite <- E; by apply parse_digits_suffix).
  assert (t <> "" -> parse_digits 0 t = None) as Ht0.
  { destruct Ht as [->| ->]; [|done]. intros _. by apply parse_digits_suffix. }
  destruct (split_sign_cases c0 t) as [->|[->| ->]]; rewrite ?Hall; try done;
    destruct t; try done; by rewrite Ht0.
Qed.

(** The digits of a positive number do not start with a sign or end early. *)
Lemma FormatInt_nonempty n : FormatInt n <> "".
Proof.
  unfold FormatInt. destruct (Z.ltb_spec n 0); [done|].
  destruct (fmt_digits_head 20 n "") as (d & t & -> & _); [lia..|done].
Qed.

(** Go compares strings by their bytes: a strict total order. *)
Lemma ltb_true a b : String.ltb a b = true <-> String.le a b /\ a <> b.
Proof.
  unfold String.le, String.leb, String.ltb. destruct (String.compare a b) eqn:C; cbn.
  - apply String.compare_eq_iff in C as ->. naive_solver.
  - split; [|done]. intros _. split; [done|]. intros ->.
    pose proof (String.compare_antisym b b) as Ha. by rewrite C in Ha.
  - naive_solver.
Qed.

Lemma ltb_irrefl s : String.ltb s s = false.
Proof. apply not_true_iff_false. rewrite ltb_true. naive_solver. Qed.

Lemma ltb_trans a b c : String.ltb a b = true -> String.ltb b c = true -> String.ltb a c = true.
Proof.
  rewrite !ltb_true. intros [H1 H2] [H3 H4]. split; [by etransitivity|]. intros ->.
  apply H2. by apply (anti_symm String.le).
Qed.

Lemma ltb_total a b : a <> b -> String.ltb a b = true \/ String.ltb b a = true.
Proof. intros Hne. rewrite !ltb_true. destruct (String.le_total a b); naive_solver. Qed.

(** ** Effects: explicit state passing

    A handler that talks to the API server, to a shared cache or to the
    scheduling framework is a function of the world it runs in. *)

Definition M (W A : Type) : Type := W -> A * W.

Definition ret {W A} (a : A) : M W A := fun w => (a, w).

Definition bind {W A B} (m : M W A) (k : A -> M W B) : M W B :=
  fun w => let '(a, w') := m w in k a w'.

Notation "'let!' x := c 'in' k" := (bind c (fun x => k))
  (at level 10, x pattern, c at level 200, k at level 200,
   format "'[v' 'let!'  x  :=  c  'in' '/' k ']'") : go_scope.

(** A [for ... range] loop whose body updates an accumulator. *)
Fixpoint foldM {W A S} (body : S -> A -> M W S) (s : S) (l : list A) : M W S :=
  match l with
  | [] => ret s
  | a :: l' => let! s' := body s a in foldM body s' l'
  end.

Lemma bind_eq {W A B} (m : M W A) (k : A -> M W B) w :
  bind m k w = k (m w).1 (m w).2.
Proof. unfold bind. by destruct (m w). Qed.

Lemma foldM_nil {W A S} (body : S -> A -> M W S) s w : foldM body s [] w = (s, w).
Proof. done. Qed.

Lemma foldM_cons {W A S} (body : S -> A -> M W S) s a l w :
  foldM body s (a :: l) w = foldM body (body s a w).1 l (body s a w).2.
Proof. cbn. unfold bind. by destruct (body s a w). Qed.

Lemma foldM_app {W A S} (body : S -> A -> M W S) s l1 l2 w :
  foldM body s (l1 ++ l2) w = foldM body (foldM body s l1 w).1 l2 (foldM body s l1 w).2.
Proof.
  revert s w. induction l1 as [|a l1 IH]; intros s w; [done|].
  rewrite <- app_comm_cons, !foldM_cons. apply IH.
Qed.

(** Loop invariants: a property of the elements already visited, the
    accumulator and the world, kept by each turn of the loop. *)
Lemma foldM_ind {W A S} (P : list A -> S -> W -> Prop) (body : S -> A -> M W S) s l w :
  P [] s w ->
  (forall done a s w, a ∈ l -> P done s w -> P (done ++ [a]) (body s a w).1 (body s a w).2) ->
  P l (foldM body s l w).1 (foldM body s l w).2.
Proof.
  intros H0 Hstep.
  assert (forall todo done s w, (forall a, a ∈ todo -> a ∈ l) -> P done s w ->
    P (done ++ todo) (foldM body s todo w).1 (foldM body s todo w).2) as Hgen.
  { induction todo as [|a todo IH]; intros d s' w' Hin HP.
    - by rewrite app_nil_r.
    - rewrite foldM_cons.
      replace (d ++ a :: todo) with ((d ++ [a]) ++ todo) by (by rewrite <- app_assoc).
      apply IH; [intros; apply Hin; by right|]. apply Hstep; [apply Hin; left|done]. }
  by apply (Hgen l []).
Qed.

(** Errors of the API machinery ([k8s.io/apimachinery/pkg/api/errors]). *)
Inductive ApiError : Type :=
| NotFound
| AlreadyExists
| Conflict
| OtherError (reason : string).

#[export] Instance ApiError_eq_dec : EqDecision ApiError.
Proof. solve_decision. Defined.

Inductive result (A : Type) : Type :=
| Ok (a : A)
| Err (e : ApiError).
Arguments Ok {A} a.
Arguments Err {A} e.

#[export] Instance result_eq_dec `{EqDecision A} : EqDecision (result A).
Proof. solve_decision. Defined.

Definition is_Ok {A} (r : result A) : bool := match r with Ok _ => true | Err _ => false end.
Definition IsNotFound (e : ApiError) : bool := bool_decide (e = NotFound).
Definition IsAlreadyExists (e : ApiError) : bool := bool_decide (e = AlreadyExists).
Definition IsConflict (e : ApiError) : bool := bool_decide (e = Conflict).

(** Case analysis of the matches and boolean tests of a definition, with the
    equations kept. *)
Ltac go_cases :=
  repeat (case_match || case_bool_decide); simplify_eq/=.
