(* ===== verification/GoSort.v ===== *)
(** * [sort.Sort] of Go's standard library

    The sort orders a slice in place by a [Less] method and may leave elements
    that compare equal in any order, so it is an operation of a class whose laws
    are what the package documents: a permutation, ordered when [Less] is a
    strict weak order. [insertion] is an instance. For keys without repetition
    the result is the same whatever the implementation ([sort_unique]). *)

From stdpp Require Import sorting.
From S2P Require Import Prelude.

Class GoSort := sort_Sort : forall {A : Type}, (A -> A -> bool) -> list A -> list A.

(** What a [Less] method promises to [sort.Sort]. *)
Record StrictWeak {A} (less : A -> A -> bool) : Prop := {
  less_irrefl : forall a, less a a = false;
  less_trans : forall a b c, less a b = true -> less b c = true -> less a c = true;
  less_cotrans : forall a b c, less a c = true -> less a b = true \/ less b c = true;
}.

Class SortLaws `{!GoSort} : Prop := {
  sort_perm : forall A (less : A -> A -> bool) l, sort_Sort less l ≡ₚ l;
  sort_ordered : forall A (less : A -> A -> bool) l, StrictWeak less ->
    StronglySorted (fun a b => less b a = false) (sort_Sort less l);
}.
Arguments SortLaws : clear implicits.
Arguments SortLaws {_}.

(** A [Less] method that compares a string key. *)
Definition by_key {A} (key : A -> string) (a b : A) : bool := String.ltb (key a) (key b).

Lemma by_key_weak {A} (key : A -> string) : StrictWeak (by_key key).
Proof.
  unfold by_key. split.
  - intros a. apply not_true_iff_false. rewrite ltb_true. intros [_ H]. by apply H.
  - intros a b c. apply ltb_trans.
  - intros a b c Hac. destruct (decide (key a = key b)) as [Heq|Hne]; [right; by rewrite <- Heq|].
    destruct (ltb_total _ _ Hne); [by left|right]. by eapply ltb_trans.
Qed.

(** Strictly increasing keys: sorted, and no key twice. *)
Definition increasing {A} (key : A -> string) (l : list A) : Prop :=
  StronglySorted (fun a b => String.ltb (key a) (key b) = true) l.

Lemma sorted_increasing {A} (key : A -> string) l :
  NoDup (key <$> l) -> StronglySorted (fun a b => by_key key b a = false) l -> increasing key l.
Proof.
  intros Hnd Hs. induction Hs as [|a l Hs IH Ha]; [constructor|].
  rewrite fmap_cons in Hnd. apply NoDup_cons in Hnd as [Hni Hnd]. constructor; [by apply IH|].
  rewrite Forall_forall in Ha |- *. intros b Hb. pose proof (Ha b Hb) as Hba. unfold by_key in Hba.
  destruct (ltb_total (key a) (key b)) as [?|?]; [|done|congruence].
  intros Heq. apply Hni. rewrite Heq. apply list_elem_of_fmap. eauto.
Qed.

Section Laws.
Context `{!GoSort, !SortLaws}.

Lemma sort_increasing {A} (key : A -> string) l :
  NoDup (key <$> l) -> increasing key (sort_Sort (by_key key) l).
Proof.
  intros Hnd. apply sorted_increasing; [|apply sort_ordered, by_key_weak].
  by rewrite (fmap_Permutation key _ _ (sort_perm _ (by_key key) l)).
Qed.

Lemma elem_of_sort {A} (less : A -> A -> bool) l x : x ∈ sort_Sort less l <-> x ∈ l.
Proof. by rewrite sort_perm. Qed.
End Laws.

(** An implementation: insertion sort. *)
Fixpoint insert_by {A} (less : A -> A -> bool) (x : A) (l : list A) : list A :=
  match l with
  | [] => [x]
  | y :: l' => if less y x then y :: insert_by less x l' else x :: l
  end.

Definition insertion : GoSort := fun A less l => foldr (insert_by less) [] l.

Lemma insert_by_perm {A} (less : A -> A -> bool) x l : insert_by less x l ≡ₚ x :: l.
Proof.
  induction l as [|y l IH]; cbn; [done|]. destruct (less y x); [|done].
  rewrite IH. apply Permutation_swap.
Qed.

Lemma insert_by_sorted {A} (less : A -> A -> bool) x l :
  StrictWeak less -> StronglySorted (fun a b => less b a = false) l ->
  StronglySorted (fun a b => less b a = false) (insert_by less x l).
Proof.
  intros Hw. induction 1 as [|y l Hs IH Hy]; cbn; [by repeat constructor|].
  assert (less_neg : forall a b c, less b a = false -> less c b = false -> less c a = false).
  { intros a b c H1 H2. apply not_true_iff_false. intros H3.
    destruct (less_cotrans _ Hw c b a H3); congruence. }
  destruct (less y x) eqn:E; constructor; [done| | |].
  - rewrite insert_by_perm. constructor; [|done].
    apply not_true_iff_false. intros E'. pose proof (less_trans _ Hw _ _ _ E E').
    pose proof (less_irrefl _ Hw y). congruence.
  - by constructor.
  - constructor; [done|]. eapply Forall_impl; [exact Hy|]. intros z Hz. by eapply less_neg.
Qed.

#[export] Instance insertion_laws : @SortLaws insertion.
Proof.
  split.
  - intros A less l. unfold sort_Sort, insertion. induction l as [|x l IH]; cbn; [done|].
    by rewrite insert_by_perm, IH.
  - intros A less l Hw. unfold sort_Sort, insertion. induction l as [|x l IH]; cbn; [constructor|].
    by apply insert_by_sorted.
Qed.

(** ** [sort.Search]

    The loop halves [i, j) and takes [f] for monotone. Every turn shortens the
    interval, so its length is enough fuel. *)
Fixpoint search_loop (f : nat -> bool) (fuel i j : nat) : nat :=
  match fuel with
  | O => i
  | S fuel' =>
      if (i <? j)%nat then
        let h := Nat.div2 (i + j) in
        if f h then search_loop f fuel' i h else search_loop f fuel' (S h) j
      else i
  end.

Definition Search (n : nat) (f : nat -> bool) : nat := search_loop f n 0 n.

Lemma div2_between i j : (i < j)%nat -> (i <= Nat.div2 (i + j) < j)%nat.
Proof. rewrite Nat.div2_div. intros. pose proof (Nat.div_mod_eq (i + j) 2). pose proof (Nat.mod_upper_bound (i + j) 2). lia. Qed.

Lemma search_loop_spec f fuel i j n : (j <= n)%nat -> (j - i <= fuel)%nat -> (i <= j)%nat ->
  (forall a b, (a <= b < n)%nat -> f a = true -> f b = true) ->
  (forall a, (a < i)%nat -> f a = false) -> ((j < n)%nat -> f j = true) ->
  let k := search_loop f fuel i j in
  (k <= n)%nat /\ (forall a, (a < k)%nat -> f a = false) /\ ((k < n)%nat -> f k = true).
Proof.
  intros Hjn. revert i j Hjn. induction fuel as [|fuel IH]; intros i j Hjn Hf Hij Hmono Hlo Hhi; cbn [search_loop].
  - assert (i = j) as -> by lia. split; [done|]. by split.
  - destruct (Nat.ltb_spec i j) as [Hlt|Hge]; [|assert (i = j) as -> by lia; split; [done|]; by split].
    pose proof (div2_between i j Hlt). set (h := Nat.div2 (i + j)) in *. destruct (f h) eqn:E.
    + apply IH; [lia|lia|lia|done|done|]. by intros _.
    + apply IH; [lia|lia|lia|done| |done]. intros a Ha. destruct (f a) eqn:Ea; [|done].
      rewrite (Hmono a h) in E; [done|lia|done].
Qed.

(** The first index where a monotone predicate holds, or [n]. *)
Lemma Search_spec n f : (forall a b, (a <= b < n)%nat -> f a = true -> f b = true) ->
  (Search n f <= n)%nat /\ (forall a, (a < Search n f)%nat -> f a = false) /\
  ((Search n f < n)%nat -> f (Search n f) = true).
Proof. intros Hm. apply search_loop_spec; [lia..|done|lia|lia]. Qed.
