(* ===== verification/GoFloat.v ===== *)
(** * Go's [float64] and [float32]

    Double precision arithmetic as the Standard Library's IEEE-754 functions
    with 53 bits of mantissa, the conversions from and to [int64], and what the
    scores of the scheduler need from them: integers below 2^53 are exact, so
    are their products below 2^53, and the integer part of a quotient of such
    integers is the integer quotient as long as the rounding cannot reach the
    next integer ([int_quotient]). *)

From S2P Require Import Prelude.
From Stdlib Require Import SpecFloat.

Definition float64 (z : Z) : spec_float := binary_normalize 53 1024 z 0 false.
Definition f64_mul : spec_float -> spec_float -> spec_float := SFmul 53 1024.
Definition f64_div : spec_float -> spec_float -> spec_float := SFdiv 53 1024.

Definition f64_add : spec_float -> spec_float -> spec_float := SFadd 53 1024.
Definition f64_sub : spec_float -> spec_float -> spec_float := SFsub 53 1024.
Definition f64_sqrt : spec_float -> spec_float := SFsqrt 53 1024.

(** Single precision: a conversion and a division, each rounded to the nearest. *)
Definition float32 (z : Z) : spec_float := binary_normalize 24 128 z 0 false.
Definition f32_div : spec_float -> spec_float -> spec_float := SFdiv 24 128.

(** The integer part. *)
Definition trunc (f : spec_float) : option Z :=
  match f with
  | S754_zero _ => Some 0
  | S754_finite s m e =>
      let v := if 0 <=? e then Zpos m * 2 ^ e else Zpos m / 2 ^ (- e) in
      Some (if s then - v else v)
  | _ => None
  end.

(** [int64(f)]: a value out of range gives what the processor gives, here the
    argument [other]. *)
Definition to_int64 (other : spec_float -> Z) (f : spec_float) : Z :=
  match trunc f with
  | Some v => if bool_decide (in_int64 v) then v else other f
  | None => other f
  end.

(** ** Shifting and rounding

    A record of the Standard Library's rounding: [N / u] lies where the bits
    say, [u] being the unit of the mantissa. *)
Definition near (N u : Z) (t : shr_record) : Prop :=
  let m := shr_m t in
  match shr_r t, shr_s t with
  | false, false => N = m * u
  | false, true => m * u < N /\ 2 * N < (2 * m + 1) * u
  | true, false => 2 * N = (2 * m + 1) * u
  | true, true => (2 * m + 1) * u < 2 * N /\ N < (m + 1) * u
  end.

Lemma near_shr_1 N u t : 0 < u -> 0 <= shr_m t -> near N u t ->
  near N (2 * u) (shr_1 t) /\ 0 <= shr_m (shr_1 t).
Proof.
  destruct t as [m r s]. unfold near. cbn. intros Hu Hm.
  destruct m as [|[p|p|]|p]; [| | | |lia]; destruct r, s; cbn; intros H; lia.
Qed.

Lemma pow_xO p : 2 ^ Zpos p~0 = 2 ^ Zpos p * 2 ^ Zpos p.
Proof. rewrite <- Z.pow_add_r by lia. f_equal. lia. Qed.

Lemma pow_xI p : 2 ^ Zpos p~1 = 2 * 2 ^ Zpos p * 2 ^ Zpos p.
Proof. rewrite <- Z.mul_assoc, <- pow_xO, <- Z.pow_succ_r by lia. f_equal. Qed.

Lemma near_iter N p u t : 0 < u -> 0 <= shr_m t -> near N u t ->
  near N (u * 2 ^ Zpos p) (iter_pos shr_1 p t) /\ 0 <= shr_m (iter_pos shr_1 p t).
Proof.
  revert u t. induction p as [p IH|p IH|]; intros u t Hu Hm Hn; cbn [iter_pos].
  - destruct (near_shr_1 N u t) as [H1 H2]; [done..|].
    destruct (IH (2 * u) (shr_1 t)) as [H3 H4]; [lia|done..|].
    assert (0 < 2 ^ Zpos p) by (apply Z.pow_pos_nonneg; lia).
    destruct (IH (2 * u * 2 ^ Zpos p) _ ltac:(lia) H4 H3) as [H5 H6]. split; [|done].
    rewrite pow_xI. by replace (u * (2 * 2 ^ Zpos p * 2 ^ Zpos p)) with (2 * u * 2 ^ Zpos p * 2 ^ Zpos p) by lia.
  - destruct (IH u t) as [H3 H4]; [done..|].
    assert (0 < 2 ^ Zpos p) by (apply Z.pow_pos_nonneg; lia).
    destruct (IH (u * 2 ^ Zpos p) _ ltac:(lia) H4 H3) as [H5 H6]. split; [|done].
    by rewrite pow_xO, Z.mul_assoc.
  - replace (u * 2 ^ 1) with (2 * u) by lia. by apply near_shr_1.
Qed.

Lemma near_shr N u t e n : 0 < u -> 0 <= shr_m t -> near N u t ->
  exists t', shr t e n = (t', e + Z.max 0 n) /\ near N (u * 2 ^ Z.max 0 n) t' /\ 0 <= shr_m t'.
Proof.
  intros Hu Hm Hn. destruct n as [|p|p]; cbn [shr].
  - exists t. rewrite Z.add_0_r, Z.mul_1_r. done.
  - eexists. split; [done|]. by apply near_iter.
  - exists t. cbn. rewrite Z.add_0_r, Z.mul_1_r. done.
Qed.

Lemma near_of_loc N u m l :
  near N u (shr_record_of_loc m l) <->
  match l with
  | loc_Exact => N = m * u
  | loc_Inexact Lt => m * u < N /\ 2 * N < (2 * m + 1) * u
  | loc_Inexact Eq => 2 * N = (2 * m + 1) * u
  | loc_Inexact Gt => (2 * m + 1) * u < 2 * N /\ N < (m + 1) * u
  end.
Proof. by destruct l as [|[]]. Qed.

(** The rounded mantissa is on the same side as [N / u] of every integer. *)
Definition faithful (N u q : Z) : Prop := forall k, (N <= k * u -> q <= k) /\ (k * u <= N -> k <= q).

Lemma near_round N u t : 0 < u -> 0 <= shr_m t -> near N u t ->
  let q := round_nearest_even (shr_m t) (loc_of_shr_record t) in
  faithful N u q /\ shr_m t <= q <= shr_m t + 1.
Proof.
  destruct t as [m r s]. intros Hu Hm Hn. cbn [shr_m] in *. unfold near in Hn. cbn in Hn.
  destruct r, s; cbn [loc_of_shr_record round_nearest_even];
    [| destruct (Z.even m) | |]; (split; [intros k; split; intros Hk|lia]); nia.
Qed.

(** ** Digits *)

Lemma digits_pos_bound p : 2 ^ (Zpos (digits2_pos p) - 1) <= Zpos p < 2 ^ Zpos (digits2_pos p).
Proof.
  induction p as [p IH|p IH|]; cbn [digits2_pos]; [| |done];
    rewrite Pos2Z.inj_succ; replace (Z.succ (Zpos (digits2_pos p)) - 1)
      with (Z.succ (Zpos (digits2_pos p) - 1)) by lia;
    rewrite !Z.pow_succ_r by lia; lia.
Qed.

Lemma digits_bound m : 0 < m -> 0 < Zdigits2 m /\ 2 ^ (Zdigits2 m - 1) <= m < 2 ^ Zdigits2 m.
Proof. destruct m as [|p|p]; [lia| |lia]. intros _. split; [done|apply digits_pos_bound]. Qed.

Lemma digits_lt m k : 0 < m -> 0 <= k -> m < 2 ^ k -> Zdigits2 m <= k.
Proof.
  intros Hm Hk Hlt. destruct (digits_bound m Hm) as (Hd & Hge & _).
  assert (2 ^ (Zdigits2 m - 1) < 2 ^ k) as H%Z.pow_lt_mono_r_iff by lia; lia.
Qed.

Lemma digits_ge m k : 0 < m -> 0 <= k -> 2 ^ k <= m -> k < Zdigits2 m.
Proof.
  intros Hm Hk Hle. destruct (digits_bound m Hm) as (Hd & _ & Hlt).
  assert (2 ^ k < 2 ^ Zdigits2 m) as H%Z.pow_lt_mono_r_iff by lia; lia.
Qed.

Lemma digits_mul_pow m k : 0 < m -> 0 <= k -> Zdigits2 (m * 2 ^ k) = Zdigits2 m + k.
Proof.
  intros Hm Hk. destruct (digits_bound m Hm) as (Hd & Hge & Hlt).
  assert (0 < 2 ^ k) by (apply Z.pow_pos_nonneg; lia).
  assert (Zdigits2 (m * 2 ^ k) <= Zdigits2 m + k).
  { apply digits_lt; [nia|lia|]. rewrite Z.pow_add_r by lia. nia. }
  assert (Zdigits2 m - 1 + k < Zdigits2 (m * 2 ^ k)).
  { apply digits_ge; [nia|lia|]. rewrite Z.pow_add_r by lia. nia. }
  lia.
Qed.

(** ** The rounding of a positive value [N / u * 2 ^ e] *)

(** A float with mantissa [q] and exponent [e], up to normalisation of the
    mantissa. *)
Definition is_scaled (f : spec_float) (q e : Z) : Prop :=
  (q = 0 /\ f = S754_zero false) \/
  (exists m, f = S754_finite false m e /\ q = Zpos m) \/
  (f = S754_finite false 4503599627370496 (e + 1) /\ q = 2 ^ 53).

Lemma shr_exact q e n : 0 <= q -> n <= 0 ->
  shr (shr_record_of_loc q loc_Exact) e n = ({| shr_m := q; shr_r := false; shr_s := false |}, e).
Proof. intros Hq Hn. destruct n; [|lia|]; cbn; f_equal; lia. Qed.

Lemma fexp_low x : -1021 <= x -> fexp 53 1024 x = x - 53.
Proof. unfold fexp, emin. lia. Qed.

(** The exponent the rounding settles on. *)
Definition round_exp (m e : Z) : Z := Z.max e (fexp 53 1024 (Zdigits2 m + e)).

Lemma Zdigits2_nonneg m : 0 <= Zdigits2 m.
Proof. destruct m; cbn; lia. Qed.

Lemma round_bound N u m l e : 0 < u -> 0 <= m -> near N u (shr_record_of_loc m l) ->
  N < 2 ^ 53 * (u * 2 ^ (round_exp m e - e)).
Proof.
  intros Hu Hm Hn. set (n := round_exp m e - e).
  assert (0 <= n) by (unfold n, round_exp; lia).
  assert (N < (m + 1) * u) as HN by (apply near_of_loc in Hn; destruct l as [|[]]; lia).
  assert (m + 1 <= 2 ^ (53 + n)).
  { destruct (decide (m = 0)) as [->|?].
    - pose proof (Z.pow_le_mono_r 2 0 (53 + n)). lia.
    - destruct (digits_bound m) as (_ & _ & Hd); [lia|].
      pose proof (Z.pow_le_mono_r 2 (Zdigits2 m) (53 + n)).
      unfold n, round_exp, fexp, emin in *. lia. }
  replace (2 ^ 53 * (u * 2 ^ n)) with (2 ^ (53 + n) * u) by (rewrite Z.pow_add_r by lia; lia).
  nia.
Qed.

(** The float with sign [s], mantissa [q] up to 2^53 and exponent [e], or an
    infinity when [e] is too large. *)
Definition finish (s : bool) (q e : Z) : spec_float :=
  match q with
  | Zpos p =>
      if q =? 2 ^ 53
      then if e + 1 <=? 971 then S754_finite s 4503599627370496 (e + 1) else S754_infinity s
      else if e <=? 971 then S754_finite s p e else S754_infinity s
  | _ => S754_zero s
  end.

Lemma round_aux_gen s N u m l e : 0 < u -> 0 <= m -> near N u (shr_record_of_loc m l) ->
  exists q, binary_round_aux 53 1024 s m e l = finish s q (round_exp m e) /\
    faithful N (u * 2 ^ (round_exp m e - e)) q /\ 0 <= q <= 2 ^ 53.
Proof.
  intros Hu Hm Hn. pose proof (round_bound N u m l e Hu Hm Hn) as HN.
  assert (0 < u * 2 ^ (round_exp m e - e)) as Hu'.
  { assert (0 < 2 ^ (round_exp m e - e)); [apply Z.pow_pos_nonneg; unfold round_exp; lia|nia]. }
  unfold binary_round_aux, shr_fexp.
  destruct (near_shr N u (shr_record_of_loc m l) e (fexp 53 1024 (Zdigits2 m + e) - e))
    as (t & -> & Ht & Hmt); [done|by destruct l as [|[]]|done|].
  replace (e + Z.max 0 (fexp 53 1024 (Zdigits2 m + e) - e)) with (round_exp m e)
    by (unfold round_exp; lia).
  replace (Z.max 0 (fexp 53 1024 (Zdigits2 m + e) - e)) with (round_exp m e - e) in Ht
    by (unfold round_exp; lia).
  destruct (near_round _ _ t Hu' Hmt Ht) as [Hf Hq].
  set (q := round_nearest_even (shr_m t) (loc_of_shr_record t)) in *.
  set (e' := round_exp m e) in *.
  assert (q <= 2 ^ 53) by (apply (Hf (2 ^ 53)); lia).
  assert (-1074 <= e') by (unfold e', round_exp, fexp, emin; lia).
  exists q. split; [|split; [done|lia]]. destruct (decide (q = 2 ^ 53)) as [->|Hlt].
  - replace (fexp 53 1024 (Zdigits2 (2 ^ 53) + e') - e') with 1
      by (change (Zdigits2 (2 ^ 53)) with 54; unfold fexp, emin; lia).
    cbn. done.
  - assert (fexp 53 1024 (Zdigits2 q + e') - e' <= 0).
    { destruct (decide (q = 0)) as [->|?].
      - change (Zdigits2 0) with 0. unfold fexp, emin. lia.
      - pose proof (digits_lt q 53). unfold fexp, emin. lia. }
    rewrite shr_exact by lia. cbn [shr_m]. unfold finish. destruct q as [|p|p]; [done| |lia].
    by rewrite (proj2 (Z.eqb_neq (Zpos p) (2 ^ 53))) by done.
Qed.

Lemma round_aux_spec N u m l e : 0 < u -> 0 <= m -> near N u (shr_record_of_loc m l) ->
  round_exp m e <= 900 ->
  exists q, is_scaled (binary_round_aux 53 1024 false m e l) q (round_exp m e) /\
    faithful N (u * 2 ^ (round_exp m e - e)) q.
Proof.
  intros Hu Hm Hn Hmax. destruct (round_aux_gen false N u m l e) as (q & -> & Hf & Hq); [done..|].
  exists q. split; [|done]. unfold finish, is_scaled. destruct q as [|p|p]; [by left| |lia].
  destruct (Z.eqb_spec (Zpos p) (2 ^ 53)) as [->|?].
  - rewrite (proj2 (Z.leb_le _ _)) by lia. by right; right.
  - rewrite (proj2 (Z.leb_le _ _)) by lia. right; left. by exists p.
Qed.

(** ** Integers and their quotients *)

(** [f] is the positive integer [a]. *)
Definition is_int (f : spec_float) (a : Z) : Prop :=
  exists m e, f = S754_finite false m e /\ -53 <= e <= 0 /\ Zpos m = a * 2 ^ (- e).

Lemma trunc_scaled f q e : is_scaled f q e -> -900 <= e < 0 -> 0 <= q -> trunc f = Some (q / 2 ^ (- e)).
Proof.
  intros [[-> ->]|[(m & -> & ->)|[-> ->]]] He Hq; unfold trunc.
  - by rewrite Zdiv_0_l.
  - by rewrite (proj2 (Z.leb_gt 0 e)) by lia.
  - destruct (Z.leb_spec 0 (e + 1)).
    + by assert (e = -1) as -> by lia.
    + f_equal. replace (- e) with (Z.succ (- (e + 1))) by lia. rewrite Z.pow_succ_r by lia.
      change (2 ^ 53) with (2 * 4503599627370496).
      rewrite Z.div_mul_cancel_l; [done| |lia]. apply Z.pow_nonzero; lia.
Qed.

(** An exact integer keeps its value. *)
Lemma round_int a m e : 0 < a < 2 ^ 53 -> -106 <= e <= 0 -> m = a * 2 ^ (- e) ->
  is_int (binary_round_aux 53 1024 false m e loc_Exact) a.
Proof.
  intros Ha He ->. set (d := Zdigits2 a).
  pose proof (digits_lt a 53 ltac:(lia) ltac:(lia) ltac:(lia)) as Hd.
  destruct (digits_bound a) as (Hd0 & _ & Had); [lia|]. fold d in Hd, Hd0, Had.
  assert (0 < a * 2 ^ (- e)) by (pose proof (Z.pow_pos_nonneg 2 (- e)); nia).
  assert (round_exp (a * 2 ^ (- e)) e = Z.max e (d - 53)) as Hre.
  { unfold round_exp. rewrite digits_mul_pow, fexp_low by (fold d; lia). fold d. lia. }
  destruct (round_aux_spec (a * 2 ^ (- e)) 1 (a * 2 ^ (- e)) loc_Exact e) as (q & Hs & Hf);
    [lia|lia|apply near_of_loc; lia|lia|].
  rewrite Hre in Hs, Hf. set (e' := Z.max e (d - 53)) in *.
  assert (q = a * 2 ^ (- e')) as Hq.
  { assert (a * 2 ^ (- e) = a * 2 ^ (- e') * (1 * 2 ^ (e' - e))) as Heq.
    { rewrite Z.mul_1_l, <- Z.mul_assoc, <- Z.pow_add_r by lia. f_equal. f_equal. lia. }
    destruct (Hf (a * 2 ^ (- e'))). lia. }
  assert (q < 2 ^ 53).
  { assert (2 ^ d * 2 ^ (- e') <= 2 ^ 53).
    { rewrite <- Z.pow_add_r by lia. apply Z.pow_le_mono_r; lia. }
    pose proof (Z.pow_pos_nonneg 2 (- e')). nia. }
  assert (0 < q) by (pose proof (Z.pow_pos_nonneg 2 (- e')); nia).
  destruct Hs as [[? _]|[(m & -> & Hm)|[_ ?]]]; [lia| |lia].
  exists m, e'. split; [done|]. split; [lia|]. by rewrite <- Hm.
Qed.

Lemma float64_int a : 0 < a < 2 ^ 53 -> is_int (float64 a) a.
Proof.
  intros Ha. destruct a as [|p|p]; [lia| |lia]. unfold float64, binary_normalize, binary_round.
  pose proof (digits_lt (Zpos p) 53 ltac:(lia) ltac:(lia) ltac:(lia)) as Hd.
  destruct (digits_bound (Zpos p)) as [Hd0 _]; [done|].
  change (Zpos (digits2_pos p)) with (Zdigits2 (Zpos p)). set (d := Zdigits2 (Zpos p)) in *.
  rewrite fexp_low by lia.
  assert (exists mz, shl_align p 0 (d + 0 - 53) = (mz, d - 53) /\ Zpos mz = Zpos p * 2 ^ (53 - d))
    as (mz & -> & Hmz).
  { unfold shl_align. replace (d + 0 - 53 - 0) with (- (53 - d)) by lia.
    destruct (53 - d) as [|k|k] eqn:Ek; cbn [Z.opp]; [| |lia].
    - exists p. split; [f_equal; lia|lia].
    - eexists. split; [f_equal; lia|].
      clear. induction k as [|k IH] using Pos.peano_ind; [cbn; lia|].
      rewrite Pos.iter_succ, Pos2Z.inj_succ, Z.pow_succ_r by lia.
      rewrite (Pos2Z.inj_xO (Pos.iter xO p k)). lia. }
  apply round_int; [done|lia|]. rewrite Hmz. f_equal. f_equal. lia.
Qed.

Lemma mul_int f g a b : is_int f a -> is_int g b -> 0 < a * b < 2 ^ 53 -> is_int (f64_mul f g) (a * b).
Proof.
  intros (mf & ef & -> & Hef & Hmf) (mg & eg & -> & Heg & Hmg) Hab.
  unfold f64_mul, SFmul. apply round_int; [done|lia|].
  rewrite Pos2Z.inj_mul, Hmf, Hmg, Z.opp_add_distr, Z.pow_add_r by lia. lia.
Qed.

Lemma is_int_digits m e a : -53 <= e <= 0 -> Zpos m = a * 2 ^ (- e) -> 0 < a /\ Zdigits2 (Zpos m) + e = Zdigits2 a.
Proof.
  intros He Hm. pose proof (Z.pow_pos_nonneg 2 (- e)). assert (0 < a) by nia.
  split; [done|]. rewrite Hm, digits_mul_pow by lia. lia.
Qed.

(** The remainder of a division as a location. *)
Lemma new_location_near N m2 : 0 < m2 -> near N m2 (shr_record_of_loc (N / m2) (new_location m2 (N mod m2))).
Proof.
  intros Hm. pose proof (Z.div_mod N m2). pose proof (Z.mod_pos_bound N m2 Hm).
  set (q := N / m2) in *. set (r := N mod m2) in *. apply near_of_loc.
  assert (N = m2 * q + r) as HN by lia. clearbody q r. subst N.
  unfold new_location, new_location_even, new_location_odd.
  destruct (Z.even m2) eqn:Ev; destruct (Z.eqb_spec r 0) as [Hr|Hr]; try lia.
  - destruct (Z.compare_spec (2 * r) m2); lia.
  - assert (m2 <> 2 * r).
    { intros Heq. rewrite Heq, Z.even_mul in Ev. done. }
    destruct (Z.compare_spec (2 * r + 1) m2); lia.
Qed.

Lemma faithful_scale N u q c : 0 < c -> faithful (N * c) (u * c) q -> faithful N u q.
Proof. intros Hc Hf k. destruct (Hf k) as [H1 H2]. split; intros; [apply H1|apply H2]; nia. Qed.

Lemma digits_quotient a b k : 0 < a -> 0 < b -> 0 <= k -> a < 2 ^ k * b -> Zdigits2 a - Zdigits2 b <= k.
Proof.
  intros Ha Hb Hk Hlt. destruct (digits_bound b Hb) as (Hd & _ & Hlb).
  assert (Zdigits2 a <= k + Zdigits2 b); [|lia].
  apply digits_lt; [done|lia|]. rewrite Z.pow_add_r by lia.
  pose proof (Z.pow_pos_nonneg 2 k). nia.
Qed.

(** The exponent a quotient below [2 ^ k] settles on. *)
Lemma quotient_exp a b k e1 : 0 < a -> 0 < b -> 0 <= k <= 53 -> a < 2 ^ k * b -> -900 <= e1 <= k - 53 ->
  e1 <= round_exp (a * 2 ^ (- e1) / b) e1 <= k - 53.
Proof.
  intros Ha Hb Hk Hlt He. unfold round_exp. split; [lia|]. apply Z.max_lub; [lia|].
  set (q := a * 2 ^ (- e1) / b).
  assert (0 <= q) by (apply Z.div_pos; [pose proof (Z.pow_pos_nonneg 2 (- e1)); nia|done]).
  assert (Zdigits2 q + e1 <= k); [|unfold fexp, emin; lia].
  destruct (decide (q = 0)) as [->|?]; [change (Zdigits2 0) with 0; lia|].
  assert (Zdigits2 q <= k - e1); [|lia]. apply digits_lt; [lia|lia|].
  replace (k - e1) with (k + - e1) by lia. rewrite Z.pow_add_r by lia.
  apply Z.div_lt_upper_bound; [done|]. pose proof (Z.pow_pos_nonneg 2 (- e1)). nia.
Qed.

(** The quotient of two integers: a mantissa [q] that is on the same side as
    [a / b] of every value with exponent [e]. *)
Lemma div_spec f g a b k : is_int f a -> is_int g b -> 0 <= k <= 53 -> b < 2 ^ 53 -> a < 2 ^ k * b ->
  exists q e, is_scaled (f64_div f g) q e /\ -900 <= e <= k - 53 /\ faithful (a * 2 ^ (- e)) b q.
Proof.
  intros (mf & ef & -> & Hef & Hmf) (mg & eg & -> & Heg & Hmg) Hk Hb53 Hlt.
  destruct (is_int_digits _ _ _ Hef Hmf) as [Ha Hda].
  destruct (is_int_digits _ _ _ Heg Hmg) as [Hb Hdb].
  unfold f64_div, SFdiv, SFdiv_core_binary. rewrite Hda, Hdb. cbn [xorb].
  set (fe := fexp 53 1024 (Zdigits2 a - Zdigits2 b)). set (e1 := Z.min fe (ef - eg)).
  assert (-900 <= e1 <= k - 53) as He1.
  { pose proof (digits_quotient a b k). pose proof (digits_lt b 53). destruct (digits_bound a Ha).
    unfold e1, fe, fexp, emin. lia. }
  assert (0 < 2 ^ (- eg)) by (apply Z.pow_pos_nonneg; lia).
  set (m := match ef - eg - e1 with Z0 => Zpos mf | Zpos _ => Z.shiftl (Zpos mf) (ef - eg - e1)
            | Zneg _ => 0 end).
  assert (m = a * 2 ^ (- e1) * 2 ^ (- eg)) as ->.
  { transitivity (Zpos mf * 2 ^ (ef - eg - e1)).
    - unfold m. assert (0 <= ef - eg - e1) by lia. destruct (ef - eg - e1) eqn:E; [lia| |lia].
      by rewrite Z.shiftl_mul_pow2.
    - rewrite Hmf, <- !Z.mul_assoc, <- !Z.pow_add_r by lia. f_equal. f_equal. lia. }
  pose proof (quotient_exp a b k e1 Ha Hb Hk Hlt He1) as Hre.
  set (N := a * 2 ^ (- e1) * 2 ^ (- eg)).
  pose proof (new_location_near N (Zpos mg) ltac:(lia)) as Hn.
  replace (Z.div_eucl N (Zpos mg)) with (N / Zpos mg, N mod Zpos mg)
    by (unfold Z.div, Z.modulo; by destruct (Z.div_eucl N (Zpos mg))).
  assert (N / Zpos mg = a * 2 ^ (- e1) / b) as Hq by (unfold N; rewrite Hmg; apply Z.div_mul_cancel_r; lia).
  rewrite <- Hq in Hre. set (e := round_exp (N / Zpos mg) e1) in *.
  destruct (round_aux_spec N (Zpos mg) (N / Zpos mg) (new_location (Zpos mg) (N mod Zpos mg)) e1)
    as (q & Hs & Hf); [lia|apply Z.div_pos; [unfold N|]; nia|done|fold e; lia|].
  fold e in Hs, Hf. exists q, e. split; [done|]. split; [lia|].
  apply (faithful_scale _ _ _ (2 ^ (- eg) * 2 ^ (e - e1))).
  { apply Z.mul_pos_pos; [done|apply Z.pow_pos_nonneg; lia]. }
  replace (a * 2 ^ (- e) * (2 ^ (- eg) * 2 ^ (e - e1))) with N.
  - by replace (b * (2 ^ (- eg) * 2 ^ (e - e1))) with (Zpos mg * 2 ^ (e - e1)) by (rewrite Hmg; lia).
  - unfold N. replace (- e1) with (- e + (e - e1)) by lia. rewrite Z.pow_add_r by lia. lia.
Qed.

(** The integer part of a rounded quotient: the integer quotient, when the
    divisor is too small for a rounding up to the next integer. *)
Lemma int_quotient f g a b k : is_int f a -> is_int g b -> 0 < k < 53 -> b <= 2 ^ (53 - k) ->
  a < 2 ^ k * b -> trunc (f64_div f g) = Some (a / b).
Proof.
  intros Hf Hg Hk Hb Hlt.
  assert (0 < a /\ 0 < b) as [Ha Hb0].
  { destruct Hf as (? & ? & _ & ? & Hm), Hg as (? & ? & _ & ? & Hm').
    by destruct (is_int_digits _ _ _ H Hm), (is_int_digits _ _ _ H0 Hm'). }
  assert (b < 2 ^ 53) as Hb53 by (pose proof (Z.pow_lt_mono_r 2 (53 - k) 53); lia).
  destruct (div_spec f g a b k) as (q & e & Hs & He & Hq); [done|done|lia|done|done|].
  assert (0 <= q) by (apply (Hq 0); pose proof (Z.pow_pos_nonneg 2 (- e)); nia).
  rewrite (trunc_scaled _ _ _ Hs) by lia. f_equal.
  set (i := a / b). set (P := 2 ^ (- e)) in *. set (R := 2 ^ (- e - (53 - k))).
  assert (P = 2 ^ (53 - k) * R) as HP by (unfold P, R; rewrite <- Z.pow_add_r by lia; f_equal; lia).
  assert (0 < R) by (apply Z.pow_pos_nonneg; lia). assert (0 < P) by (apply Z.pow_pos_nonneg; lia).
  assert (b * i <= a < b * i + b) as Hi.
  { pose proof (Z.div_mod a b). pose proof (Z.mod_pos_bound a b). unfold i. lia. }
  assert (i * P <= q) by (apply (Hq (i * P)); nia).
  assert (q <= (i + 1) * P - R).
  { apply (Hq ((i + 1) * P - R)).
    assert (R * b <= P) by (rewrite HP; nia). nia. }
  symmetry. apply (Z.div_unique _ _ _ (q - P * i)); lia.
Qed.

(** The same for a zero numerator, and as the conversion to [int64]. *)
Lemma int64_quotient other a b c k : 0 <= a -> 0 < c < 2 ^ 53 -> a * c < 2 ^ 53 -> 0 < b -> 0 < k < 53 ->
  b <= 2 ^ (53 - k) -> a * c < 2 ^ k * b ->
  to_int64 other (f64_div (f64_mul (float64 c) (float64 a)) (float64 b)) = a * c / b.
Proof.
  intros Ha Hc Hac Hb Hk Hbk Hlt. unfold to_int64.
  assert (b < 2 ^ 53) as Hb53 by (pose proof (Z.pow_lt_mono_r 2 (53 - k) 53); lia).
  destruct (decide (a = 0)) as [->|?].
  - destruct (float64_int c) as (m & e & -> & _); [done|].
    destruct (float64_int b) as (m' & e' & -> & _); [lia|]. done.
  - rewrite (int_quotient _ _ (c * a) b k); [|apply mul_int; [apply float64_int; nia..|lia]|apply float64_int; lia|done|done|lia].
    rewrite bool_decide_true; [f_equal; lia|].
    assert (0 <= c * a / b) by (apply Z.div_pos; nia).
    assert (c * a / b <= c * a) by (apply Z.div_le_upper_bound; nia).
    unfold in_int64. lia.
Qed.
