(* ===== verification/GoMath.v ===== *)
(** * Go's [math]: [Max], [Min], [Round], and ranges of float64 computations

    The functions of the package [math] the load-aware plugins use, and what
    rounding keeps: a value between two integers below 2^53 is between them
    after rounding ([between]), so scores computed in floating point stay within
    integer bounds. [valid] floats are the canonical ones, which every operation
    returns and on which comparing floats compares their values. *)

From S2P Require Import Prelude.
From S2P Require Import GoFloat.
From Stdlib Require Import SpecFloat.

(** [math.IsInf(x, 1)], [math.IsInf(x, -1)], [math.IsNaN]. *)
Definition IsPosInf (x : spec_float) : bool := match x with S754_infinity false => true | _ => false end.
Definition IsNegInf (x : spec_float) : bool := match x with S754_infinity true => true | _ => false end.
Definition IsNaN (x : spec_float) : bool := match x with S754_nan => true | _ => false end.
Definition IsZero (x : spec_float) : bool := match x with S754_zero _ => true | _ => false end.
Definition Signbit (x : spec_float) : bool :=
  match x with S754_zero s | S754_infinity s | S754_finite s _ _ => s | S754_nan => false end.

Definition Max (x y : spec_float) : spec_float :=
  if IsPosInf x || IsPosInf y then S754_infinity false
  else if IsNaN x || IsNaN y then S754_nan
  else if IsZero x && IsZero y then if Signbit x then y else x
  else if SFltb y x then x else y.

Definition Min (x y : spec_float) : spec_float :=
  if IsNegInf x || IsNegInf y then S754_infinity true
  else if IsNaN x || IsNaN y then S754_nan
  else if IsZero x && IsZero y then if Signbit x then x else y
  else if SFltb x y then x else y.

(** [math.Round]: half away from zero. *)
Definition Round (x : spec_float) : spec_float :=
  match x with
  | S754_finite s m e =>
      if 0 <=? e then x
      else
        let v := (2 * Zpos m + 2 ^ (- e)) / (2 * 2 ^ (- e)) in
        binary_normalize 53 1024 (if s then - v else v) 0 s
  | _ => x
  end.

(** ** Canonical floats *)

Definition valid (x : spec_float) : Prop := valid_binary 53 1024 x = true.

Lemma valid_finite s m e : valid (S754_finite s m e) <->
  -1074 <= e <= 971 /\ Zpos m < 2 ^ 53 /\ (e = -1074 \/ 2 ^ 52 <= Zpos m).
Proof.
  unfold valid, valid_binary, bounded, canonical_mantissa. rewrite andb_true_iff, Z.eqb_eq, Z.leb_le.
  change (Zpos (digits2_pos m)) with (Zdigits2 (Zpos m)).
  destruct (digits_bound (Zpos m)) as (Hd & Hlo & Hhi); [lia|]. set (d := Zdigits2 (Zpos m)) in *.
  unfold fexp, emin. split.
  - intros [He Hemax]. assert (d <= 53) as Hd53 by lia.
    pose proof (Z.pow_le_mono_r 2 d 53). split; [lia|]. split; [lia|].
    destruct (decide (d = 53)) as [Hd'|?]; [right; rewrite Hd' in Hlo; lia|left; lia].
  - intros (He & Hm & Hor). pose proof (digits_lt (Zpos m) 53 ltac:(lia) ltac:(lia) Hm) as Hd53. fold d in Hd53.
    destruct Hor as [->|Hge]; [lia|]. pose proof (digits_ge (Zpos m) 52 ltac:(lia) ltac:(lia) Hge) as Hge'. fold d in Hge'. lia.
Qed.

Create HintDb float.

Lemma near_exists m l : exists N u, 0 < u /\ near N u (shr_record_of_loc m l).
Proof.
  destruct l as [|[]].
  - exists m, 1. split; [lia|]. apply near_of_loc. lia.
  - exists (4 * m + 2), 4. split; [lia|]. apply near_of_loc. lia.
  - exists (4 * m + 1), 4. split; [lia|]. apply near_of_loc. lia.
  - exists (4 * m + 3), 4. split; [lia|]. apply near_of_loc. lia.
Qed.

Lemma near_low N u m l : 0 < u -> near N u (shr_record_of_loc m l) -> m * u <= N.
Proof. intros Hu Hn%near_of_loc. destruct l as [|[]]; lia. Qed.

(** Rounding a mantissa with enough digits gives a canonical float, never NaN. *)
Lemma round_valid s m e l : 0 <= m -> e <= fexp 53 1024 (Zdigits2 m + e) ->
  valid (binary_round_aux 53 1024 s m e l) /\ IsNaN (binary_round_aux 53 1024 s m e l) = false.
Proof.
  intros Hm He. destruct (near_exists m l) as (N & u & Hu & Hn).
  destruct (round_aux_gen s N u m l e) as (q & -> & Hf & Hq); [done..|]. set (e' := round_exp m e) in *.
  assert (e' = fexp 53 1024 (Zdigits2 m + e)) as He' by (unfold e', round_exp; lia).
  unfold finish. destruct q as [|p|p]; [done| |lia].
  destruct (Z.eqb_spec (Zpos p) (2 ^ 53)) as [Hp|Hp].
  - destruct (Z.leb_spec (e' + 1) 971); [|done]. split; [|done]. apply valid_finite.
    unfold fexp, emin in He'. lia.
  - destruct (Z.leb_spec e' 971); [|done]. split; [|done]. apply valid_finite.
    split; [unfold fexp, emin in He'; lia|]. split; [lia|].
    destruct (decide (e' = -1074)) as [?|Hne]; [by left|right].
    assert (e' = Zdigits2 m + e - 53) as Hed by (unfold fexp, emin in He'; lia).
    destruct (decide (m = 0)) as [->|Hm0]; [change (Zdigits2 0) with 0 in *; unfold fexp, emin in *; lia|].
    destruct (digits_bound m) as (Hd & Hlo & _); [lia|].
    apply (Hf (2 ^ 52)). transitivity (m * u); [|by eapply near_low].
    assert (2 ^ 52 * 2 ^ (e' - e) = 2 ^ (Zdigits2 m - 1)) as Heq.
    { rewrite <- Z.pow_add_r by (unfold fexp, emin in *; lia). f_equal. lia. }
    rewrite Z.mul_assoc, (Z.mul_comm (2 ^ 52) u), <- Z.mul_assoc, Heq. nia.
Qed.

(** ** Shifting left *)

Lemma shl_align_spec m e e' : exists m' e2, shl_align m e e' = (m', e2) /\
  e2 = Z.min e e' /\ Zpos m' = Zpos m * 2 ^ (e - e2).
Proof.
  unfold shl_align. destruct (e' - e) as [|k|k] eqn:Ek.
  - exists m, e. split; [done|]. split; [lia|]. rewrite Z.sub_diag. lia.
  - exists m, e. split; [done|]. split; [lia|]. rewrite Z.sub_diag. lia.
  - eexists _, e'. split; [done|]. split; [lia|]. replace (e - e') with (Zpos k) by lia. clear.
    induction k as [|k IH] using Pos.peano_ind; [cbn; lia|].
    rewrite Pos.iter_succ, Pos2Z.inj_succ, Z.pow_succ_r by lia. rewrite Pos2Z.inj_xO. lia.
Qed.

(** [binary_round]: a mantissa with the same value and enough digits. *)
Lemma binary_round_eq s m e : exists m' e', binary_round 53 1024 s m e = binary_round_aux 53 1024 s (Zpos m') e' loc_Exact /\
  e' <= e /\ Zpos m' = Zpos m * 2 ^ (e - e') /\ e' <= fexp 53 1024 (Zdigits2 (Zpos m') + e').
Proof.
  unfold binary_round. change (Zpos (digits2_pos m)) with (Zdigits2 (Zpos m)).
  destruct (shl_align_spec m e (fexp 53 1024 (Zdigits2 (Zpos m) + e))) as (m' & e' & -> & He' & Hm').
  exists m', e'. split; [done|]. split; [lia|]. split; [done|].
  assert (Zdigits2 (Zpos m') + e' = Zdigits2 (Zpos m) + e) as ->; [|lia].
  rewrite Hm', digits_mul_pow by lia. lia.
Qed.

Lemma normalize_valid m e s : valid (binary_normalize 53 1024 m e s) /\
  IsNaN (binary_normalize 53 1024 m e s) = false.
Proof.
  destruct m as [|p|p]; [done|..]; cbn [binary_normalize];
    [destruct (binary_round_eq false p e) as (m' & e' & -> & _ & _ & H)
    |destruct (binary_round_eq true p e) as (m' & e' & -> & _ & _ & H)]; by apply round_valid.
Qed.

(** ** Operations return canonical floats *)

Lemma digits_mul a b : 0 < a -> 0 < b -> Zdigits2 a + Zdigits2 b - 1 <= Zdigits2 (a * b).
Proof.
  intros Ha Hb. destruct (digits_bound a Ha) as (Ha1 & Ha2 & _), (digits_bound b Hb) as (Hb1 & Hb2 & _).
  assert (Zdigits2 a + Zdigits2 b - 2 < Zdigits2 (a * b)); [|lia].
  apply digits_ge; [nia|lia|]. replace (Zdigits2 a + Zdigits2 b - 2) with ((Zdigits2 a - 1) + (Zdigits2 b - 1)) by lia.
  rewrite Z.pow_add_r by lia. nia.
Qed.

Lemma valid_digits s m e : valid (S754_finite s m e) -> -1074 <= e /\ (e = -1074 \/ Zdigits2 (Zpos m) = 53).
Proof.
  intros (He & Hm & Hor)%valid_finite. split; [lia|]. destruct Hor as [?|Hge]; [by left|right].
  pose proof (digits_lt (Zpos m) 53 ltac:(lia) ltac:(lia) Hm).
  pose proof (digits_ge (Zpos m) 52 ltac:(lia) ltac:(lia) Hge). lia.
Qed.

Lemma valid_mul x y : valid x -> valid y -> valid (f64_mul x y).
Proof.
  destruct x as [|[]| |s1 m1 e1], y as [|[]| |s2 m2 e2]; try done. intros H1 H2.
  unfold f64_mul, SFmul. apply round_valid; [lia|].
  apply valid_digits in H1 as (He1 & Ho1), H2 as (He2 & Ho2).
  pose proof (digits_mul (Zpos m1) (Zpos m2)) as Hd. rewrite <- Pos2Z.inj_mul in Hd.
  destruct (digits_bound (Zpos m1)), (digits_bound (Zpos m2)); [lia..|]. unfold fexp, emin. lia.
Qed.

Lemma valid_add x y : valid x -> valid y -> valid (f64_add x y).
Proof. destruct x as [[]|[]| |s1 m1 e1], y as [[]|[]| |s2 m2 e2]; try done. intros _ _. apply normalize_valid. Qed.

Lemma valid_opp s m e : valid (S754_finite s m e) -> valid (S754_finite (negb s) m e).
Proof. by rewrite !valid_finite. Qed.

Lemma valid_sub x y : valid x -> valid y -> valid (f64_sub x y).
Proof.
  destruct x as [[]|[]| |s1 m1 e1], y as [[]|[]| |s2 m2 e2]; try done; intros H1 H2;
    try (by apply valid_opp); apply normalize_valid.
Qed.

(** The quotient before rounding. *)
Definition quot_exp (m1 e1 m2 e2 : Z) : Z :=
  Z.min (fexp 53 1024 (Zdigits2 m1 + e1 - (Zdigits2 m2 + e2))) (e1 - e2).

Lemma div_core m1 e1 m2 e2 :
  let e' := quot_exp m1 e1 m2 e2 in
  let N := m1 * 2 ^ (e1 - e2 - e') in
  SFdiv_core_binary 53 1024 m1 e1 m2 e2 = (N / m2, e', new_location m2 (N mod m2)).
Proof.
  cbn zeta. unfold SFdiv_core_binary. fold (quot_exp m1 e1 m2 e2). set (e' := quot_exp m1 e1 m2 e2).
  assert (0 <= e1 - e2 - e') by (unfold e', quot_exp; lia).
  set (s := e1 - e2 - e') in *. assert (match s with Z0 => m1 | Zpos _ => Z.shiftl m1 s | Zneg _ => 0 end = m1 * 2 ^ s) as ->.
  { destruct s as [|k|k]; [lia| |lia]. by rewrite Z.shiftl_mul_pow2. }
  unfold Z.div, Z.modulo. by destruct (Z.div_eucl (m1 * 2 ^ s) m2).
Qed.

Lemma quot_digits m1 e1 m2 e2 : 0 < m1 -> 0 < m2 ->
  let e' := quot_exp m1 e1 m2 e2 in
  let q := m1 * 2 ^ (e1 - e2 - e') / m2 in
  0 <= q /\ e' <= fexp 53 1024 (Zdigits2 q + e').
Proof.
  intros H1 H2 e' q. assert (0 <= e1 - e2 - e') by (unfold e', quot_exp; lia).
  set (s := e1 - e2 - e') in *. pose proof (Z.pow_pos_nonneg 2 s ltac:(lia) ltac:(lia)).
  split; [apply Z.div_pos; nia|].
  destruct (digits_bound m1 H1) as (Hd1 & Hl1 & _), (digits_bound m2 H2) as (Hd2 & _ & Hh2).
  assert (Zdigits2 m1 + s - Zdigits2 m2 <= Zdigits2 q) as Hq.
  { set (k := Zdigits2 m1 + s - Zdigits2 m2). destruct (decide (k <= 0)); [pose proof (Zdigits2_nonneg q); lia|].
    assert (2 ^ (k - 1) <= q) as Hge.
    { apply Z.div_le_lower_bound; [lia|].
      assert (2 ^ Zdigits2 m2 * 2 ^ (k - 1) = 2 ^ (Zdigits2 m1 - 1) * 2 ^ s) as Heq.
      { rewrite <- !Z.pow_add_r by lia. f_equal. lia. }
      pose proof (Z.pow_pos_nonneg 2 (k - 1) ltac:(lia) ltac:(lia)). nia. }
    pose proof (Z.pow_pos_nonneg 2 (k - 1) ltac:(lia) ltac:(lia)).
    pose proof (digits_ge q (k - 1) ltac:(lia) ltac:(lia) Hge). lia. }
  unfold e' at 1, quot_exp. transitivity (fexp 53 1024 (Zdigits2 m1 + e1 - (Zdigits2 m2 + e2))); [lia|].
  unfold fexp, emin. lia.
Qed.

Lemma valid_div x y : valid x -> valid y -> valid (f64_div x y).
Proof.
  destruct x as [[]|[]| |s1 m1 e1], y as [[]|[]| |s2 m2 e2]; try done. intros _ _.
  unfold f64_div, SFdiv. rewrite div_core. apply round_valid; by apply quot_digits.
Qed.

Lemma valid_float64 z : valid (float64 z).
Proof. apply normalize_valid. Qed.

#[export] Hint Resolve valid_mul valid_add valid_sub valid_div valid_float64 : float.

(** ** Which results are numbers *)

(** Finite or zero. *)
Definition finite (x : spec_float) : bool :=
  match x with S754_finite _ _ _ | S754_zero _ => true | _ => false end.

(** Neither NaN nor negative. *)
Definition nonneg (x : spec_float) : bool :=
  match x with S754_zero _ | S754_finite false _ _ | S754_infinity false => true | _ => false end.

(** A positive number. *)
Definition positive (x : spec_float) : bool :=
  match x with S754_finite false _ _ => true | _ => false end.

Lemma nonneg_number x : nonneg x = true -> IsNaN x = false.
Proof. by destruct x. Qed.

Lemma round_nan s m e l : 0 <= m -> IsNaN (binary_round_aux 53 1024 s m e l) = false.
Proof.
  intros Hm. destruct (near_exists m l) as (N & u & Hu & Hn).
  destruct (round_aux_gen s N u m l e) as (q & -> & _ & _); [done..|]. unfold finish. by repeat case_match.
Qed.

Lemma round_nonneg m e l : 0 <= m -> nonneg (binary_round_aux 53 1024 false m e l) = true.
Proof.
  intros Hm. destruct (near_exists m l) as (N & u & Hu & Hn).
  destruct (round_aux_gen false N u m l e) as (q & -> & _ & _); [done..|]. unfold finish. by repeat case_match.
Qed.

Lemma normalize_nonneg m e : 0 <= m -> nonneg (binary_normalize 53 1024 m e false) = true.
Proof.
  destruct m as [|p|p]; [done| |lia]. intros _. cbn [binary_normalize].
  destruct (binary_round_eq false p e) as (m' & e' & -> & _). by apply round_nonneg.
Qed.

Lemma number_mul x y : IsNaN x = false -> positive y = true -> IsNaN (f64_mul x y) = false.
Proof. destruct x as [|[]| |s1 m1 e1], y as [|[]| |[] m2 e2]; try done. intros _ _. by apply round_nan. Qed.

Lemma finite_mul_number x y : finite x = true -> finite y = true -> IsNaN (f64_mul x y) = false.
Proof. destruct x as [|[]| |s1 m1 e1], y as [|[]| |[] m2 e2]; try done; intros _ _; by apply round_nan. Qed.

Lemma number_div x y : IsNaN x = false -> positive y = true -> IsNaN (f64_div x y) = false.
Proof.
  destruct x as [|[]| |s1 m1 e1], y as [|[]| |[] m2 e2]; try done. intros _ _.
  unfold f64_div, SFdiv. rewrite div_core. apply round_nan. by apply quot_digits.
Qed.

Lemma number_add x y : IsNaN x = false -> finite y = true -> IsNaN (f64_add x y) = false.
Proof. destruct x as [[]|[]| |s1 m1 e1], y as [[]|[]| |s2 m2 e2]; try done. intros _ _. apply normalize_valid. Qed.

Lemma nonneg_mul x y : nonneg x = true -> positive y = true -> nonneg (f64_mul x y) = true.
Proof. destruct x as [|[]| |[] m1 e1], y as [|[]| |[] m2 e2]; try done. intros _ _. by apply round_nonneg. Qed.

Lemma nonneg_div x y : nonneg x = true -> positive y = true -> nonneg (f64_div x y) = true.
Proof.
  destruct x as [|[]| |[] m1 e1], y as [|[]| |[] m2 e2]; try done. intros _ _.
  unfold f64_div, SFdiv. rewrite div_core. apply round_nonneg. by apply quot_digits.
Qed.

Lemma nonneg_add x y : nonneg x = true -> nonneg y = true -> nonneg (f64_add x y) = true.
Proof. destruct x as [[]|[]| |[] m1 e1], y as [[]|[]| |[] m2 e2]; try done. intros _ _. by apply normalize_nonneg. Qed.

Lemma nonneg_float64 z : 0 <= z -> nonneg (float64 z) = true.
Proof. apply normalize_nonneg. Qed.

Lemma positive_float64 z : 0 < z < 2 ^ 53 -> positive (float64 z) = true.
Proof. intros Hz. by destruct (float64_int z Hz) as (m & e & -> & _). Qed.

(** ** Values between integers *)

(** A float whose value is in [lo, hi], for integers below 2^53. *)
Definition between (lo hi : Z) (x : spec_float) : Prop :=
  match x with
  | S754_zero _ => lo <= 0 <= hi
  | S754_finite false m e => e <= 0 /\ lo * 2 ^ (- e) <= Zpos m <= hi * 2 ^ (- e)
  | _ => False
  end.

Lemma pow2_pos e : e <= 0 -> 0 < 2 ^ (- e).
Proof. intros. apply Z.pow_pos_nonneg; lia. Qed.

Lemma pow2_split e e' : e' <= e -> e <= 0 -> 2 ^ (- e') = 2 ^ (- e) * 2 ^ (e - e').
Proof. intros. rewrite <- Z.pow_add_r by lia. f_equal. lia. Qed.

Lemma between_weaken lo hi lo' hi' x : between lo hi x -> lo' <= lo -> hi <= hi' -> between lo' hi' x.
Proof.
  unfold between. destruct x as [| | |[] m e]; try done; [lia|]. intros (He & H1 & H2) Hl Hh.
  pose proof (pow2_pos e He). split; [done|]. nia.
Qed.

Lemma between_nonneg lo hi x : between lo hi x -> nonneg x = true.
Proof. by destruct x as [| | |[] m e]. Qed.

Lemma between_number lo hi x : between lo hi x -> IsNaN x = false.
Proof. by destruct x as [| | |[] m e]. Qed.

Lemma between_finite lo hi x : between lo hi x -> finite x = true.
Proof. by destruct x as [| | |[] m e]. Qed.

(** Rounding a value in a range. *)
Lemma round_between lo hi N u m e l : 0 < u -> 0 <= m -> near N u (shr_record_of_loc m l) ->
  e <= 0 -> 0 <= hi < 2 ^ 53 -> lo * 2 ^ (- e) * u <= N <= hi * 2 ^ (- e) * u ->
  between lo hi (binary_round_aux 53 1024 false m e l).
Proof.
  intros Hu Hm Hn He Hhi HN. pose proof (pow2_pos e He) as Hp.
  destruct (round_aux_gen false N u m l e Hu Hm Hn) as (q & -> & Hf & Hq).
  assert (round_exp m e <= 0) as He'.
  { unfold round_exp. apply Z.max_lub; [done|]. assert (Zdigits2 m + e <= 53); [|unfold fexp, emin; lia].
    destruct (decide (m = 0)) as [->|Hm0]; [change (Zdigits2 0) with 0; lia|].
    assert (Zdigits2 m <= 53 - e); [|lia]. apply digits_lt; [lia|lia|].
    pose proof (near_low N u m l Hu Hn). replace (53 - e) with (53 + - e) by lia.
    rewrite Z.pow_add_r by lia. assert (m <= hi * 2 ^ (- e)) by (apply (Z.mul_le_mono_pos_r _ _ u); lia). nia. }
  assert (e <= round_exp m e) as Hee by (unfold round_exp; lia). set (e' := round_exp m e) in *.
  pose proof (pow2_pos e' He') as Hp'. rewrite (pow2_split e' e Hee He') in HN.
  assert (lo * 2 ^ (- e') <= q) as H1 by (apply (Hf (lo * 2 ^ (- e'))); lia).
  assert (q <= hi * 2 ^ (- e')) as H2 by (apply (Hf (hi * 2 ^ (- e'))); lia).
  unfold finish, between. destruct q as [|p|p]; [nia| |lia].
  destruct (Z.eqb_spec (Zpos p) (2 ^ 53)) as [Hpe|Hpe].
  - assert (e' <= -1) as Hlt.
    { destruct (decide (e' = 0)) as [H0|?]; [|lia]. rewrite H0 in H2. change (2 ^ (- 0)) with 1 in H2. lia. }
    rewrite (proj2 (Z.leb_le _ _)) by lia. split; [lia|].
    rewrite (pow2_split (e' + 1) e') in H1, H2 by lia. replace (e' + 1 - e') with 1 in H1, H2 by lia.
    rewrite Z.pow_1_r in H1, H2. change (2 ^ 53) with (4503599627370496 * 2) in Hpe. lia.
  - rewrite (proj2 (Z.leb_le _ _)) by lia. done.
Qed.

Lemma near_refl m : near m 1 (shr_record_of_loc m loc_Exact).
Proof. apply near_of_loc. lia. Qed.

Lemma normalize_between lo hi m e : e <= 0 -> 0 <= hi < 2 ^ 53 -> 0 <= m ->
  lo * 2 ^ (- e) <= m <= hi * 2 ^ (- e) -> between lo hi (binary_normalize 53 1024 m e false).
Proof.
  intros He Hhi Hm Hr. pose proof (pow2_pos e He). destruct m as [|p|p]; [cbn; nia| |lia].
  cbn [binary_normalize]. destruct (binary_round_eq false p e) as (m' & e' & -> & He' & Hm' & _).
  apply (round_between lo hi (Zpos m') 1); [lia|lia|apply near_refl|lia|done|].
  rewrite (pow2_split e e') by lia. pose proof (Z.pow_pos_nonneg 2 (e - e')). nia.
Qed.

Lemma between_float64 z lo hi : 0 <= lo <= z -> z <= hi < 2 ^ 53 -> between lo hi (float64 z).
Proof. intros. apply normalize_between; cbn; lia. Qed.

(** Two mantissas at a common exponent. *)
Lemma shl_fst m e e' : e' <= e -> Zpos (fst (shl_align m e e')) = Zpos m * 2 ^ (e - e').
Proof.
  intros He. destruct (shl_align_spec m e e') as (m' & e2 & -> & He2 & Hm'). cbn.
  by replace e2 with e' in Hm' by lia.
Qed.

Lemma aligned lo hi m e e' : e' <= e -> e <= 0 -> lo * 2 ^ (- e) <= Zpos m <= hi * 2 ^ (- e) ->
  lo * 2 ^ (- e') <= Zpos (fst (shl_align m e e')) <= hi * 2 ^ (- e').
Proof.
  intros He H0 Hr. rewrite shl_fst, (pow2_split e e') by done.
  pose proof (Z.pow_pos_nonneg 2 (e - e')). nia.
Qed.

Lemma between_add a b c d x y : 0 <= a -> 0 <= c -> b + d < 2 ^ 53 ->
  between a b x -> between c d y -> between (a + c) (b + d) (f64_add x y).
Proof.
  intros Ha Hc Hbd Hx Hy. unfold f64_add, SFadd.
  destruct x as [sx| | |[] m1 e1], y as [sy| | |[] m2 e2]; try done.
  - cbn in Hx, Hy. destruct sx, sy; cbn; lia.
  - cbn in Hx. eapply between_weaken; [exact Hy|lia..].
  - cbn in Hy. eapply between_weaken; [exact Hx|lia..].
  - destruct Hx as [He1 Hx], Hy as [He2 Hy]. set (ez := Z.min e1 e2).
    pose proof (aligned a b m1 e1 ez ltac:(lia) He1 Hx). pose proof (aligned c d m2 e2 ez ltac:(lia) He2 Hy).
    pose proof (pow2_pos ez ltac:(lia)). cbn [cond_Zopp]. apply normalize_between; [lia|nia|lia|nia].
Qed.

Lemma between_sub a b c d x y : 0 <= c -> d <= a -> b < 2 ^ 53 ->
  between a b x -> between c d y -> between (a - d) (b - c) (f64_sub x y).
Proof.
  intros Hc Hda Hb Hx Hy. unfold f64_sub, SFsub.
  destruct x as [sx| | |[] m1 e1], y as [sy| | |[] m2 e2]; try done.
  - cbn in Hx, Hy. destruct sx, sy; cbn; lia.
  - cbn in Hx. destruct Hy as [He2 Hy]. pose proof (pow2_pos e2 He2). nia.
  - cbn in Hy. eapply between_weaken; [exact Hx|lia..].
  - destruct Hx as [He1 Hx], Hy as [He2 Hy]. set (ez := Z.min e1 e2).
    pose proof (aligned a b m1 e1 ez ltac:(lia) He1 Hx). pose proof (aligned c d m2 e2 ez ltac:(lia) He2 Hy).
    pose proof (pow2_pos ez ltac:(lia)). cbn [cond_Zopp]. apply normalize_between; [lia|nia|nia|nia].
Qed.

Lemma between_mul a b c d x y : 0 <= a -> 0 <= c -> b * d < 2 ^ 53 ->
  between a b x -> between c d y -> between (a * c) (b * d) (f64_mul x y).
Proof.
  intros Ha Hc Hbd Hx Hy. unfold f64_mul, SFmul.
  destruct x as [sx| | |[] m1 e1], y as [sy| | |[] m2 e2]; try done.
  - cbn in Hx, Hy |- *. nia.
  - destruct Hy as [He2 Hy]. pose proof (pow2_pos e2 He2). cbn in Hx |- *. nia.
  - destruct Hx as [He1 Hx]. pose proof (pow2_pos e1 He1). cbn in Hy |- *. nia.
  - destruct Hx as [He1 Hx], Hy as [He2 Hy]. pose proof (pow2_pos e1 He1). pose proof (pow2_pos e2 He2).
    assert (0 < b) by nia. assert (0 < d) by nia. cbn [xorb].
    apply (round_between _ _ (Zpos (m1 * m2)) 1); [lia|lia|apply near_refl|lia|nia|].
    rewrite Pos2Z.inj_mul, !Z.mul_1_r, Z.opp_add_distr, Z.pow_add_r by lia.
    split.
    + replace (a * c * (2 ^ (- e1) * 2 ^ (- e2))) with ((a * 2 ^ (- e1)) * (c * 2 ^ (- e2))) by ring.
      apply Z.mul_le_mono_nonneg; nia.
    + replace (b * d * (2 ^ (- e1) * 2 ^ (- e2))) with ((b * 2 ^ (- e1)) * (d * 2 ^ (- e2))) by ring.
      apply Z.mul_le_mono_nonneg; lia.
Qed.

(** A quotient: [x] is between [lo] and [hi] times [y]. *)
Lemma div_between lo hi m1 e1 m2 e2 : e1 <= 0 -> e2 <= 0 -> 0 <= hi < 2 ^ 53 ->
  lo * (Zpos m2 * 2 ^ (- e1)) <= Zpos m1 * 2 ^ (- e2) <= hi * (Zpos m2 * 2 ^ (- e1)) ->
  between lo hi (f64_div (S754_finite false m1 e1) (S754_finite false m2 e2)).
Proof.
  intros He1 He2 Hhi Hr. unfold f64_div, SFdiv. rewrite div_core. cbn [xorb].
  set (e' := quot_exp (Zpos m1) e1 (Zpos m2) e2). set (N := Zpos m1 * 2 ^ (e1 - e2 - e')).
  assert (0 <= e1 - e2 - e') by (unfold e', quot_exp; lia).
  pose proof (pow2_pos e1 He1) as P1. pose proof (pow2_pos e2 He2) as P2.
  assert (e' <= 0) as He'.
  { destruct (digits_bound (Zpos m1)) as (Hd1 & Hl1 & _); [lia|]. destruct (digits_bound (Zpos m2)) as (Hd2 & _ & Hh2); [lia|].
    unfold e', quot_exp. transitivity (fexp 53 1024 (Zdigits2 (Zpos m1) + e1 - (Zdigits2 (Zpos m2) + e2))); [lia|].
    assert (Zdigits2 (Zpos m1) + e1 - (Zdigits2 (Zpos m2) + e2) < 54); [|unfold fexp, emin; lia].
    set (d1 := Zdigits2 (Zpos m1)) in *. set (d2 := Zdigits2 (Zpos m2)) in *.
    assert (2 ^ (d1 - 1 - e2) < 2 ^ (53 + d2 - e1)) as Hlt%Z.pow_lt_mono_r_iff; [|lia..].
    replace (d1 - 1 - e2) with ((d1 - 1) + - e2) by lia. replace (53 + d2 - e1) with (53 + d2 + - e1) by lia.
    rewrite !Z.pow_add_r by lia. pose proof (Z.pow_pos_nonneg 2 d2 ltac:(lia) ltac:(lia)).
    apply Z.le_lt_trans with (Zpos m1 * 2 ^ (- e2)); [nia|].
    apply Z.le_lt_trans with (hi * (Zpos m2 * 2 ^ (- e1))); [lia|].
    apply Z.le_lt_trans with (hi * (2 ^ d2 * 2 ^ (- e1))); nia. }
  apply (round_between lo hi N (Zpos m2)); [lia|apply Z.div_pos; unfold N; nia|by apply new_location_near|done|done|].
  assert (N * 2 ^ (- e1) = Zpos m1 * 2 ^ (- e2) * 2 ^ (- e')) as HN.
  { unfold N. rewrite <- !Z.mul_assoc, <- !Z.pow_add_r by lia. f_equal. f_equal. lia. }
  pose proof (pow2_pos e' He') as P'. split; nia.
Qed.

Lemma between_div a b lo hi c x : 0 < c < 2 ^ 53 -> 0 <= hi < 2 ^ 53 -> lo * c <= a -> b <= hi * c ->
  between a b x -> between lo hi (f64_div x (float64 c)).
Proof.
  intros Hc Hhi Ha Hb Hx. destruct (float64_int c Hc) as (m2 & e2 & -> & He2 & Hm2).
  destruct x as [s| | |[] m1 e1]; try done; cbn in Hx.
  - unfold f64_div, SFdiv, between. nia.
  - destruct Hx as [He1 Hx]. apply div_between; [done|lia|done|]. rewrite Hm2.
    pose proof (pow2_pos e1 He1). pose proof (pow2_pos e2 ltac:(lia)).
    replace (lo * (c * 2 ^ (- e2) * 2 ^ (- e1))) with (lo * c * 2 ^ (- e1) * 2 ^ (- e2)) by ring.
    replace (hi * (c * 2 ^ (- e2) * 2 ^ (- e1))) with (hi * c * 2 ^ (- e1) * 2 ^ (- e2)) by ring.
    split; apply Z.mul_le_mono_nonneg_r; nia.
Qed.

Lemma int_ratio a b : 0 <= a <= b -> 0 < b < 2 ^ 53 -> between 0 1 (f64_div (float64 a) (float64 b)).
Proof. intros Ha Hb. apply (between_div a b); [done|lia|lia|lia|]. apply between_float64; lia. Qed.

(** ** Comparisons compare values *)

Lemma value_le s m1 e1 m2 e2 : valid (S754_finite s m1 e1) -> valid (S754_finite s m2 e2) ->
  e1 <= 0 -> e2 <= 0 -> e1 < e2 \/ (e1 = e2 /\ Zpos m1 <= Zpos m2) ->
  Zpos m1 * 2 ^ (- e2) <= Zpos m2 * 2 ^ (- e1).
Proof.
  intros (H1 & Hm1 & _)%valid_finite (H2 & Hm2 & Hor)%valid_finite He1 He2 [Hlt|[-> Hle]].
  - assert (2 ^ 52 <= Zpos m2) as Hge by lia. pose proof (pow2_pos e2 He2) as P.
    rewrite (pow2_split e2 e1) by lia.
    assert (2 <= 2 ^ (e2 - e1)) by (change 2 with (2 ^ 1) at 1; apply Z.pow_le_mono_r; lia).
    transitivity (2 * Zpos m2 * 2 ^ (- e2)); [apply Z.mul_le_mono_nonneg_r; lia|].
    rewrite (Z.mul_comm (2 ^ (- e2))), Z.mul_assoc. apply Z.mul_le_mono_nonneg_r; [lia|]. nia.
  - pose proof (pow2_pos e2 He2). nia.
Qed.

Lemma ltb_finite m1 e1 m2 e2 :
  SFltb (S754_finite false m1 e1) (S754_finite false m2 e2) = true <-> e1 < e2 \/ (e1 = e2 /\ Zpos m1 < Zpos m2).
Proof.
  unfold SFltb, SFcompare. destruct (Z.compare_spec e1 e2) as [He|He|He]; [|naive_solver lia|naive_solver lia].
  change (Pos.compare_cont Eq m1 m2) with (Pos.compare m1 m2).
  destruct (Pos.compare_spec m1 m2); split; intros H'; try done; try lia; right; lia.
Qed.

(** A float that is not above one in a range is below the range's upper end. *)
Lemma not_above x y a b : valid x -> valid y -> nonneg x = true -> between a b y -> 0 <= b ->
  SFltb y x = false -> between 0 b x.
Proof.
  intros Hx Hy Hn Hb Hb0 Hlt. destruct y as [s| | |[] m2 e2]; try done.
  - destruct x as [|[]| |[] m1 e1]; try done; cbn in Hb |- *; lia.
  - destruct x as [|[]| |[] m1 e1]; try done.
    destruct Hb as [He2 Hb]. assert (~ (e2 < e1 \/ (e2 = e1 /\ Zpos m2 < Zpos m1))) as Hc.
    { rewrite <- ltb_finite, Hlt. done. }
    assert (e1 <= 0) as He1 by lia. pose proof (value_le false m1 e1 m2 e2 Hx Hy He1 He2 ltac:(lia)).
    pose proof (pow2_pos e1 He1). pose proof (pow2_pos e2 He2). split; [done|]. split; [lia|].
    apply (Z.mul_le_mono_pos_r _ _ (2 ^ (- e2))); [done|]. nia.
Qed.

(** A float above one in a range is above the range's lower end. *)
Lemma above x y a b h : valid x -> valid y -> between 0 h x -> between a b y -> SFltb y x = true -> between a h x.
Proof.
  intros Hx Hy Hh Hb Hlt. destruct y as [s| | |[] m2 e2]; try done.
  - eapply between_weaken; [exact Hh|cbn in Hb; lia|done].
  - destruct x as [s|[]| |[] m1 e1]; try done.
    destruct Hb as [He2 Hb], Hh as [He1 Hh]. apply ltb_finite in Hlt.
    pose proof (value_le false m2 e2 m1 e1 Hy Hx He2 He1 ltac:(lia)).
    pose proof (pow2_pos e1 He1). pose proof (pow2_pos e2 He2). split; [done|]. split; [|lia].
    apply (Z.mul_le_mono_pos_r _ _ (2 ^ (- e2))); [done|]. nia.
Qed.

(** ** Clamping *)

(** [Max(Min(x, c), 0)], whatever number [x] is. *)
Definition clamp (x c : spec_float) : spec_float := Max (Min x c) (float64 0).

Lemma clamp_spec x c : valid x -> valid c -> IsNaN x = false -> positive c = true ->
  valid (clamp x c) /\ nonneg (clamp x c) = true /\ finite (clamp x c) = true /\
  SFltb c (clamp x c) = false.
Proof.
  intros Hx Hc Hn Hp. destruct c as [| | |[] mc ec]; try done.
  assert (SFltb (S754_finite false mc ec) (S754_finite false mc ec) = false) as Hirr.
  { apply not_true_iff_false. rewrite ltb_finite. lia. }
  destruct x as [[]|[]| |[] m e]; try done. unfold clamp, Min. cbn [IsNegInf IsNaN IsZero orb andb].
  destruct (SFltb (S754_finite false m e) (S754_finite false mc ec)) eqn:E; [|done].
  repeat split; [done..|]. cbn [IsPosInf IsNaN IsZero orb andb]. apply not_true_iff_false.
  apply ltb_finite in E. change (Max _ (float64 0)) with (S754_finite false m e). rewrite ltb_finite. lia.
Qed.

Lemma clamp_between x c h : valid x -> valid c -> IsNaN x = false -> positive c = true -> between 0 h c -> 0 <= h ->
  between 0 h (clamp x c).
Proof.
  intros Hx Hc Hn Hp Hb Hh. destruct (clamp_spec x c) as (H1 & H2 & _ & H3); [done..|].
  by apply (not_above _ c 0 h).
Qed.

Lemma between_one : between 0 1 (float64 1).
Proof. by apply between_float64. Qed.

Lemma clamp_unit x : valid x -> IsNaN x = false -> between 0 1 (clamp x (float64 1)).
Proof. intros Hx Hn. apply clamp_between; [done|apply valid_float64|done..|apply between_one|done]. Qed.

(** [Min(Max(x, 0), 1)]. *)
Lemma clamp_unit' x : valid x -> IsNaN x = false -> between 0 1 (Min (Max x (float64 0)) (float64 1)).
Proof.
  intros Hx Hn. destruct x as [[]|[]| |[] m e]; try done; try apply between_one.
  change (Max (S754_finite false m e) (float64 0)) with (S754_finite false m e).
  unfold Min. cbn [IsNegInf IsNaN IsZero orb andb].
  destruct (SFltb (S754_finite false m e) (float64 1)) eqn:E; [|apply between_one].
  apply (not_above _ (float64 1) 0 1); [done|apply valid_float64|done|apply between_one|done|].
  apply not_true_iff_false. intros E'. apply ltb_finite in E, E'. lia.
Qed.

Lemma between_Max lo hi x y : between lo hi x -> between lo hi y -> between lo hi (Max x y).
Proof.
  intros Hx Hy. unfold Max. destruct x as [| | |[] m e], y as [| | |[] m' e']; try done;
    cbn [IsPosInf IsNaN IsZero orb andb]; by case_match.
Qed.

Lemma between_Min lo hi x y : between lo hi x -> between lo hi y -> between lo hi (Min x y).
Proof.
  intros Hx Hy. unfold Min. destruct x as [| | |[] m e], y as [| | |[] m' e']; try done;
    cbn [IsNegInf IsNaN IsZero orb andb]; by case_match.
Qed.

Lemma valid_Max x y : valid x -> valid y -> valid (Max x y).
Proof. intros Hx Hy. unfold Max. by repeat case_match. Qed.

Lemma valid_Min x y : valid x -> valid y -> valid (Min x y).
Proof. intros Hx Hy. unfold Min. by repeat case_match. Qed.

#[export] Hint Resolve valid_Max valid_Min : float.

(** ** Rounding to an integer *)

Lemma trunc_float64 v : 0 <= v < 2 ^ 53 -> trunc (float64 v) = Some v.
Proof.
  intros Hv. destruct (decide (v = 0)) as [->|?]; [done|].
  destruct (float64_int v) as (m & e & -> & He & Hm); [lia|]. cbn [trunc]. f_equal.
  destruct (Z.leb_spec 0 e).
  - assert (e = 0) as -> by lia. rewrite Hm. change (2 ^ 0) with 1. change (2 ^ (- 0)) with 1. lia.
  - rewrite Hm. apply Z.div_mul. apply Z.pow_nonzero; lia.
Qed.

Lemma round_int64 other lo hi x : 0 <= lo -> hi < 2 ^ 53 -> between lo hi x ->
  lo <= to_int64 other (Round x) <= hi.
Proof.
  intros Hlo Hhi Hx. assert (exists v, trunc (Round x) = Some v /\ lo <= v <= hi) as (v & Hv & Hr).
  - destruct x as [s| | |[] m e]; try done; [by exists 0|]. destruct Hx as [He Hx]. unfold Round.
    pose proof (pow2_pos e He). destruct (Z.leb_spec 0 e) as [H0|H0].
    + assert (e = 0) as -> by lia. exists (Zpos m). cbn in Hx |- *. split; [f_equal; lia|lia].
    + set (v := (2 * Zpos m + 2 ^ (- e)) / (2 * 2 ^ (- e))).
      assert (lo <= v) by (apply Z.div_le_lower_bound; lia).
      assert (v <= hi). { assert (v < hi + 1); [|lia]. apply Z.div_lt_upper_bound; lia. }
      exists v. split; [|lia]. apply trunc_float64. lia.
  - unfold to_int64. rewrite Hv, bool_decide_true; [done|]. unfold in_int64. lia.
Qed.

Lemma nonneg_mul' x y : positive x = true -> nonneg y = true -> nonneg (f64_mul x y) = true.
Proof. destruct x as [|[]| |[] m1 e1], y as [|[]| |[] m2 e2]; try done. intros _ _. by apply round_nonneg. Qed.

Lemma between_cases lo hi x : between lo hi x -> IsZero x = true \/ positive x = true.
Proof. destruct x as [| | |[] m e]; try done; [by left|by right]. Qed.

(** The comparison that guards a division by zero. *)
Lemma not_le_zero x : nonneg x = true -> finite x = true -> SFleb x (float64 0) = false -> positive x = true.
Proof. by destruct x as [|[]| |[] m e]. Qed.
