(* ===== verification/GoStrings.v ===== *)
(** * Go's [strings] and [path]: what the plugins call to take paths apart

    [strings.Split] by one character, [strings.Contains], [strings.TrimSuffix]
    and [path.Ext], on strings of bytes. *)

From S2P Require Import Prelude.

(** [strings.Split(s, string(sep))]: never empty. *)
Fixpoint Split (sep : ascii) (s : string) : list string :=
  match s with
  | EmptyString => [""]
  | String c s' =>
      if Ascii.eqb c sep then "" :: Split sep s'
      else match Split sep s' with
           | [] => [String c ""]
           | w :: ws => String c w :: ws
           end
  end.

(** [strings.Contains(s, sub)]. *)
Fixpoint Contains (s sub : string) : bool :=
  String.prefix sub s || match s with EmptyString => false | String _ s' => Contains s' sub end.

(** [strings.HasSuffix] and [strings.TrimSuffix]. *)
Definition HasSuffix (s suffix : string) : bool :=
  (String.length suffix <=? String.length s)%nat &&
  bool_decide (String.substring (String.length s - String.length suffix) (String.length suffix) s = suffix).

Definition TrimSuffix (s suffix : string) : string :=
  if HasSuffix s suffix
  then String.substring 0 (String.length s - String.length suffix) s
  else s.

(** A character occurs in a string. *)
Fixpoint occurs (c : ascii) (s : string) : bool :=
  match s with
  | EmptyString => false
  | String d s' => Ascii.eqb d c || occurs c s'
  end.

(** [path.Ext]: from the last dot of the last element of the path on. *)
Fixpoint Ext (p : string) : string :=
  match p with
  | EmptyString => ""
  | String c p' =>
      match Ext p' with
      | EmptyString => if Ascii.eqb c "." && negb (occurs "/" p') then p else ""
      | e => e
      end
  end.

(** ** Lemmas *)

Lemma app_cons (c : ascii) s t : String c s +:+ t = String c (s +:+ t).
Proof. done. Qed.

Lemma app_nil (t : string) : "" +:+ t = t.
Proof. done. Qed.

Lemma Split_word sep w : occurs sep w = false -> Split sep w = [w].
Proof.
  induction w as [|c w IH]; [done|]. cbn. intros [Hc Hw]%orb_false_iff. by rewrite Hc, IH.
Qed.

Lemma Split_app sep w s : occurs sep w = false -> Split sep (w +:+ String sep s) = w :: Split sep s.
Proof.
  induction w as [|c w IH]; intros Hw.
  - rewrite app_nil. cbn. by rewrite Ascii.eqb_refl.
  - cbn in Hw. apply orb_false_iff in Hw as [Hc Hw]. rewrite app_cons. cbn. by rewrite Hc, IH.
Qed.

(** The last two parts, whatever comes before them. *)
Lemma Split_last_two sep s a b : occurs sep a = false -> occurs sep b = false ->
  exists w l, Split sep (s +:+ String sep (a +:+ String sep b)) = w :: l ++ [a; b].
Proof.
  intros Ha Hb. induction s as [|c s (w & l & IH)].
  - exists "", []. rewrite app_nil. cbn. by rewrite Ascii.eqb_refl, Split_app, Split_word.
  - rewrite app_cons. cbn. rewrite IH. destruct (Ascii.eqb c sep).
    + by exists "", (w :: l).
    + by exists (String c w), l.
Qed.

Lemma occurs_app c s t : occurs c (s +:+ t) = occurs c s || occurs c t.
Proof. induction s as [|d s IH]; [done|]. rewrite app_cons. cbn. by rewrite IH, orb_assoc. Qed.

Lemma Ext_no_dot s : occurs "." s = false -> Ext s = "".
Proof.
  induction s as [|c s IH]; [done|]. cbn. intros [Hc Hs]%orb_false_iff. by rewrite IH, Hc.
Qed.

(** A name and its extension. *)
Lemma Ext_app s e : occurs "." e = false -> occurs "/" e = false ->
  Ext (s +:+ String "." e) = String "." e.
Proof.
  intros He Hs. induction s as [|c s IH].
  - rewrite app_nil. cbn [Ext]. by rewrite (Ext_no_dot e He), Hs.
  - rewrite app_cons. cbn [Ext]. by rewrite IH.
Qed.

Lemma length_append s t : String.length (s +:+ t) = (String.length s + String.length t)%nat.
Proof. induction s as [|c s IH]; [done|]. rewrite app_cons. cbn. by rewrite IH. Qed.

Lemma substring_all t : String.substring 0 (String.length t) t = t.
Proof. induction t as [|c t IH]; [done|]. cbn. by rewrite IH. Qed.

Lemma substring_suffix s t : String.substring (String.length s) (String.length t) (s +:+ t) = t.
Proof. induction s as [|c s IH]; [apply substring_all|]. rewrite app_cons. exact IH. Qed.

Lemma substring_prefix s t : String.substring 0 (String.length s) (s +:+ t) = s.
Proof. induction s as [|c s IH]; [by destruct t|]. rewrite app_cons. cbn. by rewrite IH. Qed.

Lemma TrimSuffix_app s t : TrimSuffix (s +:+ t) t = s.
Proof.
  unfold TrimSuffix, HasSuffix. rewrite length_append.
  replace (String.length s + String.length t - String.length t)%nat with (String.length s) by lia.
  rewrite substring_suffix, substring_prefix, bool_decide_true by done.
  by rewrite (proj2 (Nat.leb_le _ _)) by lia.
Qed.
