(* ===== verification/KubeTypes.v ===== *)
(** * The Kubernetes objects the programs read

    The fields of [ObjectMeta], [Pod] and [Node] that some modelled function
    reads or writes, grouped the way [k8s.io/api/core/v1] groups them. A nil
    map and an empty one are both [∅]: no modelled function tells them apart.
    Timestamps are integers. A [resource.Quantity] is its exact value counted
    in units of 10^-9, the finest scale a quantity keeps. *)

From S2P Require Import Prelude.

Record OwnerReference := {
  owner_kind : string;
  owner_name : string;
  owner_uid : string;
  owner_controller : option bool;
}.

Record ObjectMeta := {
  meta_name : string;
  meta_namespace : string;
  meta_uid : string;
  meta_labels : gmap string string;
  meta_annotations : gmap string string;
  meta_owners : list OwnerReference;
  meta_deletion : option Z;
  meta_creation : Z;
  meta_resource_version : Z;
}.

Inductive PodPhase := PodPending | PodRunning | PodSucceeded | PodFailed | PodUnknown | PodPhaseUnset.

Abbreviation Quantity := Z.

(** [v1.ResourceList]. *)
Abbreviation ResourceList := (gmap string Quantity).

Record PodSpec := {
  spec_node_name : string;
  spec_priority : option Z;
  spec_preempt_never : bool;         (* PreemptionPolicy is set to Never *)
  spec_priority_class : string;
  spec_scheduler_name : string;
  spec_containers : list ResourceList;      (* Containers[i].Resources.Requests *)
  spec_init_containers : list ResourceList; (* InitContainers[i].Resources.Requests *)
  spec_overhead : option ResourceList;
}.

(** A condition of a pod's status. *)
Record PodCondition := { cond_type : string; cond_true : bool; cond_transition : Z }.

Record PodStatus := {
  pstatus_phase : PodPhase;
  pstatus_nominated : string;
  pstatus_start_time : option Z;
  pstatus_conditions : list PodCondition;
}.

Record Pod := {
  pod_meta : ObjectMeta;
  pod_spec : PodSpec;
  pod_status : PodStatus;
}.

Record Node := { node_meta : ObjectMeta; node_allocatable : ResourceList }.

#[export] Instance OwnerReference_eq_dec : EqDecision OwnerReference.
Proof. solve_decision. Defined.
#[export] Instance ObjectMeta_eq_dec : EqDecision ObjectMeta.
Proof. solve_decision. Defined.
#[export] Instance PodPhase_eq_dec : EqDecision PodPhase.
Proof. solve_decision. Defined.
#[export] Instance PodSpec_eq_dec : EqDecision PodSpec.
Proof. solve_decision. Defined.
#[export] Instance PodCondition_eq_dec : EqDecision PodCondition.
Proof. solve_decision. Defined.
#[export] Instance PodStatus_eq_dec : EqDecision PodStatus.
Proof. solve_decision. Defined.
#[export] Instance Pod_eq_dec : EqDecision Pod.
Proof. solve_decision. Defined.

Definition pod_name (p : Pod) : string := meta_name (pod_meta p).
Definition pod_namespace (p : Pod) : string := meta_namespace (pod_meta p).
Definition pod_uid (p : Pod) : string := meta_uid (pod_meta p).
Definition pod_annotations (p : Pod) : gmap string string := meta_annotations (pod_meta p).
Definition pod_node (p : Pod) : string := spec_node_name (pod_spec p).
Definition pod_phase (p : Pod) : PodPhase := pstatus_phase (pod_status p).
Definition pod_key (p : Pod) : string * string := (pod_namespace p, pod_name p).

(** The zero value of the metadata, and metadata with a name. *)
Definition meta_named (ns n uid : string) : ObjectMeta := {|
  meta_name := n; meta_namespace := ns; meta_uid := uid; meta_labels := ∅;
  meta_annotations := ∅; meta_owners := []; meta_deletion := None;
  meta_creation := 0; meta_resource_version := 0 |}.

(** Deleted, succeeded and failed pods hold no resources. *)
Definition pod_terminating (p : Pod) : bool := bool_decide (is_Some (meta_deletion (pod_meta p))).
Definition pod_finished (p : Pod) : bool :=
  bool_decide (pod_phase p = PodSucceeded) || bool_decide (pod_phase p = PodFailed).
