(* ===== verification/BandwidthTypes.v ===== *)
(** * The [Bandwidth] custom resource

    [bandwidth-operator/api/v1/bandwidth_types.go], which the scheduler plugins
    copy as [scheduler-plugins/apis/networking/v1/bandwidth_types.go], and the
    derived notions (request totals, accounted statuses) the theorems of both
    programs use. *)

From S2P Require Import Prelude.
From S2P Require Import KubeTypes.

Record BandwidthDefinition := { UlMbps : Z; DlMbps : Z }.

Record BandwidthRequest := {
  req_pod_name : string;
  req_namespace : string;
  req_pod_uid : string;
  req_link_local : bool;
  req_bandwidth : BandwidthDefinition;
}.

Record Capacity := { Local : BandwidthDefinition; Network : BandwidthDefinition }.

Record ReservationInfo := {
  res_pod_name : string;
  res_namespace : string;
  res_pod_uid : string;
  res_pod_ip : string;
  res_deployment_type : string;
  res_deployment_name : string;
  res_deployment_uid : string;
  res_bandwidth : Capacity;
}.

(** The enum of the CRD schema, and the empty string of an unset field. *)
Inductive Status := Created | Creating | Deleted | Deleting | Error | None_ | StatusUnset.

Inductive EventVaclabNodeBandwidth :=
| EventVaclabNodeBandwidthCreated
| EventVaclabNodeBandwidthCreating
| EventVaclabNodeBandwidthDeleted
| EventVaclabNodeBandwidthDeleting
| EventVaclabNodeBandwidthFailed.

Record BandwidthSpec := {
  bspec_node : string;
  bspec_capacity : Capacity;
  bspec_requests : list BandwidthRequest;
  bspec_status : Status;
}.

Record BandwidthStatus := {
  bstat_status : Status;
  bstat_error_reason : string;
  bstat_used : Capacity;
  bstat_remaining : Capacity;
  bstat_reservations : list ReservationInfo;
  bstat_capacity : Capacity;
  bstat_updated_at : Z;
}.

Record Bandwidth := {
  bw_meta : ObjectMeta;
  bw_spec : BandwidthSpec;
  bw_status : BandwidthStatus;
}.

#[export] Instance BandwidthDefinition_eq_dec : EqDecision BandwidthDefinition.
Proof. solve_decision. Defined.
#[export] Instance Capacity_eq_dec : EqDecision Capacity.
Proof. solve_decision. Defined.
#[export] Instance BandwidthRequest_eq_dec : EqDecision BandwidthRequest.
Proof. solve_decision. Defined.
#[export] Instance ReservationInfo_eq_dec : EqDecision ReservationInfo.
Proof. solve_decision. Defined.
#[export] Instance Status_eq_dec : EqDecision Status.
Proof. solve_decision. Defined.
#[export] Instance BandwidthSpec_eq_dec : EqDecision BandwidthSpec.
Proof. solve_decision. Defined.
#[export] Instance BandwidthStatus_eq_dec : EqDecision BandwidthStatus.
Proof. solve_decision. Defined.
#[export] Instance Bandwidth_eq_dec : EqDecision Bandwidth.
Proof. solve_decision. Defined.

Definition bw_name (b : Bandwidth) : string := meta_name (bw_meta b).
Definition bw_version (b : Bandwidth) : Z := meta_resource_version (bw_meta b).
Definition bw_requests (b : Bandwidth) : list BandwidthRequest := bspec_requests (bw_spec b).
Definition bw_capacity (b : Bandwidth) : Capacity := bspec_capacity (bw_spec b).
Definition bw_remaining (b : Bandwidth) : Capacity := bstat_remaining (bw_status b).

(** Zero values of the Go structs. *)
Definition zero_bd : BandwidthDefinition := {| UlMbps := 0; DlMbps := 0 |}.
Definition zero_capacity : Capacity := {| Local := zero_bd; Network := zero_bd |}.
Definition zero_spec : BandwidthSpec := {|
  bspec_node := ""; bspec_capacity := zero_capacity; bspec_requests := [];
  bspec_status := StatusUnset |}.
Definition zero_status : BandwidthStatus := {|
  bstat_status := StatusUnset; bstat_error_reason := ""; bstat_used := zero_capacity;
  bstat_remaining := zero_capacity; bstat_reservations := [];
  bstat_capacity := zero_capacity; bstat_updated_at := 0 |}.

(** Field updates. *)
Definition set_requests (l : list BandwidthRequest) (b : Bandwidth) : Bandwidth := {|
  bw_meta := bw_meta b;
  bw_spec := {| bspec_node := bspec_node (bw_spec b);
                bspec_capacity := bspec_capacity (bw_spec b);
                bspec_requests := l;
                bspec_status := bspec_status (bw_spec b) |};
  bw_status := bw_status b |}.

Definition set_capacity (c : Capacity) (b : Bandwidth) : Bandwidth := {|
  bw_meta := bw_meta b;
  bw_spec := {| bspec_node := bspec_node (bw_spec b);
                bspec_capacity := c;
                bspec_requests := bspec_requests (bw_spec b);
                bspec_status := bspec_status (bw_spec b) |};
  bw_status := bw_status b |}.

Definition set_bw_status (st : BandwidthStatus) (b : Bandwidth) : Bandwidth := {|
  bw_meta := bw_meta b; bw_spec := bw_spec b; bw_status := st |}.

(** ** Specification vocabulary

    What a list of requests uses on a node: every request passes through the
    local virtual switch, and those whose workload is not entirely on the node
    also use the network interface. *)

Definition req_ul (r : BandwidthRequest) : Z := UlMbps (req_bandwidth r).
Definition req_dl (r : BandwidthRequest) : Z := DlMbps (req_bandwidth r).
Definition req_net (f : BandwidthRequest -> Z) (r : BandwidthRequest) : Z :=
  if req_link_local r then 0 else f r.

Definition used_by (l : list BandwidthRequest) : Capacity := {|
  Local := {| UlMbps := int64 (sumZ req_ul l); DlMbps := int64 (sumZ req_dl l) |};
  Network := {| UlMbps := int64 (sumZ (req_net req_ul) l);
                DlMbps := int64 (sumZ (req_net req_dl) l) |} |}.

Definition bd_sub (a b : BandwidthDefinition) : BandwidthDefinition := {|
  UlMbps := UlMbps a -! UlMbps b; DlMbps := DlMbps a -! DlMbps b |}.
Definition cap_sub (a b : Capacity) : Capacity := {|
  Local := bd_sub (Local a) (Local b); Network := bd_sub (Network a) (Network b) |}.

(** Component-wise order on demands and capacities. *)
Definition bd_fits (need avail : BandwidthDefinition) : Prop :=
  UlMbps need <= UlMbps avail /\ DlMbps need <= DlMbps avail.
#[export] Instance bd_fits_dec a b : Decision (bd_fits a b).
Proof. unfold bd_fits. apply _. Defined.

(** A reservation that mirrors a request: same pod, same bandwidth, with the
    network part present exactly when the request is not link-local. *)
Definition mirrors (r : BandwidthRequest) (i : ReservationInfo) : Prop :=
  res_pod_name i = req_pod_name r /\ res_namespace i = req_namespace r /\
  res_pod_uid i = req_pod_uid r /\
  res_bandwidth i = {| Local := req_bandwidth r;
                       Network := if req_link_local r then zero_bd else req_bandwidth r |}.

(** A status whose totals are those of the requests of its spec. *)
Record balanced (b : Bandwidth) : Prop := {
  balanced_used : bstat_used (bw_status b) = used_by (bw_requests b);
  balanced_remaining :
    bstat_remaining (bw_status b) = cap_sub (bw_capacity b) (used_by (bw_requests b));
  balanced_capacity : bstat_capacity (bw_status b) = bw_capacity b;
  balanced_status : bstat_status (bw_status b) = Created;
  balanced_reason : bstat_error_reason (bw_status b) = "";
  balanced_reservations :
    length (bstat_reservations (bw_status b)) = length (bw_requests b);
}.

Lemma used_by_nil : used_by [] = zero_capacity.
Proof. reflexivity. Qed.

Lemma used_by_app l1 l2 :
  used_by (l1 ++ l2) =
  {| Local := {| UlMbps := UlMbps (Local (used_by l1)) +! UlMbps (Local (used_by l2));
                 DlMbps := DlMbps (Local (used_by l1)) +! DlMbps (Local (used_by l2)) |};
     Network := {| UlMbps := UlMbps (Network (used_by l1)) +! UlMbps (Network (used_by l2));
                   DlMbps := DlMbps (Network (used_by l1)) +! DlMbps (Network (used_by l2)) |} |}.
Proof. unfold used_by. cbn. rewrite !sumZ_app. f_equal; f_equal; int64_ring. Qed.

#[export] Instance used_by_permutation : Proper (Permutation ==> eq) used_by.
Proof. intros l1 l2 H. unfold used_by. by rewrite !H. Qed.
