(* ===== verification/Client.v ===== *)
(** * The API server as the programs see it

    [Client] is the interface of [sigs.k8s.io/controller-runtime/pkg/client]
    the operator and the scheduler call, over an abstract world; a call may fail
    with any error and the next call sees the world it left. [ClientLaws] states
    what the two programs rely on: reads return current objects, a write of the
    object leaves the status subresource alone and a write of the status leaves
    the spec alone, and both refresh the caller's copy with the server's answer.
    [Store] is a concrete client (a table of objects with resource versions and
    a script of injected faults) that satisfies the laws. *)

From S2P Require Import Prelude.
From S2P Require Import KubeTypes.
From S2P Require Import BandwidthTypes.

Class Client (W : Type) := {
  GetNode : string -> M W (result Node);
  ListNodes : M W (result (list Node));
  GetPod : string -> string -> M W (result Pod);
  ListPodsOnNode : string -> M W (result (list Pod));
  ListPodsInNamespace : string -> M W (result (list Pod));
  GetBandwidth : string -> M W (result Bandwidth);
  ListBandwidths : M W (result (list Bandwidth));
  CreateBandwidth : Bandwidth -> M W (result Bandwidth);
  UpdateBandwidth : Bandwidth -> M W (result Bandwidth);
  UpdateStatus : Bandwidth -> M W (result Bandwidth);
  DeleteBandwidth : Bandwidth -> M W (result unit);
  RecordEvent : EventVaclabNodeBandwidth -> string -> M W unit;
  Now : M W Z;
}.

(** What the cluster holds: the part of the world the laws speak about. *)
Record View := {
  v_nodes : gmap string Node;
  v_pods : gmap (string * string) Pod;
  v_bws : gmap string Bandwidth;
}.

Definition set_bws (f : gmap string Bandwidth -> gmap string Bandwidth) (v : View) : View :=
  {| v_nodes := v_nodes v; v_pods := v_pods v; v_bws := f (v_bws v) |}.

Definition pods_of (v : View) : list Pod := (map_to_list (v_pods v)).*2.

(** The objects the server stores after a successful write. *)
Definition stored_by_update (old new b : Bandwidth) : Prop :=
  bw_name new = bw_name b /\ bw_spec new = bw_spec b /\ bw_status new = bw_status old.
Definition stored_by_status (old new b : Bandwidth) : Prop :=
  bw_name new = bw_name b /\ bw_spec new = bw_spec old /\ bw_status new = bw_status b.

(** Calls that read leave the view alone and, when they succeed, tell the truth. *)
Class ReadLaws W `{Client W} (view : W -> View) := {
  get_node_view n w : view (GetNode n w).2 = view w;
  get_node_ok n w nd : (GetNode n w).1 = Ok nd ->
    v_nodes (view w) !! n = Some nd /\ meta_name (node_meta nd) = n;
  get_node_absent n w : (GetNode n w).1 = Err NotFound -> v_nodes (view w) !! n = None;
  list_nodes_view w : view (ListNodes w).2 = view w;
  list_nodes_ok w l : (ListNodes w).1 = Ok l ->
    forall n, (exists nd, nd ∈ l /\ meta_name (node_meta nd) = n) <->
      is_Some (v_nodes (view w) !! n);
  get_pod_view ns n w : view (GetPod ns n w).2 = view w;
  get_pod_ok ns n w p : (GetPod ns n w).1 = Ok p ->
    v_pods (view w) !! (ns, n) = Some p /\ pod_key p = (ns, n);
  list_on_node_view n w : view (ListPodsOnNode n w).2 = view w;
  list_on_node_ok n w l : (ListPodsOnNode n w).1 = Ok l ->
    l ≡ₚ filter (fun p => pod_node p = n) (pods_of (view w));
  list_in_ns_view n w : view (ListPodsInNamespace n w).2 = view w;
  list_in_ns_ok n w l : (ListPodsInNamespace n w).1 = Ok l ->
    l ≡ₚ filter (fun p => pod_namespace p = n) (pods_of (view w));
  get_bw_view n w : view (GetBandwidth n w).2 = view w;
  get_bw_ok n w b : (GetBandwidth n w).1 = Ok b ->
    v_bws (view w) !! n = Some b /\ bw_name b = n;
  get_bw_absent n w : (GetBandwidth n w).1 = Err NotFound -> v_bws (view w) !! n = None;
  list_bw_view w : view (ListBandwidths w).2 = view w;
  list_bw_ok w l : (ListBandwidths w).1 = Ok l -> l ≡ₚ (map_to_list (v_bws (view w))).*2;
  event_view e m w : view (RecordEvent e m w).2 = view w;
  now_view w : view (Now w).2 = view w;
}.

(** Writes that succeed replace exactly the object they name; the caller's copy
    is refreshed with the server's answer. An object that never had a status
    carries none in the answer, so nothing is said about the copy's status then. *)
Class WriteLaws W `{Client W} (view : W -> View) := {
  update_ok b w b' : (UpdateBandwidth b w).1 = Ok b' ->
    exists old new, v_bws (view w) !! bw_name b = Some old /\ stored_by_update old new b /\
      view (UpdateBandwidth b w).2 = set_bws <[bw_name b := new]> (view w) /\
      bw_meta b' = bw_meta new /\ bw_spec b' = bw_spec new /\
      (bstat_status (bw_status old) <> StatusUnset -> bw_status b' = bw_status new);
  update_conflict b w : (UpdateBandwidth b w).1 = Err Conflict ->
    view (UpdateBandwidth b w).2 = view w;
  status_ok b w b' : (UpdateStatus b w).1 = Ok b' ->
    exists old new, v_bws (view w) !! bw_name b = Some old /\ stored_by_status old new b /\
      view (UpdateStatus b w).2 = set_bws <[bw_name b := new]> (view w) /\ b' = new;
  status_conflict b w : (UpdateStatus b w).1 = Err Conflict ->
    view (UpdateStatus b w).2 = view w;
  create_ok b w b' : (CreateBandwidth b w).1 = Ok b' ->
    v_bws (view w) !! bw_name b = None /\
    bw_name b' = bw_name b /\ bw_spec b' = bw_spec b /\ bw_status b' = zero_status /\
    view (CreateBandwidth b w).2 = set_bws <[bw_name b := b']> (view w);
  create_exists b w : (CreateBandwidth b w).1 = Err AlreadyExists ->
    is_Some (v_bws (view w) !! bw_name b) /\ view (CreateBandwidth b w).2 = view w;
  delete_ok b w : (DeleteBandwidth b w).1 = Ok tt ->
    view (DeleteBandwidth b w).2 = set_bws (delete (bw_name b)) (view w);
  (* whatever the outcome, these two calls take no object away *)
  status_dom b w : dom (v_bws (view w)) ⊆ dom (v_bws (view (UpdateStatus b w).2));
  create_dom b w : dom (v_bws (view w)) ⊆ dom (v_bws (view (CreateBandwidth b w).2));
}.

Class ClientLaws W `{Client W} (view : W -> View) := {
  client_reads :: ReadLaws W view;
  client_writes :: WriteLaws W view;
}.

(** Worlds in which no call fails but for the reasons the view gives. *)
Class HealthLaws W `{Client W} (view : W -> View) (healthy : W -> Prop) := {
  health_get_node n w : healthy w -> healthy (GetNode n w).2 /\
    (GetNode n w).1 = match v_nodes (view w) !! n with Some nd => Ok nd | None => Err NotFound end;
  health_get_pod ns n w : healthy w -> healthy (GetPod ns n w).2 /\
    (GetPod ns n w).1 =
      match v_pods (view w) !! (ns, n) with Some p => Ok p | None => Err NotFound end;
  health_get_bw n w : healthy w -> healthy (GetBandwidth n w).2 /\
    (GetBandwidth n w).1 =
      match v_bws (view w) !! n with Some b => Ok b | None => Err NotFound end;
  health_list_on_node n w : healthy w -> healthy (ListPodsOnNode n w).2 /\
    is_Ok (ListPodsOnNode n w).1 = true;
  health_list_in_ns n w : healthy w -> healthy (ListPodsInNamespace n w).2 /\
    is_Ok (ListPodsInNamespace n w).1 = true;
  health_list_bw w : healthy w -> healthy (ListBandwidths w).2 /\
    is_Ok (ListBandwidths w).1 = true;
  health_now w : healthy w -> healthy (Now w).2;
  health_update b w : healthy w -> healthy (UpdateBandwidth b w).2 /\
    (forall old, v_bws (view w) !! bw_name b = Some old -> bw_version old = bw_version b ->
       is_Ok (UpdateBandwidth b w).1 = true);
  health_status b w : healthy w -> healthy (UpdateStatus b w).2 /\
    (forall old, v_bws (view w) !! bw_name b = Some old -> bw_version old = bw_version b ->
       is_Ok (UpdateStatus b w).1 = true);
}.

#[export] Hint Rewrite @get_node_view @list_nodes_view @get_pod_view @list_on_node_view
  @list_in_ns_view @get_bw_view @list_bw_view @event_view @now_view : go.
