(* ===== verification/Store.v ===== *)
(** * A concrete client

    A table of objects with resource versions, a clock and a script of injected
    faults: the [Client] instance the witnesses and the examples evaluate. It is
    not a model of code of this repository; it shows that the laws of [Client]
    can hold. *)

From S2P Require Import Prelude.
From S2P Require Import KubeTypes.
From S2P Require Import BandwidthTypes.
From S2P Require Import Client.

Record Store := {
  st_nodes : gmap string Node;
  st_pods : gmap (string * string) Pod;
  st_bws : gmap string Bandwidth;
  st_clock : Z;
  st_version : Z;
  st_faults : list (option string);
  st_log : list (EventVaclabNodeBandwidth * string);
}.

(** Objects are found under their own names only. *)
Definition store_view (s : Store) : View := {|
  v_nodes := filter (fun kv => meta_name (node_meta kv.2) = kv.1) (st_nodes s);
  v_pods := filter (fun kv => pod_key kv.2 = kv.1) (st_pods s);
  v_bws := filter (fun kv => bw_name kv.2 = kv.1) (st_bws s) |}.

(** Every call takes the next entry of the script: a fault, or nothing. *)
Definition next_fault (s : Store) : option string * Store :=
  match st_faults s with
  | [] => (None, s)
  | f :: fs => (f, {| st_nodes := st_nodes s; st_pods := st_pods s; st_bws := st_bws s;
                      st_clock := st_clock s; st_version := st_version s;
                      st_faults := fs; st_log := st_log s |})
  end.

Definition faulty {A} (call : Store -> result A * Store) : M Store (result A) :=
  fun s => let '(f, s') := next_fault s in
           match f with Some r => (Err (OtherError r), s') | None => call s' end.

Definition put_bw (b : Bandwidth) (s : Store) : Store := {|
  st_nodes := st_nodes s; st_pods := st_pods s; st_bws := <[bw_name b := b]> (st_bws s);
  st_clock := st_clock s; st_version := st_version s + 1; st_faults := st_faults s;
  st_log := st_log s |}.

Definition drop_bw (n : string) (s : Store) : Store := {|
  st_nodes := st_nodes s; st_pods := st_pods s; st_bws := delete n (st_bws s);
  st_clock := st_clock s; st_version := st_version s + 1; st_faults := st_faults s;
  st_log := st_log s |}.

Definition log_event (e : EventVaclabNodeBandwidth) (m : string) (s : Store) : Store := {|
  st_nodes := st_nodes s; st_pods := st_pods s; st_bws := st_bws s;
  st_clock := st_clock s; st_version := st_version s; st_faults := st_faults s;
  st_log := st_log s ++ [(e, m)] |}.

Definition tick (s : Store) : Store := {|
  st_nodes := st_nodes s; st_pods := st_pods s; st_bws := st_bws s;
  st_clock := st_clock s + 1; st_version := st_version s; st_faults := st_faults s;
  st_log := st_log s |}.

Definition with_version (v : Z) (m : ObjectMeta) : ObjectMeta := {|
  meta_name := meta_name m; meta_namespace := meta_namespace m; meta_uid := meta_uid m;
  meta_labels := meta_labels m; meta_annotations := meta_annotations m;
  meta_owners := meta_owners m; meta_deletion := meta_deletion m;
  meta_creation := meta_creation m; meta_resource_version := v |}.

Definition found {A} (o : option A) : result A :=
  match o with Some a => Ok a | None => Err NotFound end.

Definition updated (v : Z) (old b : Bandwidth) : Bandwidth := {|
  bw_meta := with_version v (bw_meta b); bw_spec := bw_spec b; bw_status := bw_status old |}.

Definition status_updated (v : Z) (old b : Bandwidth) : Bandwidth := {|
  bw_meta := with_version v (bw_meta old); bw_spec := bw_spec old; bw_status := bw_status b |}.

Definition store_update (b : Bandwidth) (s : Store) : result Bandwidth * Store :=
  match v_bws (store_view s) !! bw_name b with
  | None => (Err NotFound, s)
  | Some old =>
      if decide (bw_version old = bw_version b) then
        let new := updated (st_version s) old b in
        (Ok {| bw_meta := bw_meta new; bw_spec := bw_spec new;
               bw_status := if decide (bstat_status (bw_status old) = StatusUnset)
                            then bw_status b else bw_status old |}, put_bw new s)
      else (Err Conflict, s)
  end.

Definition store_status (b : Bandwidth) (s : Store) : result Bandwidth * Store :=
  match v_bws (store_view s) !! bw_name b with
  | None => (Err NotFound, s)
  | Some old =>
      if decide (bw_version old = bw_version b) then
        let new := status_updated (st_version s) old b in
        (Ok new, put_bw new s)
      else (Err Conflict, s)
  end.

Definition store_create (b : Bandwidth) (s : Store) : result Bandwidth * Store :=
  match v_bws (store_view s) !! bw_name b with
  | Some _ => (Err AlreadyExists, s)
  | None =>
      let new := {| bw_meta := with_version (st_version s) (bw_meta b);
                    bw_spec := bw_spec b; bw_status := zero_status |} in
      (Ok new, put_bw new s)
  end.

#[export] Instance store_client : Client Store := {|
  GetNode n := faulty (fun s => (found (v_nodes (store_view s) !! n), s));
  ListNodes := faulty (fun s => (Ok (map_to_list (v_nodes (store_view s))).*2, s));
  GetPod ns n := faulty (fun s => (found (v_pods (store_view s) !! (ns, n)), s));
  ListPodsOnNode n :=
    faulty (fun s => (Ok (filter (fun p => pod_node p = n) (pods_of (store_view s))), s));
  ListPodsInNamespace n :=
    faulty (fun s => (Ok (filter (fun p => pod_namespace p = n) (pods_of (store_view s))), s));
  GetBandwidth n := faulty (fun s => (found (v_bws (store_view s) !! n), s));
  ListBandwidths := faulty (fun s => (Ok (map_to_list (v_bws (store_view s))).*2, s));
  CreateBandwidth b := faulty (store_create b);
  UpdateBandwidth b := faulty (store_update b);
  UpdateStatus b := faulty (store_status b);
  DeleteBandwidth b := faulty (fun s => (Ok tt, drop_bw (bw_name b) s));
  RecordEvent e m := fun s => (tt, log_event e m s);
  Now := fun s => (st_clock s, tick s) |}.

Definition store_healthy (s : Store) : Prop := st_faults s = [].

Lemma next_fault_view s : store_view (next_fault s).2 = store_view s.
Proof. unfold next_fault. by destruct (st_faults s). Qed.

Lemma next_fault_healthy s : store_healthy s -> next_fault s = (None, s).
Proof. unfold store_healthy, next_fault. by intros ->. Qed.

Lemma faulty_spec {A} (call : Store -> result A * Store) s :
  (exists r, faulty call s = (Err (OtherError r), (next_fault s).2)) \/
  faulty call s = call (next_fault s).2.
Proof. unfold faulty. destruct (next_fault s) as [[r|] s']; [left; by exists r|by right]. Qed.

Lemma faulty_healthy {A} (call : Store -> result A * Store) s :
  store_healthy s -> faulty call s = call s.
Proof. intros H. unfold faulty. by rewrite next_fault_healthy. Qed.

(** Calls that hand back a function of the view and leave the store alone. *)
Lemma faulty_read_view {A} (f : Store -> result A) s :
  store_view (faulty (fun s => (f s, s)) s).2 = store_view s.
Proof.
  destruct (faulty_spec (fun s => (f s, s)) s) as [[r ->]| ->]; apply next_fault_view.
Qed.

Lemma faulty_read_Ok {A} (f : View -> result A) s a :
  (faulty (fun s => (f (store_view s), s)) s).1 = Ok a -> f (store_view s) = Ok a.
Proof.
  destruct (faulty_spec (fun s => (f (store_view s), s)) s) as [[r ->]| ->]; [done|].
  cbn. by rewrite next_fault_view.
Qed.

Lemma faulty_read_absent {A} (f : View -> option A) s :
  (faulty (fun s => (found (f (store_view s)), s)) s).1 = Err NotFound ->
  f (store_view s) = None.
Proof.
  destruct (faulty_spec (fun s => (found (f (store_view s)), s)) s) as [[r ->]| ->]; [done|].
  cbn. rewrite next_fault_view. by destruct (f (store_view s)).
Qed.

Lemma found_Ok {A} (o : option A) a : found o = Ok a <-> o = Some a.
Proof. destruct o; naive_solver. Qed.

#[export] Instance store_reads : ReadLaws Store store_view.
Proof.
  split; intros *; try apply faulty_read_view; try done.
  - intros H%(faulty_read_Ok (fun v => found (v_nodes v !! n)))%found_Ok.
    split; [done|]. by apply map_lookup_filter_Some in H as [_ H].
  - apply (faulty_read_absent (fun v => v_nodes v !! n)).
  - intros H%(faulty_read_Ok (fun v => Ok (map_to_list (v_nodes v)).*2)) n.
    injection H as <-. split.
    + intros (nd & Hin & Hn). apply list_elem_of_fmap in Hin as ([k nd'] & -> & Hin).
      apply elem_of_map_to_list in Hin. cbn in *.
      pose proof Hin as Hk. apply map_lookup_filter_Some in Hk as [_ Hk]. cbn in Hk.
      rewrite <- Hn, Hk. eauto.
    + intros [nd Hnd]. exists nd. split.
      * apply list_elem_of_fmap. exists (n, nd). split; [done|]. by apply elem_of_map_to_list.
      * by apply map_lookup_filter_Some in Hnd as [_ ?].
  - intros H%(faulty_read_Ok (fun v => found (v_pods v !! (ns, n))))%found_Ok.
    split; [done|]. by apply map_lookup_filter_Some in H as [_ H].
  - intros H%(faulty_read_Ok (fun v => Ok (filter (fun p => pod_node p = n) (pods_of v)))).
    by injection H as <-.
  - intros H%(faulty_read_Ok (fun v => Ok (filter (fun p => pod_namespace p = n) (pods_of v)))).
    by injection H as <-.
  - intros H%(faulty_read_Ok (fun v => found (v_bws v !! n)))%found_Ok.
    split; [done|]. by apply map_lookup_filter_Some in H as [_ H].
  - apply (faulty_read_absent (fun v => v_bws v !! n)).
  - intros H%(faulty_read_Ok (fun v => Ok (map_to_list (v_bws v)).*2)). by injection H as <-.
Qed.

Lemma put_bw_view b s :
  store_view (put_bw b s) = set_bws <[bw_name b := b]> (store_view s).
Proof.
  unfold store_view, set_bws. cbn. f_equal. by apply map_filter_insert_True.
Qed.

Lemma drop_bw_view n s :
  store_view (drop_bw n s) = set_bws (delete n) (store_view s).
Proof. unfold store_view, set_bws. cbn. f_equal. apply map_filter_delete. Qed.

#[export] Instance store_writes : WriteLaws Store store_view.
Proof.
  split; intros b w; cbn [UpdateBandwidth UpdateStatus CreateBandwidth DeleteBandwidth store_client].
  - destruct (faulty_spec (store_update b) w) as [[r ->]| ->]; [done|].
    unfold store_update. rewrite next_fault_view.
    destruct (v_bws (store_view w) !! bw_name b) as [old|]; [|done].
    intros b'. destruct (decide _); [|done]. cbn. intros [= <-].
    exists old, (updated (st_version (next_fault w).2) old b).
    split; [done|]. split; [done|]. rewrite put_bw_view, next_fault_view.
    repeat split. cbn. intros Hs. by rewrite decide_False.
  - destruct (faulty_spec (store_update b) w) as [[r ->]| ->]; [done|].
    unfold store_update. rewrite next_fault_view.
    destruct (v_bws _ !! _); [|done]. destruct (decide _); [done|]. intros _.
    apply next_fault_view.
  - destruct (faulty_spec (store_status b) w) as [[r ->]| ->]; [done|].
    unfold store_status. rewrite next_fault_view.
    destruct (v_bws (store_view w) !! bw_name b) as [old|] eqn:Ho; [|done].
    intros b'. destruct (decide _); [|done]. cbn. intros [= <-].
    apply map_lookup_filter_Some in Ho as Hn. destruct Hn as [_ Hn]. cbn in Hn.
    exists old, (status_updated (st_version (next_fault w).2) old b).
    split; [done|]. rewrite put_bw_view, next_fault_view.
    unfold stored_by_status, bw_name in *. cbn. by rewrite Hn.
  - destruct (faulty_spec (store_status b) w) as [[r ->]| ->]; [done|].
    unfold store_status. rewrite next_fault_view.
    destruct (v_bws _ !! _); [|done]. destruct (decide _); [done|]. intros _.
    apply next_fault_view.
  - destruct (faulty_spec (store_create b) w) as [[r ->]| ->]; [done|].
    unfold store_create. rewrite next_fault_view.
    destruct (v_bws (store_view w) !! bw_name b) as [old|]; [done|].
    intros b' [= <-]. cbn [snd]. rewrite put_bw_view, next_fault_view. done.
  - destruct (faulty_spec (store_create b) w) as [[r ->]| ->]; [done|].
    unfold store_create. rewrite next_fault_view.
    destruct (v_bws (store_view w) !! bw_name b) as [old|]; [|done].
    intros _. split; [eauto|]. apply next_fault_view.
  - destruct (faulty_spec (fun s => (Ok tt, drop_bw (bw_name b) s)) w) as [[r ->]| ->]; [done|].
    intros _. cbn. by rewrite drop_bw_view, next_fault_view.
  - destruct (faulty_spec (store_status b) w) as [[r ->]| ->]; cbn [snd];
      [by rewrite next_fault_view|].
    unfold store_status. destruct (v_bws _ !! _) as [old|]; [|cbn [snd]; by rewrite next_fault_view].
    destruct (decide _); cbn [snd]; [|by rewrite next_fault_view].
    rewrite put_bw_view, next_fault_view. cbn. rewrite dom_insert_L. set_solver.
  - destruct (faulty_spec (store_create b) w) as [[r ->]| ->]; cbn [snd];
      [by rewrite next_fault_view|].
    unfold store_create. destruct (v_bws _ !! _) as [old|]; cbn [snd]; [by rewrite next_fault_view|].
    rewrite put_bw_view, next_fault_view. cbn. rewrite dom_insert_L. set_solver.
Qed.

#[export] Instance store_laws : ClientLaws Store store_view := {}.

#[export] Instance store_health : HealthLaws Store store_view store_healthy.
Proof.
  split; intros *; intros H; cbn [GetNode GetPod GetBandwidth ListPodsOnNode
    ListPodsInNamespace ListBandwidths Now UpdateBandwidth UpdateStatus store_client];
    rewrite ?faulty_healthy by done; try done.
  - unfold store_update. split.
    + destruct (v_bws _ !! _); [|done]. by destruct (decide _).
    + intros old -> Hv. by rewrite decide_True.
  - unfold store_status. split.
    + destruct (v_bws _ !! _); [|done]. by destruct (decide _).
    + intros old -> Hv. by rewrite decide_True.
Qed.

(** ** Concrete objects for the witnesses *)

Definition mk_node (n : string) : Node :=
  {| node_meta := meta_named "" n n; node_allocatable := ∅ |}.

Definition mk_pod (ns n uid node : string) (ph : PodPhase) (ann : gmap string string)
    (owners : list OwnerReference) : Pod := {|
  pod_meta := {| meta_name := n; meta_namespace := ns; meta_uid := uid; meta_labels := ∅;
    meta_annotations := ann; meta_owners := owners; meta_deletion := None;
    meta_creation := 0; meta_resource_version := 0 |};
  pod_spec := {| spec_node_name := node; spec_priority := None; spec_preempt_never := false; spec_priority_class := ""; spec_scheduler_name := "";
    spec_containers := []; spec_init_containers := []; spec_overhead := None |};
  pod_status := {| pstatus_phase := ph; pstatus_nominated := ""; pstatus_start_time := None; pstatus_conditions := [] |} |}.

Definition mk_owner (kind name uid : string) : OwnerReference := {|
  owner_kind := kind; owner_name := name; owner_uid := uid; owner_controller := Some true |}.

Definition mk_store (nodes : list Node) (pods : list Pod) (bws : list Bandwidth)
    (faults : list (option string)) : Store := {|
  st_nodes := list_to_map ((fun n => (meta_name (node_meta n), n)) <$> nodes);
  st_pods := list_to_map ((fun p => (pod_key p, p)) <$> pods);
  st_bws := list_to_map ((fun b => (bw_name b, b)) <$> bws);
  st_clock := 100; st_version := 1; st_faults := faults; st_log := [] |}.
