(* ===== verification/Framework.v ===== *)
(** * The scheduling framework's vocabulary

    The status codes, scores and per-cycle state that the scheduler plugins
    exchange with [k8s.io/kubernetes/pkg/scheduler/framework], and the
    [CycleState] the plugins store their data in. The framework itself (queues,
    cycles, caches) is not code of this repository; its effects appear in the
    plugins' models as arguments. *)

From S2P Require Import Prelude.
From S2P Require Import KubeTypes.

(** [framework.Code]. *)
Inductive Code : Type :=
| Success | CodeError | Unschedulable | UnschedulableAndUnresolvable | Wait | Skip | CodePending.

#[export] Instance Code_eq_dec : EqDecision Code.
Proof. solve_decision. Defined.

(** [framework.Status]: the code; the messages are for people. A nil status is
    a success. *)
Record FStatus := { st_code : Code }.
Definition NewStatus (c : Code) : FStatus := {| st_code := c |}.
Definition IsSuccess (s : FStatus) : bool := bool_decide (st_code s = Success).

#[export] Instance FStatus_eq_dec : EqDecision FStatus.
Proof. solve_decision. Defined.

(** [framework.NodeScore] and the bounds of normalised scores. *)
Record NodeScore := { ns_name : string; ns_score : Z }.
Abbreviation NodeScoreList := (list NodeScore).
Definition MaxNodeScore : Z := 100.
Definition MinNodeScore : Z := 0.

Definition with_score (n : NodeScore) (s : Z) : NodeScore :=
  {| ns_name := ns_name n; ns_score := s |}.

(** The running maximum of a [for ... range] loop over int64 values. *)
Definition running_max (l : list Z) : Z := foldl (fun m x => if m <? x then x else m) 0 l.

Lemma foldl_max_ge l m : m <= foldl (fun m x => if m <? x then x else m) m l.
Proof.
  revert m. induction l as [|x l IH]; intros m; cbn [foldl]; [lia|].
  destruct (Z.ltb_spec m x); pose proof (IH x); pose proof (IH m); lia.
Qed.

Lemma foldl_max_in l m x : x ∈ l -> x <= foldl (fun m x => if m <? x then x else m) m l.
Proof.
  revert m. induction l as [|y l IH]; intros m; [by intros ?%not_elem_of_nil|].
  cbn [foldl]. intros [->|Hx]%elem_of_cons; [|by apply IH].
  destruct (Z.ltb_spec m y); [apply foldl_max_ge|].
  pose proof (foldl_max_ge l m). lia.
Qed.

Lemma foldl_max_attained l m :
  let r := foldl (fun m x => if m <? x then x else m) m l in r = m \/ r ∈ l.
Proof.
  revert m. induction l as [|y l IH]; intros m; cbn [foldl]; [by left|].
  destruct (m <? y).
  - right. destruct (IH y) as [->|?]; [left|by right].
  - destruct (IH m) as [->|?]; [by left|right; by right].
Qed.

Lemma running_max_nonneg l : 0 <= running_max l.
Proof. apply foldl_max_ge. Qed.

Lemma running_max_ge l x : x ∈ l -> x <= running_max l.
Proof. apply foldl_max_in. Qed.

Lemma running_max_attained l : running_max l = 0 \/ running_max l ∈ l.
Proof. apply foldl_max_attained. Qed.

(** The minimum and the maximum of a loop over scores, from bounds [mn] and [mx]. *)
Lemma minmax_fold (l : list NodeScore) mn mx :
  let r := foldl (fun mm n => let '(min, max) := mm in
    (if ns_score n <? min then ns_score n else min,
     if max <? ns_score n then ns_score n else max)) (mn, mx) l in
  (r.1 <= mn /\ mx <= r.2) /\ (forall n, n ∈ l -> r.1 <= ns_score n <= r.2) /\
  (r.1 = mn \/ exists n, n ∈ l /\ ns_score n = r.1) /\
  (r.2 = mx \/ exists n, n ∈ l /\ ns_score n = r.2).
Proof.
  revert mn mx. induction l as [|n l IH]; intros mn mx; cbn [foldl]; cbn zeta.
  { split; [cbn; lia|]. split; [by intros ? ?%not_elem_of_nil|]. auto. }
  specialize (IH (if ns_score n <? mn then ns_score n else mn) (if mx <? ns_score n then ns_score n else mx)).
  cbn zeta in IH. destruct IH as ([H1 H2] & H3 & H4 & H5).
  destruct (Z.ltb_spec (ns_score n) mn), (Z.ltb_spec mx (ns_score n));
    (split; [lia|]); (split; [intros m [->|Hm]%elem_of_cons; [lia|by apply H3]|]);
    (split; [destruct H4 as [->|(m & Hm & Hs)]|destruct H5 as [->|(m & Hm & Hs)]]); eauto 6 using list_elem_of_here, list_elem_of_further.
Qed.

#[export] Hint Resolve running_max_nonneg running_max_ge : go.

(** ** Informer events

    A deletion the watch missed arrives as a tombstone around the last known
    object; the type assertions of most handlers panic on it. *)
Inductive Deleted_ (A : Type) : Type :=
| Gone (a : A)
| DeletedFinalStateUnknown (a : A).

(** ** [helper.DefaultNormalizeScore]

    Rescales non-negative scores to [0, maxPriority], the highest score becoming
    [maxPriority], or 0 when [reverse]. *)
Definition DefaultNormalizeScore (maxPriority : Z) (reverse : bool) (scores : NodeScoreList)
    : NodeScoreList :=
  let maxCount := running_max (ns_score <$> scores) in
  if bool_decide (maxCount = 0) then
    if reverse then (fun n => with_score n maxPriority) <$> scores else scores
  else
    (fun n =>
      let score := maxPriority *! ns_score n /! maxCount in
      with_score n (if reverse then maxPriority -! score else score)) <$> scores.

(** What one score becomes when [reverse] is set and nothing overflows. *)
Definition reversed_score (maxPriority maxCount s : Z) : Z :=
  if bool_decide (maxCount = 0) then maxPriority else maxPriority - maxPriority * s / maxCount.

Lemma normalize_reversed maxPriority scores : 0 <= maxPriority ->
  (forall n, n ∈ scores -> 0 <= ns_score n /\ in_int64 (maxPriority * ns_score n)) ->
  in_int64 maxPriority ->
  DefaultNormalizeScore maxPriority true scores =
    (fun n => with_score n (reversed_score maxPriority (running_max (ns_score <$> scores)) (ns_score n))) <$> scores.
Proof.
  intros Hp Hs Hmp. unfold DefaultNormalizeScore, reversed_score.
  set (m := running_max (ns_score <$> scores)). case_bool_decide; [done|].
  assert (0 < m) by (pose proof (running_max_nonneg (ns_score <$> scores)); lia).
  apply list_fmap_ext. intros i n Hn%list_elem_of_lookup_2. f_equal. destruct (Hs n Hn) as [Hn0 H64].
  assert (ns_score n <= m) by (apply running_max_ge, list_elem_of_fmap; eauto).
  assert (0 <= maxPriority * ns_score n / m <= maxPriority).
  { split; [apply Z.div_pos; nia|]. apply Z.div_le_upper_bound; nia. }
  unfold mul64, div64, sub64. rewrite (int64_id _ H64), Z.quot_div_nonneg by nia.
  unfold in_int64 in *. rewrite (int64_id (_ / _)), int64_id; unfold in_int64; lia.
Qed.

Lemma reversed_score_bounds maxPriority m s : 0 <= maxPriority -> 0 <= s <= m ->
  0 <= reversed_score maxPriority m s <= maxPriority.
Proof.
  intros Hp Hs. unfold reversed_score. case_bool_decide; [lia|].
  assert (0 <= maxPriority * s / m <= maxPriority); [|lia].
  split; [apply Z.div_pos; nia|]. apply Z.div_le_upper_bound; nia.
Qed.

Lemma reversed_score_mono maxPriority m s t : 0 <= maxPriority -> 0 <= m -> s <= t ->
  reversed_score maxPriority m t <= reversed_score maxPriority m s.
Proof.
  intros Hp Hm Hst. unfold reversed_score. case_bool_decide; [lia|].
  assert (maxPriority * s / m <= maxPriority * t / m); [|lia]. apply Z.div_le_mono; nia.
Qed.
