(* ===== verification/OperatorHelpers.v ===== *)
(** * Operator helpers

    [bandwidth-operator/internal/controller/helpers.go]: configuration defaults,
    the annotation parser, workload identification and the sibling search. The
    bootstrap loop of the same file is in [Reconciler]. [resource.ParseQuantity]
    followed by [Value()] is a parameter of the definitions that parse. *)

From S2P Require Import Prelude.
From S2P Require Import KubeTypes.
From S2P Require Import BandwidthTypes.
From S2P Require Import Client.

Record BandwidthConfig := {
  DefaultLocalUL : Z;
  DefaultLocalDL : Z;
  DefaultNetworkUL : Z;
  DefaultNetworkDL : Z;
  EgressBandwidthAnnotation : string;
  IngressBandwidthAnnotation : string;
}.

(** ** Events *)

Definition event_string (e : EventVaclabNodeBandwidth) : string :=
  match e with
  | EventVaclabNodeBandwidthCreated => "vaclab_node_bandwidth_created"
  | EventVaclabNodeBandwidthCreating => "vaclab_node_bandwidth_creating"
  | EventVaclabNodeBandwidthDeleted => "vaclab_node_bandwidth_deleted"
  | EventVaclabNodeBandwidthDeleting => "vaclab_node_bandwidth_deleting"
  | EventVaclabNodeBandwidthFailed => "vaclab_node_bandwidth_failed"
  end.

Definition status_string (s : Status) : string :=
  match s with
  | Created => "Created" | Creating => "Creating" | Deleted => "Deleted"
  | Deleting => "Deleting" | Error => "Error" | None_ => "None" | StatusUnset => ""
  end.

Definition event_message (event : EventVaclabNodeBandwidth) (b : Bandwidth) : string :=
  match event with
  | EventVaclabNodeBandwidthCreated => "Created vaclab node bandwidth resource"
  | EventVaclabNodeBandwidthCreating => "Creating vaclab node bandwidth resource"
  | EventVaclabNodeBandwidthDeleted => "Deleted vaclab node bandwidth resource"
  | EventVaclabNodeBandwidthFailed =>
      "Error on vaclab node bandwidth resource:" +:+ bstat_error_reason (bw_status b)
  | EventVaclabNodeBandwidthDeleting => "Deleting vaclab node bandwidth resource"
  end.

Definition generateEvent `{Client W} (event : EventVaclabNodeBandwidth) (b : Bandwidth)
    : M W unit :=
  let message := event_message event b in
  if bool_decide (event_string event = event_string EventVaclabNodeBandwidthDeleted)
  then RecordEvent event ("Deleted:" +:+ message)
  else RecordEvent event
         (status_string (bstat_status (bw_status b)) +:+ ":" +:+ message +:+ ":" +:+ bw_name b).

(** ** Defaults *)

Definition default_if_zero (v d : Z) : Z := if bool_decide (v = 0) then d else v.

Definition setDefaultBandwidthValues (cfg : BandwidthConfig) (b : Bandwidth) : Bandwidth :=
  let c := bw_capacity b in
  set_capacity
    {| Local := {| UlMbps := default_if_zero (UlMbps (Local c)) (DefaultLocalUL cfg);
                   DlMbps := default_if_zero (DlMbps (Local c)) (DefaultLocalDL cfg) |};
       Network := {| UlMbps := default_if_zero (UlMbps (Network c)) (DefaultNetworkUL cfg);
                     DlMbps := default_if_zero (DlMbps (Network c)) (DefaultNetworkDL cfg) |} |}
    b.

(** ** Bandwidth annotations *)

Section Annotations.
(** [ParseQuantity] then [Value()]: the rounded-up integer, or the error. *)
Variable parseQuantity : string -> option Z.

Definition parse_rate (v : string) : Z :=
  match Atoi v with
  | Some plainValue => plainValue
  | None =>
      match parseQuantity v with
      | Some value => value /! 1000000
      | None => 0
      end
  end.

Definition GetBandwidthFromAnnotation (cfg : BandwidthConfig) (pod : Pod) : Z * Z :=
  let egress := default "" (pod_annotations pod !! EgressBandwidthAnnotation cfg) in
  let ingress := default "" (pod_annotations pod !! IngressBandwidthAnnotation cfg) in
  let ul := if bool_decide (egress <> "") then parse_rate egress else 0 in
  let dl := if bool_decide (ingress <> "") then parse_rate ingress else 0 in
  (ul, dl).
End Annotations.

(** Whether a pod carries one of the two annotations, whatever their values. *)
Definition has_bw_annotation (cfg : BandwidthConfig) (pod : Pod) : bool :=
  bool_decide (is_Some (pod_annotations pod !! EgressBandwidthAnnotation cfg)) ||
  bool_decide (is_Some (pod_annotations pod !! IngressBandwidthAnnotation cfg)).

(** ** Workloads *)

Record WorkloadRef := { wl_kind : string; wl_name : string; wl_uid : string }.

Definition is_controller (o : OwnerReference) : bool :=
  match owner_controller o with Some b => b | None => false end.

Definition ref_of_owner (o : OwnerReference) : WorkloadRef :=
  {| wl_kind := owner_kind o; wl_name := owner_name o; wl_uid := owner_uid o |}.

Definition GetWorkloadRefFromPod (pod : Pod) : WorkloadRef :=
  match meta_owners (pod_meta pod) with
  | [] => {| wl_kind := "Pod"; wl_name := pod_name pod; wl_uid := pod_uid pod |}
  | o :: _ as owners =>
      match List.find is_controller owners with
      | Some c => ref_of_owner c
      | None => ref_of_owner o
      end
  end.

Definition standalone (pod : Pod) : bool :=
  EqualFold (wl_kind (GetWorkloadRefFromPod pod)) "Pod" ||
  EqualFold (wl_kind (GetWorkloadRefFromPod pod)) "".

(** The accumulators of the sibling loop: [nodesMap], [siblingPods],
    [localPods] and [siblingSlice]. *)
Record SiblingAcc := {
  sib_nodes_map : gmap string string;
  sib_count : Z;
  sib_local : Z;
  sib_slice : list Pod;
}.

Definition sibling_step (ownerRef : WorkloadRef) (nodeName : string)
    (a : SiblingAcc) (p : Pod) : SiblingAcc :=
  let pOwnerRef := GetWorkloadRefFromPod p in
  let same_uid := EqualFold (wl_uid pOwnerRef) (wl_uid ownerRef) in
  let on_node := EqualFold (pod_node p) nodeName in
  let nodesMap :=
    if same_uid && negb on_node
    then <[pod_node p := pod_node p]> (sib_nodes_map a) else sib_nodes_map a in
  if pod_terminating p then
    {| sib_nodes_map := nodesMap; sib_count := sib_count a; sib_local := sib_local a;
       sib_slice := sib_slice a |}
  else if same_uid && EqualFold (wl_kind pOwnerRef) (wl_kind ownerRef) then
    {| sib_nodes_map := nodesMap;
       sib_count := sib_count a + 1;
       sib_local := if on_node then sib_local a + 1 else sib_local a;
       sib_slice := sib_slice a ++ [p] |}
  else
    {| sib_nodes_map := nodesMap; sib_count := sib_count a; sib_local := sib_local a;
       sib_slice := sib_slice a |}.

Definition sibling_scan (ownerRef : WorkloadRef) (nodeName : string) (pods : list Pod)
    : SiblingAcc :=
  foldl (sibling_step ownerRef nodeName)
    {| sib_nodes_map := ∅; sib_count := 0; sib_local := 0; sib_slice := [] |} pods.

(** The named results [siblingSlice], [nodes] and [answer]. The loop collects
    the siblings' nodes in [nodesMap], which no statement copies to [nodes]. *)
Definition allSiblingsOnCurrentNode `{Client W} (pod : Pod) (nodeName : string)
    : M W (list Pod * list string * bool) :=
  let ownerRef := GetWorkloadRefFromPod pod in
  if standalone pod then ret ([], [pod_node pod], false)
  else
    let! r := ListPodsInNamespace (pod_namespace pod) in
    match r with
    | Err _ => ret ([], [], false)
    | Ok podList =>
        let a := sibling_scan ownerRef nodeName podList in
        ret (sib_slice a, [],
             bool_decide (sib_count a > 0) && bool_decide (sib_count a = sib_local a))
    end.

(** ** Lemmas *)

(** The pods the sibling counters count. *)
Definition live_sibling (ref : WorkloadRef) (p : Pod) : bool :=
  negb (pod_terminating p) &&
  EqualFold (wl_uid (GetWorkloadRefFromPod p)) (wl_uid ref) &&
  EqualFold (wl_kind (GetWorkloadRefFromPod p)) (wl_kind ref).

Definition colocated (ref : WorkloadRef) (nodeName : string) (pods : list Pod) : Prop :=
  (exists p, p ∈ pods /\ live_sibling ref p = true) /\
  (forall p, p ∈ pods -> live_sibling ref p = true -> EqualFold (pod_node p) nodeName = true).

Lemma sibling_step_live ref node a p :
  let a' := sibling_step ref node a p in
  let live := live_sibling ref p in
  sib_slice a' = (if live then sib_slice a ++ [p] else sib_slice a) /\
  sib_count a' = (if live then sib_count a + 1 else sib_count a) /\
  sib_local a' = (if live && EqualFold (pod_node p) node then sib_local a + 1 else sib_local a).
Proof.
  unfold sibling_step, live_sibling.
  destruct (pod_terminating p); cbn; [done|].
  destruct (EqualFold (wl_uid _) _), (EqualFold (wl_kind _) _), (EqualFold (pod_node p) node); done.
Qed.

Lemma sibling_scan_spec ref node pods :
  let a := sibling_scan ref node pods in
  sib_slice a = filter (fun p => live_sibling ref p = true) pods /\
  sib_count a = Z.of_nat (length (sib_slice a)) /\
  sib_local a = Z.of_nat (length (filter (fun p => EqualFold (pod_node p) node = true)
                                         (sib_slice a))).
Proof.
  unfold sibling_scan. induction pods as [|p pods IH] using rev_ind; [done|].
  rewrite foldl_app. cbn [foldl]. revert IH. generalize (foldl (sibling_step ref node)
    {| sib_nodes_map := ∅; sib_count := 0; sib_local := 0; sib_slice := [] |} pods).
  intros a (IH1 & IH2 & IH3).
  destruct (sibling_step_live ref node a p) as (E1 & E2 & E3). cbn zeta. rewrite E1, E2, E3.
  rewrite filter_app, filter_cons, filter_nil.
  destruct (live_sibling ref p); cbn [andb].
  - rewrite decide_True by done. rewrite <- IH1. split; [done|].
    rewrite filter_app, !length_app, filter_cons, filter_nil.
    destruct (EqualFold (pod_node p) node);
      [rewrite decide_True by done|rewrite decide_False by done]; cbn [length]; lia.
  - rewrite decide_False by done. by rewrite app_nil_r.
Qed.

Lemma filter_length_eq {A} (P : A -> Prop) `{!forall x, Decision (P x)} (l : list A) :
  length (filter P l) = length l <-> forall x, x ∈ l -> P x.
Proof.
  induction l as [|a l IH]; [cbn; split; [by intros _ ? ?%not_elem_of_nil|done]|].
  pose proof (length_filter P l). rewrite filter_cons. destruct (decide (P a)); cbn.
  - setoid_rewrite elem_of_cons. split; [intros H' x [->|Hx]; [done|apply IH; [lia|done]]|].
    intros H'. f_equal. apply IH. auto.
  - split; [lia|]. intros H'. destruct n. apply H'. left.
Qed.

(** [answer] says that the workload has a live pod and that all of them are on
    the node. *)
Lemma sibling_answer_spec ref node pods :
  let a := sibling_scan ref node pods in
  bool_decide (sib_count a > 0) && bool_decide (sib_count a = sib_local a) = true <->
  colocated ref node pods.
Proof.
  intros a. destruct (sibling_scan_spec ref node pods) as (Hs & Hc & Hl). fold a in Hs, Hc, Hl.
  rewrite andb_true_iff, !bool_decide_eq_true, Hc, Hl.
  rewrite (comm (=)), (inj_iff Z.of_nat), filter_length_eq, Hs.
  unfold colocated. setoid_rewrite list_elem_of_filter.
  split; intros [H1 H2].
  - split; [|naive_solver].
    destruct (filter (fun p => live_sibling ref p = true) pods) as [|p l] eqn:E; [cbn in H1; lia|].
    exists p. assert (p ∈ filter (fun p => live_sibling ref p = true) pods) as Hin
      by (rewrite E; left). by apply list_elem_of_filter in Hin as [??].
  - split; [|naive_solver]. destruct H1 as (p & Hp & Hlive).
    assert (p ∈ filter (fun p => live_sibling ref p = true) pods) as Hin
      by (by apply list_elem_of_filter).
    destruct (filter _ _); [by apply not_elem_of_nil in Hin|]. cbn. lia.
Qed.
