(* ===== verification/Sync.v ===== *)
(** * The accounting of a node's bandwidth

    [bandwidth-operator/internal/controller/setup_bandwidth.go]. The three
    handlers rebuild [spec.requests] and [status] of a [Bandwidth] from the
    requests in its spec and the pods of the cluster. Definitions only; the
    theorems are in [SyncProofs]. *)

From S2P Require Import Prelude.
From S2P Require Import KubeTypes.
From S2P Require Import BandwidthTypes.
From S2P Require Import Client.
From S2P Require Import OperatorHelpers.

(** [ctrl.Result]. Durations are in nanoseconds. *)
Record Result := { Requeue : bool; RequeueAfter : Z }.
Definition no_result : Result := {| Requeue := false; RequeueAfter := 0 |}.

(** ** The running totals of the loops *)

Record Ledger := {
  usedUlLocal : Z;
  usedDlLocal : Z;
  usedUlNetwork : Z;
  usedDlNetwork : Z;
  cleanRequests : list BandwidthRequest;
  reservationInfo : list ReservationInfo;
}.

Definition empty_ledger : Ledger := {|
  usedUlLocal := 0; usedDlLocal := 0; usedUlNetwork := 0; usedDlNetwork := 0;
  cleanRequests := []; reservationInfo := [] |}.

Definition used_capacity (l : Ledger) : Capacity := {|
  Local := {| UlMbps := usedUlLocal l; DlMbps := usedDlLocal l |};
  Network := {| UlMbps := usedUlNetwork l; DlMbps := usedDlNetwork l |} |}.

Definition remaining_capacity (c : Capacity) (l : Ledger) : Capacity := {|
  Local := {| UlMbps := UlMbps (Local c) -! usedUlLocal l;
              DlMbps := DlMbps (Local c) -! usedDlLocal l |};
  Network := {| UlMbps := UlMbps (Network c) -! usedUlNetwork l;
                DlMbps := DlMbps (Network c) -! usedDlNetwork l |} |}.

(** The statements of a loop turn that books a kept request: totals, clean
    request and reservation. [linkLocal] is false for a request that uses the
    network. *)
Definition book (pod : Pod) (ul dl : Z) (linkLocal : bool) (l : Ledger) : Ledger :=
  let nUl := if linkLocal then 0 else ul in
  let nDl := if linkLocal then 0 else dl in
  let workloadRef := GetWorkloadRefFromPod pod in
  {| usedUlLocal := usedUlLocal l +! ul;
     usedDlLocal := usedDlLocal l +! dl;
     usedUlNetwork := usedUlNetwork l +! nUl;
     usedDlNetwork := usedDlNetwork l +! nDl;
     cleanRequests := cleanRequests l ++
       [{| req_pod_name := pod_name pod; req_namespace := pod_namespace pod;
           req_pod_uid := pod_uid pod; req_link_local := linkLocal;
           req_bandwidth := {| UlMbps := ul; DlMbps := dl |} |}];
     reservationInfo := reservationInfo l ++
       [{| res_pod_name := pod_name pod; res_namespace := pod_namespace pod;
           res_pod_uid := pod_uid pod; res_pod_ip := "";
           res_deployment_type := wl_kind workloadRef;
           res_deployment_name := wl_name workloadRef;
           res_deployment_uid := wl_uid workloadRef;
           res_bandwidth := {| Local := {| UlMbps := ul; DlMbps := dl |};
                               Network := {| UlMbps := nUl; DlMbps := nDl |} |} |}] |}.

(** The pods of the node that take part in the accounting, by UID. *)
Definition pods_with_bw (cfg : BandwidthConfig) (pods : list Pod) : gmap string Pod :=
  foldl (fun m pod =>
    if pod_terminating pod then m
    else if pod_finished pod then m
    else if has_bw_annotation cfg pod then <[pod_uid pod := pod]> m
    else m) ∅ pods.

(** The last request of each pod UID. *)
Definition existing_reqs (reqs : list BandwidthRequest) : gmap string BandwidthRequest :=
  foldl (fun m r => <[req_pod_uid r := r]> m) ∅ reqs.

Definition with_status (st : Status) (reason : string) (at_ : Z) (b : Bandwidth) : Bandwidth :=
  set_bw_status
    {| bstat_status := st; bstat_error_reason := reason;
       bstat_used := bstat_used (bw_status b); bstat_remaining := bstat_remaining (bw_status b);
       bstat_reservations := bstat_reservations (bw_status b);
       bstat_capacity := bstat_capacity (bw_status b); bstat_updated_at := at_ |} b.

(** The assignments of the freshly computed status. *)
Definition fresh_status (l : Ledger) (capacity remaining : Capacity) (at_ : Z) : BandwidthStatus := {|
  bstat_status := Created; bstat_error_reason := ""; bstat_used := used_capacity l;
  bstat_remaining := remaining; bstat_reservations := reservationInfo l;
  bstat_capacity := capacity; bstat_updated_at := at_ |}.

Section Sync.
Context {W : Type} `{Client W}.
Variable parseQuantity : string -> option Z.
Variable cfg : BandwidthConfig.

Abbreviation rates := (GetBandwidthFromAnnotation parseQuantity cfg).

(** ** [syncSingleNodeBandwidth] *)

Record SingleAcc := { sg_ledger : Ledger; sg_cache : gmap string bool }.

(** The pod a request stands for and whether it was fetched by name, if the
    request is kept. *)
Definition single_resolve (podsWithBw : gmap string Pod) (req : BandwidthRequest)
    : M W (option (Pod * bool)) :=
  match podsWithBw !! req_pod_uid req with
  | Some pod => ret (Some (pod, false))
  | None =>
      let! r := GetPod (req_namespace req) (req_pod_name req) in
      match r with
      | Err _ => ret None
      | Ok unknownPod =>
          if bool_decide (pod_uid unknownPod <> req_pod_uid req) then ret None
          else if pod_terminating unknownPod || pod_finished unknownPod then ret None
          else if bool_decide (pod_phase unknownPod <> PodPending) then ret None
          else ret (Some (unknownPod, true))
      end
  end.

Definition single_step (nodeName : string) (podsWithBw : gmap string Pod)
    (a : SingleAcc) (req : BandwidthRequest) : M W SingleAcc :=
  let! kept := single_resolve podsWithBw req in
  match kept with
  | None => ret a
  | Some (pod, foundUnknown) =>
      let '(ul, dl) :=
        if (foundUnknown : bool) then (req_ul req, req_dl req) else rates pod in
      let ownerUID := wl_uid (GetWorkloadRefFromPod pod) in
      match sg_cache a !! ownerUID with
      | Some isLocal =>
          ret {| sg_ledger := book pod ul dl isLocal (sg_ledger a); sg_cache := sg_cache a |}
      | None =>
          let! (_, _, isLocal) := allSiblingsOnCurrentNode pod nodeName in
          ret {| sg_ledger := book pod ul dl isLocal (sg_ledger a);
                 sg_cache := <[ownerUID := isLocal]> (sg_cache a) |}
      end
  end.

Definition syncSingleNodeBandwidth (bw : Bandwidth) : M W (option ApiError) :=
  let nodeName := bspec_node (bw_spec bw) in
  let! rn := GetNode nodeName in
  match rn with
  | Err e =>
      if IsNotFound e then
        let! _ := DeleteBandwidth bw in ret None
      else ret (Some e)
  | Ok _ =>
      let bw := setDefaultBandwidthValues cfg bw in
      let! rp := ListPodsOnNode nodeName in
      match rp with
      | Err e => ret (Some e)
      | Ok podList =>
          let podsWithBw := pods_with_bw cfg podList in
          let! a := foldM (single_step nodeName podsWithBw)
                      {| sg_ledger := empty_ledger; sg_cache := ∅ |} (bw_requests bw) in
          let l := sg_ledger a in
          let! now := Now in
          let bw := set_bw_status
                      (fresh_status l (bw_capacity bw) (remaining_capacity (bw_capacity bw) l) now)
                      (set_requests (cleanRequests l) bw) in
          let! ru := UpdateBandwidth bw in
          match ru with
          | Err e => ret (Some e)
          | Ok bw =>
              let! rs := UpdateStatus bw in
              match rs with
              | Err e => ret (Some e)
              | Ok _ => ret None
              end
          end
      end
  end.

(** ** [SyncFromSpecAndPods] *)

(** What a call of the handler leaves behind: the result for the work queue,
    the error, and the objects whose nodes the background goroutine syncs. *)
Record Outcome := {
  out_result : Result;
  out_err : option ApiError;
  out_background : list Bandwidth;
}.

Definition done_with (e : option ApiError) : Outcome :=
  {| out_result := no_result; out_err := e; out_background := [] |}.

Record SyncAcc := {
  sy_ledger : Ledger;
  sy_cache : gmap string (list Pod * list string * bool);
  sy_affected : gset string;          (* affectedRelatedNodes *)
  sy_fetches : list (list string);    (* one goroutine per kept request *)
}.

(** Marks the nodes other than the current one as affected. *)
Definition mark_nodes (nodeName : string) (nodes : list string) (m : gset string)
    : gset string :=
  foldl (fun m n => if EqualFold n nodeName then m else {[n]} ∪ m) m nodes.

(** A request whose pod is not among the node's pods is kept while a pod of
    its name and UID is pending. *)
Definition sync_resolve (podsWithBw : gmap string Pod) (req : BandwidthRequest)
    : M W (option (Pod * bool)) :=
  match podsWithBw !! req_pod_uid req with
  | Some pod => ret (Some (pod, false))
  | None =>
      let! r := GetPod (req_namespace req) (req_pod_name req) in
      match r with
      | Ok pendingPod =>
          if bool_decide (pod_uid pendingPod = req_pod_uid req) &&
             bool_decide (pod_phase pendingPod = PodPending)
          then ret (Some (pendingPod, true)) else ret None
      | Err _ => ret None
      end
  end.

(** A dropped request marks the nodes of its pod's siblings. *)
Definition sync_drop (nodeName : string) (existing : gmap string BandwidthRequest)
    (a : SyncAcc) (req : BandwidthRequest) : M W SyncAcc :=
  match existing !! req_pod_uid req with
  | None => ret a
  | Some oldReq =>
      let! r := GetPod (req_namespace oldReq) (req_pod_name oldReq) in
      match r with
      | Err _ => ret a
      | Ok oldPod =>
          let! (_, nodes, _) := allSiblingsOnCurrentNode oldPod nodeName in
          ret {| sy_ledger := sy_ledger a; sy_cache := sy_cache a;
                 sy_affected := mark_nodes nodeName nodes (sy_affected a);
                 sy_fetches := sy_fetches a |}
      end
  end.

(** The cached or computed sibling information of a pod's workload. *)
Definition sync_siblings (nodeName : string) (a : SyncAcc) (pod : Pod)
    : M W (list string * bool * gmap string (list Pod * list string * bool)) :=
  let ownerUID := wl_uid (GetWorkloadRefFromPod pod) in
  match sy_cache a !! ownerUID with
  | Some (_, nodes, isLocal) => ret (nodes, isLocal, sy_cache a)
  | None =>
      let! (siblings, nodes, isLocal) := allSiblingsOnCurrentNode pod nodeName in
      ret (nodes, isLocal, <[ownerUID := (siblings, nodes, isLocal)]> (sy_cache a))
  end.

Definition sync_step (nodeName : string) (podsWithBw : gmap string Pod)
    (existing : gmap string BandwidthRequest) (a : SyncAcc) (req : BandwidthRequest)
    : M W SyncAcc :=
  let! kept := sync_resolve podsWithBw req in
  match kept with
  | None => sync_drop nodeName existing a req
  | Some (pod, isPendingPod) =>
      let '(ul, dl) :=
        if (isPendingPod : bool) then (req_ul req, req_dl req) else rates pod in
      let! (nodes, isLocal, cache) := sync_siblings nodeName a pod in
      let newReq := {| req_pod_name := pod_name pod; req_namespace := pod_namespace pod;
                       req_pod_uid := pod_uid pod; req_link_local := isLocal;
                       req_bandwidth := {| UlMbps := ul; DlMbps := dl |} |} in
      let affected :=
        match existing !! req_pod_uid req with
        | Some oldReq =>
            if bool_decide (oldReq <> newReq)
            then mark_nodes nodeName nodes (sy_affected a) else sy_affected a
        | None => mark_nodes nodeName nodes (sy_affected a)
        end in
      ret {| sy_ledger := book pod ul dl isLocal (sy_ledger a);
             sy_cache := cache;
             sy_affected := affected;
             sy_fetches := sy_fetches a ++ [nodes] |}
  end.

(** The body of one fetching goroutine, run under the mutex. The goroutines
    only read the API server and are all awaited before the first write; they
    run here at that point, in the order they were started. *)
Definition fetch_one (nodeName : string) (m : gmap string Bandwidth) (n : string)
    : M W (gmap string Bandwidth) :=
  if EqualFold n nodeName then ret m
  else match m !! n with
       | Some _ => ret m
       | None =>
           let! r := GetBandwidth n in
           match r with Ok b => ret (<[n := b]> m) | Err _ => ret m end
       end.

Definition fetch_related (nodeName : string) (fetches : list (list string))
    : M W (gmap string Bandwidth) :=
  foldM (fun m nodes => foldM (fetch_one nodeName) m nodes) ∅ fetches.

Definition reqs_differ (existing : gmap string BandwidthRequest)
    (clean : list BandwidthRequest) : bool :=
  existsb (fun newReq =>
    match existing !! req_pod_uid newReq with
    | Some oldReq => bool_decide (oldReq <> newReq)
    | None => true
    end) clean.

Definition spec_changed (bw : Bandwidth) (existing : gmap string BandwidthRequest)
    (clean : list BandwidthRequest) : bool :=
  bool_decide (length (bw_requests bw) <> length clean) ||
  bool_decide (bw_capacity bw <> bstat_capacity (bw_status bw)) ||
  reqs_differ existing clean.

Definition status_changed (bw : Bandwidth) (l : Ledger) : bool :=
  bool_decide (bstat_used (bw_status bw) <> used_capacity l) ||
  bool_decide (bstat_remaining (bw_status bw) <> remaining_capacity (bw_capacity bw) l) ||
  bool_decide (bstat_capacity (bw_status bw) <> bw_capacity bw) ||
  bool_decide (bstat_status (bw_status bw) <> Created) ||
  bool_decide (bstat_error_reason (bw_status bw) <> "") ||
  bool_decide (length (bstat_reservations (bw_status bw)) <> length (reservationInfo l)).

(** The error exits: the status is set and written, whatever the answer. *)
Definition fail_with (bw : Bandwidth) (reason : string) (e : option ApiError) : M W Outcome :=
  let! now := Now in
  let! _ := UpdateStatus (with_status Error reason now bw) in
  ret (done_with e).

(** The status is written only when it changed; [background] is handed to the
    goroutine in either case. *)
Definition stamped (now : Z) (bw : Bandwidth) : Bandwidth :=
  set_bw_status
    {| bstat_status := bstat_status (bw_status bw);
       bstat_error_reason := bstat_error_reason (bw_status bw);
       bstat_used := bstat_used (bw_status bw);
       bstat_remaining := bstat_remaining (bw_status bw);
       bstat_reservations := bstat_reservations (bw_status bw);
       bstat_capacity := bstat_capacity (bw_status bw);
       bstat_updated_at := now |} bw.

Definition sync_write_status (statusChanged : bool) (background : list Bandwidth)
    (bw : Bandwidth) : M W Outcome :=
  let finished := {| out_result := no_result; out_err := None;
                     out_background := background |} in
  if statusChanged then
    let! now := Now in
    let! rs := UpdateStatus (stamped now bw) in
    match rs with
    | Err e => ret (done_with (Some e))
    | Ok _ => ret finished
    end
  else ret finished.

(** The second half of the handler: the writes of the node's own object, then
    the hand-over to the background goroutine. *)
Definition sync_commit (nodeName : string) (bw : Bandwidth) (a : SyncAcc) : M W Outcome :=
  let l := sy_ledger a in
  let remaining := remaining_capacity (bw_capacity bw) l in
  let specChanged := spec_changed bw (existing_reqs (bw_requests bw)) (cleanRequests l) in
  let statusChanged := status_changed bw l in
  let bw1 := set_bw_status
               (fresh_status l (bw_capacity bw) remaining (bstat_updated_at (bw_status bw)))
               (set_requests (cleanRequests l) bw) in
  let! related := fetch_related nodeName (sy_fetches a) in
  let background := omap (fun n => related !! n) (elements (sy_affected a)) in
  if specChanged then
    let! ru := UpdateBandwidth bw1 in
    match ru with
    | Err e => ret (done_with (Some e))
    | Ok bwu =>
        let! rg := GetBandwidth (bw_name bwu) in
        match rg with
        | Err e => ret (done_with (Some e))
        | Ok bwg =>
            sync_write_status statusChanged background (set_bw_status
              (fresh_status l (bw_capacity bwg) remaining (bstat_updated_at (bw_status bwg))) bwg)
        end
    end
  else sync_write_status statusChanged background bw1.

Definition SyncFromSpecAndPods (bw : Bandwidth) : M W Outcome :=
  let nodeName := bspec_node (bw_spec bw) in
  let! rn := GetNode nodeName in
  match rn with
  | Err e =>
      if IsNotFound e then
        let! _ := DeleteBandwidth bw in ret (done_with None)
      else fail_with bw "unable to fetch node information" (Some e)
  | Ok node =>
      if negb (EqualFold (bw_name bw) (meta_name (node_meta node))) then
        fail_with bw "name mismatch between nodeName and bandwidthName" None
      else
        let bw := setDefaultBandwidthValues cfg bw in
        let! rp := ListPodsOnNode nodeName in
        match rp with
        | Err e => fail_with bw "failed to list pods for specified node" (Some e)
        | Ok podList =>
            let! a := foldM (sync_step nodeName (pods_with_bw cfg podList)
                               (existing_reqs (bw_requests bw)))
                        {| sy_ledger := empty_ledger; sy_cache := ∅; sy_affected := ∅;
                           sy_fetches := [] |} (bw_requests bw) in
            sync_commit nodeName bw a
        end
  end.

(** The background goroutine: one [syncSingleNodeBandwidth] per object,
    errors logged only. *)
Definition run_background (bws : list Bandwidth) : M W unit :=
  foldM (fun _ b => let! _ := syncSingleNodeBandwidth b in ret tt) tt bws.
End Sync.
