(* ===== verification/SyncProofs.v ===== *)
(** * Theorems about the accounting of [Sync]

    The loops keep a ledger whose totals are those of the kept requests, for
    any client and any failures; with a healthy client the kept requests are
    those of a reference specification that knows nothing of the caches; the
    object a successful synchronisation leaves behind is balanced; and a second
    synchronisation of the same cluster writes nothing. *)

From S2P Require Import Prelude.
From S2P Require Import KubeTypes.
From S2P Require Import BandwidthTypes.
From S2P Require Import Client.
From S2P Require Import OperatorHelpers.
From S2P Require Import Sync.
From S2P Require Import Store.

(** ** The ledger *)

Record ledger_ok (l : Ledger) : Prop := {
  ledger_used : used_capacity l = used_by (cleanRequests l);
  ledger_mirrors : Forall2 mirrors (cleanRequests l) (reservationInfo l);
}.

Definition request_of (pod : Pod) (rate : Z * Z) (linkLocal : bool) : BandwidthRequest := {|
  req_pod_name := pod_name pod; req_namespace := pod_namespace pod;
  req_pod_uid := pod_uid pod; req_link_local := linkLocal;
  req_bandwidth := {| UlMbps := rate.1; DlMbps := rate.2 |} |}.

Lemma ledger_ok_empty : ledger_ok empty_ledger.
Proof. split; [reflexivity|constructor]. Qed.

Lemma book_clean pod ul dl b l :
  cleanRequests (book pod ul dl b l) = cleanRequests l ++ [request_of pod (ul, dl) b].
Proof. done. Qed.

Lemma used_by_singleton r :
  used_by [r] = {| Local := {| UlMbps := int64 (req_ul r); DlMbps := int64 (req_dl r) |};
                   Network := {| UlMbps := int64 (req_net req_ul r);
                                 DlMbps := int64 (req_net req_dl r) |} |}.
Proof. unfold used_by. cbn. by rewrite !Z.add_0_r. Qed.

Lemma book_ok pod ul dl b l : ledger_ok l -> ledger_ok (book pod ul dl b l).
Proof.
  intros [Hu Hm]. unfold used_capacity in Hu. split.
  - rewrite book_clean, used_by_app, used_by_singleton, <- Hu. cbn.
    unfold used_capacity, req_net, req_ul, req_dl, add64. cbn.
    destruct b; by rewrite !int64_add_r.
  - cbn. apply Forall2_app; [done|]. constructor; [|constructor].
    unfold mirrors. cbn. by destruct b.
Qed.

Lemma ledger_remaining l c :
  ledger_ok l -> remaining_capacity c l = cap_sub c (used_by (cleanRequests l)).
Proof. intros [<- _]. done. Qed.

Lemma ledger_lengths l :
  ledger_ok l -> length (reservationInfo l) = length (cleanRequests l).
Proof. intros [_ H]. symmetry. by eapply Forall2_length. Qed.

#[export] Hint Resolve ledger_ok_empty book_ok : go.

(** ** The pods of a node by UID *)

Definition accounted_pod (cfg : BandwidthConfig) (p : Pod) : bool :=
  negb (pod_terminating p) && negb (pod_finished p) && has_bw_annotation cfg p.

Lemma pods_with_bw_snoc cfg pods p :
  pods_with_bw cfg (pods ++ [p]) =
  if accounted_pod cfg p then <[pod_uid p := p]> (pods_with_bw cfg pods) else pods_with_bw cfg pods.
Proof.
  unfold pods_with_bw, accounted_pod. rewrite foldl_app. cbn.
  by destruct (pod_terminating p), (pod_finished p), (has_bw_annotation cfg p).
Qed.

Lemma pods_with_bw_Some cfg pods u p :
  pods_with_bw cfg pods !! u = Some p ->
  p ∈ pods /\ pod_uid p = u /\ accounted_pod cfg p = true.
Proof.
  induction pods as [|q pods IH] using rev_ind; [done|].
  rewrite pods_with_bw_snoc, elem_of_app, list_elem_of_singleton.
  destruct (accounted_pod cfg q) eqn:E; [|naive_solver].
  rewrite lookup_insert. case_decide; naive_solver.
Qed.

Lemma pods_with_bw_intro cfg pods p :
  NoDup (pod_uid <$> pods) -> p ∈ pods -> accounted_pod cfg p = true ->
  pods_with_bw cfg pods !! pod_uid p = Some p.
Proof.
  induction pods as [|q pods IH] using rev_ind; [by intros _ ?%not_elem_of_nil|].
  rewrite fmap_app, NoDup_app. intros (Hnd & Hdis & _) [Hin|Hin]%elem_of_app Ha;
    rewrite pods_with_bw_snoc.
  - destruct (accounted_pod cfg q); [|by auto].
    rewrite lookup_insert_ne; [by auto|].
    intros Heq. apply (Hdis (pod_uid p)); [by apply list_elem_of_fmap_2|].
    rewrite <- Heq. cbn. left.
  - apply list_elem_of_singleton in Hin as ->. rewrite Ha. apply lookup_insert_eq.
Qed.

Lemma pods_with_bw_perm cfg l1 l2 :
  NoDup (pod_uid <$> l1) -> l1 ≡ₚ l2 -> pods_with_bw cfg l1 = pods_with_bw cfg l2.
Proof.
  intros Hnd Hp. assert (NoDup (pod_uid <$> l2)) as Hnd2 by (by rewrite <- Hp).
  apply map_eq. intros u. apply option_eq. intros p. split; intros H;
    apply pods_with_bw_Some in H as (Hin & <- & Ha); apply pods_with_bw_intro; try done.
  - by rewrite <- Hp.
  - by rewrite Hp.
Qed.

(** ** Requests by UID *)

Lemma existing_reqs_snoc l r :
  existing_reqs (l ++ [r]) = <[req_pod_uid r := r]> (existing_reqs l).
Proof. unfold existing_reqs. by rewrite foldl_app. Qed.

Lemma existing_reqs_lookup l r :
  NoDup (req_pod_uid <$> l) -> r ∈ l -> existing_reqs l !! req_pod_uid r = Some r.
Proof.
  induction l as [|q l IH] using rev_ind; [by intros _ ?%not_elem_of_nil|].
  rewrite fmap_app, NoDup_app. intros (Hnd & Hdis & _) [Hin|Hin]%elem_of_app;
    rewrite existing_reqs_snoc.
  - rewrite lookup_insert_ne; [by auto|]. intros Heq.
    apply (Hdis (req_pod_uid r)); [by apply list_elem_of_fmap_2|]. rewrite <- Heq. cbn. left.
  - apply list_elem_of_singleton in Hin as ->. apply lookup_insert_eq.
Qed.

Lemma reqs_same_uids l1 l2 :
  NoDup (req_pod_uid <$> l1) ->
  (req_pod_uid <$> l2) `sublist_of` (req_pod_uid <$> l1) -> length l1 = length l2 ->
  reqs_differ (existing_reqs l1) l2 = false -> l2 = l1.
Proof.
  intros Hnd Hsub Hlen Hdiff.
  assert (req_pod_uid <$> l2 = req_pod_uid <$> l1) as Huids.
  { apply sublist_length_eq; [done|]. by rewrite !length_fmap. }
  assert (forall r, r ∈ l2 -> existing_reqs l1 !! req_pod_uid r = Some r) as Hex.
  { intros r Hr. unfold reqs_differ in Hdiff.
    destruct (existing_reqs l1 !! req_pod_uid r) as [o|] eqn:E.
    - f_equal. destruct (decide (o = r)) as [|Hne]; [done|].
      exfalso. eapply not_true_iff_false; [exact Hdiff|]. apply existsb_exists.
      exists r. rewrite <- list_elem_of_In, E. split; [done|]. by apply bool_decide_eq_true.
    - exfalso. eapply not_true_iff_false; [exact Hdiff|]. apply existsb_exists.
      exists r. by rewrite <- list_elem_of_In, E. }
  apply list_eq. intros i.
  destruct (l2 !! i) as [r2|] eqn:E2, (l1 !! i) as [r1|] eqn:E1; try done.
  - pose proof (list_lookup_fmap req_pod_uid l1 i) as H1.
    rewrite <- Huids, list_lookup_fmap, E1, E2 in H1. injection H1 as H1.
    rewrite <- (Hex r2) by (eapply list_elem_of_lookup_2; eauto).
    rewrite H1. apply existing_reqs_lookup; [done|]. eapply list_elem_of_lookup_2; eauto.
  - apply lookup_ge_None in E1. apply lookup_lt_Some in E2. lia.
  - apply lookup_ge_None in E2. apply lookup_lt_Some in E1. lia.
Qed.

(** ** The loops, for any client *)

(** Runs the next call of a handler and names its answer and the world after it. *)
Ltac step_call r w' := rewrite bind_eq; lazymatch goal with
  | |- context [ (?m ?w).1 ] => destruct (m w) as [r w'] eqn:?; cbn [fst snd]
  end.

(** A turn of a loop either leaves the ledger alone or books one pod under the
    UID of the request. *)
Definition turn (req : BandwidthRequest) (l l' : Ledger) : Prop :=
  l' = l \/ exists pod ul dl b, pod_uid pod = req_pod_uid req /\ l' = book pod ul dl b l.

Definition keyed_by_uid (m : gmap string Pod) : Prop :=
  forall u p, m !! u = Some p -> pod_uid p = u.

Definition loop_ok (visited : list BandwidthRequest) (l : Ledger) : Prop :=
  ledger_ok l /\ (req_pod_uid <$> cleanRequests l) `sublist_of` (req_pod_uid <$> visited).

Lemma loop_ok_turn visited req l l' :
  loop_ok visited l -> turn req l l' -> loop_ok (visited ++ [req]) l'.
Proof.
  intros [Hok Hsub] [->|(pod & ul & dl & b & Hu & ->)]; unfold loop_ok; rewrite fmap_app.
  - split; [done|]. by apply sublist_inserts_r.
  - split; [by apply book_ok|]. rewrite book_clean, fmap_app.
    apply sublist_app; [done|]. cbn. by rewrite Hu.
Qed.

Section AnyClient.
Context {W : Type} `{Client W}.
Variable parseQuantity : string -> option Z.
Variable cfg : BandwidthConfig.
Implicit Types (w : W) (req : BandwidthRequest).

Lemma sync_resolve_uid m req w p b :
  keyed_by_uid m -> (sync_resolve m req w).1 = Some (p, b) -> pod_uid p = req_pod_uid req.
Proof.
  intros Hm. unfold sync_resolve.
  destruct (m !! req_pod_uid req) as [q|] eqn:E; [naive_solver|].
  rewrite bind_eq. destruct (GetPod _ _ w) as [[q|e] w']; cbn; [|done].
  destruct (bool_decide_reflect (pod_uid q = req_pod_uid req)); cbn; [|done].
  destruct (bool_decide (pod_phase q = PodPending)); naive_solver.
Qed.

Lemma single_resolve_uid m req w p b :
  keyed_by_uid m -> (single_resolve m req w).1 = Some (p, b) -> pod_uid p = req_pod_uid req.
Proof.
  intros Hm. unfold single_resolve.
  destruct (m !! req_pod_uid req) as [q|] eqn:E; [naive_solver|].
  rewrite bind_eq. destruct (GetPod _ _ w) as [[q|e] w']; cbn; [|done].
  destruct (bool_decide_reflect (pod_uid q <> req_pod_uid req)); cbn; [done|].
  destruct (_ || _); [done|].
  destruct (bool_decide (pod_phase q <> PodPending)); cbn; [done|].
  intros [= <- _]. destruct (decide (pod_uid q = req_pod_uid req)); naive_solver.
Qed.

Lemma sync_drop_ledger node ex a req w :
  sy_ledger (sync_drop node ex a req w).1 = sy_ledger a.
Proof.
  unfold sync_drop. destruct (ex !! _); [|done].
  rewrite bind_eq. destruct (GetPod _ _ w) as [[q|e] w']; cbn; [|done].
  rewrite bind_eq. by destruct (allSiblingsOnCurrentNode q node w') as [[[??]?]?].
Qed.

Lemma sync_step_turn node m ex a req w :
  keyed_by_uid m ->
  turn req (sy_ledger a) (sy_ledger (sync_step parseQuantity cfg node m ex a req w).1).
Proof.
  intros Hm. unfold sync_step. rewrite bind_eq.
  destruct (sync_resolve m req w) as [[[p b]|] w'] eqn:E; cbn [fst snd].
  - destruct (if b then _ else _) as [ul dl].
    rewrite bind_eq. destruct (sync_siblings node a p w') as [[[nodes loc] cache] w''].
    right. exists p, ul, dl, loc. split; [|done].
    eapply (sync_resolve_uid m req w); [done|]. by rewrite E.
  - left. apply sync_drop_ledger.
Qed.

Lemma single_step_turn node m a req w :
  keyed_by_uid m ->
  turn req (sg_ledger a) (sg_ledger (single_step parseQuantity cfg node m a req w).1).
Proof.
  intros Hm. unfold single_step. rewrite bind_eq.
  destruct (single_resolve m req w) as [[[p b]|] w'] eqn:E; cbn [fst snd]; [|by left].
  destruct (if b then _ else _) as [ul dl].
  assert (pod_uid p = req_pod_uid req).
  { eapply (single_resolve_uid m req w); [done|]. by rewrite E. }
  right. destruct (sg_cache a !! _) as [loc|].
  - by exists p, ul, dl, loc.
  - rewrite bind_eq. destruct (allSiblingsOnCurrentNode p node w') as [[[s n] loc] w''].
    by exists p, ul, dl, loc.
Qed.

Lemma keyed_pods_with_bw pods : keyed_by_uid (pods_with_bw cfg pods).
Proof. intros u p Hp. by apply pods_with_bw_Some in Hp as (_ & ? & _). Qed.

Lemma sync_loop_ok node m ex reqs a w :
  keyed_by_uid m -> loop_ok [] (sy_ledger a) ->
  loop_ok reqs (sy_ledger (foldM (sync_step parseQuantity cfg node m ex) a reqs w).1).
Proof.
  intros Hm H0.
  apply (foldM_ind (fun v a (_ : W) => loop_ok v (sy_ledger a))); [done|].
  intros v req a' w' _ Hv. eapply loop_ok_turn; [done|]. by apply sync_step_turn.
Qed.

Lemma single_loop_ok node m reqs a w :
  keyed_by_uid m -> loop_ok [] (sg_ledger a) ->
  loop_ok reqs (sg_ledger (foldM (single_step parseQuantity cfg node m) a reqs w).1).
Proof.
  intros Hm H0.
  apply (foldM_ind (fun v a (_ : W) => loop_ok v (sg_ledger a))); [done|].
  intros v req a' w' _ Hv. eapply loop_ok_turn; [done|]. by apply single_step_turn.
Qed.

Lemma loop_ok_empty : loop_ok [] empty_ledger.
Proof. split; [apply ledger_ok_empty|done]. Qed.
End AnyClient.

#[export] Hint Resolve keyed_pods_with_bw loop_ok_empty : go.

(** The accumulators the two loops start from. *)
Abbreviation sync_start := ({| sy_ledger := empty_ledger; sy_cache := ∅; sy_affected := ∅;
                               sy_fetches := [] |}) (only parsing).

(** ** The reference specification of the kept requests

    No cache, no order of calls: a request is kept when its pod is accounted on
    the node, or when the pod of its name and UID is pending; it is link-local
    exactly when the live pods of the workload are all on the node. *)

Section Spec.
Variable parseQuantity : string -> option Z.
Variable cfg : BandwidthConfig.
Implicit Types (v : View) (req : BandwidthRequest).

Definition node_pods v (node : string) : gmap string Pod :=
  pods_with_bw cfg (filter (fun p => pod_node p = node) (pods_of v)).

Definition link_local v (node : string) (pod : Pod) : bool :=
  let a := sibling_scan (GetWorkloadRefFromPod pod) node
             (filter (fun p => pod_namespace p = pod_namespace pod) (pods_of v)) in
  negb (standalone pod) &&
  (bool_decide (sib_count a > 0) && bool_decide (sib_count a = sib_local a)).

Definition keep v node req : option BandwidthRequest :=
  match node_pods v node !! req_pod_uid req with
  | Some pod => Some (request_of pod (GetBandwidthFromAnnotation parseQuantity cfg pod)
                        (link_local v node pod))
  | None =>
      match v_pods v !! (req_namespace req, req_pod_name req) with
      | Some pod =>
          if bool_decide (pod_uid pod = req_pod_uid req) &&
             bool_decide (pod_phase pod = PodPending)
          then Some (request_of pod (req_ul req, req_dl req) (link_local v node pod))
          else None
      | None => None
      end
  end.

Lemma keep_keep v node req r :
  (forall k p, v_pods v !! k = Some p -> pod_key p = k) ->
  keep v node req = Some r -> keep v node r = Some r.
Proof.
  intros Hkeys. unfold keep at 1.
  destruct (node_pods v node !! req_pod_uid req) as [p|] eqn:E.
  - intros [= <-]. pose proof E as (_ & Hu & _)%pods_with_bw_Some.
    unfold keep. cbn. by rewrite Hu, E.
  - destruct (v_pods v !! _) as [p|] eqn:Ep; [|done].
    destruct (bool_decide_reflect (pod_uid p = req_pod_uid req)) as [Hu|]; [|done].
    destruct (bool_decide_reflect (pod_phase p = PodPending)) as [Hph|]; cbn; [|done].
    intros [= <-]. pose proof (Hkeys _ _ Ep) as Hk. unfold pod_key in Hk. injection Hk as Hns Hn.
    unfold keep. cbn. rewrite Hu, E, Hns, Hn, Ep. rewrite !bool_decide_true by done. done.
Qed.

Lemma omap_keep_keep v node (l : list BandwidthRequest) :
  (forall k p, v_pods v !! k = Some p -> pod_key p = k) ->
  omap (keep v node) (omap (keep v node) l) = omap (keep v node) l.
Proof.
  intros Hkeys. induction l as [|r l IH]; [done|]. cbn.
  destruct (keep v node r) as [r'|] eqn:E; [|done].
  cbn. rewrite (keep_keep v node r r') by done. by rewrite IH.
Qed.

(** The answer of the sibling search does not depend on the order of the list. *)
Lemma sibling_answer_perm ref node l1 l2 :
  l1 ≡ₚ l2 ->
  let ans l := bool_decide (sib_count (sibling_scan ref node l) > 0) &&
               bool_decide (sib_count (sibling_scan ref node l)
                            = sib_local (sibling_scan ref node l)) in
  ans l1 = ans l2.
Proof.
  intros Hp ans. apply eq_true_iff_eq. unfold ans. rewrite !sibling_answer_spec.
  unfold colocated. by setoid_rewrite Hp.
Qed.
End Spec.

(** Owner UIDs identify workloads: pods with the same owner UID agree on the
    namespace and on the owner's kind. The API server hands out UIDs once, and
    an owner reference never crosses namespaces. *)
Definition uids_coherent (v : View) : Prop :=
  forall p q, p ∈ pods_of v -> q ∈ pods_of v ->
    wl_uid (GetWorkloadRefFromPod p) = wl_uid (GetWorkloadRefFromPod q) ->
    pod_namespace p = pod_namespace q /\
    wl_kind (GetWorkloadRefFromPod p) = wl_kind (GetWorkloadRefFromPod q).

Record cluster_ok (v : View) : Prop := {
  cluster_keys : forall k p, v_pods v !! k = Some p -> pod_key p = k;
  cluster_uids : NoDup (pod_uid <$> pods_of v);
  cluster_owners : uids_coherent v;
}.

Lemma link_local_same_owner v node p q :
  uids_coherent v -> p ∈ pods_of v -> q ∈ pods_of v ->
  wl_uid (GetWorkloadRefFromPod p) = wl_uid (GetWorkloadRefFromPod q) ->
  link_local v node p = link_local v node q.
Proof.
  intros Hc Hp Hq Hu. destruct (Hc p q Hp Hq Hu) as [Hns Hk].
  unfold link_local, standalone. rewrite Hk, Hns. f_equal.
  apply eq_true_iff_eq. rewrite !sibling_answer_spec. unfold colocated, live_sibling.
  by rewrite Hu, Hk.
Qed.

Lemma pods_of_lookup v k p : v_pods v !! k = Some p -> p ∈ pods_of v.
Proof.
  intros Hp. apply list_elem_of_fmap. exists (k, p). split; [done|]. by apply elem_of_map_to_list.
Qed.

Lemma node_pods_in cfg v node u p : node_pods cfg v node !! u = Some p -> p ∈ pods_of v.
Proof. intros (Hin & _)%pods_with_bw_Some. by apply list_elem_of_filter in Hin as [_ ?]. Qed.

Section Refinement.
Context {W : Type} `{!Client W} {view : W -> View} {healthy : W -> Prop}.
Context `{!ReadLaws W view, !HealthLaws W view healthy}.
Variable parseQuantity : string -> option Z.
Variable cfg : BandwidthConfig.

Lemma siblings_answer pod node w :
  healthy w ->
  let r := allSiblingsOnCurrentNode pod node w in
  r.1.2 = link_local (view w) node pod /\ view r.2 = view w /\ healthy r.2.
Proof.
  intros Hw. unfold allSiblingsOnCurrentNode, link_local.
  destruct (standalone pod); [done|]. cbn [negb andb].
  rewrite bind_eq.
  pose proof (list_in_ns_ok (pod_namespace pod) w) as Hok.
  pose proof (list_in_ns_view (pod_namespace pod) w) as Hv.
  destruct (health_list_in_ns (pod_namespace pod) w Hw) as [Hh Ho].
  destruct (ListPodsInNamespace (pod_namespace pod) w) as [[l|e] w']; cbn in *; [|done].
  split; [|done]. apply sibling_answer_perm. by apply Hok.
Qed.

Definition cache_ok {A} (v : View) (node : string) (answer : A -> bool)
    (cache : gmap string A) : Prop :=
  forall u x, cache !! u = Some x -> forall p, p ∈ pods_of v ->
    wl_uid (GetWorkloadRefFromPod p) = u -> answer x = link_local v node p.

Lemma cache_ok_insert {A} v node (answer : A -> bool) cache pod x :
  uids_coherent v -> pod ∈ pods_of v -> answer x = link_local v node pod ->
  cache_ok v node answer cache ->
  cache_ok v node answer (<[wl_uid (GetWorkloadRefFromPod pod) := x]> cache).
Proof.
  intros Hc Hpod Hx Hcache u y Hy p Hp Hu.
  apply lookup_insert_Some in Hy as [[<- <-]|[_ Hy]]; [|by eapply Hcache].
  rewrite Hx. by apply link_local_same_owner.
Qed.

Abbreviation answer_of := (fun x : list Pod * list string * bool => x.2).

Definition sync_inv (v : View) (node : string) (visited : list BandwidthRequest)
    (a : SyncAcc) (w : W) : Prop :=
  view w = v /\ healthy w /\
  cleanRequests (sy_ledger a) = omap (keep parseQuantity cfg v node) visited /\
  cache_ok v node answer_of (sy_cache a).

Lemma sync_resolve_pure v node req w :
  healthy w -> view w = v ->
  let r := sync_resolve (node_pods cfg v node) req w in
  view r.2 = v /\ healthy r.2 /\
  match r.1 with
  | Some (p, pending) => p ∈ pods_of v /\
      keep parseQuantity cfg v node req =
      Some (request_of p (if (pending : bool) then (req_ul req, req_dl req)
                          else GetBandwidthFromAnnotation parseQuantity cfg p)
              (link_local v node p))
  | None => keep parseQuantity cfg v node req = None
  end.
Proof.
  intros Hw Hv. unfold sync_resolve, keep.
  destruct (node_pods cfg v node !! req_pod_uid req) as [p|] eqn:E.
  { cbn. split; [done|]. split; [done|]. split; [by eapply node_pods_in|done]. }
  rewrite bind_eq. pose proof (get_pod_view (req_namespace req) (req_pod_name req) w) as Hvw.
  destruct (health_get_pod (req_namespace req) (req_pod_name req) w Hw) as [Hh Hr].
  destruct (GetPod _ _ w) as [r w']. cbn in *. subst r. rewrite <- Hv.
  destruct (v_pods (view w) !! _) as [p|] eqn:Ep; cbn; [|done].
  destruct (bool_decide (pod_uid p = _) && bool_decide (pod_phase p = _)); cbn; [|done].
  split; [done|]. split; [done|]. split; [|done]. by eapply pods_of_lookup.
Qed.

Lemma sync_siblings_pure v node a pod w :
  healthy w -> view w = v -> uids_coherent v -> pod ∈ pods_of v ->
  cache_ok v node answer_of (sy_cache a) ->
  let r := sync_siblings node a pod w in
  view r.2 = v /\ healthy r.2 /\ r.1.1.2 = link_local v node pod /\
  cache_ok v node answer_of r.1.2.
Proof.
  intros Hw Hv Hc Hp Hcache. unfold sync_siblings.
  destruct (sy_cache a !! _) as [[[s n] loc]|] eqn:E.
  - cbn. split; [done|]. split; [done|]. split; [|done]. by apply (Hcache _ _ E pod).
  - rewrite bind_eq. destruct (siblings_answer pod node w Hw) as (Ha & Hvw & Hh).
    destruct (allSiblingsOnCurrentNode pod node w) as [[[s n] loc] w']. cbn in *.
    rewrite Hv in *. split; [done|]. split; [done|]. split; [done|].
    by apply cache_ok_insert.
Qed.

Lemma sync_drop_pure v node ex a req w :
  healthy w -> view w = v ->
  let r := sync_drop node ex a req w in
  view r.2 = v /\ healthy r.2 /\ sy_ledger r.1 = sy_ledger a /\ sy_cache r.1 = sy_cache a.
Proof.
  intros Hw Hv. unfold sync_drop. destruct (ex !! _) as [o|]; [|done].
  rewrite bind_eq. pose proof (get_pod_view (req_namespace o) (req_pod_name o) w) as Hvw.
  destruct (health_get_pod (req_namespace o) (req_pod_name o) w Hw) as [Hh _].
  destruct (GetPod _ _ w) as [[p|e] w']; cbn in *; [|by rewrite Hvw].
  rewrite bind_eq. destruct (siblings_answer p node w' Hh) as (_ & Hv2 & Hh2).
  destruct (allSiblingsOnCurrentNode p node w') as [[[s n] loc] w'']. cbn in *.
  by rewrite Hv2, Hvw.
Qed.

Lemma sync_step_inv v node ex visited a req w :
  cluster_ok v -> sync_inv v node visited a w ->
  let r := sync_step parseQuantity cfg node (node_pods cfg v node) ex a req w in
  sync_inv v node (visited ++ [req]) r.1 r.2.
Proof.
  intros [_ _ Hc] (Hv & Hh & Hcl & Hcache). unfold sync_step, sync_inv.
  rewrite bind_eq, omap_app. cbn [omap list_omap].
  destruct (sync_resolve_pure v node req w Hh Hv) as (Hv1 & Hh1 & Hk).
  destruct (sync_resolve _ req w) as [[[p b]|] w1]; cbn [fst snd] in *.
  - destruct Hk as [Hp ->].
    destruct (if b then _ else _) as [ul dl] eqn:Erate.
    rewrite bind_eq.
    destruct (sync_siblings_pure v node a p w1) as (Hv2 & Hh2 & Hl & Hc2); [done..|].
    destruct (sync_siblings node a p w1) as [[[nodes loc] cache] w2]. cbn in *.
    subst loc. by rewrite Hcl.
  - rewrite Hk, app_nil_r.
    destruct (sync_drop_pure v node ex a req w1) as (Hv2 & Hh2 & -> & ->); [done..|]. done.
Qed.

Lemma sync_loop_pure v node ex reqs w :
  cluster_ok v -> healthy w -> view w = v ->
  let r := foldM (sync_step parseQuantity cfg node (node_pods cfg v node) ex)
             sync_start reqs w in
  sync_inv v node reqs r.1 r.2.
Proof.
  intros Hc Hh Hv r. subst r. apply (foldM_ind (sync_inv v node)).
  - split; [done|]. split; [done|]. split; [done|]. intros u x Hx. cbn in Hx. by rewrite lookup_empty in Hx.
  - intros visited a s w' _ Hinv. by apply sync_step_inv.
Qed.
End Refinement.
