(* ===== verification/SyncTheorems.v ===== *)
(** * What a synchronisation does to the cluster

    Theorems about the whole handlers [SyncFromSpecAndPods] and
    [syncSingleNodeBandwidth], against the interface of [Client]. *)

From S2P Require Import Prelude.
From S2P Require Import KubeTypes.
From S2P Require Import BandwidthTypes.
From S2P Require Import Client.
From S2P Require Import OperatorHelpers.
From S2P Require Import Sync.
From S2P Require Import SyncProofs.
From S2P Require Import Store.

(** ** Defaults *)

Lemma default_if_zero_idemp v d : default_if_zero (default_if_zero v d) d = default_if_zero v d.
Proof. unfold default_if_zero. repeat case_bool_decide; congruence. Qed.

Lemma set_defaults_capacity_idemp cfg b b' :
  bw_capacity b' = bw_capacity (setDefaultBandwidthValues cfg b) ->
  bw_capacity (setDefaultBandwidthValues cfg b') = bw_capacity b'.
Proof.
  intros Hc. unfold setDefaultBandwidthValues at 1. unfold bw_capacity at 1. cbn.
  rewrite Hc. cbn. by rewrite !default_if_zero_idemp.
Qed.

Lemma set_defaults_requests cfg b : bw_requests (setDefaultBandwidthValues cfg b) = bw_requests b.
Proof. done. Qed.
Lemma set_defaults_status cfg b : bw_status (setDefaultBandwidthValues cfg b) = bw_status b.
Proof. done. Qed.
Lemma set_defaults_name cfg b : bw_name (setDefaultBandwidthValues cfg b) = bw_name b.
Proof. done. Qed.

(** ** A status that agrees with a ledger *)

Record agrees (cap : Capacity) (l : Ledger) (st : BandwidthStatus) : Prop := {
  agrees_used : bstat_used st = used_capacity l;
  agrees_remaining : bstat_remaining st = remaining_capacity cap l;
  agrees_capacity : bstat_capacity st = cap;
  agrees_status : bstat_status st = Created;
  agrees_reason : bstat_error_reason st = "";
  agrees_reservations : length (bstat_reservations st) = length (reservationInfo l);
}.

Lemma status_unchanged b l :
  status_changed b l = false -> agrees (bw_capacity b) l (bw_status b).
Proof.
  unfold status_changed. rewrite !orb_false_iff, !bool_decide_eq_false.
  intros [[[[[?%dec_stable ?%dec_stable]?%dec_stable]?%dec_stable]?%dec_stable]?%dec_stable].
  done.
Qed.

Lemma agrees_unchanged b l :
  agrees (bw_capacity b) l (bw_status b) -> status_changed b l = false.
Proof.
  intros [H1 H2 H3 H4 H5 H6]. unfold status_changed. rewrite H1, H2, H3, H4, H5, H6.
  rewrite !(bool_decide_eq_false_2 (_ <> _)) by naive_solver. done.
Qed.

Lemma agrees_fresh l cap at_ : agrees cap l (fresh_status l cap (remaining_capacity cap l) at_).
Proof. done. Qed.

Lemma agrees_balanced cfg b l :
  ledger_ok l -> cleanRequests l = bw_requests b ->
  agrees (bw_capacity (setDefaultBandwidthValues cfg b)) l (bw_status b) ->
  balanced (setDefaultBandwidthValues cfg b).
Proof.
  intros Hl Hr [H1 H2 H3 H4 H5 H6]. split; rewrite ?set_defaults_requests, ?set_defaults_status, <- ?Hr.
  - by rewrite H1, (ledger_used _ Hl).
  - by rewrite H2, (ledger_remaining _ _ Hl).
  - done.
  - done.
  - done.
  - by rewrite H6, ledger_lengths.
Qed.

(** ** Reads leave the cluster alone *)

Section Views.
Context {W : Type} `{!Client W} {view : W -> View} `{!ReadLaws W view}.
Variable parseQuantity : string -> option Z.
Variable cfg : BandwidthConfig.

Lemma siblings_view pod node w : view (allSiblingsOnCurrentNode pod node w).2 = view w.
Proof.
  unfold allSiblingsOnCurrentNode. destruct (standalone pod); [done|].
  rewrite bind_eq, <- (list_in_ns_view (pod_namespace pod) w).
  by destruct (ListPodsInNamespace _ w) as [[l|e] w'].
Qed.

Lemma sync_resolve_view m req w : view (sync_resolve m req w).2 = view w.
Proof.
  unfold sync_resolve. destruct (m !! _); [done|].
  rewrite bind_eq, <- (get_pod_view (req_namespace req) (req_pod_name req) w).
  destruct (GetPod _ _ w) as [[p|e] w']; cbn; [|done]. by destruct (_ && _).
Qed.

Lemma single_resolve_view m req w : view (single_resolve m req w).2 = view w.
Proof.
  unfold single_resolve. destruct (m !! _); [done|].
  rewrite bind_eq, <- (get_pod_view (req_namespace req) (req_pod_name req) w).
  destruct (GetPod _ _ w) as [[p|e] w']; cbn; [|done].
  by repeat case_match.
Qed.

Lemma sync_step_view node m ex a req w :
  view (sync_step parseQuantity cfg node m ex a req w).2 = view w.
Proof.
  unfold sync_step. rewrite bind_eq, <- (sync_resolve_view m req w).
  destruct (sync_resolve m req w) as [[[p b]|] w1]; cbn [fst snd].
  - destruct (if b then _ else _) as [ul dl]. rewrite bind_eq.
    unfold sync_siblings. destruct (sy_cache a !! _) as [[[s n] loc]|]; [done|].
    rewrite bind_eq, <- (siblings_view p node w1).
    by destruct (allSiblingsOnCurrentNode p node w1) as [[[s n] loc] w2].
  - unfold sync_drop. destruct (ex !! _) as [o|]; [|done].
    rewrite bind_eq, <- (get_pod_view (req_namespace o) (req_pod_name o) w1).
    destruct (GetPod _ _ w1) as [[p|e] w2]; cbn; [|done].
    rewrite bind_eq, <- (siblings_view p node w2).
    by destruct (allSiblingsOnCurrentNode p node w2) as [[[s n] loc] w3].
Qed.

Lemma single_step_view node m a req w :
  view (single_step parseQuantity cfg node m a req w).2 = view w.
Proof.
  unfold single_step. rewrite bind_eq, <- (single_resolve_view m req w).
  destruct (single_resolve m req w) as [[[p b]|] w1]; cbn [fst snd]; [|done].
  destruct (if b then _ else _) as [ul dl]. destruct (sg_cache a !! _); [done|].
  rewrite bind_eq, <- (siblings_view p node w1).
  by destruct (allSiblingsOnCurrentNode p node w1) as [[[s n] loc] w2].
Qed.

Lemma foldM_view {A S} (body : S -> A -> M W S) s l w :
  (forall s a w, view (body s a w).2 = view w) -> view (foldM body s l w).2 = view w.
Proof.
  intros Hb. apply (foldM_ind (fun _ _ w' => view w' = view w)); [done|].
  intros. by rewrite Hb.
Qed.

Lemma fetch_related_view node fetches w : view (fetch_related node fetches w).2 = view w.
Proof.
  apply foldM_view. intros m nodes w'. apply foldM_view. intros m' n w''.
  unfold fetch_one. destruct (EqualFold _ _); [done|]. destruct (m' !! n); [done|].
  rewrite bind_eq, <- (get_bw_view n w''). by destruct (GetBandwidth n w'') as [[b|e] ?].
Qed.
End Views.

(** ** The object a successful synchronisation leaves behind *)

Section Commit.
Context {W : Type} `{!Client W} {view : W -> View} `{!ClientLaws W view}.
Variable parseQuantity : string -> option Z.
Variable cfg : BandwidthConfig.

(** The object of [b]'s name is the only one replaced, and its spec and status
    are those of the ledger. *)
Definition settles (v : View) (b : Bandwidth) (l : Ledger) (w' : W) : Prop :=
  exists b', view w' = set_bws <[bw_name b := b']> v /\
    bw_name b' = bw_name b /\ bspec_node (bw_spec b') = bspec_node (bw_spec b) /\
    bw_requests b' = cleanRequests l /\
    agrees (bw_capacity (setDefaultBandwidthValues cfg b')) l (bw_status b') /\
    (agrees (bw_capacity (setDefaultBandwidthValues cfg b)) l (bw_status b) ->
     bw_status b' = bw_status b).

Lemma set_bws_twice f g v : set_bws f (set_bws g v) = set_bws (fun m => f (g m)) v.
Proof. done. Qed.

Lemma set_bws_insert_insert n b b' v :
  set_bws <[n := b']> (set_bws <[n := b]> v) = set_bws <[n := b']> v.
Proof. unfold set_bws. cbn. by rewrite insert_insert_eq. Qed.

Lemma set_bws_id n b v : v_bws v !! n = Some b -> set_bws <[n := b]> v = v.
Proof. intros Hb. destruct v. unfold set_bws. cbn in *. by rewrite insert_id. Qed.

(** The status write, once the spec stored for the node holds the clean
    requests: [s] is the stored object, [bw2] the caller's copy of it. *)
Lemma write_status_settles v (s bw2 : Bandwidth) (l : Ledger) (now : Z) (w : W) st :
  view w = set_bws <[bw_name s := s]> v ->
  ledger_ok l -> cleanRequests l = bw_requests s -> bw_name bw2 = bw_name s ->
  bw_status bw2 = st -> agrees (bw_capacity (setDefaultBandwidthValues cfg s)) l st ->
  ~ agrees (bw_capacity (setDefaultBandwidthValues cfg s)) l (bw_status s) ->
  is_Ok (UpdateStatus bw2 w).1 = true ->
  settles v s l (UpdateStatus bw2 w).2.
Proof.
  intros Hv Hl Hc Hn Hst Hag Hnot Hok.
  destruct (UpdateStatus bw2 w) as [[b'|e] w'] eqn:E; [|done].
  destruct (status_ok bw2 w b') as (old & new & Ho & (Hnn & Hsp & Hs) & Hv' & ->);
    [by rewrite E|]. rewrite E, Hn, Hv in *. cbn in Ho, Hv' |- *.
  rewrite lookup_insert_eq in Ho. injection Ho as <-.
  rewrite set_bws_insert_insert in Hv'. exists new. split; [done|].
  split; [congruence|]. split; [by rewrite Hsp|]. split; [|split].
  - unfold bw_requests. by rewrite Hsp.
  - unfold setDefaultBandwidthValues, bw_capacity in *. cbn in *. by rewrite Hsp, Hs, Hst.
  - done.
Qed.

Lemma sync_write_status_settles v s bw2 l changed bg w :
  view w = set_bws <[bw_name s := s]> v ->
  ledger_ok l -> cleanRequests l = bw_requests s -> bw_name bw2 = bw_name s ->
  agrees (bw_capacity (setDefaultBandwidthValues cfg s)) l (bw_status bw2) ->
  (changed = false <->
     agrees (bw_capacity (setDefaultBandwidthValues cfg s)) l (bw_status s)) ->
  let r := sync_write_status changed bg bw2 w in
  out_err r.1 = None -> settles v s l r.2.
Proof.
  intros Hv Hl Hc Hn Hag Hst. unfold sync_write_status. destruct changed; cbn.
  - rewrite bind_eq. pose proof (now_view w) as Hnow.
    destruct (Now w) as [now w1]. cbn in *. rewrite bind_eq.
    pose proof (write_status_settles v s (stamped now bw2) l now w1 _
                  ltac:(by rewrite Hnow) Hl Hc Hn eq_refl) as Hw.
    destruct (UpdateStatus (stamped now bw2) w1) as [[b'|e] w2]; cbn in *; [|done].
    intros _. apply Hw; [by destruct Hag|naive_solver|done].
  - intros _. exists s. repeat (split; [done|]). split; [by apply Hst|done].
Qed.

Lemma sync_commit_settles node v b a w :
  let bw := setDefaultBandwidthValues cfg b in
  view w = v -> v_bws v !! bw_name b = Some b ->
  NoDup (req_pod_uid <$> bw_requests b) -> loop_ok (bw_requests b) (sy_ledger a) ->
  out_err (sync_commit node bw a w).1 = None ->
  settles v b (sy_ledger a) (sync_commit node bw a w).2.
Proof.
  intros bw Hv Hb Hnd [Hl Hsub]. unfold sync_commit. rewrite bind_eq.
  pose proof (fetch_related_view node (sy_fetches a) w) as Hvr.
  destruct (fetch_related node (sy_fetches a) w) as [related w1]. cbn [fst snd] in *.
  set (bg := omap _ _). set (l := sy_ledger a) in *.
  set (bw1 := set_bw_status _ _). rewrite Hv in Hvr.
  destruct (spec_changed bw _ _) eqn:Esp.
  - rewrite bind_eq.
    pose proof (update_ok (view := view) bw1 w1) as Hu.
    destruct (UpdateBandwidth bw1 w1) as [[bwu|e] w2]; cbn [fst snd] in *; [|done].
    destruct (Hu bwu eq_refl) as (old & new & Ho & (Hnn & Hsp & Hst) & Hv2 & Hm & _).
    rewrite Hvr in *. change (bw_name bw1) with (bw_name b) in *.
    rewrite Hb in Ho. injection Ho as <-.
    rewrite bind_eq.
    pose proof (get_bw_view (bw_name bwu) w2) as Hv3.
    pose proof (get_bw_ok (bw_name bwu) w2) as Hg.
    assert (bw_name bwu = bw_name b) as Hnu by (unfold bw_name in *; by rewrite Hm).
    destruct (GetBandwidth (bw_name bwu) w2) as [[bwg|e] w3]; cbn [fst snd] in *; [|done].
    destruct (Hg bwg eq_refl) as [Hg1 _]. rewrite Hv2, Hnu in Hg1. cbn in Hg1.
    rewrite lookup_insert_eq in Hg1. injection Hg1 as <-.
    change (bw_name bw1) with (bw_name b) in Hnn.
    assert (forall w', settles v new l w' -> settles v b l w') as Hsettles.
    { intros w' (b' & Hv' & Hn' & Hnode & Hr' & Ha' & Hk). exists b'.
      rewrite Hsp in Hnode. rewrite Hnn in *. do 5 (split; [done|]). rewrite <- Hst.
      intros Hag. apply Hk. unfold setDefaultBandwidthValues, bw_capacity in *. cbn in *.
      rewrite Hsp. cbn. by rewrite !default_if_zero_idemp. }
    intros He. apply Hsettles. revert He. rewrite <- Hnn in Hv2.
    assert (bw_capacity new = bw_capacity bw) as Hcap by (unfold bw_capacity; by rewrite Hsp).
    apply sync_write_status_settles with (l := l); try done.
    + by rewrite Hv3.
    + unfold bw_requests. by rewrite Hsp.
    + rewrite (set_defaults_capacity_idemp cfg b) by done. rewrite Hcap. apply agrees_fresh.
    + rewrite (set_defaults_capacity_idemp cfg b) by done. rewrite Hcap, Hst.
      split; [by apply (status_unchanged bw l)|by apply (agrees_unchanged bw l)].
  - unfold spec_changed in Esp. rewrite !orb_false_iff, !bool_decide_eq_false in Esp.
    destruct Esp as [[Hlen%dec_stable _] Hdiff].
    assert (cleanRequests l = bw_requests b) as Hcl by (by apply reqs_same_uids).
    apply sync_write_status_settles with (l := l); try done.
    + by rewrite Hvr, set_bws_id.
    + split; [by apply (status_unchanged bw l)|by apply (agrees_unchanged bw l)].
Qed.
End Commit.

(** ** The handler *)

Section Handler.
Context {W : Type} `{!Client W} {view : W -> View} `{!ClientLaws W view}.
Variable parseQuantity : string -> option Z.
Variable cfg : BandwidthConfig.

(** A stored object the handler is called on: read from the cluster, named
    after an existing node, one request per pod. *)
Record current (v : View) (b : Bandwidth) : Prop := {
  current_stored : v_bws v !! bw_name b = Some b;
  current_name : bspec_node (bw_spec b) = bw_name b;
  current_node : is_Some (v_nodes v !! bw_name b);
  current_uids : NoDup (req_pod_uid <$> bw_requests b);
}.

Lemma fail_with_err b reason e w : out_err (fail_with b reason e w).1 = e.
Proof.
  unfold fail_with. rewrite bind_eq. destruct (Now w) as [now w1]. cbn [fst snd].
  by rewrite bind_eq.
Qed.

(** The whole handler up to the writes: either it stops with an error or the
    commit runs on the ledger of the loop, in an unchanged cluster. *)
Lemma sync_runs b w :
  current (view w) b ->
  out_err (SyncFromSpecAndPods parseQuantity cfg b w).1 = None ->
  exists pods a w1 w2,
    view w1 = view w /\ view w2 = view w /\
    (ListPodsOnNode (bw_name b) (GetNode (bw_name b) w).2).1 = Ok pods /\
    w1 = (ListPodsOnNode (bw_name b) (GetNode (bw_name b) w).2).2 /\
    foldM (sync_step parseQuantity cfg (bw_name b) (pods_with_bw cfg pods)
             (existing_reqs (bw_requests b))) sync_start (bw_requests b) w1 = (a, w2) /\
    SyncFromSpecAndPods parseQuantity cfg b w =
      sync_commit (bw_name b) (setDefaultBandwidthValues cfg b) a w2.
Proof.
  intros [Hs Hn [nd Hnd] Hu]. unfold SyncFromSpecAndPods. rewrite Hn, bind_eq.
  pose proof (get_node_view (bw_name b) w) as Hv1.
  pose proof (get_node_ok (bw_name b) w) as Hok.
  pose proof (get_node_absent (bw_name b) w) as Habs.
  destruct (GetNode (bw_name b) w) as [[nd'|e] w1]; cbn [fst snd] in *.
  2:{ unfold IsNotFound. case_bool_decide; [subst; specialize (Habs eq_refl); congruence|].
      by rewrite fail_with_err. }
  destruct (Hok nd' eq_refl) as [_ ->]. rewrite EqualFold_refl. cbn [negb].
  rewrite bind_eq. pose proof (list_on_node_view (bw_name b) w1) as Hv2.
  destruct (ListPodsOnNode (bw_name b) w1) as [[pods|e] w2]; cbn [fst snd] in *.
  2:{ by rewrite fail_with_err. }
  rewrite bind_eq, set_defaults_requests. intros _.
  destruct (foldM _ _ _ w2) as [a w3] eqn:E. cbn [fst snd].
  exists pods, a, w2, w3. split; [by rewrite Hv2|]. split; [|done].
  assert (w3 = (foldM (sync_step parseQuantity cfg (bw_name b) (pods_with_bw cfg pods)
             (existing_reqs (bw_requests b))) sync_start (bw_requests b) w2).2) as -> by (by rewrite E).
  rewrite foldM_view; [by rewrite Hv2|]. intros. apply sync_step_view.
Qed.

Lemma sync_settles b w :
  current (view w) b ->
  out_err (SyncFromSpecAndPods parseQuantity cfg b w).1 = None ->
  exists l, loop_ok (bw_requests b) l /\
    settles (view := view) cfg (view w) b l (SyncFromSpecAndPods parseQuantity cfg b w).2.
Proof.
  intros Hc He. pose proof Hc as [Hs Hn _ Hu].
  destruct (sync_runs b w Hc He) as (pods & a & w1 & w2 & Hv1 & Hv2 & _ & _ & Hf & Hr).
  rewrite Hr in He |- *.
  assert (loop_ok (bw_requests b) (sy_ledger a)) as Hl.
  { pose proof (sync_loop_ok parseQuantity cfg (bw_name b) (pods_with_bw cfg pods)
      (existing_reqs (bw_requests b)) (bw_requests b) sync_start w1) as Hl.
    rewrite Hf in Hl. apply Hl; auto with go. }
  exists (sy_ledger a). split; [done|]. by apply sync_commit_settles.
Qed.

Lemma reqs_differ_self l :
  NoDup (req_pod_uid <$> l) -> reqs_differ (existing_reqs l) l = false.
Proof.
  intros Hnd. apply not_true_iff_false. unfold reqs_differ. rewrite existsb_exists.
  intros (r & Hr & Hd). apply list_elem_of_In in Hr.
  rewrite existing_reqs_lookup in Hd by done. by apply bool_decide_eq_true in Hd.
Qed.

Lemma used_capacity_clean l1 l2 :
  ledger_ok l1 -> ledger_ok l2 -> cleanRequests l1 = cleanRequests l2 ->
  used_capacity l1 = used_capacity l2 /\
  length (reservationInfo l1) = length (reservationInfo l2).
Proof. intros H1 H2 Hc. rewrite !ledger_used, !ledger_lengths by done. by rewrite Hc. Qed.

Lemma agrees_clean cap l1 l2 st :
  ledger_ok l1 -> ledger_ok l2 -> cleanRequests l1 = cleanRequests l2 ->
  agrees cap l1 st -> agrees cap l2 st.
Proof.
  intros H1 H2 Hc [A1 A2 A3 A4 A5 A6].
  destruct (used_capacity_clean l1 l2 H1 H2 Hc) as [Hu Hr].
  split; try done; [by rewrite A1|by rewrite A2, !ledger_remaining, Hc|by rewrite A6].
Qed.

Context {healthy : W -> Prop} `{!HealthLaws W view healthy}.

(** With a healthy client the ledger holds the kept requests of the specification. *)
Lemma sync_loop_on_list v node pods ex reqs w :
  cluster_ok v -> healthy w -> view w = v ->
  pods ≡ₚ filter (fun p => pod_node p = node) (pods_of v) ->
  cleanRequests (sy_ledger (foldM (sync_step parseQuantity cfg node (pods_with_bw cfg pods) ex)
     sync_start reqs w).1) = omap (keep parseQuantity cfg v node) reqs.
Proof.
  intros Hc Hh Hv Hp.
  assert (pods_with_bw cfg pods = node_pods cfg v node) as ->.
  { symmetry. apply pods_with_bw_perm; [|done].
    eapply sublist_NoDup; [apply (cluster_uids _ Hc)|].
    apply fmap_sublist, sublist_filter. }
  by apply (sync_loop_pure parseQuantity cfg v node ex reqs w Hc Hh Hv).
Qed.

Lemma sync_runs_healthy b w :
  current (view w) b -> cluster_ok (view w) -> healthy w ->
  exists a w2, view w2 = view w /\
    SyncFromSpecAndPods parseQuantity cfg b w =
      sync_commit (bw_name b) (setDefaultBandwidthValues cfg b) a w2 /\
    loop_ok (bw_requests b) (sy_ledger a) /\
    cleanRequests (sy_ledger a) =
      omap (keep parseQuantity cfg (view w) (bw_name b)) (bw_requests b).
Proof.
  intros [Hs Hn [nd Hnd] Hu] Hc Hh. unfold SyncFromSpecAndPods. rewrite Hn, bind_eq.
  pose proof (get_node_view (bw_name b) w) as Hv1.
  pose proof (get_node_ok (bw_name b) w nd) as Hok.
  destruct (health_get_node (bw_name b) w Hh) as [Hh1 Hr]. rewrite Hnd in Hr.
  destruct (GetNode (bw_name b) w) as [r w1]; cbn [fst snd] in *. subst r.
  destruct (Hok eq_refl) as [_ ->]. rewrite EqualFold_refl. cbn [negb].
  rewrite bind_eq. pose proof (list_on_node_view (bw_name b) w1) as Hv2.
  pose proof (list_on_node_ok (bw_name b) w1) as Hperm.
  destruct (health_list_on_node (bw_name b) w1 Hh1) as [Hh2 Hl].
  destruct (ListPodsOnNode (bw_name b) w1) as [[pods|e] w2]; cbn [fst snd is_Ok] in *; [|done].
  rewrite bind_eq, set_defaults_requests.
  set (f := foldM _ _ _ w2). exists f.1, f.2.
  rewrite Hv1 in Hperm, Hv2. specialize (Hperm pods eq_refl).
  split; [|split; [done|split]].
  - unfold f. rewrite foldM_view; [done|]. intros. apply sync_step_view.
  - apply sync_loop_ok; auto with go.
  - by apply sync_loop_on_list.
Qed.

Lemma sync_commit_idle node bw a w :
  spec_changed bw (existing_reqs (bw_requests bw)) (cleanRequests (sy_ledger a)) = false ->
  status_changed bw (sy_ledger a) = false ->
  view (sync_commit node bw a w).2 = view w /\ out_err (sync_commit node bw a w).1 = None.
Proof.
  intros H1 H2. unfold sync_commit. rewrite bind_eq.
  pose proof (fetch_related_view (view := view) node (sy_fetches a) w) as Hv.
  destruct (fetch_related node (sy_fetches a) w) as [related w1]. cbn [fst snd] in *.
  rewrite H1, H2. by unfold sync_write_status.
Qed.

Lemma sync_idle b w :
  current (view w) b -> cluster_ok (view w) -> healthy w ->
  omap (keep parseQuantity cfg (view w) (bw_name b)) (bw_requests b) = bw_requests b ->
  (forall l, ledger_ok l -> cleanRequests l = bw_requests b ->
     agrees (bw_capacity (setDefaultBandwidthValues cfg b)) l (bw_status b)) ->
  view (SyncFromSpecAndPods parseQuantity cfg b w).2 = view w /\
  out_err (SyncFromSpecAndPods parseQuantity cfg b w).1 = None.
Proof.
  intros Hcur Hc Hh Hfix Hag.
  destruct (sync_runs_healthy b w Hcur Hc Hh) as (a & w2 & Hv & -> & [Hl _] & Hcl).
  rewrite Hfix in Hcl. specialize (Hag _ Hl Hcl). rewrite <- Hv.
  apply sync_commit_idle.
  - unfold spec_changed. rewrite Hcl, set_defaults_requests.
    rewrite (bool_decide_eq_false_2 (length _ <> length _)) by naive_solver.
    rewrite set_defaults_status, (agrees_capacity _ _ _ Hag), bool_decide_eq_false_2 by naive_solver.
    apply reqs_differ_self, Hcur.
  - by apply agrees_unchanged.
Qed.
End Handler.
