(* ===== verification/Reconciler.v ===== *)
(** * The reconciler and the bootstrap of the operator

    [bandwidth_controller.go], the creation loop of [helpers.go] and
    [SetupBandwidthResource] of [setup_bandwidth.go]. *)

From S2P Require Import Prelude.
From S2P Require Import KubeTypes.
From S2P Require Import BandwidthTypes.
From S2P Require Import Client.
From S2P Require Import OperatorHelpers.
From S2P Require Import Sync.

(** ** The watches of [SetupWithManager]: which object an event reconciles *)

Definition index_node_name (pod : Pod) : list string :=
  if bool_decide (pod_node pod = "") then [] else [pod_node pod].

Definition node_event_requests (n : Node) : list string := [meta_name (node_meta n)].

Definition pod_event_requests (p : Pod) : list string :=
  if bool_decide (pod_node p = "") then [] else [pod_node p].

(** The object created for a node: a cluster-scoped object of its name. *)
Definition new_bandwidth (cfg : BandwidthConfig) (nodeName : string) : Bandwidth :=
  setDefaultBandwidthValues cfg
    {| bw_meta := meta_named "" nodeName "";
       bw_spec := {| bspec_node := nodeName; bspec_capacity := zero_capacity;
                     bspec_requests := []; bspec_status := StatusUnset |};
       bw_status := zero_status |}.

(** The first status of a created object. *)
Definition initial_status (now : Z) (bw : Bandwidth) : Bandwidth :=
  set_bw_status
    {| bstat_status := Created; bstat_error_reason := bstat_error_reason (bw_status bw);
       bstat_used := bstat_used (bw_status bw); bstat_remaining := bstat_remaining (bw_status bw);
       bstat_reservations := bstat_reservations (bw_status bw);
       bstat_capacity := bw_capacity bw; bstat_updated_at := now |} bw.

Section Reconciler.
Context {W : Type} `{!Client W}.
Variable parseQuantity : string -> option Z.
Variable cfg : BandwidthConfig.

Definition finish (r : Result) (e : option ApiError) : Outcome :=
  {| out_result := r; out_err := e; out_background := [] |}.
Definition requeue : Result := {| Requeue := true; RequeueAfter := 0 |}.

(** ** [createBandwidthResourcesForAllNodes] *)

(** The retry loop of the first status: [attempts] turns are left. *)
Fixpoint write_initial_status (attempts : nat) (nodeName : string) : M W unit :=
  match attempts with
  | O => ret tt
  | S rest =>
      let! rg := GetBandwidth nodeName in
      match rg with
      | Err _ =>
          if bool_decide (rest = O) then ret tt else write_initial_status rest nodeName
      | Ok bw =>
          let! now := Now in
          let bw := initial_status now bw in
          let! ru := UpdateStatus bw in
          match ru with
          | Err e =>
              if IsConflict e && bool_decide (rest <> O)
              then write_initial_status rest nodeName
              else ret tt
          | Ok bw => generateEvent EventVaclabNodeBandwidthCreated bw
          end
      end
  end.

Definition maxRetries : nat := 3%nat.

(** One node of the loop: an error ends the loop, [None] goes on. *)
Definition bootstrap_node (n : Node) : M W (option ApiError) :=
  let nodeName := meta_name (node_meta n) in
  let! rg := GetBandwidth nodeName in
  match rg with
  | Ok _ => ret None
  | Err e =>
      if negb (IsNotFound e) then ret (Some e)
      else
        let! rc := CreateBandwidth (new_bandwidth cfg nodeName) in
        match rc with
        | Err e => if IsAlreadyExists e then ret None else ret (Some e)
        | Ok _ => let! _ := write_initial_status maxRetries nodeName in ret None
        end
  end.

Fixpoint bootstrap (nodes : list Node) : M W (option ApiError) :=
  match nodes with
  | [] => ret None
  | n :: rest =>
      let! e := bootstrap_node n in
      match e with
      | Some err => ret (Some err)
      | None => bootstrap rest
      end
  end.

Definition createBandwidthResourcesForAllNodes : M W (option ApiError) :=
  let! rn := ListNodes in
  match rn with
  | Err e => ret (Some e)
  | Ok nodes => bootstrap nodes
  end.

(** ** [Reconcile] *)

(** The branch of a missing object: a request for a node's name creates it. *)
Definition reconcile_missing (name : string) : M W Outcome :=
  let! rn := GetNode name in
  match rn with
  | Err e => if IsNotFound e then ret (finish no_result None)
             else ret (finish no_result (Some e))
  | Ok _ =>
      let bw := new_bandwidth cfg name in
      let! _ := generateEvent EventVaclabNodeBandwidthCreating bw in
      let! rc := CreateBandwidth bw in
      match rc with
      | Err cerr =>
          if negb (IsAlreadyExists cerr) then
            let! rf := GetBandwidth (bw_name bw) in
            match rf with
            | Err _ => ret (finish no_result (Some cerr))
            | Ok bw =>
                let! now := Now in
                let bw := set_bw_status
                  {| bstat_status := Error;
                     bstat_error_reason := bstat_error_reason (bw_status bw);
                     bstat_used := bstat_used (bw_status bw);
                     bstat_remaining := bstat_remaining (bw_status bw);
                     bstat_reservations := bstat_reservations (bw_status bw);
                     bstat_capacity := bstat_capacity (bw_status bw);
                     bstat_updated_at := now |} bw in
                let! ru := UpdateStatus bw in
                let! _ := generateEvent EventVaclabNodeBandwidthFailed
                            (match ru with Ok b => b | Err _ => bw end) in
                ret (finish no_result (Some cerr))
            end
          else ret (finish requeue None)
      | Ok bwc =>
          let! rf := GetBandwidth (bw_name bwc) in
          match rf with
          | Err fetchErr => ret (finish no_result (Some fetchErr))
          | Ok bw =>
              let! now := Now in
              let! ru := UpdateStatus (initial_status now bw) in
              match ru with
              | Err statusErr =>
                  if IsConflict statusErr then ret (finish requeue None)
                  else ret (finish no_result (Some statusErr))
              | Ok bw =>
                  let! _ := generateEvent EventVaclabNodeBandwidthCreated bw in
                  ret (finish requeue None)
              end
          end
      end
  end.

Definition Reconcile (name : string) : M W Outcome :=
  let! rg := GetBandwidth name in
  match rg with
  | Err e => if IsNotFound e then reconcile_missing name else ret (finish no_result (Some e))
  | Ok bandwidth =>
      let st := bstat_status (bw_status bandwidth) in
      if bool_decide (st = None_) || bool_decide (st = StatusUnset) || bool_decide (st = Created)
      then SyncFromSpecAndPods parseQuantity cfg bandwidth
      else if bool_decide (st = Deleted) then ret (finish no_result None)
      else ret (finish no_result None)
  end.

(** ** [SetupBandwidthResource]

    Kept beside the handlers it precedes in the file; nothing calls it. *)

Definition setup_pods (pods : list Pod) : gmap string Pod :=
  foldl (fun m pod => if has_bw_annotation cfg pod then <[pod_uid pod := pod]> m else m) ∅ pods.

(** A request of the list: an annotated pod of the node is booked under its
    own request flag; an unknown pod with a UID and a demand is booked on both
    datapaths but leaves the clean requests. *)
Definition setup_step (podsWithBw : gmap string Pod) (l : Ledger) (req : BandwidthRequest)
    : Ledger :=
  match podsWithBw !! req_pod_uid req with
  | Some pod =>
      let '(ul, dl) := GetBandwidthFromAnnotation parseQuantity cfg pod in
      book pod ul dl (req_link_local req) l
  | None =>
      if negb (EqualFold (req_pod_uid req) "") &&
         (bool_decide (req_ul req > 0) || bool_decide (req_dl req > 0))
      then {| usedUlLocal := usedUlLocal l +! req_ul req;
              usedDlLocal := usedDlLocal l +! req_dl req;
              usedUlNetwork := usedUlNetwork l +! req_ul req;
              usedDlNetwork := usedDlNetwork l +! req_dl req;
              cleanRequests := cleanRequests l;
              reservationInfo := reservationInfo l ++
                [{| res_pod_name := req_pod_name req; res_namespace := req_namespace req;
                    res_pod_uid := req_pod_uid req; res_pod_ip := "";
                    res_deployment_type := ""; res_deployment_name := "";
                    res_deployment_uid := "";
                    res_bandwidth := {| Local := req_bandwidth req;
                                        Network := req_bandwidth req |} |}] |}
      else l
  end.

Definition drop_stale (nodeName : string) : M W unit :=
  let! rg := GetBandwidth nodeName in
  match rg with
  | Ok bw => let! _ := DeleteBandwidth bw in ret tt
  | Err _ => ret tt
  end.

Definition setup_write (bandwidth : Bandwidth) (remaining : Capacity) (l : Ledger)
    : M W Outcome :=
  let! now := Now in
  let bandwidth := set_bw_status
    {| bstat_status := Created;
       bstat_error_reason := bstat_error_reason (bw_status bandwidth);
       bstat_used := used_capacity l; bstat_remaining := remaining;
       bstat_reservations := reservationInfo l;
       bstat_capacity := bw_capacity bandwidth; bstat_updated_at := now |}
    (set_requests (cleanRequests l) bandwidth) in
  let! rs := UpdateStatus bandwidth in
  let bandwidth := match rs with Ok b => b | Err _ => bandwidth end in
  let! ru := UpdateBandwidth bandwidth in
  let bandwidth := match ru with Ok b => b | Err _ => bandwidth end in
  let! _ := generateEvent EventVaclabNodeBandwidthCreated bandwidth in
  ret (finish {| Requeue := false; RequeueAfter := 5000000000 |} None).

Definition SetupBandwidthResource (bandwidth : Bandwidth) : M W Outcome :=
  let nodeName := bspec_node (bw_spec bandwidth) in
  let bwName := bw_name bandwidth in
  let failed (reason : string) :=
    with_status Error reason (bstat_updated_at (bw_status bandwidth)) bandwidth in
  let! rn := GetNode nodeName in
  match rn with
  | Err nodeErr =>
      let! _ := drop_stale nodeName in
      if IsNotFound nodeErr then
        let! _ := generateEvent EventVaclabNodeBandwidthFailed (failed "node not found") in
        ret (finish no_result None)
      else
        let! _ := generateEvent EventVaclabNodeBandwidthFailed
                    (failed "unable to fetch node information") in
        ret (finish no_result (Some nodeErr))
  | Ok node =>
      if negb (EqualFold bwName (meta_name (node_meta node))) then
        let! _ := drop_stale nodeName in
        let! _ := generateEvent EventVaclabNodeBandwidthFailed
                    (failed "name mismatch between nodeName and bandwidthName") in
        ret (finish no_result None)
      else
        let! rg := GetBandwidth bwName in
        match rg with
        | Ok _ => ret (finish no_result None)
        | Err _ =>
            let bandwidth := setDefaultBandwidthValues cfg bandwidth in
            match bw_requests bandwidth with
            | [] => setup_write bandwidth zero_capacity empty_ledger
            | reqs =>
                let! rp := ListPodsOnNode nodeName in
                match rp with
                | Err e =>
                    let! _ := generateEvent EventVaclabNodeBandwidthFailed
                                (failed (bstat_error_reason (bw_status bandwidth))) in
                    ret (finish no_result (Some e))
                | Ok podList =>
                    let l := foldl (setup_step (setup_pods podList)) empty_ledger reqs in
                    setup_write bandwidth (remaining_capacity (bw_capacity bandwidth) l) l
                end
            end
        end
  end.
End Reconciler.
