(* ===== verification/ReconcilerProofs.v ===== *)
(** * Lemmas about the related nodes, the background task and the reconciler *)

From S2P Require Import Prelude.
From S2P Require Import KubeTypes.
From S2P Require Import BandwidthTypes.
From S2P Require Import Client.
From S2P Require Import OperatorHelpers.
From S2P Require Import Sync.
From S2P Require Import SyncProofs.
From S2P Require Import SyncTheorems.
From S2P Require Import Reconciler.

(** ** The nodes reported by the sibling search *)

Section Related.
Context {W : Type} `{!Client W}.
Variable parseQuantity : string -> option Z.
Variable cfg : BandwidthConfig.

Lemma siblings_nodes pod node w :
  (allSiblingsOnCurrentNode pod node w).1.1.2 = if standalone pod then [pod_node pod] else [].
Proof.
  unfold allSiblingsOnCurrentNode. destruct (standalone pod); [done|].
  rewrite bind_eq. by destruct (ListPodsInNamespace _ w) as [[l|e] w1].
Qed.

(** Nothing marked and nothing cached but empty node lists. *)
Definition no_related (a : SyncAcc) : Prop :=
  sy_affected a = ∅ /\
  forall u s n loc, sy_cache a !! u = Some (s, n, loc) -> n = [].

Context {view : W -> View} `{!ReadLaws W view}.

Lemma sync_resolve_in m v req w p b :
  view w = v -> (forall u q, m !! u = Some q -> q ∈ pods_of v) ->
  (sync_resolve m req w).1 = Some (p, b) -> p ∈ pods_of v.
Proof.
  intros Hv Hm. unfold sync_resolve.
  destruct (m !! req_pod_uid req) as [q|] eqn:E; [intros [= <- _]; by eapply Hm|].
  rewrite bind_eq. pose proof (get_pod_ok (req_namespace req) (req_pod_name req) w) as Hok.
  destruct (GetPod _ _ w) as [[q|e] w']; cbn in *; [|done].
  destruct (Hok q eq_refl) as [Hq _]. rewrite Hv in Hq. apply pods_of_lookup in Hq.
  destruct (_ && _); naive_solver.
Qed.

Lemma sync_step_no_related node m v ex a req w :
  view w = v -> (forall u q, m !! u = Some q -> q ∈ pods_of v) ->
  (forall p, p ∈ pods_of v -> standalone p = false) ->
  no_related a -> no_related (sync_step parseQuantity cfg node m ex a req w).1.
Proof.
  intros Hv Hm Hown [Ha Hc]. unfold sync_step. rewrite bind_eq.
  pose proof (sync_resolve_in m v req w) as Hin.
  pose proof (sync_resolve_view (view := view) m req w) as Hv1.
  destruct (sync_resolve m req w) as [[[p b]|] w1]; cbn [fst snd] in *.
  - specialize (Hin p b Hv Hm eq_refl). destruct (if b then _ else _) as [ul dl].
    assert (forall nodes cache, nodes = [] ->
      (forall u s n loc, cache !! u = Some (s, n, loc) -> n = []) ->
      no_related {| sy_ledger := sy_ledger a; sy_cache := cache;
        sy_affected := mark_nodes node nodes (sy_affected a); sy_fetches := [] |}) as Hgen.
    { intros nodes cache -> Hcache. split; [by cbn|done]. }
    rewrite bind_eq. unfold sync_siblings. destruct (sy_cache a !! _) as [[[s n] loc]|] eqn:E.
    + cbn [ret fst snd]. pose proof (Hc _ _ _ _ E) as ->.
      split; cbn; [|done]. by repeat case_match.
    + rewrite bind_eq. pose proof (siblings_nodes p node w1) as Hn.
      destruct (allSiblingsOnCurrentNode p node w1) as [[[s n] loc] w2]. cbn in Hn |- *.
      rewrite Hown in Hn by done. subst n. split; cbn; [by repeat case_match|].
      intros u s' n' loc' [[_ [= _ <- _]]|[_ ?]]%lookup_insert_Some; eauto.
  - unfold sync_drop. destruct (ex !! _) as [o|]; [|done]. rewrite bind_eq.
    pose proof (get_pod_ok (req_namespace o) (req_pod_name o) w1) as Hok.
    destruct (GetPod _ _ w1) as [[p|e] w2]; cbn in *; [|done].
    destruct (Hok p eq_refl) as [Hp _]. rewrite Hv1, Hv in Hp. apply pods_of_lookup in Hp.
    rewrite bind_eq. pose proof (siblings_nodes p node w2) as Hn.
    destruct (allSiblingsOnCurrentNode p node w2) as [[[s n] loc] w3]. cbn in Hn |- *.
    rewrite Hown in Hn by done. by subst n.
Qed.

Lemma sync_loop_no_related node m v ex reqs w :
  view w = v -> (forall u q, m !! u = Some q -> q ∈ pods_of v) ->
  (forall p, p ∈ pods_of v -> standalone p = false) ->
  no_related (foldM (sync_step parseQuantity cfg node m ex) sync_start reqs w).1.
Proof.
  intros Hv Hm Hown.
  apply (foldM_ind (fun _ a w' => view w' = v /\ no_related a)).
  - split; [done|]. split; [done|]. intros u s n loc Hx. cbn in Hx.
    by rewrite lookup_empty in Hx.
  - intros d r a w' _ [Hw' Ha]. rewrite sync_step_view. split; [done|].
    by apply sync_step_no_related with (v := v).
Qed.

Lemma sync_commit_background node bw a w :
  sy_affected a = ∅ -> out_background (sync_commit node bw a w).1 = [].
Proof.
  intros Ha. unfold sync_commit. rewrite Ha, elements_empty, bind_eq.
  destruct (fetch_related node (sy_fetches a) w) as [rel w1]. cbn [fst snd omap list_omap].
  assert (forall ch b w, out_background (sync_write_status ch [] b w).1 = []) as Hw.
  { intros ch b w'. unfold sync_write_status. destruct ch; [|done].
    rewrite bind_eq. destruct (Now w') as [now w2]. rewrite bind_eq. cbn [fst snd].
    by destruct (UpdateStatus _ w2) as [[?|?] ?]. }
  destruct (spec_changed _ _ _); [|apply Hw].
  rewrite bind_eq. destruct (UpdateBandwidth _ w1) as [[bwu|e] w2]; cbn [fst snd]; [|done].
  rewrite bind_eq. destruct (GetBandwidth _ w2) as [[bwg|e] w3]; cbn [fst snd]; [|done].
  apply Hw.
Qed.

Lemma fail_with_background b reason e w : out_background (fail_with b reason e w).1 = [].
Proof.
  unfold fail_with. rewrite bind_eq. destruct (Now w). cbn [fst snd]. by rewrite bind_eq.
Qed.

Lemma sync_background b w :
  (forall p, p ∈ pods_of (view w) -> standalone p = false) ->
  out_background (SyncFromSpecAndPods parseQuantity cfg b w).1 = [].
Proof.
  intros Hown. unfold SyncFromSpecAndPods. rewrite bind_eq.
  pose proof (get_node_view (bspec_node (bw_spec b)) w) as Hv1.
  destruct (GetNode _ w) as [[nd|e] w1]; cbn [fst snd] in *.
  2:{ destruct (IsNotFound e); [by rewrite bind_eq|apply fail_with_background]. }
  destruct (negb _); [apply fail_with_background|].
  rewrite bind_eq. pose proof (list_on_node_view (bspec_node (bw_spec b)) w1) as Hv2.
  pose proof (list_on_node_ok (bspec_node (bw_spec b)) w1) as Hl.
  destruct (ListPodsOnNode _ w1) as [[pods|e] w2]; cbn [fst snd] in *;
    [|apply fail_with_background].
  rewrite bind_eq. apply sync_commit_background.
  eapply (sync_loop_no_related _ _ (view w)); [congruence| |done].
  intros u q Hq. apply pods_with_bw_Some in Hq as [Hq _]. rewrite (Hl pods eq_refl), Hv1 in Hq.
  by apply list_elem_of_filter in Hq as [_ ?].
Qed.
End Related.

(** ** The background task *)

Section Single.
Context {W : Type} `{!Client W} {view : W -> View} `{!ClientLaws W view}.
Variable parseQuantity : string -> option Z.
Variable cfg : BandwidthConfig.

(** The refresh of the caller's copy by [Update] brings the stored status back
    before [Status().Update] writes it. *)
Lemma single_sync_status old b w :
  v_bws (view w) !! bw_name b = Some old -> bstat_status (bw_status old) <> StatusUnset ->
  is_Some (v_nodes (view w) !! bspec_node (bw_spec b)) ->
  (syncSingleNodeBandwidth parseQuantity cfg b w).1 = None ->
  exists l new, loop_ok (bw_requests b) l /\
    view (syncSingleNodeBandwidth parseQuantity cfg b w).2
      = set_bws <[bw_name b := new]> (view w) /\
    bw_requests new = cleanRequests l /\ bw_status new = bw_status old.
Proof.
  intros Hold Hset [nd Hnd]. unfold syncSingleNodeBandwidth. rewrite bind_eq.
  pose proof (get_node_view (bspec_node (bw_spec b)) w) as Hv1.
  pose proof (get_node_absent (bspec_node (bw_spec b)) w) as Habs.
  destruct (GetNode _ w) as [[nd'|e] w1]; cbn [fst snd] in *.
  2:{ unfold IsNotFound. case_bool_decide; [subst; specialize (Habs eq_refl); congruence|done]. }
  rewrite bind_eq. pose proof (list_on_node_view (bspec_node (bw_spec b)) w1) as Hv2.
  destruct (ListPodsOnNode _ w1) as [[pods|e] w2]; cbn [fst snd] in *; [|done].
  rewrite bind_eq, set_defaults_requests.
  set (start := {| sg_ledger := empty_ledger; sg_cache := ∅ |}).
  pose proof (single_loop_ok parseQuantity cfg (bspec_node (bw_spec b))
    (pods_with_bw cfg pods) (bw_requests b) start w2
    ltac:(auto with go) ltac:(apply loop_ok_empty)) as Hl.
  pose proof (foldM_view (view := view) (single_step parseQuantity cfg (bspec_node (bw_spec b))
    (pods_with_bw cfg pods)) start (bw_requests b) w2
    ltac:(intros; apply single_step_view)) as Hv3.
  destruct (foldM _ _ _ w2) as [a w3]. cbn [fst snd] in *.
  rewrite bind_eq. pose proof (now_view w3) as Hv4.
  destruct (Now w3) as [now w4]. cbn [fst snd] in *.
  set (bw1 := set_bw_status _ _). rewrite bind_eq.
  pose proof (update_ok (view := view) bw1 w4) as Hu.
  destruct (UpdateBandwidth bw1 w4) as [[bwu|e] w5]; cbn [fst snd] in *; [|done].
  destruct (Hu bwu eq_refl) as (o & new & Ho & (Hnn & Hsp & Hst) & Hv5 & Hm & Hs & Hst').
  change (bw_name bw1) with (bw_name b) in *.
  assert (view w4 = view w) as Hv by congruence. rewrite Hv in Ho, Hv5.
  rewrite Hold in Ho. injection Ho as <-. specialize (Hst' Hset).
  rewrite bind_eq. pose proof (status_ok (view := view) bwu w5) as Hw.
  destruct (UpdateStatus bwu w5) as [[bws|e] w6]; cbn [fst snd] in *; [|done].
  destruct (Hw bws eq_refl) as (o & new2 & Ho & (Hnn2 & Hsp2 & Hst2) & Hv6 & _).
  assert (bw_name bwu = bw_name b) as Hnu.
  { transitivity (bw_name new); [unfold bw_name; by rewrite Hm|].
    exact Hnn. }
  rewrite Hnu, Hv5 in Ho, Hv6. cbn in Ho. rewrite lookup_insert_eq in Ho. injection Ho as <-.
  rewrite set_bws_insert_insert in Hv6. intros _.
  exists (sg_ledger a), new2. split; [done|]. split; [done|]. split.
  - unfold bw_requests. by rewrite Hsp2, Hsp.
  - congruence.
Qed.
End Single.

(** ** The reconciler *)

Section Reconcile.
Context {W : Type} `{!Client W} {view : W -> View} `{!ClientLaws W view}.
Variable parseQuantity : string -> option Z.
Variable cfg : BandwidthConfig.

(** The states [Reconcile] acts on. *)
Definition syncable (st : Status) : bool :=
  bool_decide (st = None_) || bool_decide (st = StatusUnset) || bool_decide (st = Created).

Lemma reconcile_ignores name b w :
  v_bws (view w) !! name = Some b -> syncable (bstat_status (bw_status b)) = false ->
  view (Reconcile parseQuantity cfg name w).2 = view w.
Proof.
  intros Hb Hst. unfold Reconcile. rewrite bind_eq.
  pose proof (get_bw_view name w) as Hv. pose proof (get_bw_ok name w) as Hok.
  pose proof (get_bw_absent name w) as Habs.
  destruct (GetBandwidth name w) as [[b'|e] w1]; cbn [fst snd] in *.
  - destruct (Hok b' eq_refl) as [Hb' _]. rewrite Hb in Hb'. injection Hb' as <-.
    unfold syncable in Hst. rewrite Hst.
    by destruct (bool_decide (bstat_status (bw_status b) = Deleted)).
  - destruct e; try done. specialize (Habs eq_refl). congruence.
Qed.

(** Any number of further reconciliations. *)
Definition reconcile_all (names : list string) : M W unit :=
  foldM (fun _ n => let! _ := Reconcile parseQuantity cfg n in ret tt) tt names.

Lemma reconcile_stuck name b k w :
  v_bws (view w) !! name = Some b -> syncable (bstat_status (bw_status b)) = false ->
  view (reconcile_all (repeat name k) w).2 = view w.
Proof.
  intros Hb Hst. unfold reconcile_all.
  apply (foldM_ind (fun _ _ w' => view w' = view w)); [done|].
  intros d a s w' Ha Hw'. rewrite bind_eq. cbn [ret snd].
  apply list_elem_of_In, repeat_spec in Ha as ->.
  rewrite <- Hw'. eapply reconcile_ignores; [by rewrite Hw'|done].
Qed.

End Reconcile.

(** ** The bootstrap *)

Section Bootstrap.
Context {W : Type} `{!Client W} {view : W -> View} `{!ClientLaws W view}.
Variable cfg : BandwidthConfig.

Abbreviation names w := (dom (v_bws (view w))).

Lemma initial_status_names n name w : names w ⊆ names (write_initial_status n name w).2.
Proof.
  revert w. induction n as [|n IH]; intros w; [done|]. cbn [write_initial_status].
  rewrite bind_eq. rewrite <- (get_bw_view name w).
  destruct (GetBandwidth name w) as [[b|e] w1]; cbn [fst snd].
  2:{ destruct (bool_decide (n = O)); [done|apply IH]. }
  rewrite bind_eq. rewrite <- (now_view w1). destruct (Now w1) as [now w2]. cbn [fst snd].
  rewrite bind_eq. pose proof (status_dom (view := view) (initial_status now b) w2) as Hd.
  destruct (UpdateStatus _ w2) as [[b'|e] w3]; cbn [fst snd] in *.
  - unfold generateEvent. destruct (bool_decide _); by rewrite event_view.
  - destruct (_ && _); [|done]. etrans; [exact Hd|apply IH].
Qed.

Lemma bootstrap_node_spec n w :
  let r := bootstrap_node cfg n w in
  names w ⊆ names r.2 /\ (r.1 = None -> meta_name (node_meta n) ∈ names r.2).
Proof.
  unfold bootstrap_node. set (name := meta_name (node_meta n)). rewrite bind_eq.
  pose proof (get_bw_view name w) as Hv. pose proof (get_bw_ok name w) as Hok.
  destruct (GetBandwidth name w) as [[b|e] w1]; cbn [fst snd] in *.
  { cbn [ret fst snd]. rewrite Hv. split; [done|]. intros _. destruct (Hok b eq_refl) as [Hb _].
    apply elem_of_dom. eauto. }
  destruct (negb (IsNotFound e)); [cbn [ret fst snd]; by rewrite Hv|].
  rewrite bind_eq. pose proof (create_dom (view := view) (new_bandwidth cfg name) w1) as Hd.
  pose proof (create_ok (view := view) (new_bandwidth cfg name) w1) as Hc.
  pose proof (create_exists (view := view) (new_bandwidth cfg name) w1) as Hx.
  destruct (CreateBandwidth _ w1) as [[b|e'] w2]; cbn [fst snd] in *; rewrite Hv in *.
  - destruct (Hc b eq_refl) as (_ & _ & _ & _ & Hv2). rewrite bind_eq. cbn [ret fst snd].
    pose proof (initial_status_names maxRetries name w2) as Hs.
    split; [by etrans|]. intros _. apply Hs. rewrite Hv2. cbn. apply dom_insert. set_solver.
  - unfold IsAlreadyExists. case_bool_decide as He; cbn [ret fst snd]; [|done].
    split; [done|]. intros _. subst. destruct (Hx eq_refl) as [Hs Hv2]. rewrite Hv2.
    apply elem_of_dom. exact Hs.
Qed.

Lemma bootstrap_spec nodes w :
  let r := bootstrap cfg nodes w in
  names w ⊆ names r.2 /\
  (r.1 = None -> forall n, n ∈ nodes -> meta_name (node_meta n) ∈ names r.2).
Proof.
  revert w. induction nodes as [|n nodes IH]; intros w.
  { split; [done|]. by intros _ n ?%not_elem_of_nil. }
  cbn [bootstrap]. rewrite bind_eq. destruct (bootstrap_node_spec n w) as [H1 H2].
  destruct (bootstrap_node cfg n w) as [[e|] w1]; cbn [fst snd] in *; [by split|].
  destruct (IH w1) as [H3 H4]. split; [by etrans|].
  intros Hr m [->|Hm]%elem_of_cons; [apply H3; auto|auto].
Qed.
End Bootstrap.
