(* ===== verification/Demo.v ===== *)
(** * Concrete clusters

    The clusters, built on the client [Store], in which the witnesses and the
    examples evaluate the models. *)

From S2P Require Import Prelude.
From S2P Require Import KubeTypes.
From S2P Require Import BandwidthTypes.
From S2P Require Import Client.
From S2P Require Import Store.
From S2P Require Import OperatorHelpers.
From S2P Require Import Sync.
From S2P Require Import SyncProofs.
From S2P Require Import SyncTheorems.

(** The flag defaults of [cmd/main.go]. *)
Definition default_config : BandwidthConfig := {|
  DefaultLocalUL := 20000; DefaultLocalDL := 20000;
  DefaultNetworkUL := 1000; DefaultNetworkDL := 1000;
  EgressBandwidthAnnotation := "ovn.kubernetes.io/egress_rate";
  IngressBandwidthAnnotation := "ovn.kubernetes.io/ingress_rate" |}.

Module Clusters.
Definition no_quantity (_ : string) : option Z := None.

Definition annotated (rate : string) : gmap string string :=
  {[ "ovn.kubernetes.io/egress_rate" := rate; "ovn.kubernetes.io/ingress_rate" := rate ]}.

Definition web := mk_owner "ReplicaSet" "web" "rs-1".

(** A pod of the workload "web" running on [node] at 20 Mbps. *)
Definition web_pod (name node : string) : Pod :=
  mk_pod "default" name ("uid-" +:+ name) node PodRunning (annotated "20") [web].

Definition request (name : string) (rate : Z) : BandwidthRequest := {|
  req_pod_name := name; req_namespace := "default"; req_pod_uid := "uid-" +:+ name;
  req_link_local := false; req_bandwidth := {| UlMbps := rate; DlMbps := rate |} |}.

Definition node_bw (node : string) (reqs : list BandwidthRequest) : Bandwidth := {|
  bw_meta := meta_named "" node "";
  bw_spec := {| bspec_node := node; bspec_capacity := zero_capacity;
                bspec_requests := reqs; bspec_status := StatusUnset |};
  bw_status := {| bstat_status := Created; bstat_error_reason := "";
                  bstat_used := zero_capacity; bstat_remaining := zero_capacity;
                  bstat_reservations := []; bstat_capacity := zero_capacity;
                  bstat_updated_at := 0 |} |}.

(** Two pods of one workload, on one node and on two. *)
Definition together (faults : list (option string)) : Store :=
  mk_store [mk_node "n1"; mk_node "n2"] [web_pod "a" "n1"; web_pod "b" "n1"]
    [node_bw "n1" [request "a" 20; request "b" 20]] faults.
Definition apart : Store :=
  mk_store [mk_node "n1"; mk_node "n2"] [web_pod "a" "n1"; web_pod "b" "n2"]
    [node_bw "n1" [request "a" 20]; node_bw "n2" [request "b" 20]] [].

Definition sync (b : Bandwidth) : M Store Outcome :=
  SyncFromSpecAndPods no_quantity default_config b.
Definition stored (s : Store) (n : string) : option Bandwidth := v_bws (store_view s) !! n.
Definition stored_or (s : Store) (n : string) : Bandwidth :=
  default (node_bw n []) (stored s n).
(** The cluster after one synchronisation of the node's object. *)
Definition synced (s : Store) (n : string) : Store := (sync (stored_or s n) s).2.
End Clusters.
Import Clusters.

Ltac decide_now := apply (bool_decide_unpack _); vm_compute; exact I.

Lemma demo_current s b :
  bool_decide (v_bws (store_view s) !! bw_name b = Some b) = true ->
  bool_decide (bspec_node (bw_spec b) = bw_name b) = true ->
  bool_decide (is_Some (v_nodes (store_view s) !! bw_name b)) = true ->
  bool_decide (NoDup (req_pod_uid <$> bw_requests b)) = true ->
  current (store_view s) b.
Proof. rewrite !bool_decide_eq_true. by split. Qed.

(** Owner coherence is decidable on a concrete list of pods. *)
Definition coherent_b (l : list Pod) : bool :=
  forallb (fun p => forallb (fun q =>
    negb (bool_decide (wl_uid (GetWorkloadRefFromPod p) = wl_uid (GetWorkloadRefFromPod q))) ||
    bool_decide (pod_namespace p = pod_namespace q) &&
    bool_decide (wl_kind (GetWorkloadRefFromPod p) = wl_kind (GetWorkloadRefFromPod q))) l) l.

Lemma demo_cluster_ok s :
  bool_decide (NoDup (pod_uid <$> pods_of (store_view s))) = true ->
  coherent_b (pods_of (store_view s)) = true -> cluster_ok (store_view s).
Proof.
  intros H1%bool_decide_eq_true H2. split; [|done|].
  - intros k p Hp. by apply map_lookup_filter_Some in Hp as [_ ?].
  - intros p q Hp Hq Hu. unfold coherent_b in H2. rewrite forallb_forall in H2.
    apply list_elem_of_In in Hp, Hq. specialize (H2 p Hp). rewrite forallb_forall in H2.
    specialize (H2 q Hq). rewrite Hu, bool_decide_eq_true_2 in H2 by done. cbn in H2.
    by rewrite andb_true_iff, !bool_decide_eq_true in H2.
Qed.
