(* ===== verification/OperatorClaims.v ===== *)
(** * The operator's properties

    The theorems of the bandwidth operator, each with a run of the concrete
    client [Store] in which its hypotheses hold. *)

From S2P Require Import Prelude.
From S2P Require Import KubeTypes.
From S2P Require Import BandwidthTypes.
From S2P Require Import Client.
From S2P Require Import Store.
From S2P Require Import OperatorHelpers.
From S2P Require Import Sync.
From S2P Require Import SyncProofs.
From S2P Require Import SyncTheorems.
From S2P Require Import Reconciler.
From S2P Require Import ReconcilerProofs.
From S2P Require Import Demo.
Import Demo.Clusters.

(** ** The status of a synchronised node *)

(** C1. When [SyncFromSpecAndPods] succeeds on the stored object of an existing
    node, it replaces that object only, and the object it leaves is balanced:
    used bandwidth is the total over the kept requests (link-local ones use the
    virtual switch alone), remaining is capacity minus used, the capacities of
    spec and status agree, the status is Created with no error, and there is
    one reservation per request. Capacities are read with the defaults applied. *)
Theorem sync_leaves_balanced {W} `{!Client W} {view : W -> View} `{!ClientLaws W view}
    parseQuantity cfg b w :
  current (view w) b ->
  out_err (SyncFromSpecAndPods parseQuantity cfg b w).1 = None ->
  exists b', view (SyncFromSpecAndPods parseQuantity cfg b w).2
             = set_bws <[bw_name b := b']> (view w) /\
    balanced (setDefaultBandwidthValues cfg b') /\
    (req_pod_uid <$> bw_requests b') `sublist_of` (req_pod_uid <$> bw_requests b).
Proof.
  intros Hc He.
  destruct (sync_settles (view := view) parseQuantity cfg b w Hc He)
    as (l & [Hl Hsub] & b' & Hv & Hn & _ & Hr & Ha & _).
  exists b'. split; [done|]. split; [|by rewrite Hr]. by apply (agrees_balanced cfg b' l).
Qed.

Lemma sync_leaves_balanced_witness :
  exists b', store_view (synced (together []) "n1")
      = set_bws <["n1" := b']> (store_view (together [])) /\
    balanced (setDefaultBandwidthValues default_config b') /\
    (req_pod_uid <$> bw_requests b') `sublist_of`
      (req_pod_uid <$> bw_requests (stored_or (together []) "n1")).
Proof.
  apply (sync_leaves_balanced (view := store_view) no_quantity default_config
           (stored_or (together []) "n1") (together [])).
  - apply demo_current; vm_compute; reflexivity.
  - vm_compute. reflexivity.
Defined.

(** C2. The accounting loop of [SyncFromSpecAndPods], with its cache of sibling
    lookups and its early continues, computes the reference specification
    [keep] on each request, whenever the API server answers: it keeps a request
    whose pod is accounted on the node at the annotated rate, keeps a pending
    pod's request at the requested rate, drops the others, and marks a request
    link-local exactly when all live pods of the workload are on the node. *)
Theorem sync_loop_refines_keep {W} `{!Client W} {view : W -> View} `{!ClientLaws W view}
    {healthy : W -> Prop} `{!HealthLaws W view healthy} parseQuantity cfg node pods ex reqs w :
  cluster_ok (view w) -> healthy w -> (ListPodsOnNode node w).1 = Ok pods ->
  cleanRequests (sy_ledger
    (foldM (sync_step parseQuantity cfg node (pods_with_bw cfg pods) ex) sync_start reqs
       (ListPodsOnNode node w).2).1)
  = omap (keep parseQuantity cfg (view w) node) reqs.
Proof.
  intros Hc Hh Hl. destruct (health_list_on_node node w Hh) as [Hh2 _].
  apply (sync_loop_on_list (view := view) parseQuantity cfg (healthy := healthy));
    [done|done|by rewrite list_on_node_view|by apply list_on_node_ok].
Qed.

Lemma sync_loop_refines_keep_witness :
  exists pods, (ListPodsOnNode "n1" (together [])).1 = Ok pods /\
  cleanRequests (sy_ledger
    (foldM (sync_step no_quantity default_config "n1" (pods_with_bw default_config pods) ∅)
       sync_start [request "a" 20; request "b" 20; request "ghost" 5]
       (ListPodsOnNode "n1" (together [])).2).1)
  = omap (keep no_quantity default_config (store_view (together [])) "n1")
         [request "a" 20; request "b" 20; request "ghost" 5].
Proof.
  eexists. split; [reflexivity|].
  apply (sync_loop_refines_keep (view := store_view) (healthy := store_healthy)
           no_quantity default_config "n1" _ ∅ _ (together []));
    [apply demo_cluster_ok; vm_compute; reflexivity|reflexivity|reflexivity].
Defined.

(** What the specification says of that cluster: two link-local requests, and
    the request of a pod that does not exist is gone. *)
Example keep_together :
  (fun r => (req_pod_uid r, req_link_local r)) <$>
    omap (keep no_quantity default_config (store_view (together [])) "n1")
      [request "a" 20; request "b" 20; request "ghost" 5]
  = [("uid-a", true); ("uid-b", true)].
Proof. vm_compute. reflexivity. Qed.

(** C15. Reconciliation reaches a fixed point in one step: once
    [SyncFromSpecAndPods] has succeeded, calling it again on the object it left,
    in any later world with the same cluster where the server answers, succeeds
    and writes nothing. *)
Theorem sync_quiescent {W} `{!Client W} {view : W -> View} `{!ClientLaws W view}
    {healthy : W -> Prop} `{!HealthLaws W view healthy} parseQuantity cfg b b' w w2 :
  current (view w) b -> cluster_ok (view w) -> healthy w ->
  out_err (SyncFromSpecAndPods parseQuantity cfg b w).1 = None ->
  view w2 = view (SyncFromSpecAndPods parseQuantity cfg b w).2 -> healthy w2 ->
  v_bws (view w2) !! bw_name b = Some b' ->
  view (SyncFromSpecAndPods parseQuantity cfg b' w2).2 = view w2 /\
  out_err (SyncFromSpecAndPods parseQuantity cfg b' w2).1 = None.
Proof.
  intros Hcur Hc Hh He Hw2 Hh2 Hb'.
  destruct (sync_runs_healthy parseQuantity cfg b w Hcur Hc Hh) as (a & w1 & Hv1 & Hr & Hl & Hcl).
  pose proof Hcur as [Hs Hn Hnode Hu].
  destruct (sync_commit_settles (view := view) cfg (bw_name b) (view w) b a w1)
    as (b2 & Hv & Hn2 & Hnn2 & Hreq & Hag & _); [done..|by rewrite <- Hr|].
  rewrite <- Hr, <- Hw2 in Hv. rewrite Hv in Hb'. cbn in Hb'.
  rewrite lookup_insert_eq in Hb'. injection Hb' as <-.
  assert (current (view w2) b2) as Hcur2.
  { split; rewrite ?Hn2, ?Hv; cbn; [apply lookup_insert_eq|by rewrite Hnn2|done|].
    rewrite Hreq. eapply sublist_NoDup; [exact Hu|apply Hl]. }
  assert (cluster_ok (view w2)) as Hc2 by (rewrite Hv; by destruct Hc).
  apply (sync_idle (view := view) parseQuantity cfg (healthy := healthy)); [done..| |].
  - rewrite Hn2, Hreq, Hcl, Hv. apply (omap_keep_keep parseQuantity cfg (view w)). apply Hc.
  - intros l Hlok Hlc. apply (agrees_clean _ (sy_ledger a)); [apply Hl|done|congruence|done].
Qed.

Lemma sync_quiescent_witness :
  store_view (synced (synced (together []) "n1") "n1") = store_view (synced (together []) "n1") /\
  out_err (sync (stored_or (synced (together []) "n1") "n1") (synced (together []) "n1")).1 = None.
Proof.
  apply (sync_quiescent (view := store_view) (healthy := store_healthy) no_quantity default_config
           (stored_or (together []) "n1") _ (together []) (synced (together []) "n1"));
    [apply demo_current; vm_compute; reflexivity
    |apply demo_cluster_ok; vm_compute; reflexivity
    |reflexivity|vm_compute; reflexivity|reflexivity|vm_compute; reflexivity
    |vm_compute; reflexivity].
Defined.

(** C27. Whatever the client answers, and however its calls fail, the loop's
    running totals are the totals of the requests it kept (modulo 2^64), each
    kept request has its mirror reservation, and the kept pod UIDs are a
    sublist of the requested ones: a request is never invented or duplicated. *)
Theorem sync_loop_ledger {W} `{!Client W} parseQuantity cfg node pods ex reqs (w : W) :
  let l := sy_ledger (foldM (sync_step parseQuantity cfg node (pods_with_bw cfg pods) ex)
                        sync_start reqs w).1 in
  used_capacity l = used_by (cleanRequests l) /\
  Forall2 mirrors (cleanRequests l) (reservationInfo l) /\
  (req_pod_uid <$> cleanRequests l) `sublist_of` (req_pod_uid <$> reqs).
Proof.
  intros l. destruct (sync_loop_ok parseQuantity cfg node (pods_with_bw cfg pods) ex reqs
    sync_start w) as [[Hu Hm] Hs]; auto with go.
Qed.

(** The sibling search answers "all on this node" exactly when the workload
    has a live pod and every live pod of it in the namespace is on the node;
    a standalone pod is never local. *)
Theorem siblings_local_iff {W} `{!Client W} {view : W -> View} `{!ClientLaws W view}
    pod node w w' slice nodes answer :
  allSiblingsOnCurrentNode pod node w = (slice, nodes, answer, w') ->
  is_Ok (ListPodsInNamespace (pod_namespace pod) w).1 = true ->
  answer = true <->
  standalone pod = false /\
  colocated (GetWorkloadRefFromPod pod) node
    (filter (fun p => pod_namespace p = pod_namespace pod) (pods_of (view w))).
Proof.
  unfold allSiblingsOnCurrentNode. destruct (standalone pod).
  { intros [= _ _ <- _]. naive_solver. }
  rewrite bind_eq. pose proof (list_in_ns_ok (pod_namespace pod) w) as Hok.
  destruct (ListPodsInNamespace _ w) as [[l|e] w1]; cbn in *; [|done].
  intros [= _ _ <- _] _. rewrite sibling_answer_spec.
  specialize (Hok l eq_refl). unfold colocated. setoid_rewrite Hok. naive_solver.
Qed.

Lemma siblings_local_iff_witness :
  (true = true <->
   standalone (web_pod "a" "n1") = false /\
   colocated (GetWorkloadRefFromPod (web_pod "a" "n1")) "n1"
     (filter (fun p => pod_namespace p = "default") (pods_of (store_view (together []))))).
Proof.
  eapply (siblings_local_iff (view := store_view) (web_pod "a" "n1") "n1" (together []));
    vm_compute; reflexivity.
Defined.

(** C35. The bootstrap covers the cluster: no object disappears, and when
    [createBandwidthResourcesForAllNodes] returns no error every node that
    existed has its [Bandwidth] object, whichever statuses could be written. *)
Theorem bootstrap_covers_nodes {W} `{!Client W} {view : W -> View} `{!ClientLaws W view} cfg w :
  (createBandwidthResourcesForAllNodes cfg w).1 = None ->
  dom (v_bws (view w)) ⊆ dom (v_bws (view (createBandwidthResourcesForAllNodes cfg w).2)) /\
  (forall n, is_Some (v_nodes (view w) !! n) ->
     n ∈ dom (v_bws (view (createBandwidthResourcesForAllNodes cfg w).2))).
Proof.
  unfold createBandwidthResourcesForAllNodes. rewrite bind_eq.
  pose proof (list_nodes_view w) as Hv. pose proof (list_nodes_ok w) as Hok.
  destruct (ListNodes w) as [[nodes|e] w1]; cbn [fst snd] in *; [|done].
  intros Hr. destruct (bootstrap_spec (view := view) cfg nodes w1) as [Hd Hn].
  rewrite Hv in Hd. split; [done|]. intros n Hnd.
  apply (Hok nodes eq_refl) in Hnd as (nd & Hin & <-). by apply Hn.
Qed.

Lemma bootstrap_covers_nodes_witness :
  let w := mk_store [mk_node "n1"; mk_node "n2"] [] [node_bw "n2" []] [] in
  dom (v_bws (store_view w))
    ⊆ dom (v_bws (store_view (createBandwidthResourcesForAllNodes default_config w).2)) /\
  (forall n, is_Some (v_nodes (store_view w) !! n) ->
     n ∈ dom (v_bws (store_view (createBandwidthResourcesForAllNodes default_config w).2))).
Proof.
  intros w. apply (bootstrap_covers_nodes (view := store_view) default_config w).
  vm_compute. reflexivity.
Defined.

(** A failed pod list stops the node's accounting for good: the handler
    stores status Error and returns the error so that the key is retried, but
    [Reconcile] does nothing on an object in status Error, however often the
    retries run. *)
Theorem list_failure_is_permanent {W} `{!Client W} {view : W -> View} `{!ClientLaws W view}
    parseQuantity cfg b b' nd e w w1 w2 k :
  current (view w) b ->
  GetNode (bspec_node (bw_spec b)) w = (Ok nd, w1) ->
  ListPodsOnNode (bspec_node (bw_spec b)) w1 = (Err e, w2) ->
  (UpdateStatus (with_status Error "failed to list pods for specified node"
     (Now w2).1 (setDefaultBandwidthValues cfg b)) (Now w2).2).1 = Ok b' ->
  let r := SyncFromSpecAndPods parseQuantity cfg b w in
  out_err r.1 = Some e /\
  (exists stored, v_bws (view r.2) !! bw_name b = Some stored /\
     bstat_status (bw_status stored) = Error) /\
  view (reconcile_all parseQuantity cfg (repeat (bw_name b) k) r.2).2 = view r.2.
Proof.
  intros [Hs Hn [nd' Hnode] _] Hg Hl Hst.
  assert (SyncFromSpecAndPods parseQuantity cfg b w
    = fail_with (setDefaultBandwidthValues cfg b) "failed to list pods for specified node"
        (Some e) w2) as Hr.
  { unfold SyncFromSpecAndPods. rewrite bind_eq, Hg. cbn [fst snd].
    destruct (get_node_ok (view := view) (bspec_node (bw_spec b)) w nd) as [_ Hnm];
      [by rewrite Hg|].
    rewrite Hnm, Hn, EqualFold_refl. cbn [negb]. by rewrite bind_eq, <- Hn, Hl. }
  cbn zeta. rewrite Hr. clear Hr. unfold fail_with. rewrite bind_eq.
  destruct (Now w2) as [now w3]. cbn [fst snd] in *. rewrite bind_eq.
  destruct (status_ok (view := view) _ _ _ Hst) as (o & new & _ & (_ & _ & Hst2) & Hv & _).
  destruct (UpdateStatus _ w3) as [rs w4]. cbn [ret fst snd] in *.
  assert (v_bws (view w4) !! bw_name b = Some new) as Hnew.
  { rewrite Hv. cbn. apply lookup_insert_eq. }
  assert (bstat_status (bw_status new) = Error) as He by (by rewrite Hst2).
  split; [done|]. split; [eauto|].
  eapply reconcile_stuck; [exact Hnew|by rewrite He].
Qed.

(** The pod list fails once, the later calls succeed. *)
Lemma list_failure_is_permanent_witness :
  let w := together [None; Some "timeout"] in
  let r := sync (stored_or w "n1") w in
  out_err r.1 = Some (OtherError "timeout") /\
  (exists stored, v_bws (store_view r.2) !! "n1" = Some stored /\
     bstat_status (bw_status stored) = Error) /\
  store_view (reconcile_all no_quantity default_config (repeat "n1" 10) r.2).2 = store_view r.2.
Proof.
  intros w.
  eapply (list_failure_is_permanent (view := store_view) no_quantity default_config
            (stored_or w "n1") _ _ _ w);
    [apply demo_current; vm_compute; reflexivity|vm_compute; reflexivity
    |vm_compute; reflexivity|vm_compute; reflexivity].
Defined.

(** The status is written only when a total, a capacity, the state or the
    number of reservations changed: otherwise a successful synchronisation
    leaves the stored status as it is, reservations included, whatever pods and
    workloads the clean requests now name. *)
Theorem sync_keeps_stale_status {W} `{!Client W} {view : W -> View} `{!ClientLaws W view}
    parseQuantity cfg b w :
  current (view w) b ->
  out_err (SyncFromSpecAndPods parseQuantity cfg b w).1 = None ->
  exists l b', loop_ok (bw_requests b) l /\
    view (SyncFromSpecAndPods parseQuantity cfg b w).2 = set_bws <[bw_name b := b']> (view w) /\
    bw_requests b' = cleanRequests l /\
    (status_changed (setDefaultBandwidthValues cfg b) l = false ->
     bw_status b' = bw_status b).
Proof.
  intros Hc He.
  destruct (sync_settles (view := view) parseQuantity cfg b w Hc He)
    as (l & Hl & b' & Hv & _ & _ & Hr & _ & Hk).
  exists l, b'. repeat (split; [done|]). intros Hs. apply Hk.
  apply status_unchanged in Hs. by rewrite set_defaults_status in Hs.
Qed.

(** Pod "a" is replaced by pod "c" of another workload at the same rate. *)
Definition replaced : Store :=
  mk_store [mk_node "n1"; mk_node "n2"]
    [web_pod "c" "n1"; web_pod "d" "n2"]
    [set_requests [request "c" 20]
       (stored_or (synced (mk_store [mk_node "n1"; mk_node "n2"]
                     [web_pod "a" "n1"; web_pod "b" "n2"] [node_bw "n1" [request "a" 20]] []) "n1")
          "n1")] [].

(** The reservations still name the pod that is gone. *)
Example replaced_stale :
  let b := stored_or (synced replaced "n1") "n1" in
  (req_pod_uid <$> bw_requests b) = ["uid-c"] /\
  (res_pod_uid <$> bstat_reservations (bw_status b)) = ["uid-a"].
Proof. vm_compute. by split. Qed.

Lemma sync_keeps_stale_status_witness :
  exists l b', loop_ok (bw_requests (stored_or replaced "n1")) l /\
    store_view (synced replaced "n1") = set_bws <["n1" := b']> (store_view replaced) /\
    bw_requests b' = cleanRequests l /\
    (status_changed (setDefaultBandwidthValues default_config (stored_or replaced "n1")) l = false ->
     bw_status b' = bw_status (stored_or replaced "n1")).
Proof.
  apply (sync_keeps_stale_status (view := store_view) no_quantity default_config
           (stored_or replaced "n1") replaced).
  - apply demo_current; vm_compute; reflexivity.
  - vm_compute. reflexivity.
Defined.

(** The background task never refreshes a status: when
    [syncSingleNodeBandwidth] succeeds it stores the recomputed requests, but
    the status it computed is replaced by the server's copy in the answer of
    [Update], and [Status().Update] writes the old status back. *)
Theorem single_sync_keeps_status {W} `{!Client W} {view : W -> View} `{!ClientLaws W view}
    parseQuantity cfg b old w :
  v_bws (view w) !! bw_name b = Some old -> bstat_status (bw_status old) <> StatusUnset ->
  is_Some (v_nodes (view w) !! bspec_node (bw_spec b)) ->
  (syncSingleNodeBandwidth parseQuantity cfg b w).1 = None ->
  exists new reqs, loop_ok (bw_requests b) reqs /\
    view (syncSingleNodeBandwidth parseQuantity cfg b w).2
      = set_bws <[bw_name b := new]> (view w) /\
    bw_requests new = cleanRequests reqs /\ bw_status new = bw_status old.
Proof.
  intros H1 H2 H3 H4.
  destruct (single_sync_status (view := view) parseQuantity cfg old b w H1 H2 H3 H4)
    as (l & new & Hl & Hv & Hr & Hs).
  by exists new, l.
Qed.

Lemma single_sync_keeps_status_witness :
  let w := apart in let b := stored_or w "n1" in
  exists new reqs, loop_ok (bw_requests b) reqs /\
    store_view (syncSingleNodeBandwidth no_quantity default_config b w).2
      = set_bws <["n1" := new]> (store_view w) /\
    bw_requests new = cleanRequests reqs /\ bw_status new = bw_status b.
Proof.
  intros w b.
  apply (single_sync_keeps_status (view := store_view) no_quantity default_config b b w);
    [vm_compute; reflexivity|vm_compute; discriminate|decide_now|vm_compute; reflexivity].
Defined.

Lemma all_owned l :
  forallb (fun p => negb (standalone p)) l = true -> forall p, p ∈ l -> standalone p = false.
Proof.
  rewrite forallb_forall. intros Hall p Hp%list_elem_of_In. by apply negb_true_iff, Hall.
Qed.

(** Related nodes are never notified: the sibling search fills a map of
    node names and returns an empty list, so when every pod has a workload the
    handler hands no object to its background goroutine. *)
Theorem related_nodes_never_synced {W} `{!Client W} {view : W -> View} `{!ClientLaws W view}
    parseQuantity cfg b w :
  (forall p, p ∈ pods_of (view w) -> standalone p = false) ->
  out_background (SyncFromSpecAndPods parseQuantity cfg b w).1 = [].
Proof. apply (sync_background (view := view) parseQuantity cfg). Qed.

Lemma related_nodes_never_synced_witness :
  out_background (sync (stored_or apart "n1") apart).1 = [].
Proof.
  apply (related_nodes_never_synced (view := store_view) no_quantity default_config).
  apply all_owned. vm_compute. reflexivity.
Defined.

(** A request whose pod is not running on the node is kept only on the
    answer of one [GetPod]: any error, a timeout as well as NotFound, drops it
    from the clean requests and from the totals. *)
Theorem pending_lookup_error_drops {W} `{!Client W} parseQuantity cfg node pods ex
    (a : SyncAcc) req (w : W) e :
  pods !! req_pod_uid req = None ->
  (GetPod (req_namespace req) (req_pod_name req) w).1 = Err e ->
  sy_ledger (sync_step parseQuantity cfg node pods ex a req w).1 = sy_ledger a.
Proof.
  intros Hp Hg. unfold sync_step, sync_resolve. rewrite bind_eq, Hp, bind_eq.
  destruct (GetPod _ _ w) as [r w1]. cbn in Hg. subst r. cbn [ret fst snd].
  unfold sync_drop. destruct (ex !! _) as [o|]; [|done]. rewrite bind_eq.
  destruct (GetPod _ _ w1) as [[p|e'] w2]; [|done]. cbn [fst snd]. rewrite bind_eq.
  by destruct (allSiblingsOnCurrentNode p node w2) as [[[? ?] ?] ?].
Qed.

Lemma pending_lookup_error_drops_witness :
  sy_ledger (sync_step no_quantity default_config "n1" ∅ ∅ sync_start (request "a" 20)
               (together [Some "timeout"])).1 = empty_ledger.
Proof.
  exact (pending_lookup_error_drops no_quantity default_config "n1" ∅ ∅ sync_start
           (request "a" 20) (together [Some "timeout"]) (OtherError "timeout") eq_refl eq_refl).
Defined.
