(* ===== verification/VaclabHandle.v ===== *)
(** * The bandwidth handle of the VaclabScheduling plugin

    [scheduler-plugins/pkg/vaclabscheduling/bandwidth_resource.go]: what the
    plugin reads from and writes to the [Bandwidth] objects the operator keeps,
    and the bandwidth annotations of pods. The handle uses the same API server
    as the operator, so its operations run against the same [Client] class.
    Errors wrapped by [fmt.Errorf] keep the handle's own words; the wrapped
    cause's text, which no code inspects, is left out. *)

From S2P Require Import Prelude.
From S2P Require Import KubeTypes.
From S2P Require Import BandwidthTypes.
From S2P Require Import Client.
From S2P Require Import Framework.

Record HandleConfig := {
  EgressKey : string;           (* EgressBandwidthAnnotation *)
  IngressKey : string;          (* IngressBandwidthAnnotation *)
  DefaultEgressMbps : Z;
  DefaultIngressMbps : Z;
}.

Definition DefaultEgressBandwidthAnnotation : string := "ovn.kubernetes.io/egress_rate".
Definition DefaultIngressBandwidthAnnotation : string := "ovn.kubernetes.io/ingress_rate".
Definition KubeOVNEgressBandwidthAnnotation : string := "ovn.kubernetes.io/egress_rate".
Definition KubeOVNIngressBandwidthAnnotation : string := "ovn.kubernetes.io/ingress_rate".
Definition CalicoEgressBandwidthAnnotation : string := "kubernetes.io/egress-bandwidth".
Definition CalicoIngressBandwidthAnnotation : string := "kubernetes.io/ingress-bandwidth".

(** ** The [Bandwidth] objects *)

Section Objects.
Context {W : Type} `{Client W}.

Definition wrap {A} (msg : string) (r : result A) : result A :=
  match r with Ok a => Ok a | Err _ => Err (OtherError msg) end.

Definition GetNodeBandwidth (nodeName : string) : M W (result Bandwidth) :=
  let! r := GetBandwidth nodeName in
  ret (wrap ("failed to get bandwidth for node " +:+ nodeName) r).

Definition HandleListBandwidths : M W (result (list Bandwidth)) :=
  let! r := ListBandwidths in ret (wrap "failed to list bandwidth resources" r).

Definition GetAvailableBandwidth (nodeName : string) : M W (result Capacity) :=
  let! r := GetNodeBandwidth nodeName in
  match r with
  | Err e => ret (Err e)
  | Ok bw =>
      if bool_decide (bstat_status (bw_status bw) <> Created)
      then ret (Err (OtherError
             ("bandwidth resource for node " +:+ nodeName +:+ " is not in Created state")))
      else ret (Ok (bw_remaining bw))
  end.

(** The requests of the other pods, in their order. *)
Definition other_requests (podUID : string) (l : list BandwidthRequest) : list BandwidthRequest :=
  filter (fun r => req_pod_uid r <> podUID) l.

Definition new_request (podName namespace podUID : string) (ul dl : Z) : BandwidthRequest := {|
  req_pod_name := podName; req_namespace := namespace; req_pod_uid := podUID;
  req_link_local := false; req_bandwidth := {| UlMbps := ul; DlMbps := dl |} |}.

Definition update_requests (nodeName : string) (bandwidth : Bandwidth) (l : list BandwidthRequest)
    : M W (result unit) :=
  let! r := UpdateBandwidth (set_requests l bandwidth) in
  ret (match r with
       | Ok _ => Ok tt
       | Err _ => Err (OtherError ("failed to update bandwidth for node " +:+ nodeName))
       end).

Definition AddBandwidthRequest (nodeName podName namespace podUID : string) (ul dl : Z)
    : M W (result unit) :=
  let! r := GetBandwidth nodeName in
  match r with
  | Err _ => ret (Err (OtherError ("failed to get bandwidth for node " +:+ nodeName)))
  | Ok bandwidth =>
      update_requests nodeName bandwidth
        (other_requests podUID (bw_requests bandwidth)
           ++ [new_request podName namespace podUID ul dl])
  end.

Definition RemoveBandwidthRequest (nodeName podUID : string) : M W (result unit) :=
  let! r := GetBandwidth nodeName in
  match r with
  | Err _ => ret (Err (OtherError ("failed to get bandwidth for node " +:+ nodeName)))
  | Ok bandwidth =>
      if existsb (fun r => bool_decide (req_pod_uid r = podUID)) (bw_requests bandwidth)
      then update_requests nodeName bandwidth (other_requests podUID (bw_requests bandwidth))
      else ret (Ok tt)
  end.

(** The two tests of a remaining capacity against a demand: the virtual bridge,
    then the network. *)
Definition sufficient (remaining : Capacity) (ul dl : Z) : bool :=
  if (UlMbps (Local remaining) <? ul) || (DlMbps (Local remaining) <? dl) then false
  else if (UlMbps (Network remaining) <? ul) || (DlMbps (Network remaining) <? dl) then false
  else true.

Definition HasSufficientBandwidth (nodeName : string) (ul dl : Z) : M W (result bool) :=
  let! r := GetAvailableBandwidth nodeName in
  match r with
  | Err e => ret (Err e)
  | Ok remaining => ret (Ok (sufficient remaining ul dl))
  end.

(** The UID and kind of the first controller among the owners. *)
Fixpoint controller_of (owners : list OwnerReference) : option (string * string) :=
  match owners with
  | [] => None
  | o :: rest =>
      if match owner_controller o with Some b => b | None => false end
      then Some (owner_uid o, owner_kind o) else controller_of rest
  end.

Definition sibling_count (ownerUID : string) (l : list ReservationInfo) : Z :=
  foldl (fun n i => if bool_decide (res_deployment_uid i = ownerUID) then n +! 1 else n) 0 l.

Definition CalculateLocalityScore (pod : Pod) (nodeName : string) : M W (result Z) :=
  match meta_owners (pod_meta pod) with
  | [] => ret (Ok 0)
  | ownerRefs =>
      let ownerUID := default "" (fst <$> controller_of ownerRefs) in
      if bool_decide (ownerUID = "") then ret (Ok 0)
      else
        let! r := GetNodeBandwidth nodeName in
        match r with
        | Err e => ret (Err e)
        | Ok bw => ret (Ok (sibling_count ownerUID (bstat_reservations (bw_status bw))))
        end
  end.

Definition UpdateBandwidthCapacity (nodeName : string) (capacity : Capacity) : M W (result unit) :=
  let! r := GetBandwidth nodeName in
  match r with
  | Err _ => ret (Err (OtherError ("failed to get bandwidth for node " +:+ nodeName)))
  | Ok bandwidth =>
      let! u := UpdateBandwidth (set_capacity capacity bandwidth) in
      ret (match u with
           | Ok _ => Ok tt
           | Err _ =>
               Err (OtherError ("failed to update bandwidth capacity for node " +:+ nodeName))
           end)
  end.

Definition GetBandwidthStatus (nodeName : string) : M W (result BandwidthStatus) :=
  let! r := GetNodeBandwidth nodeName in
  ret (match r with Ok bw => Ok (bw_status bw) | Err e => Err e end).
End Objects.

(** ** Pod annotations *)

(** Replaces the annotations of a pod. *)
Definition set_annotations (a : gmap string string) (p : Pod) : Pod := {|
  pod_meta := {| meta_name := meta_name (pod_meta p); meta_namespace := meta_namespace (pod_meta p);
                 meta_uid := meta_uid (pod_meta p); meta_labels := meta_labels (pod_meta p);
                 meta_annotations := a; meta_owners := meta_owners (pod_meta p);
                 meta_deletion := meta_deletion (pod_meta p);
                 meta_creation := meta_creation (pod_meta p);
                 meta_resource_version := meta_resource_version (pod_meta p) |};
  pod_spec := pod_spec p; pod_status := pod_status p |}.

Definition formatBandwidthValue (mbps : Z) (annotationKey : string) : string :=
  if bool_decide (annotationKey = KubeOVNEgressBandwidthAnnotation) ||
     bool_decide (annotationKey = KubeOVNIngressBandwidthAnnotation)
  then FormatInt mbps
  else FormatInt mbps +:+ "M".

Definition annotate (key : string) (mbps : Z) (a : gmap string string) : gmap string string :=
  <[key := formatBandwidthValue mbps key]> a.

Section Annotations.
(** [ParseQuantity] then [Value()]: the rounded-up integer, or the error. *)
Variable parseQuantity : string -> option Z.
Variable cfg : HandleConfig.

Definition parseBandwidthValue (value : string) : Z :=
  match Atoi value with
  | Some plainValue => plainValue
  | None =>
      match parseQuantity value with
      | Some quantity => quantity /! 1000000
      | None => 0
      end
  end.

(** The value of an annotation, 0 when it is absent or empty. *)
Definition annotation_rate (a : gmap string string) (key : string) : Z :=
  let v := default "" (a !! key) in
  if bool_decide (v <> "") then parseBandwidthValue v else 0.

Definition GetBandwidthFromPodAnnotations (pod : Pod) : Z * Z * bool :=
  let a := pod_annotations pod in
  let hasEgress := bool_decide (is_Some (a !! EgressKey cfg)) in
  let hasIngress := bool_decide (is_Some (a !! IngressKey cfg)) in
  if negb hasEgress && negb hasIngress then (0, 0, false)
  else (annotation_rate a (EgressKey cfg), annotation_rate a (IngressKey cfg), true).

Definition ExtractPodBandwidthRequirement (pod : Pod) : Z * Z * Pod :=
  let '(ul, dl, found) := GetBandwidthFromPodAnnotations pod in
  let a := pod_annotations pod in
  if negb found then
    let ul := DefaultEgressMbps cfg in
    let dl := DefaultIngressMbps cfg in
    let a := if 0 <? ul then annotate (EgressKey cfg) ul a else a in
    let a := if 0 <? dl then annotate (IngressKey cfg) dl a else a in
    (ul, dl, set_annotations a pod)
  else
    let '(ul, a) :=
      if bool_decide (ul = 0) && (0 <? DefaultEgressMbps cfg)
      then (DefaultEgressMbps cfg, annotate (EgressKey cfg) (DefaultEgressMbps cfg) a)
      else (ul, a) in
    let '(dl, a) :=
      if bool_decide (dl = 0) && (0 <? DefaultIngressMbps cfg)
      then (DefaultIngressMbps cfg, annotate (IngressKey cfg) (DefaultIngressMbps cfg) a)
      else (dl, a) in
    (ul, dl, set_annotations a pod).

(** ** [NormalizePodBandwidthAnnotations]

    One turn of the loop for one annotation key: a positive value is taken over
    and, under a key that is not the configured one, deleted. *)
Definition take_annotation (key own : string) (st : gmap string string * Z * bool)
    : gmap string string * Z * bool :=
  let '(a, v, updated) := st in
  match a !! key with
  | None => st
  | Some s =>
      if bool_decide (s <> "") && (0 <? parseBandwidthValue s)
      then if bool_decide (key <> own) then (delete key a, parseBandwidthValue s, true)
           else (a, parseBandwidthValue s, updated)
      else st
  end.

Definition knownAnnotations : list (string * string) :=
  [(DefaultEgressBandwidthAnnotation, DefaultIngressBandwidthAnnotation);
   (KubeOVNEgressBandwidthAnnotation, KubeOVNIngressBandwidthAnnotation);
   (CalicoEgressBandwidthAnnotation, CalicoIngressBandwidthAnnotation)].

Definition normalize_turn (st : gmap string string * Z * Z * bool) (annot : string * string)
    : gmap string string * Z * Z * bool :=
  let '(a, ul, dl, updated) := st in
  let '(a, ul, updated) := take_annotation annot.1 (EgressKey cfg) (a, ul, updated) in
  let '(a, dl, updated) := take_annotation annot.2 (IngressKey cfg) (a, dl, updated) in
  (a, ul, dl, updated).

(** Writes the configured annotation unless it already has the wanted text. *)
Definition put_annotation (key : string) (mbps : Z) (st : gmap string string * bool)
    : gmap string string * bool :=
  let '(a, updated) := st in
  if 0 <? mbps then
    let expected := formatBandwidthValue mbps key in
    if bool_decide (default "" (a !! key) <> expected) then (<[key := expected]> a, true)
    else (a, updated)
  else (a, updated).

Definition normalized (a : gmap string string) : gmap string string * bool :=
  let '(a, ul, dl, updated) := foldl normalize_turn (a, 0, 0, false) knownAnnotations in
  let '(a, updated) := put_annotation (EgressKey cfg) ul (a, updated) in
  put_annotation (IngressKey cfg) dl (a, updated).

(** [updatePod] is the client's [Update] of a pod. The pod is changed in place
    whether or not the update succeeds. *)
Definition NormalizePodBandwidthAnnotations {W} (updatePod : Pod -> M W (option ApiError))
    (pod : Pod) : M W (result bool * Pod) :=
  let '(a, updated) := normalized (pod_annotations pod) in
  let pod := set_annotations a pod in
  if (updated : bool) then
    let! e := updatePod pod in
    match e with
    | Some _ => ret (Err (OtherError "failed to update pod annotations"), pod)
    | None => ret (Ok true, pod)
    end
  else ret (Ok false, pod).
End Annotations.
