(* ===== verification/VaclabScheduling.v ===== *)
(** * The VaclabScheduling plugin

    [scheduler-plugins/pkg/vaclabscheduling/vaclab_scheduling.go], with the
    defaults and the validation of its arguments
    ([apis/config/v1/defaults_vaclab.go],
    [apis/config/validation/validation_vaclab.go]). The plugin's entry in the
    framework's [CycleState] is an explicit argument, [None] when nothing has
    been written yet. *)

From S2P Require Import Prelude.
From S2P Require Import KubeTypes.
From S2P Require Import BandwidthTypes.
From S2P Require Import Client.
From S2P Require Import Framework.
From S2P Require Import VaclabHandle.

(** ** Arguments *)

Record VaclabSchedulingArgs := {
  args_egress : string; args_ingress : string;
  args_default_egress : Z; args_default_ingress : Z;
}.

Definition SetDefaults_VaclabSchedulingArgs (args : VaclabSchedulingArgs) : VaclabSchedulingArgs := {|
  args_egress := if bool_decide (args_egress args = "") then "ovn.kubernetes.io/egress_rate"
                 else args_egress args;
  args_ingress := if bool_decide (args_ingress args = "") then "ovn.kubernetes.io/ingress_rate"
                  else args_ingress args;
  args_default_egress := if bool_decide (args_default_egress args = 0) then 20
                         else args_default_egress args;
  args_default_ingress := if bool_decide (args_default_ingress args = 0) then 20
                          else args_default_ingress args |}.

(** The list of the violated fields, in the order of the tests. *)
Definition ValidateVaclabSchedulingArgs (args : VaclabSchedulingArgs) : list string :=
  (if bool_decide (args_egress args = "") then ["egressBandwidthAnnotation"] else []) ++
  (if bool_decide (args_ingress args = "") then ["ingressBandwidthAnnotation"] else []) ++
  (if args_default_egress args <? 0 then ["defaultEgressMbps"] else []) ++
  (if args_default_ingress args <? 0 then ["defaultIngressMbps"] else []).

(** The part of [New] before the client is built. *)
Definition handle_config (args : VaclabSchedulingArgs) : option HandleConfig :=
  match ValidateVaclabSchedulingArgs args with
  | [] => Some {| EgressKey := args_egress args; IngressKey := args_ingress args;
                  DefaultEgressMbps := args_default_egress args;
                  DefaultIngressMbps := args_default_ingress args |}
  | _ => None
  end.

(** ** The scheduling cycle *)

Record preFilterState := {
  pf_ulMbps : Z; pf_dlMbps : Z;
  pf_ownerUID : string; pf_ownerKind : string; pf_hasWorkload : bool;
}.

Definition pf_clone (s : preFilterState) : preFilterState := {|
  pf_ulMbps := pf_ulMbps s; pf_dlMbps := pf_dlMbps s; pf_ownerUID := pf_ownerUID s;
  pf_ownerKind := pf_ownerKind s; pf_hasWorkload := pf_hasWorkload s |}.

(** The plugin's slot of the cycle state. *)
Definition CycleState := option preFilterState.

Section Plugin.
Context {W : Type} `{Client W}.
Variable parseQuantity : string -> option Z.
Variable cfg : HandleConfig.

(** Whether some object has room for the demand on both datapaths. *)
Definition feasible_somewhere (l : list Bandwidth) (ul dl : Z) : bool :=
  existsb (fun bw =>
    (ul <=? UlMbps (Network (bw_remaining bw))) && (dl <=? DlMbps (Network (bw_remaining bw))) &&
    (ul <=? UlMbps (Local (bw_remaining bw))) && (dl <=? DlMbps (Local (bw_remaining bw)))) l.

Definition computed_state (ul dl : Z) (pod : Pod) : preFilterState :=
  let c := controller_of (meta_owners (pod_meta pod)) in
  {| pf_ulMbps := ul; pf_dlMbps := dl;
     pf_ownerUID := default "" (fst <$> c); pf_ownerKind := default "" (snd <$> c);
     pf_hasWorkload := bool_decide (is_Some c) |}.

(** The pod's annotations are changed in place, so the pod is an output. *)
Definition PreFilter (state : CycleState) (pod : Pod) : M W (FStatus * Pod * CycleState) :=
  let '(ul, dl, pod) := ExtractPodBandwidthRequirement parseQuantity cfg pod in
  if (0 <? ul) || (0 <? dl) then
    let! r := HandleListBandwidths in
    match r with
    | Err _ => ret (NewStatus CodeError, pod, state)
    | Ok items =>
        if feasible_somewhere items ul dl
        then ret (NewStatus Success, pod, Some (computed_state ul dl pod))
        else ret (NewStatus UnschedulableAndUnresolvable, pod, state)
    end
  else ret (NewStatus Success, pod, Some (computed_state ul dl pod)).

Definition Filter (state : CycleState) (nodeName : string) : M W FStatus :=
  match state with
  | None => ret (NewStatus CodeError)
  | Some s =>
      let! r := HasSufficientBandwidth nodeName (pf_ulMbps s) (pf_dlMbps s) in
      ret (match r with
           | Err _ => NewStatus CodeError
           | Ok sufficient =>
               if (sufficient : bool) then NewStatus Success else NewStatus Unschedulable
           end)
  end.

(** The bandwidth left on the scarcer direction of the network, at least 0. *)
Definition bandwidth_score (remaining : Capacity) (s : preFilterState) : Z :=
  let remainingUL := UlMbps (Network remaining) -! pf_ulMbps s in
  let remainingDL := DlMbps (Network remaining) -! pf_dlMbps s in
  let score := if remainingUL <? remainingDL then remainingUL else remainingDL in
  if score <? 0 then 0 else score.

Definition total_score (localityScore bandwidthScore : Z) : Z :=
  localityScore *! 7 +! bandwidthScore *! 3.

Definition Score (state : CycleState) (pod : Pod) (nodeName : string) : M W (Z * FStatus) :=
  match state with
  | None => ret (0, NewStatus CodeError)
  | Some s =>
      let! r := GetAvailableBandwidth nodeName in
      match r with
      | Err _ => ret (0, NewStatus CodeError)
      | Ok remaining =>
          let! localityScore :=
            (if pf_hasWorkload s then
               let! l := CalculateLocalityScore pod nodeName in
               ret (match l with Ok score => score | Err _ => 0 end)
             else ret 0) in
          ret (total_score localityScore (bandwidth_score remaining s), NewStatus Success)
      end
  end.

Definition NormalizeScore (scores : NodeScoreList) : NodeScoreList :=
  let highestScore := running_max (ns_score <$> scores) in
  if bool_decide (highestScore = 0) then (fun n => with_score n 0) <$> scores
  else (fun n => with_score n (ns_score n *! MaxNodeScore /! highestScore)) <$> scores.

Definition Reserve (state : CycleState) (pod : Pod) (nodeName : string) : M W FStatus :=
  match state with
  | None => ret (NewStatus CodeError)
  | Some s =>
      if bool_decide (pf_ulMbps s = 0) && bool_decide (pf_dlMbps s = 0)
      then ret (NewStatus Success)
      else
        let! r := AddBandwidthRequest nodeName (pod_name pod) (pod_namespace pod) (pod_uid pod)
                    (pf_ulMbps s) (pf_dlMbps s) in
        ret (match r with Ok _ => NewStatus Success | Err _ => NewStatus CodeError end)
  end.

Definition Unreserve (state : CycleState) (pod : Pod) (nodeName : string) : M W unit :=
  match state with
  | None => ret tt
  | Some s =>
      if bool_decide (pf_ulMbps s = 0) && bool_decide (pf_dlMbps s = 0) then ret tt
      else let! _ := RemoveBandwidthRequest nodeName (pod_uid pod) in ret tt
  end.

(** The two last hooks only log. *)
Definition PreBind (state : CycleState) (pod : Pod) (nodeName : string) : M W FStatus :=
  ret (NewStatus Success).

Definition PostBind (state : CycleState) (pod : Pod) (nodeName : string) : M W unit := ret tt.
End Plugin.
