(* ===== verification/VaclabProofs.v ===== *)
(** * Lemmas about the VaclabScheduling plugin *)

From S2P Require Import Prelude.
From S2P Require Import KubeTypes.
From S2P Require Import BandwidthTypes.
From S2P Require Import Client.
From S2P Require Import Framework.
From S2P Require Import VaclabHandle.
From S2P Require Import VaclabScheduling.

(** ** Annotations *)

Section Annotations.
Variable parseQuantity : string -> option Z.

(** What the quantity parser does on the texts [formatBandwidthValue] prints
    under the keys that are not KubeOVN's: "nM" is n times 10^6. *)
Definition reads_mega (n : Z) : Prop := parseQuantity (FormatInt n +:+ "M") = Some (n * 1000000).

(** A value that survives printing and parsing under a key. *)
Definition printable (key : string) (n : Z) : Prop :=
  0 <= n /\ in_int64 n /\
  (key = KubeOVNEgressBandwidthAnnotation \/ key = KubeOVNIngressBandwidthAnnotation \/
   reads_mega n /\ in_int64 (n * 1000000)).

Lemma format_nonempty n key : formatBandwidthValue n key <> "".
Proof.
  unfold formatBandwidthValue. destruct (_ || _); [apply FormatInt_nonempty|].
  pose proof (FormatInt_nonempty n). destruct (FormatInt n); done.
Qed.

Lemma parse_format key n :
  printable key n -> parseBandwidthValue parseQuantity (formatBandwidthValue n key) = n.
Proof.
  intros (Hn & Hr & Hk). unfold formatBandwidthValue, parseBandwidthValue.
  destruct (bool_decide (key = KubeOVNEgressBandwidthAnnotation) ||
            bool_decide (key = KubeOVNIngressBandwidthAnnotation)) eqn:E.
  { by rewrite FormatInt_Atoi. }
  rewrite orb_false_iff, !bool_decide_eq_false in E.
  destruct Hk as [?|[?|[Hq Hm]]]; [naive_solver..|].
  rewrite Atoi_suffix by done. rewrite Hq. unfold div64.
  rewrite Z.quot_mul by lia. by apply int64_id.
Qed.

Lemma annotation_rate_insert a key n :
  printable key n -> annotation_rate parseQuantity (annotate key n a) key = n.
Proof.
  intros Hp. unfold annotation_rate, annotate. rewrite lookup_insert_eq. cbn [default].
  rewrite bool_decide_eq_true_2 by apply format_nonempty. by apply parse_format.
Qed.

Lemma annotation_rate_other a key key' n :
  key <> key' -> annotation_rate parseQuantity (annotate key' n a) key
                 = annotation_rate parseQuantity a key.
Proof. intros Hk. unfold annotation_rate, annotate. by rewrite lookup_insert_ne. Qed.

Lemma annotation_rate_absent a key :
  a !! key = None -> annotation_rate parseQuantity a key = 0.
Proof. intros Ha. unfold annotation_rate. by rewrite Ha. Qed.

Variable cfg : HandleConfig.
Abbreviation E := (EgressKey cfg).
Abbreviation I := (IngressKey cfg).
Abbreviation dE := (DefaultEgressMbps cfg).
Abbreviation dI := (DefaultIngressMbps cfg).

(** A configuration the plugin can run with. *)
Record config_ok : Prop := {
  config_keys : E <> I;
  config_egress : printable E dE;
  config_ingress : printable I dI;
}.

(** The rate used for a key: the annotated one, or the default for none. *)
Definition effective (a : gmap string string) (key : string) (d : Z) : Z :=
  let v := annotation_rate parseQuantity a key in if bool_decide (v = 0) then d else v.

(** The annotation is written exactly when a positive default replaces no rate. *)
Definition defaulted (key : string) (d : Z) (a : gmap string string) : gmap string string :=
  if bool_decide (annotation_rate parseQuantity a key = 0) && (0 <? d)
  then annotate key d a else a.

Lemma extract_eq pod :
  config_ok ->
  ExtractPodBandwidthRequirement parseQuantity cfg pod =
    (effective (pod_annotations pod) E dE, effective (pod_annotations pod) I dI,
     set_annotations (defaulted I dI (defaulted E dE (pod_annotations pod))) pod).
Proof.
  intros [Hne (HE & _ & _) (HI & _ & _)].
  unfold ExtractPodBandwidthRequirement, GetBandwidthFromPodAnnotations.
  set (a := pod_annotations pod).
  assert (defaulted I dI (defaulted E dE a)
    = let a' := defaulted E dE a in
      if bool_decide (annotation_rate parseQuantity a I = 0) && (0 <? dI)
      then annotate I dI a' else a') as ->.
  { unfold defaulted at 1. cbn zeta.
    assert (annotation_rate parseQuantity (defaulted E dE a) I
            = annotation_rate parseQuantity a I) as ->; [|done].
    unfold defaulted. destruct (_ && _); [|done]. by apply annotation_rate_other. }
  destruct (negb (bool_decide (is_Some (a !! E))) && negb (bool_decide (is_Some (a !! I)))) eqn:F.
  - apply andb_true_iff in F as [F1%negb_true_iff%bool_decide_eq_false_1
                                 F2%negb_true_iff%bool_decide_eq_false_1].
    rewrite <- eq_None_not_Some in F1, F2.
    unfold effective, defaulted. rewrite !annotation_rate_absent by done. done.
  - unfold effective, defaulted. cbn [negb].
    destruct (bool_decide_reflect (annotation_rate parseQuantity a E = 0)) as [HvE|];
      destruct (bool_decide_reflect (annotation_rate parseQuantity a I = 0)) as [HvI|];
      cbn [andb]; rewrite ?HvE, ?HvI;
      destruct (Z.ltb_spec 0 dE); destruct (Z.ltb_spec 0 dI);
      repeat f_equal; lia.
Qed.

Lemma effective_defaulted a key d :
  printable key d -> effective (defaulted key d a) key d = effective a key d.
Proof.
  intros Hp. unfold effective, defaulted.
  destruct (bool_decide_reflect (annotation_rate parseQuantity a key = 0)) as [H0|H0]; cbn [andb].
  - destruct (Z.ltb_spec 0 d).
    + rewrite annotation_rate_insert by done. by case_bool_decide.
    + by rewrite H0.
  - by rewrite bool_decide_eq_false_2.
Qed.

Lemma defaulted_idemp a key d :
  printable key d -> defaulted key d (defaulted key d a) = defaulted key d a.
Proof.
  intros Hp. unfold defaulted at 1.
  destruct (bool_decide_reflect (annotation_rate parseQuantity (defaulted key d a) key = 0))
    as [H0|]; [|done].
  destruct (Z.ltb_spec 0 d); [|done]. cbn [andb]. unfold defaulted in *.
  destruct (bool_decide_reflect (annotation_rate parseQuantity a key = 0)); [|done].
  destruct (Z.ltb_spec 0 d); [|lia]. cbn [andb] in *.
  unfold annotate. apply insert_insert_eq.
Qed.
End Annotations.

(** ** The objects *)

(** What the plugin reads of a node: the remaining capacity of an object in
    state Created. *)
Definition available (v : View) (n : string) : option Capacity :=
  match v_bws v !! n with
  | Some b => if bool_decide (bstat_status (bw_status b) = Created)
              then Some (bw_remaining b) else None
  | None => None
  end.

Definition demand (s : preFilterState) : BandwidthDefinition :=
  {| UlMbps := pf_ulMbps s; DlMbps := pf_dlMbps s |}.

(** The demand fits on both datapaths. *)
Definition fits (s : preFilterState) (c : Capacity) : Prop :=
  bd_fits (demand s) (Local c) /\ bd_fits (demand s) (Network c).

Lemma sufficient_iff c s : sufficient c (pf_ulMbps s) (pf_dlMbps s) = true <-> fits s c.
Proof.
  unfold sufficient, fits, bd_fits. cbn.
  repeat match goal with |- context[?a <? ?b] => destruct (Z.ltb_spec a b) end; cbn;
    split; intros; try done; lia.
Qed.

Lemma feasible_iff l s :
  feasible_somewhere l (pf_ulMbps s) (pf_dlMbps s) = true <->
  exists b, b ∈ l /\ fits s (bw_remaining b).
Proof.
  unfold feasible_somewhere. rewrite existsb_exists. setoid_rewrite <- list_elem_of_In.
  apply exist_proper. intros b. apply and_iff_compat_l.
  unfold fits, bd_fits. cbn. rewrite !andb_true_iff, !Z.leb_le. tauto.
Qed.

Section Objects.
Context {W : Type} `{!Client W} {view : W -> View} `{!ClientLaws W view}.

Lemma node_bw_view n w : view (GetNodeBandwidth n w).2 = view w.
Proof. unfold GetNodeBandwidth. rewrite bind_eq. apply get_bw_view. Qed.

Lemma available_view n w : view (GetAvailableBandwidth n w).2 = view w.
Proof.
  unfold GetAvailableBandwidth. rewrite bind_eq, <- (node_bw_view n w).
  destruct (GetNodeBandwidth n w) as [[b|e] w1]; cbn [fst snd]; [|done]. by case_bool_decide.
Qed.

Lemma available_ok n w c :
  (GetAvailableBandwidth n w).1 = Ok c -> available (view w) n = Some c.
Proof.
  unfold GetAvailableBandwidth, GetNodeBandwidth. rewrite bind_eq, bind_eq.
  pose proof (get_bw_ok (view := view) n w) as Hok.
  destruct (GetBandwidth n w) as [[b|e] w1]; cbn [ret fst snd wrap] in *; [|done].
  destruct (Hok b eq_refl) as [Hb _]. unfold available. rewrite Hb.
  destruct (decide (bstat_status (bw_status b) = Created)).
  - rewrite bool_decide_eq_false_2, bool_decide_eq_true_2 by auto. by intros [= <-].
  - by rewrite bool_decide_eq_true_2.
Qed.

Lemma available_healthy {healthy : W -> Prop} `{!HealthLaws W view healthy} n w :
  healthy w ->
  match available (view w) n with
  | Some c => (GetAvailableBandwidth n w).1 = Ok c
  | None => is_Ok (GetAvailableBandwidth n w).1 = false
  end.
Proof.
  intros Hh. unfold GetAvailableBandwidth, GetNodeBandwidth. rewrite bind_eq, bind_eq.
  destruct (health_get_bw n w Hh) as [_ Hr]. destruct (GetBandwidth n w) as [r w1].
  cbn [fst snd] in *. subst r. unfold available.
  destruct (v_bws (view w) !! n) as [b|]; cbn [ret fst snd wrap]; [|done].
  repeat case_bool_decide; congruence || done.
Qed.

Lemma filter_view st n w : view (Filter st n w).2 = view w.
Proof.
  destruct st as [s|]; [|done]. unfold Filter, HasSufficientBandwidth.
  rewrite bind_eq, bind_eq. cbn [ret snd]. rewrite <- (available_view n w).
  by destruct (GetAvailableBandwidth n w) as [[c|e] w1].
Qed.

Lemma filter_success s n w :
  (Filter (Some s) n w).1 = NewStatus Success ->
  exists c, available (view w) n = Some c /\ fits s c.
Proof.
  unfold Filter, HasSufficientBandwidth. rewrite bind_eq, bind_eq.
  pose proof (available_ok n w) as Hok.
  destruct (GetAvailableBandwidth n w) as [[c|e] w1]; cbn [ret fst snd] in *; [|done].
  destruct (sufficient c _ _) eqn:Hs; [|done]. intros _. exists c.
  split; [by apply Hok|]. by apply sufficient_iff.
Qed.

Lemma filter_healthy {healthy : W -> Prop} `{!HealthLaws W view healthy} s n w :
  healthy w ->
  (Filter (Some s) n w).1 = NewStatus
    match available (view w) n with
    | None => CodeError
    | Some c => if sufficient c (pf_ulMbps s) (pf_dlMbps s) then Success else Unschedulable
    end.
Proof.
  intros Hh. unfold Filter, HasSufficientBandwidth. rewrite bind_eq, bind_eq.
  pose proof (available_healthy n w Hh) as Ha.
  destruct (available (view w) n) as [c|];
    destruct (GetAvailableBandwidth n w) as [r w1]; cbn [fst snd] in *.
  - subst r. cbn [ret fst snd]. by destruct (sufficient _ _ _).
  - destruct r; done.
Qed.

Lemma filter_unavailable s n w :
  available (view w) n = None -> (Filter (Some s) n w).1 = NewStatus CodeError.
Proof.
  intros Ha. unfold Filter, HasSufficientBandwidth. rewrite bind_eq, bind_eq.
  pose proof (available_ok n w) as Hok.
  destruct (GetAvailableBandwidth n w) as [[c|e] w1]; cbn [ret fst snd] in *; [|done].
  specialize (Hok c eq_refl). congruence.
Qed.

(** ** Reservations *)

Lemma update_requests_ok n b l w :
  (update_requests n b l w).1 = Ok tt ->
  exists old new, v_bws (view w) !! bw_name b = Some old /\
    view (update_requests n b l w).2 = set_bws <[bw_name b := new]> (view w) /\
    bw_name new = bw_name b /\ bw_spec new = bw_spec (set_requests l b) /\
    bw_status new = bw_status old.
Proof.
  unfold update_requests. rewrite bind_eq.
  pose proof (update_ok (view := view) (set_requests l b) w) as Hu.
  destruct (UpdateBandwidth _ w) as [[b'|e] w1]; cbn [ret fst snd] in *; [|done].
  intros _. destruct (Hu b' eq_refl) as (old & new & Ho & (H1 & H2 & H3) & Hv & _).
  by exists old, new.
Qed.

(** The object after a request has been written: only the requests change. *)
Definition with_requests (v : View) (n : string) (l : list BandwidthRequest -> list BandwidthRequest)
    (v' : View) : Prop :=
  exists b b', v_bws v !! n = Some b /\ v' = set_bws <[n := b']> v /\ bw_name b' = n /\
    bw_spec b' = bw_spec (set_requests (l (bw_requests b)) b) /\ bw_status b' = bw_status b.

Lemma add_request_ok n name ns uid ul dl w :
  (AddBandwidthRequest n name ns uid ul dl w).1 = Ok tt ->
  with_requests (view w) n (fun l => other_requests uid l ++ [new_request name ns uid ul dl])
    (view (AddBandwidthRequest n name ns uid ul dl w).2).
Proof.
  unfold AddBandwidthRequest. rewrite bind_eq.
  pose proof (get_bw_view n w) as Hv. pose proof (get_bw_ok (view := view) n w) as Hok.
  destruct (GetBandwidth n w) as [[b|e] w1]; cbn [fst snd] in *; [|done].
  destruct (Hok b eq_refl) as [Hb Hn]. intros Hr.
  apply update_requests_ok in Hr as (old & new & Ho & Hv' & H1 & H2 & H3).
  rewrite Hn, Hv in *. exists b, new. split; [done|]. split; [done|]. split; [congruence|].
  split; [done|]. congruence.
Qed.

Lemma reserve_success s pod n w :
  (pf_ulMbps s <> 0 \/ pf_dlMbps s <> 0) ->
  (Reserve (Some s) pod n w).1 = NewStatus Success ->
  with_requests (view w) n
    (fun l => other_requests (pod_uid pod) l ++
       [new_request (pod_name pod) (pod_namespace pod) (pod_uid pod) (pf_ulMbps s) (pf_dlMbps s)])
    (view (Reserve (Some s) pod n w).2).
Proof.
  intros Hd. unfold Reserve.
  assert (bool_decide (pf_ulMbps s = 0) && bool_decide (pf_dlMbps s = 0) = false) as ->.
  { rewrite andb_false_iff, !bool_decide_eq_false. naive_solver. }
  rewrite bind_eq. cbn [ret fst snd].
  pose proof (add_request_ok n (pod_name pod) (pod_namespace pod) (pod_uid pod)
                (pf_ulMbps s) (pf_dlMbps s) w) as Ha.
  destruct (AddBandwidthRequest _ _ _ _ _ _ w) as [[[]|e] w1]; cbn in *; [|done].
  intros _. by apply Ha.
Qed.

Lemma other_requests_notin uid l : uid ∉ req_pod_uid <$> other_requests uid l.
Proof.
  unfold other_requests. intros (r & -> & [Hr _]%list_elem_of_filter)%list_elem_of_fmap. done.
Qed.

Lemma other_requests_id uid l :
  uid ∉ req_pod_uid <$> l -> other_requests uid l = l.
Proof.
  unfold other_requests. induction l as [|r l IH]; [done|]. cbn [fmap list_fmap].
  rewrite not_elem_of_cons. intros [Hr Hl]. rewrite filter_cons, decide_True by congruence.
  by rewrite IH.
Qed.

Lemma other_requests_sublist uid l : other_requests uid l `sublist_of` l.
Proof. apply sublist_filter. Qed.

Lemma reserved_uids uid l r :
  req_pod_uid r = uid -> NoDup (req_pod_uid <$> l) ->
  NoDup (req_pod_uid <$> (other_requests uid l ++ [r])).
Proof.
  intros Hr Hl. rewrite fmap_app. apply NoDup_app. split_and!.
  - eapply sublist_NoDup; [exact Hl|]. apply fmap_sublist, other_requests_sublist.
  - intros x Hx. cbn. rewrite list_elem_of_singleton. intros ->. rewrite Hr in Hx.
    by eapply other_requests_notin.
  - apply NoDup_singleton.
Qed.

Lemma other_requests_app uid l r :
  req_pod_uid r = uid -> other_requests uid (other_requests uid l ++ [r]) = other_requests uid l.
Proof.
  intros <-. unfold other_requests. rewrite filter_app, list_filter_filter_r by done.
  rewrite filter_cons, decide_False by naive_solver. by rewrite filter_nil, app_nil_r.
Qed.

Lemma removes_iff uid l :
  existsb (fun r => bool_decide (req_pod_uid r = uid)) l = true <-> uid ∈ req_pod_uid <$> l.
Proof.
  rewrite existsb_exists, list_elem_of_fmap. setoid_rewrite <- list_elem_of_In.
  setoid_rewrite bool_decide_eq_true. naive_solver.
Qed.

(** In a world that answers, [Unreserve] removes the pod's requests. *)
Lemma unreserve_healthy {healthy : W -> Prop} `{!HealthLaws W view healthy} s pod n w :
  (pf_ulMbps s <> 0 \/ pf_dlMbps s <> 0) -> healthy w ->
  is_Some (v_bws (view w) !! n) ->
  (exists b, v_bws (view w) !! n = Some b /\ (pod_uid pod ∉ req_pod_uid <$> bw_requests b) /\
     view (Unreserve (Some s) pod n w).2 = view w) \/
  with_requests (view w) n (other_requests (pod_uid pod)) (view (Unreserve (Some s) pod n w).2).
Proof.
  intros Hd Hh [b0 Hb0]. unfold Unreserve.
  assert (bool_decide (pf_ulMbps s = 0) && bool_decide (pf_dlMbps s = 0) = false) as ->.
  { rewrite andb_false_iff, !bool_decide_eq_false. naive_solver. }
  rewrite bind_eq. cbn [ret snd]. unfold RemoveBandwidthRequest. rewrite bind_eq.
  pose proof (get_bw_view n w) as Hv. pose proof (get_bw_ok (view := view) n w) as Hok.
  destruct (health_get_bw n w Hh) as [Hh1 Hr]. rewrite Hb0 in Hr.
  destruct (GetBandwidth n w) as [r w1]; cbn [fst snd] in *. subst r.
  destruct (Hok b0 eq_refl) as [_ Hn].
  destruct (existsb _ _) eqn:E.
  - right. destruct (health_update (set_requests (other_requests (pod_uid pod) (bw_requests b0)) b0)
                       w1 Hh1) as [_ Hu].
    specialize (Hu b0). cbn in Hu. change (bw_name (set_requests _ b0)) with (bw_name b0) in Hu.
    rewrite Hn, Hv in Hu. specialize (Hu Hb0 eq_refl).
    destruct (update_requests_ok n b0 (other_requests (pod_uid pod) (bw_requests b0)) w1)
      as (old & new & Ho & Hv' & H1 & H2 & H3).
    { unfold update_requests. rewrite bind_eq. by destruct (UpdateBandwidth _ w1) as [[?|?] ?]. }
    rewrite Hn, Hv in *. exists b0, new. split; [done|]. split; [done|]. split; [congruence|].
    split; [done|]. congruence.
  - left. exists b0. split; [done|]. split; [|done].
    rewrite <- removes_iff. congruence.
Qed.
End Objects.

(** ** Totals and capacities, in exact integers *)

Definition nonneg_request (r : BandwidthRequest) : Prop := 0 <= req_ul r /\ 0 <= req_dl r.

Definition nonneg_capacity (c : Capacity) : Prop :=
  (0 <= UlMbps (Local c) /\ in_int64 (UlMbps (Local c))) /\
  (0 <= DlMbps (Local c) /\ in_int64 (DlMbps (Local c))) /\
  (0 <= UlMbps (Network c) /\ in_int64 (UlMbps (Network c))) /\
  (0 <= DlMbps (Network c) /\ in_int64 (DlMbps (Network c))).

#[export] Instance nonneg_request_dec r : Decision (nonneg_request r).
Proof. unfold nonneg_request. apply _. Defined.
#[export] Instance nonneg_capacity_dec c : Decision (nonneg_capacity c).
Proof. unfold nonneg_capacity. apply _. Defined.

(** The requests' totals are within the capacity: no datapath is promised more
    than it has. *)
Record within (l : list BandwidthRequest) (c : Capacity) : Prop := {
  within_local_ul : sumZ req_ul l <= UlMbps (Local c);
  within_local_dl : sumZ req_dl l <= DlMbps (Local c);
  within_network_ul : sumZ (req_net req_ul) l <= UlMbps (Network c);
  within_network_dl : sumZ (req_net req_dl) l <= DlMbps (Network c);
}.

Lemma sumZ_filter_le {A} (f : A -> Z) P `{!forall x, Decision (P x)} l :
  (forall x, x ∈ l -> 0 <= f x) -> sumZ f (filter P l) <= sumZ f l.
Proof.
  induction l as [|x l IH]; intros Hf; [done|]. rewrite filter_cons.
  pose proof (Hf x ltac:(left)).
  assert (sumZ f (filter P l) <= sumZ f l) by (apply IH; intros; apply Hf; by right).
  destruct (decide (P x)); rewrite ?sumZ_cons; lia.
Qed.

Lemma req_net_nonneg f r : 0 <= f r -> 0 <= req_net f r.
Proof. unfold req_net. by destruct (req_link_local r). Qed.

(** One direction of one datapath: the demand passes the test against
    capacity minus the used total, so it can be added to the total. *)
Lemma room_for (f : BandwidthRequest -> Z) uid l new cap :
  (forall r, r ∈ l -> 0 <= f r) -> 0 <= cap -> in_int64 cap ->
  sumZ f l <= cap -> f new <= cap -! int64 (sumZ f l) ->
  sumZ f (other_requests uid l ++ [new]) <= cap.
Proof.
  intros Hf Hc Hr Hs Hn. pose proof (sumZ_nonneg f l Hf). unfold in_int64 in Hr.
  rewrite (int64_id (sumZ f l)) in Hn by (unfold in_int64; lia).
  rewrite sub64_exact in Hn by (unfold in_int64; lia).
  rewrite sumZ_app, sumZ_cons, sumZ_nil.
  pose proof (sumZ_filter_le f (fun r => req_pod_uid r <> uid) l Hf).
  unfold other_requests. lia.
Qed.

(** A demand that fits what a balanced object has left can be reserved. *)
Lemma reservation_within b s uid name ns :
  balanced b -> nonneg_capacity (bw_capacity b) -> Forall nonneg_request (bw_requests b) ->
  within (bw_requests b) (bw_capacity b) -> fits s (bw_remaining b) ->
  within (other_requests uid (bw_requests b)
            ++ [new_request name ns uid (pf_ulMbps s) (pf_dlMbps s)]) (bw_capacity b).
Proof.
  intros [_ Hr _ _ _ _] ([? ?] & [? ?] & [? ?] & [? ?]) Hn [W1 W2 W3 W4] [[F1 F2] [F3 F4]].
  rewrite Forall_forall in Hn. unfold bw_remaining in *. rewrite Hr in F1, F2, F3, F4.
  split; apply room_for; try done; intros r Hin; destruct (Hn r Hin); try done;
    by apply req_net_nonneg.
Qed.

(** ** Normalised scores *)

(** A score in the range where multiplying by 100 does not wrap. *)
Definition scorable (n : NodeScore) : Prop := 0 <= ns_score n <= 92233720368547758.

(** One score against the highest one, in exact integers. *)
Definition percent (h x : Z) : Z := x * 100 / h.

Lemma percent_eq h x :
  0 < h -> 0 <= x <= 92233720368547758 -> x *! MaxNodeScore /! h = percent h x.
Proof.
  intros Hh Hx. unfold mul64, div64, MaxNodeScore, percent.
  rewrite (int64_id (x * 100)) by (unfold in_int64; lia).
  rewrite Z.quot_div_nonneg by lia. apply int64_id. unfold in_int64.
  pose proof (Z.div_le_upper_bound (x * 100) h (x * 100) Hh ltac:(nia)).
  pose proof (Z.div_pos (x * 100) h). lia.
Qed.

Lemma percent_range h x : 0 < h -> 0 <= x <= h -> 0 <= percent h x <= 100.
Proof.
  intros Hh Hx. unfold percent. split; [apply Z.div_pos; lia|].
  apply Z.div_le_upper_bound; lia.
Qed.

Lemma percent_mono h x y : 0 < h -> x <= y -> percent h x <= percent h y.
Proof. intros Hh Hx. apply Z.div_le_mono; lia. Qed.

Lemma percent_self h : 0 < h -> percent h h = 100.
Proof. intros Hh. unfold percent. rewrite Z.mul_comm. apply Z.div_mul. lia. Qed.

(** The score [NormalizeScore] gives, in exact integers. *)
Definition normal (l : list NodeScore) (x : Z) : Z :=
  let h := running_max (ns_score <$> l) in if bool_decide (h = 0) then 0 else percent h x.

Lemma normalize_eq l :
  Forall scorable l -> NormalizeScore l = (fun n => with_score n (normal l (ns_score n))) <$> l.
Proof.
  intros Hl. unfold NormalizeScore, normal. case_bool_decide; [done|].
  apply list_fmap_ext. intros i n Hn. f_equal.
  rewrite Forall_forall in Hl. apply percent_eq.
  - pose proof (running_max_nonneg (ns_score <$> l)). lia.
  - apply Hl. by eapply list_elem_of_lookup_2.
Qed.
