(* ===== verification/VaclabClaims.v ===== *)
(** * The properties of the VaclabScheduling plugin, and of the plugin and the
    operator together *)

From S2P Require Import Prelude.
From S2P Require Import KubeTypes.
From S2P Require Import BandwidthTypes.
From S2P Require Import Client.
From S2P Require Import Store.
From S2P Require Import OperatorHelpers.
From S2P Require Import Sync.
From S2P Require Import SyncProofs.
From S2P Require Import SyncTheorems.
From S2P Require Import Demo.
From S2P Require Import Framework.
From S2P Require Import VaclabHandle.
From S2P Require Import VaclabScheduling.
From S2P Require Import VaclabProofs.
Import Demo.Clusters.

(** ** Concrete configurations and clusters *)

(** What [SetDefaults_VaclabSchedulingArgs] makes of no arguments. *)
Definition default_args : VaclabSchedulingArgs :=
  SetDefaults_VaclabSchedulingArgs
    {| args_egress := ""; args_ingress := ""; args_default_egress := 0; args_default_ingress := 0 |}.
Definition default_handle : HandleConfig := {|
  EgressKey := args_egress default_args; IngressKey := args_ingress default_args;
  DefaultEgressMbps := args_default_egress default_args;
  DefaultIngressMbps := args_default_ingress default_args |}.

Definition demo_state (rate : Z) : preFilterState := {|
  pf_ulMbps := rate; pf_dlMbps := rate; pf_ownerUID := "rs-1"; pf_ownerKind := "ReplicaSet";
  pf_hasWorkload := true |}.

(** A node of 1000 Mbps whose object has just been synchronised. *)
Definition one_node (pods : list Pod) (reqs : list BandwidthRequest) : Store :=
  synced (mk_store [mk_node "n1"; mk_node "n2"] pods [node_bw "n1" reqs] []) "n1".

Definition pending_pod (name : string) (ann : gmap string string) : Pod :=
  mk_pod "default" name ("uid-" +:+ name) "" PodPending ann [].

Lemma default_config_ok : config_ok no_quantity default_handle.
Proof.
  split; [done|..]; (split; [done|split; [by split|auto]]).
Qed.

(** ** Annotations *)

Lemma rate_defaulted parseQuantity a key d :
  printable parseQuantity key d ->
  annotation_rate parseQuantity (defaulted parseQuantity key d a) key
  = effective parseQuantity a key d.
Proof.
  intros Hp. unfold effective, defaulted.
  destruct (bool_decide_reflect (annotation_rate parseQuantity a key = 0)) as [H0|H0];
    cbn [andb]; [|done].
  destruct (Z.ltb_spec 0 d); [by apply annotation_rate_insert|].
  destruct Hp as [? _]. rewrite H0. lia.
Qed.

(** C28. The operator charges a pod what the scheduler reserved for it: after
    [ExtractPodBandwidthRequirement] has filled in the defaults, the rates the
    operator reads from the pod's annotations are the extracted demand, and
    extracting again changes neither the demand nor the pod. *)
Theorem extracted_demand_is_charged parseQuantity cfg oc pod :
  config_ok parseQuantity cfg ->
  EgressBandwidthAnnotation oc = EgressKey cfg -> IngressBandwidthAnnotation oc = IngressKey cfg ->
  let '(ul, dl, pod') := ExtractPodBandwidthRequirement parseQuantity cfg pod in
  GetBandwidthFromAnnotation parseQuantity oc pod' = (ul, dl) /\
  ExtractPodBandwidthRequirement parseQuantity cfg pod' = (ul, dl, pod').
Proof.
  intros Hc HE HI. pose proof Hc as [Hne Hp1 Hp2]. rewrite extract_eq by done.
  set (a := pod_annotations pod).
  set (a1 := defaulted parseQuantity (EgressKey cfg) (DefaultEgressMbps cfg) a).
  set (a2 := defaulted parseQuantity (IngressKey cfg) (DefaultIngressMbps cfg) a1).
  assert (annotation_rate parseQuantity a1 (IngressKey cfg)
          = annotation_rate parseQuantity a (IngressKey cfg)) as Ho1.
  { unfold a1, defaulted. destruct (_ && _); [|done]. by apply annotation_rate_other. }
  assert (annotation_rate parseQuantity a2 (EgressKey cfg)
          = annotation_rate parseQuantity a1 (EgressKey cfg)) as Ho2.
  { unfold a2, defaulted. destruct (_ && _); [|done]. by apply annotation_rate_other. }
  assert (annotation_rate parseQuantity a2 (EgressKey cfg)
          = effective parseQuantity a (EgressKey cfg) (DefaultEgressMbps cfg)) as Hr1
    by (rewrite Ho2; by apply rate_defaulted).
  assert (annotation_rate parseQuantity a2 (IngressKey cfg)
          = effective parseQuantity a (IngressKey cfg) (DefaultIngressMbps cfg)) as Hr2.
  { unfold a2. rewrite rate_defaulted by done. unfold effective. by rewrite Ho1. }
  split.
  - unfold GetBandwidthFromAnnotation. rewrite HE, HI. by f_equal.
  - rewrite extract_eq by done. change (pod_annotations (set_annotations a2 pod)) with a2.
    assert (defaulted parseQuantity (EgressKey cfg) (DefaultEgressMbps cfg) a2 = a2) as He.
    { unfold defaulted at 1. rewrite Ho2.
      destruct (bool_decide_reflect (annotation_rate parseQuantity a1 (EgressKey cfg) = 0))
        as [H0|]; [|done]. rewrite Ho2 in Hr1. rewrite H0 in Hr1.
      destruct (Z.ltb_spec 0 (DefaultEgressMbps cfg)); [|done].
      unfold effective in Hr1. case_bool_decide; lia. }
    rewrite He. assert (defaulted parseQuantity (IngressKey cfg) (DefaultIngressMbps cfg) a2 = a2)
      as -> by (by apply defaulted_idemp).
    unfold effective at 1 2. rewrite Hr1, Hr2. unfold effective.
    repeat case_bool_decide; f_equal; congruence.
Qed.

Lemma extracted_demand_is_charged_witness :
  let pod := pending_pod "a" {[ "ovn.kubernetes.io/egress_rate" := "50" ]} in
  let '(ul, dl, pod') := ExtractPodBandwidthRequirement no_quantity default_handle pod in
  GetBandwidthFromAnnotation no_quantity default_config pod' = (ul, dl) /\
  ExtractPodBandwidthRequirement no_quantity default_handle pod' = (ul, dl, pod').
Proof.
  exact (extracted_demand_is_charged no_quantity default_handle default_config
           (pending_pod "a" {[ "ovn.kubernetes.io/egress_rate" := "50" ]})
           default_config_ok eq_refl eq_refl).
Defined.

(** What [formatBandwidthValue] writes, [parseBandwidthValue] reads back:
    for every non-negative int64 under the KubeOVN keys, and under the other
    keys for the values whose bit rate "nM" the quantity parser can hold. *)
Theorem format_parse_roundtrip parseQuantity key n :
  printable parseQuantity key n ->
  parseBandwidthValue parseQuantity (formatBandwidthValue n key) = n.
Proof. apply parse_format. Qed.

Lemma format_parse_roundtrip_witness :
  parseBandwidthValue (fun s => if bool_decide (s = "250M") then Some 250000000 else None)
    (formatBandwidthValue 250 CalicoEgressBandwidthAnnotation) = 250.
Proof.
  apply (format_parse_roundtrip (fun s => if bool_decide (s = "250M") then Some 250000000 else None)
           CalicoEgressBandwidthAnnotation 250).
  split; [done|]. split; [by split|]. right. right. split; [reflexivity|by split].
Defined.

(** Defaulting makes the arguments usable: [SetDefaults] then validation
    succeeds exactly when no default rate is negative, and the configuration
    [New] builds then has two non-empty keys and non-negative, non-zero rates. *)
Theorem defaulted_args_validate args :
  (ValidateVaclabSchedulingArgs (SetDefaults_VaclabSchedulingArgs args) = [] <->
   0 <= args_default_egress args /\ 0 <= args_default_ingress args) /\
  (forall cfg, handle_config (SetDefaults_VaclabSchedulingArgs args) = Some cfg ->
     EgressKey cfg <> "" /\ IngressKey cfg <> "" /\
     0 < DefaultEgressMbps cfg /\ 0 < DefaultIngressMbps cfg).
Proof.
  assert (forall s d : string, d <> "" -> (if bool_decide (s = "") then d else s) <> "") as Hk.
  { intros s d Hd. by case_bool_decide. }
  assert (forall v, ((if bool_decide (v = 0) then 20 else v) <? 0) = (v <? 0)) as Hv.
  { intros v. by case_bool_decide; subst. }
  assert (forall a, ValidateVaclabSchedulingArgs (SetDefaults_VaclabSchedulingArgs a) = [] <->
    0 <= args_default_egress a /\ 0 <= args_default_ingress a) as Hval.
  { intros a. unfold ValidateVaclabSchedulingArgs. cbn.
    rewrite !(bool_decide_eq_false_2 (_ = "")) by (by apply Hk). rewrite !Hv. cbn.
    destruct (Z.ltb_spec (args_default_egress a) 0), (Z.ltb_spec (args_default_ingress a) 0);
      cbn; split; intros; try done; lia. }
  split; [apply Hval|]. intros cfg. unfold handle_config.
  destruct (ValidateVaclabSchedulingArgs _) eqn:E; [|done]. intros [= <-].
  apply Hval in E. cbn. split; [by apply Hk|]. split; [by apply Hk|].
  split; case_bool_decide; lia.
Qed.

(** ** Filtering *)

(** C38. When the API server answers, [Filter] decides exactly: success when the
    node's object is in state Created and both rates fit what is left on the
    virtual bridge and on the network, Unschedulable when they do not fit, and
    an error when the object is missing or in another state. *)
Theorem filter_exact {W} `{!Client W} {view : W -> View} `{!ClientLaws W view}
    {healthy : W -> Prop} `{!HealthLaws W view healthy} s node w :
  healthy w ->
  ((Filter (Some s) node w).1 = NewStatus Success <->
   exists c, available (view w) node = Some c /\ fits s c) /\
  ((Filter (Some s) node w).1 = NewStatus Unschedulable <->
   exists c, available (view w) node = Some c /\ ~ fits s c) /\
  ((Filter (Some s) node w).1 = NewStatus CodeError <-> available (view w) node = None) /\
  view (Filter (Some s) node w).2 = view w.
Proof.
  intros Hh. rewrite (filter_healthy (view := view) s node w Hh).
  destruct (available (view w) node) as [c|] eqn:Ha.
  - pose proof (sufficient_iff c s) as Hs.
    destruct (sufficient c _ _); split_and!; try apply filter_view; naive_solver.
  - split_and!; try apply filter_view; naive_solver.
Qed.

Lemma filter_exact_witness :
  let w := one_node [] [] in
  ((Filter (Some (demo_state 600)) "n1" w).1 = NewStatus Success <->
   exists c, available (store_view w) "n1" = Some c /\ fits (demo_state 600) c) /\
  ((Filter (Some (demo_state 600)) "n1" w).1 = NewStatus Unschedulable <->
   exists c, available (store_view w) "n1" = Some c /\ ~ fits (demo_state 600) c) /\
  ((Filter (Some (demo_state 600)) "n1" w).1 = NewStatus CodeError <->
   available (store_view w) "n1" = None) /\
  store_view (Filter (Some (demo_state 600)) "n1" w).2 = store_view w.
Proof.
  intros w. apply (filter_exact (view := store_view) (healthy := store_healthy)). reflexivity.
Defined.

(** [PreFilter] gives up on a pod only when no node could take it: if it
    answers UnschedulableAndUnresolvable, [Filter] rejects the pod's demand on
    every node for as long as the objects stay as they are. *)
Theorem prefilter_rejection_sound {W} `{!Client W} {view : W -> View} `{!ClientLaws W view}
    parseQuantity cfg st pod w w' node :
  (PreFilter parseQuantity cfg st pod w).1.1.1 = NewStatus UnschedulableAndUnresolvable ->
  view w' = view w ->
  let '(ul, dl, pod') := ExtractPodBandwidthRequirement parseQuantity cfg pod in
  (Filter (Some (computed_state ul dl pod')) node w').1 <> NewStatus Success.
Proof.
  intros Hp Hv. unfold PreFilter in Hp.
  destruct (ExtractPodBandwidthRequirement parseQuantity cfg pod) as [[ul dl] pod'].
  destruct ((0 <? ul) || (0 <? dl)); [|done].
  rewrite bind_eq in Hp. unfold HandleListBandwidths in Hp. rewrite bind_eq in Hp.
  pose proof (list_bw_ok (view := view) w) as Hl.
  destruct (ListBandwidths w) as [[l|e] w1]; cbn [ret fst snd wrap] in *; [|done].
  destruct (feasible_somewhere l ul dl) eqn:Hf; [done|]. intros Hs.
  apply (filter_success (view := view)) in Hs as (c & Ha & Hfit). rewrite Hv in Ha.
  unfold available in Ha. destruct (v_bws (view w) !! node) as [b|] eqn:Eb; [|done].
  case_bool_decide; [|done]. injection Ha as <-.
  assert (feasible_somewhere l (pf_ulMbps (computed_state ul dl pod'))
            (pf_dlMbps (computed_state ul dl pod')) = true) as Ht; [|cbn in Ht; congruence].
  apply feasible_iff. exists b. split; [|done]. rewrite (Hl l eq_refl).
  apply list_elem_of_fmap. exists (node, b). split; [done|]. by apply elem_of_map_to_list.
Qed.

Lemma prefilter_rejection_sound_witness :
  let pod := pending_pod "a" (annotated "5000") in
  let '(ul, dl, pod') := ExtractPodBandwidthRequirement no_quantity default_handle pod in
  (Filter (Some (computed_state ul dl pod')) "n1" (one_node [] [])).1 <> NewStatus Success.
Proof.
  apply (prefilter_rejection_sound (view := store_view) no_quantity default_handle None
           (pending_pod "a" (annotated "5000")) (one_node [] []) (one_node [] []) "n1");
    vm_compute; reflexivity.
Defined.

(** A node without a usable object stops the whole cycle: [Filter] answers
    with an error, not Unschedulable, for every demand, the empty one included,
    when the node's object is missing or not in state Created. *)
Theorem filter_needs_created_object {W} `{!Client W} {view : W -> View} `{!ClientLaws W view}
    s node w :
  (forall b, v_bws (view w) !! node = Some b -> bstat_status (bw_status b) <> Created) ->
  (Filter (Some s) node w).1 = NewStatus CodeError.
Proof.
  intros Hb. apply (filter_unavailable (view := view)). unfold available.
  destruct (v_bws (view w) !! node) as [b|]; [|done].
  by rewrite bool_decide_eq_false_2 by (by apply Hb).
Qed.

(** The object of "n1" is in state Error after one failed pod list. *)
Lemma filter_needs_created_object_witness :
  (Filter (Some (demo_state 0)) "n1" (synced (together [None; Some "timeout"]) "n1")).1
  = NewStatus CodeError.
Proof.
  apply (filter_needs_created_object (view := store_view)). intros b Hb.
  assert (option_map (fun b => bstat_status (bw_status b))
            (v_bws (store_view (synced (together [None; Some "timeout"]) "n1")) !! "n1")
          = Some Error) as He by (vm_compute; reflexivity).
  rewrite Hb in He. injection He as ->. discriminate.
Defined.

(** ** Reservations *)

(** A successful [Reserve] of a non-empty demand writes exactly one thing:
    the node's object keeps its capacity and its status, and its requests are
    the other pods' requests followed by the pod's demand. A pod never has two
    requests on a node, whatever it had before. *)
Theorem reserve_replaces_request {W} `{!Client W} {view : W -> View} `{!ClientLaws W view}
    s pod node w :
  (pf_ulMbps s <> 0 \/ pf_dlMbps s <> 0) ->
  (Reserve (Some s) pod node w).1 = NewStatus Success ->
  exists b b', v_bws (view w) !! node = Some b /\
    view (Reserve (Some s) pod node w).2 = set_bws <[node := b']> (view w) /\
    bw_capacity b' = bw_capacity b /\ bw_status b' = bw_status b /\
    bw_requests b' = other_requests (pod_uid pod) (bw_requests b) ++
      [new_request (pod_name pod) (pod_namespace pod) (pod_uid pod) (pf_ulMbps s) (pf_dlMbps s)] /\
    (NoDup (req_pod_uid <$> bw_requests b) -> NoDup (req_pod_uid <$> bw_requests b')).
Proof.
  intros Hd Hr.
  apply (reserve_success (view := view)) in Hr as (b & b' & Hb & Hv & _ & Hs & Hst); [|done].
  exists b, b'. split; [done|]. split; [done|]. unfold bw_capacity, bw_requests. rewrite Hs.
  split_and!; [done..|]. cbn. by apply reserved_uids.
Qed.

Lemma reserve_replaces_request_witness :
  let w := one_node [web_pod "a" "n1"] [request "a" 20] in let pod := pending_pod "c" ∅ in
  exists b b', v_bws (store_view w) !! "n1" = Some b /\
    store_view (Reserve (Some (demo_state 600)) pod "n1" w).2
      = set_bws <["n1" := b']> (store_view w) /\
    bw_capacity b' = bw_capacity b /\ bw_status b' = bw_status b /\
    bw_requests b' = other_requests (pod_uid pod) (bw_requests b) ++
      [new_request (pod_name pod) (pod_namespace pod) (pod_uid pod) 600 600] /\
    (NoDup (req_pod_uid <$> bw_requests b) -> NoDup (req_pod_uid <$> bw_requests b')).
Proof.
  intros w pod.
  apply (reserve_replaces_request (view := store_view) (demo_state 600) pod "n1" w);
    [left; discriminate|vm_compute; reflexivity].
Defined.

(** [Unreserve] undoes [Reserve]: when the server answers, the requests are
    again those of the other pods, in their order, so a pod that had none
    before leaves no trace in the node's object. *)
Theorem unreserve_undoes_reserve {W} `{!Client W} {view : W -> View} `{!ClientLaws W view}
    {healthy : W -> Prop} `{!HealthLaws W view healthy} s pod node w w' b :
  (pf_ulMbps s <> 0 \/ pf_dlMbps s <> 0) ->
  v_bws (view w) !! node = Some b -> pod_uid pod ∉ req_pod_uid <$> bw_requests b ->
  (Reserve (Some s) pod node w).1 = NewStatus Success ->
  view w' = view (Reserve (Some s) pod node w).2 -> healthy w' ->
  exists b', view (Unreserve (Some s) pod node w').2 = set_bws <[node := b']> (view w) /\
    bw_spec b' = bw_spec b /\ bw_status b' = bw_status b.
Proof.
  intros Hd Hb Hn Hr Hv' Hh.
  apply (reserve_success (view := view)) in Hr as (b0 & b1 & Hb0 & Hv & Hn1 & Hs1 & Hst1); [|done].
  rewrite Hb in Hb0. injection Hb0 as <-. rewrite Hv in Hv'.
  assert (v_bws (view w') !! node = Some b1) as Hb1
    by (rewrite Hv'; cbn; apply lookup_insert_eq).
  assert (bw_requests b1 = other_requests (pod_uid pod) (bw_requests b) ++
    [new_request (pod_name pod) (pod_namespace pod) (pod_uid pod) (pf_ulMbps s) (pf_dlMbps s)])
    as Hq by (unfold bw_requests; by rewrite Hs1).
  destruct (unreserve_healthy (view := view) (healthy := healthy) s pod node w' Hd Hh)
    as [(b2 & Hb2 & Hn2 & _)|(b2 & b3 & Hb2 & Hv3 & _ & Hs3 & Hst3)]; [eauto|..];
    rewrite Hb1 in Hb2; injection Hb2 as <-.
  - exfalso. apply Hn2. rewrite Hq, fmap_app. apply elem_of_app. right. by left.
  - exists b3. rewrite Hv3, Hv'. split; [unfold set_bws; cbn; by rewrite insert_insert_eq|].
    split; [|congruence]. rewrite Hs3, Hq, other_requests_app by done.
    rewrite other_requests_id by done. unfold bw_requests.
    destruct b1 as [? sp1 ?], b as [? [? ? ? ?] ?]. cbn in *. by subst.
Qed.

Lemma unreserve_undoes_reserve_witness :
  let w := one_node [web_pod "a" "n1"] [request "a" 20] in let pod := pending_pod "c" ∅ in
  let s := demo_state 600 in
  exists b', store_view (Unreserve (Some s) pod "n1" (Reserve (Some s) pod "n1" w).2).2
      = set_bws <["n1" := b']> (store_view w) /\
    bw_spec b' = bw_spec (stored_or w "n1") /\ bw_status b' = bw_status (stored_or w "n1").
Proof.
  intros w pod s.
  apply (unreserve_undoes_reserve (view := store_view) (healthy := store_healthy) s pod "n1" w);
    [left; discriminate|vm_compute; reflexivity| |vm_compute; reflexivity|reflexivity
    |vm_compute; reflexivity].
  apply (bool_decide_eq_true_1 _). vm_compute. reflexivity.
Defined.

(** C3. One reservation per synchronisation is safe: on an object whose status
    is balanced and whose requests are within the capacity, a demand that
    passes [Filter] and is then reserved keeps the total of the requests within
    the capacity, on both datapaths and in both directions. *)
Theorem filtered_reservation_fits {W} `{!Client W} {view : W -> View} `{!ClientLaws W view}
    s pod node w w' b :
  v_bws (view w) !! node = Some b -> balanced b -> nonneg_capacity (bw_capacity b) ->
  Forall nonneg_request (bw_requests b) -> within (bw_requests b) (bw_capacity b) ->
  (pf_ulMbps s <> 0 \/ pf_dlMbps s <> 0) ->
  (Filter (Some s) node w).1 = NewStatus Success -> view w' = view w ->
  (Reserve (Some s) pod node w').1 = NewStatus Success ->
  exists b', view (Reserve (Some s) pod node w').2 = set_bws <[node := b']> (view w) /\
    within (bw_requests b') (bw_capacity b').
Proof.
  intros Hb Hbal Hc Hn Hw Hd Hf Hv Hr.
  apply (filter_success (view := view)) in Hf as (c & Ha & Hfit).
  unfold available in Ha. rewrite Hb in Ha. case_bool_decide; [|done]. injection Ha as <-.
  apply (reserve_success (view := view)) in Hr as (b0 & b' & Hb0 & Hv' & _ & Hs & _); [|done].
  rewrite Hv in Hb0, Hv'. rewrite Hb in Hb0. injection Hb0 as <-.
  exists b'. split; [done|]. unfold bw_capacity, bw_requests. rewrite Hs.
  by apply reservation_within.
Qed.

Lemma filtered_reservation_fits_witness :
  let w := one_node [web_pod "a" "n1"] [request "a" 20] in let pod := pending_pod "c" ∅ in
  exists b', store_view (Reserve (Some (demo_state 600)) pod "n1" w).2
      = set_bws <["n1" := b']> (store_view w) /\
    within (bw_requests b') (bw_capacity b').
Proof.
  intros w pod.
  apply (filtered_reservation_fits (view := store_view) (demo_state 600) pod "n1" w w
           (stored_or w "n1"));
    [vm_compute; reflexivity|split; vm_compute; reflexivity
    |decide_now|decide_now|split; vm_compute; discriminate|left; discriminate
    |vm_compute; reflexivity|reflexivity|vm_compute; reflexivity].
Defined.

(** Two pods of 600 Mbps on the node of 1000 Mbps, filtered against the same
    status: the second reservation comes before the operator's next turn. *)
Definition pod_600 (name : string) : Pod :=
  mk_pod "default" name ("uid-" +:+ name) "n1" PodPending (annotated "600") [].
Definition two_pods : Store := one_node [pod_600 "a"; pod_600 "b"] [].
Definition after_first : Store := (Reserve (Some (demo_state 600)) (pod_600 "a") "n1" two_pods).2.
Definition after_both : Store := (Reserve (Some (demo_state 600)) (pod_600 "b") "n1" after_first).2.

Definition network_left (s : Store) : Z := UlMbps (Network (bw_remaining (stored_or s "n1"))).

(** Two reservations between synchronisations oversubscribe a node:
    [Filter] looks at the status, which [Reserve] does not change, so a second
    pod of 600 Mbps passes on a node of 1000 Mbps where one has just been
    reserved; the next synchronisation finds -200 Mbps remaining. One
    synchronisation in between makes [Filter] reject it. *)
Theorem two_reservations_overcommit :
  (Filter (Some (demo_state 600)) "n1" two_pods).1 = NewStatus Success /\
  (Filter (Some (demo_state 600)) "n1" after_first).1 = NewStatus Success /\
  (Reserve (Some (demo_state 600)) (pod_600 "b") "n1" after_first).1 = NewStatus Success /\
  network_left (synced after_both "n1") = -200 /\
  (Filter (Some (demo_state 600)) "n1" (synced after_first "n1")).1 = NewStatus Unschedulable.
Proof. vm_compute. by split_and!. Qed.

(** Two siblings of 600 Mbps run on "n1" and use its bridge only; a third one
    then runs on "n2". *)
Definition sibling_600 (name node : string) : Pod :=
  mk_pod "default" name ("uid-" +:+ name) node PodRunning (annotated "600") [web].
Definition co_located : Store :=
  one_node [sibling_600 "a" "n1"; sibling_600 "b" "n1"] [request "a" 600; request "b" 600].
Definition moved_away : Store := {|
  st_nodes := st_nodes co_located;
  st_pods := <[("default", "c") := sibling_600 "c" "n2"]> (st_pods co_located);
  st_bws := st_bws co_located; st_clock := st_clock co_located;
  st_version := st_version co_located; st_faults := []; st_log := [] |}.

(** A pod placed on another node can oversubscribe this one: requests of a
    workload that is entirely on a node do not count on its network, and when
    the workload's next pod starts elsewhere they do, without any check; 1200
    Mbps are then charged to a network of 1000. *)
Theorem sibling_elsewhere_overcommits :
  network_left co_located = 1000 /\ network_left (synced moved_away "n1") = -200.
Proof. vm_compute. by split. Qed.

(** ** Annotations that are missing or negative *)

(** Defaulted demands are forgotten: the default rates written by
    [ExtractPodBandwidthRequirement] stay in the scheduler's copy of the pod, so
    the server's pod has no annotation, and once it is no longer pending any
    successful synchronisation drops its request: the pod runs unaccounted. *)
Theorem unannotated_pod_unaccounted {W} `{!Client W} {view : W -> View} `{!ClientLaws W view}
    {healthy : W -> Prop} `{!HealthLaws W view healthy} parseQuantity cfg b w p :
  current (view w) b -> cluster_ok (view w) -> healthy w ->
  out_err (SyncFromSpecAndPods parseQuantity cfg b w).1 = None ->
  p ∈ pods_of (view w) -> has_bw_annotation cfg p = false -> pod_phase p <> PodPending ->
  exists b', view (SyncFromSpecAndPods parseQuantity cfg b w).2
             = set_bws <[bw_name b := b']> (view w) /\
    pod_uid p ∉ req_pod_uid <$> bw_requests b'.
Proof.
  intros Hcur Hc Hh He Hp Ha Hph.
  destruct (sync_runs_healthy parseQuantity cfg b w Hcur Hc Hh) as (a & w1 & Hv1 & Hr & Hl & Hcl).
  pose proof Hcur as [Hs Hn Hnode Hu]. rewrite Hr in He.
  destruct (sync_commit_settles (view := view) cfg (bw_name b) (view w) b a w1)
    as (b2 & Hv & _ & _ & Hreq & _); [done..|].
  exists b2. rewrite Hr. split; [done|]. rewrite Hreq, Hcl.
  intros (r & Hpu & Hin)%list_elem_of_fmap. apply list_elem_of_omap in Hin as (req & _ & Hk).
  assert (forall q, q ∈ pods_of (view w) -> pod_uid q = pod_uid p -> q = p) as Huniq.
  { intros q Hq Huq. destruct Hc as [_ Hnd _].
    apply list_elem_of_lookup in Hq as [i Hi], Hp as [j Hj].
    assert (i = j) as ->.
    { eapply NoDup_lookup; [exact Hnd|rewrite list_lookup_fmap, Hi; cbn; by rewrite Huq
                           |by rewrite list_lookup_fmap, Hj]. }
    congruence. }
  unfold keep in Hk. destruct (node_pods _ _ _ !! _) as [q|] eqn:E.
  - injection Hk as <-. cbn in Hpu.
    apply pods_with_bw_Some in E as (Hq & _ & Hacc). apply list_elem_of_filter in Hq as [_ Hq].
    rewrite (Huniq q Hq) in Hacc by done. unfold accounted_pod in Hacc.
    by rewrite Ha, andb_false_r in Hacc.
  - destruct (v_pods (view w) !! _) as [q|] eqn:Eq; [|done].
    destruct (bool_decide (pod_uid q = _) && _) eqn:B; [|done].
    apply andb_true_iff in B as [_ B%bool_decide_eq_true].
    injection Hk as <-. cbn in Hpu. apply pods_of_lookup in Eq.
    by rewrite (Huniq q Eq) in B by done.
Qed.

(** A running pod that was reserved at the default of 20 Mbps. *)
Definition bare_pod : Pod := mk_pod "default" "a" "uid-a" "n1" PodRunning ∅ [].
Definition bare : Store := mk_store [mk_node "n1"] [bare_pod] [node_bw "n1" [request "a" 20]] [].

Lemma unannotated_pod_unaccounted_witness :
  exists b', store_view (synced bare "n1") = set_bws <["n1" := b']> (store_view bare) /\
    "uid-a" ∉ req_pod_uid <$> bw_requests b'.
Proof.
  apply (unannotated_pod_unaccounted (view := store_view) (healthy := store_healthy)
           no_quantity default_config (stored_or bare "n1") bare bare_pod);
    [apply demo_current; vm_compute; reflexivity
    |apply demo_cluster_ok; vm_compute; reflexivity
    |reflexivity|vm_compute; reflexivity| |vm_compute; reflexivity|discriminate].
  apply (bool_decide_eq_true_1 _). vm_compute. reflexivity.
Defined.

(** Negative annotations are not rejected: a pod asking for -n Mbps passes
    [PreFilter] without any node being looked at, with -n as its demand. *)
Theorem negative_demand_accepted {W} `{!Client W} parseQuantity cfg st pod (w : W) n :
  0 < n -> in_int64 n -> EgressKey cfg <> IngressKey cfg ->
  pod_annotations pod = {[ EgressKey cfg := FormatInt (- n); IngressKey cfg := FormatInt (- n) ]} ->
  exists pod' s, PreFilter parseQuantity cfg st pod w = ((NewStatus Success, pod', Some s), w) /\
    pf_ulMbps s = - n /\ pf_dlMbps s = - n.
Proof.
  intros Hn Hr Hk Ha.
  assert (forall key, pod_annotations pod !! key = Some (FormatInt (- n)) ->
    annotation_rate parseQuantity (pod_annotations pod) key = - n) as Hrate.
  { intros key Hkey. unfold annotation_rate. rewrite Hkey.
    change (default "" (Some (FormatInt (- n)))) with (FormatInt (- n)).
    rewrite bool_decide_eq_true_2 by apply FormatInt_nonempty.
    unfold parseBandwidthValue. by rewrite FormatInt_neg. }
  assert (pod_annotations pod !! EgressKey cfg = Some (FormatInt (- n))) as HE
    by (rewrite Ha; apply lookup_insert_eq).
  assert (pod_annotations pod !! IngressKey cfg = Some (FormatInt (- n))) as HI.
  { rewrite Ha, lookup_insert_ne by done. apply lookup_singleton_eq. }
  unfold PreFilter, ExtractPodBandwidthRequirement, GetBandwidthFromPodAnnotations.
  rewrite HE, !Hrate by done. rewrite (bool_decide_eq_true_2 (is_Some (Some _))) by eauto.
  cbn [negb andb].
  rewrite !(bool_decide_eq_false_2 (- n = 0)) by lia. cbn [negb andb].
  rewrite (proj2 (Z.ltb_ge 0 (- n))) by lia. cbn [orb].
  eexists _, _. split; [reflexivity|done].
Qed.

Lemma negative_demand_accepted_witness :
  exists pod' s, PreFilter no_quantity default_handle None (pending_pod "a" (annotated "-1000"))
      (one_node [] []) = ((NewStatus Success, pod', Some s), one_node [] []) /\
    pf_ulMbps s = -1000 /\ pf_dlMbps s = -1000.
Proof.
  apply (negative_demand_accepted no_quantity default_handle None _ (one_node [] []) 1000);
    [done|by split|done|vm_compute; reflexivity].
Defined.

(** Such a pod running on the node leaves more than the node's capacity. *)
Example negative_rate_inflates :
  network_left (one_node [mk_pod "default" "a" "uid-a" "n1" PodRunning (annotated "-1000") []]
                  [request "a" (-1000)]) = 2000.
Proof. vm_compute. reflexivity. Qed.

(** ** Scores *)

(** [NormalizeScore] keeps the nodes and their order and maps scores to
    0..100: no score is out of range, a node that scored at least as much as
    another still does, and unless every score is 0 some node gets 100. No
    intermediate product wraps around for scores up to 2^63 / 100. *)
Theorem normalize_score_spec (scores : NodeScoreList) :
  Forall scorable scores ->
  (ns_name <$> NormalizeScore scores) = (ns_name <$> scores) /\
  Forall (fun n => MinNodeScore <= ns_score n <= MaxNodeScore) (NormalizeScore scores) /\
  (forall i j a b a' b', scores !! i = Some a -> scores !! j = Some b ->
     NormalizeScore scores !! i = Some a' -> NormalizeScore scores !! j = Some b' ->
     ns_score a <= ns_score b -> ns_score a' <= ns_score b') /\
  ((exists n, n ∈ scores /\ ns_score n <> 0) ->
   exists n, n ∈ NormalizeScore scores /\ ns_score n = MaxNodeScore).
Proof.
  intros Hs. rewrite (normalize_eq scores Hs). pose proof Hs as Hs'.
  rewrite Forall_forall in Hs'.
  assert (forall n, n ∈ scores -> ns_score n <= running_max (ns_score <$> scores)) as Hle.
  { intros n Hn. apply running_max_ge, list_elem_of_fmap. eauto. }
  pose proof (running_max_nonneg (ns_score <$> scores)) as Hnn.
  split_and!.
  - rewrite <- list_fmap_compose. by apply list_fmap_ext.
  - apply Forall_fmap, Forall_forall. intros n Hn. cbn. unfold normal, MinNodeScore, MaxNodeScore.
    case_bool_decide; [lia|]. apply percent_range; [lia|]. specialize (Hs' n Hn). split; [apply Hs'|auto].
  - intros i j a b a' b' Ha Hb. rewrite !list_lookup_fmap, Ha, Hb.
    intros [= <-] [= <-] Hab. cbn. unfold normal. case_bool_decide; [lia|].
    apply percent_mono; lia.
  - intros (n & Hn & Hz). specialize (Hs' n Hn) as [Hn0 _]. specialize (Hle n Hn).
    destruct (running_max_attained (ns_score <$> scores)) as [H0|Hin]; [lia|].
    apply list_elem_of_fmap in Hin as (m & Hm & Hm').
    exists (with_score m (normal scores (ns_score m))). split; [apply list_elem_of_fmap; eauto|].
    cbn. unfold normal, MaxNodeScore. rewrite bool_decide_eq_false_2 by lia. rewrite <- Hm.
    apply percent_self. lia.
Qed.

Lemma normalize_score_spec_witness :
  let scores := [{| ns_name := "n1"; ns_score := 2940 |}; {| ns_name := "n2"; ns_score := 1200 |}] in
  (ns_name <$> NormalizeScore scores) = (ns_name <$> scores) /\
  Forall (fun n => MinNodeScore <= ns_score n <= MaxNodeScore) (NormalizeScore scores) /\
  (forall i j a b a' b', scores !! i = Some a -> scores !! j = Some b ->
     NormalizeScore scores !! i = Some a' -> NormalizeScore scores !! j = Some b' ->
     ns_score a <= ns_score b -> ns_score a' <= ns_score b') /\
  ((exists n, n ∈ scores /\ ns_score n <> 0) ->
   exists n, n ∈ NormalizeScore scores /\ ns_score n = MaxNodeScore).
Proof.
  intros scores. apply (normalize_score_spec scores).
  repeat constructor; cbn; lia.
Defined.

(** Ten siblings of 1 Mbps on "n1"; "n2" is empty. *)
Definition ten : list string := map (fun n => "p" +:+ FormatInt n) [0;1;2;3;4;5;6;7;8;9].
Definition running_at (rate : string) (owners : list OwnerReference) (name : string) : Pod :=
  mk_pod "default" name ("uid-" +:+ name) "n1" PodRunning (annotated rate) owners.
Definition crowd : Store :=
  synced (synced (mk_store [mk_node "n1"; mk_node "n2"]
    (map (running_at "10" []) ["x"; "y"; "z"] ++ map (running_at "1" [web]) ten)
    [node_bw "n1" (map (fun n => request n 1) (["x"; "y"; "z"] ++ ten)); node_bw "n2" []] [])
    "n1") "n2".

(** Locality does not dominate: the score adds 7 per sibling to 3 per free
    Mbps, so a node with ten siblings of the pod loses to an empty node with
    30 Mbps more. *)
Theorem bandwidth_outweighs_locality :
  (CalculateLocalityScore (web_pod "c" "") "n1" crowd).1 = Ok 10 /\
  (CalculateLocalityScore (web_pod "c" "") "n2" crowd).1 = Ok 0 /\
  network_left crowd = 970 /\
  (Score (Some (demo_state 20)) (web_pod "c" "") "n1" crowd).1.1 = 2920 /\
  (Score (Some (demo_state 20)) (web_pod "c" "") "n2" crowd).1.1 = 2940.
Proof. vm_compute. by split_and!. Qed.
