(* ===== verification/Resource.v ===== *)
(** * Resource vectors of the scheduling framework

    [framework.Resource] and its operations
    ([vendor/k8s.io/kubernetes/pkg/scheduler/framework/types.go], the version the
    plugins are built with), [util.ResourceList]
    ([scheduler-plugins/pkg/util/resource.go]) and the request of a pod
    ([computePodResourceRequest]). Which resource names are scalar resources
    ([IsScalarResourceName]) is a parameter. *)

From S2P Require Import Prelude.
From S2P Require Import KubeTypes.

(** ** Quantities

    [Quantity.Value] and [Quantity.MilliValue] round away from zero. *)
Definition round_up (q unit : Z) : Z :=
  if 0 <=? q then (q + unit - 1) / unit else - ((- q + unit - 1) / unit).
Definition Value (q : Quantity) : Z := int64 (round_up q 1000000000).
Definition MilliValue (q : Quantity) : Z := int64 (round_up q 1000000).
Definition NewQuantity (v : Z) : Quantity := v * 1000000000.
Definition NewMilliQuantity (v : Z) : Quantity := v * 1000000.

Lemma round_up_mul v unit : 0 < unit -> round_up (v * unit) unit = v.
Proof.
  intros Hu. unfold round_up. destruct (Z.leb_spec 0 (v * unit)).
  - replace (v * unit + unit - 1) with (unit - 1 + v * unit) by lia.
    rewrite Z.div_add by lia. rewrite Z.div_small by lia. lia.
  - replace (- (v * unit) + unit - 1) with (unit - 1 + (- v) * unit) by lia.
    rewrite Z.div_add by lia. rewrite Z.div_small by lia. lia.
Qed.

Lemma Value_NewQuantity v : Value (NewQuantity v) = int64 v.
Proof. unfold Value, NewQuantity. by rewrite round_up_mul. Qed.
Lemma MilliValue_NewMilliQuantity v : MilliValue (NewMilliQuantity v) = int64 v.
Proof. unfold MilliValue, NewMilliQuantity. by rewrite round_up_mul. Qed.

(** ** [framework.Resource] *)

Record Resource := {
  MilliCPU : Z;
  Memory : Z;
  EphemeralStorage : Z;
  AllowedPodNumber : Z;
  ScalarResources : gmap string Z;
}.

#[export] Instance Resource_eq_dec : EqDecision Resource.
Proof. solve_decision. Defined.

Definition zero_resource : Resource := {|
  MilliCPU := 0; Memory := 0; EphemeralStorage := 0; AllowedPodNumber := 0; ScalarResources := ∅ |}.

Definition ResourceCPU : string := "cpu".
Definition ResourceMemory : string := "memory".
Definition ResourcePods : string := "pods".
Definition ResourceEphemeralStorage : string := "ephemeral-storage".

Definition scalar (r : Resource) (name : string) : Z := default 0 (ScalarResources r !! name).

Definition SetScalar (name : string) (v : Z) (r : Resource) : Resource := {|
  MilliCPU := MilliCPU r; Memory := Memory r; EphemeralStorage := EphemeralStorage r;
  AllowedPodNumber := AllowedPodNumber r; ScalarResources := <[name := v]> (ScalarResources r) |}.

(** [util.ResourceList]: the entries of the scalar map come last and win. *)
Definition ResourceListOf (r : Resource) : ResourceList :=
  (NewQuantity <$> ScalarResources r) ∪
  {[ ResourceCPU := NewMilliQuantity (MilliCPU r);
     ResourceMemory := NewQuantity (Memory r);
     ResourcePods := NewQuantity (AllowedPodNumber r);
     ResourceEphemeralStorage := NewQuantity (EphemeralStorage r) ]}.

Section Resources.
Variable isScalar : string -> bool.

(** The switch of [Resource.Add] for one entry of the list. *)
Definition add_entry (name : string) (q : Quantity) (r : Resource) : Resource :=
  if bool_decide (name = ResourceCPU) then
    {| MilliCPU := MilliCPU r +! MilliValue q; Memory := Memory r;
       EphemeralStorage := EphemeralStorage r; AllowedPodNumber := AllowedPodNumber r;
       ScalarResources := ScalarResources r |}
  else if bool_decide (name = ResourceMemory) then
    {| MilliCPU := MilliCPU r; Memory := Memory r +! Value q;
       EphemeralStorage := EphemeralStorage r; AllowedPodNumber := AllowedPodNumber r;
       ScalarResources := ScalarResources r |}
  else if bool_decide (name = ResourcePods) then
    {| MilliCPU := MilliCPU r; Memory := Memory r;
       EphemeralStorage := EphemeralStorage r; AllowedPodNumber := AllowedPodNumber r +! Value q;
       ScalarResources := ScalarResources r |}
  else if bool_decide (name = ResourceEphemeralStorage) then
    {| MilliCPU := MilliCPU r; Memory := Memory r;
       EphemeralStorage := EphemeralStorage r +! Value q; AllowedPodNumber := AllowedPodNumber r;
       ScalarResources := ScalarResources r |}
  else if isScalar name then SetScalar name (scalar r name +! Value q) r
  else r.

Definition Add (rl : ResourceList) (r : Resource) : Resource := map_fold add_entry r rl.

Definition NewResource (rl : ResourceList) : Resource := Add rl zero_resource.

(** The switch of [Resource.SetMaxResource]; pods are not among its cases. *)
Definition max_entry (name : string) (q : Quantity) (r : Resource) : Resource :=
  if bool_decide (name = ResourceMemory) then
    {| MilliCPU := MilliCPU r; Memory := Z.max (Memory r) (Value q);
       EphemeralStorage := EphemeralStorage r; AllowedPodNumber := AllowedPodNumber r;
       ScalarResources := ScalarResources r |}
  else if bool_decide (name = ResourceCPU) then
    {| MilliCPU := Z.max (MilliCPU r) (MilliValue q); Memory := Memory r;
       EphemeralStorage := EphemeralStorage r; AllowedPodNumber := AllowedPodNumber r;
       ScalarResources := ScalarResources r |}
  else if bool_decide (name = ResourceEphemeralStorage) then
    {| MilliCPU := MilliCPU r; Memory := Memory r;
       EphemeralStorage := Z.max (EphemeralStorage r) (Value q);
       AllowedPodNumber := AllowedPodNumber r; ScalarResources := ScalarResources r |}
  else if isScalar name then SetScalar name (Z.max (scalar r name) (Value q)) r
  else r.

Definition SetMaxResource (rl : ResourceList) (r : Resource) : Resource := map_fold max_entry r rl.

(** [computePodResourceRequest]: the sum of the containers, at least each init
    container, plus the overhead. *)
Definition computePodResourceRequest (pod : Pod) : Resource :=
  let result := foldl (fun r c => Add c r) zero_resource (spec_containers (pod_spec pod)) in
  let result := foldl (fun r c => SetMaxResource c r) result (spec_init_containers (pod_spec pod)) in
  match spec_overhead (pod_spec pod) with Some o => Add o result | None => result end.

End Resources.

(** ** Dimensions

    The components of a resource vector, one at a time. *)
Inductive Dim := DimCPU | DimMemory | DimStorage | DimPods | DimScalar (name : string).

#[export] Instance Dim_eq_dec : EqDecision Dim.
Proof. solve_decision. Defined.

Definition get (d : Dim) (r : Resource) : Z :=
  match d with
  | DimCPU => MilliCPU r
  | DimMemory => Memory r
  | DimStorage => EphemeralStorage r
  | DimPods => AllowedPodNumber r
  | DimScalar n => scalar r n
  end.

(** Equal in every component: an absent scalar and a zero one are the same. *)
Definition res_equiv (a b : Resource) : Prop := forall d, get d a = get d b.

#[export] Instance res_equiv_equivalence : Equivalence res_equiv.
Proof.
  split; [by intros a d|by intros a b H d; rewrite (H d)|].
  intros a b c H1 H2 d. by rewrite (H1 d), (H2 d).
Qed.

#[export] Instance get_proper d : Proper (res_equiv ==> eq) (get d).
Proof. intros a b H. apply H. Qed.

(** The components are machine integers. *)
Definition res_int64 (r : Resource) : Prop := forall d, in_int64 (get d r).

Lemma get_zero d : get d zero_resource = 0.
Proof. by destruct d. Qed.

Lemma zero_int64 : res_int64 zero_resource.
Proof. intros d. rewrite get_zero. by split. Qed.

Lemma get_SetScalar d name v r :
  get d (SetScalar name v r) = if decide (d = DimScalar name) then v else get d r.
Proof.
  destruct d as [| | | |n]; cbn; try (by rewrite decide_False by done).
  unfold scalar. cbn. destruct (decide (n = name)) as [->|Hn].
  - rewrite lookup_insert_eq. by rewrite decide_True.
  - rewrite lookup_insert_ne by done. rewrite decide_False by congruence. done.
Qed.

(** The amount an entry list holds in a dimension, in the dimension's unit. *)
Definition dim_name (d : Dim) : string :=
  match d with
  | DimCPU => ResourceCPU | DimMemory => ResourceMemory
  | DimStorage => ResourceEphemeralStorage | DimPods => ResourcePods
  | DimScalar n => n
  end.

Definition native_names : list string :=
  [ResourceCPU; ResourceMemory; ResourcePods; ResourceEphemeralStorage].

Definition entry_value (d : Dim) (q : Quantity) : Z :=
  match d with DimCPU => MilliValue q | _ => Value q end.

(** Whether a dimension is one the switches have a case for. *)
Definition counted (isScalar : string -> bool) (d : Dim) : bool :=
  match d with
  | DimScalar n => negb (bool_decide (n ∈ native_names)) && isScalar n
  | _ => true
  end.

Definition amount (isScalar : string -> bool) (d : Dim) (rl : ResourceList) : Z :=
  if counted isScalar d then default 0 (entry_value d <$> rl !! dim_name d) else 0.

Lemma native_cases (P : string -> Prop) n :
  P ResourceCPU -> P ResourceMemory -> P ResourcePods -> P ResourceEphemeralStorage ->
  (n ∉ native_names -> P n) -> P n.
Proof.
  intros H1 H2 H3 H4 H5. unfold native_names in H5.
  destruct (decide (n = ResourceCPU)) as [->|]; [done|].
  destruct (decide (n = ResourceMemory)) as [->|]; [done|].
  destruct (decide (n = ResourcePods)) as [->|]; [done|].
  destruct (decide (n = ResourceEphemeralStorage)) as [->|]; [done|].
  apply H5. rewrite !not_elem_of_cons. repeat split; try done. apply not_elem_of_nil.
Qed.

Lemma not_native n :
  n ∉ native_names ->
  n <> ResourceCPU /\ n <> ResourceMemory /\ n <> ResourcePods /\ n <> ResourceEphemeralStorage.
Proof. unfold native_names. rewrite !not_elem_of_cons. tauto. Qed.

Section ResourceLemmas.
Variable isScalar : string -> bool.

Lemma get_add_entry d n q r :
  get d (add_entry isScalar n q r)
  = if counted isScalar d && bool_decide (dim_name d = n)
    then get d r +! entry_value d q else get d r.
Proof.
  apply (native_cases (fun n => get d (add_entry isScalar n q r) = _) n);
    [destruct d; try reflexivity..|].
  1-4: cbn [counted dim_name]; destruct (decide (name ∈ native_names)) as [Hn|Hn];
    [by rewrite bool_decide_eq_true_2|]; pose proof (not_native name Hn) as (?&?&?&?);
    rewrite (bool_decide_eq_false_2 (name = _)) by done; by rewrite andb_false_r.
  intros Hn. pose proof (not_native n Hn) as (H1&H2&H3&H4). unfold add_entry.
  rewrite !bool_decide_eq_false_2 by done.
  destruct d as [| | | |m]; cbn [counted dim_name andb].
  1-4: rewrite bool_decide_eq_false_2 by congruence; destruct (isScalar n); done.
  destruct (decide (m = n)) as [->|Hm].
  - rewrite (bool_decide_eq_false_2 (n ∈ _)), (bool_decide_eq_true_2 (n = n)) by done. cbn [negb andb].
    rewrite andb_true_r. destruct (isScalar n); [|done].
    by rewrite get_SetScalar, decide_True.
  - rewrite (bool_decide_eq_false_2 (m = n)), andb_false_r by done.
    destruct (isScalar n); [|done]. rewrite get_SetScalar, decide_False; congruence.
Qed.

Lemma get_Add d rl r :
  in_int64 (get d r) -> get d (Add isScalar rl r) = get d r +! amount isScalar d rl.
Proof.
  intros Hr. unfold Add, amount.
  apply (map_fold_weak_ind (fun x m => get d x
    = get d r +! (if counted isScalar d then default 0 (entry_value d <$> m !! dim_name d) else 0))).
  - rewrite lookup_empty. cbn. replace (if counted isScalar d then 0 else 0) with 0 by (by destruct counted).
    rewrite add64_exact; rewrite Z.add_0_r; done.
  - intros n q m x Hm Hx. rewrite get_add_entry, Hx.
    destruct (counted isScalar d); cbn [andb]; [|done].
    case_bool_decide as Hn; [subst n|by rewrite lookup_insert_ne by congruence].
    rewrite lookup_insert_eq, Hm. cbn.
    unfold add64. by rewrite Z.add_0_r, (int64_id (get d r)).
Qed.

Lemma Add_int64 rl r : res_int64 r -> res_int64 (Add isScalar rl r).
Proof. intros Hr d. rewrite get_Add by done. apply int64_range. Qed.

(** The list of a vector whose scalars are scalar resources holds the vector. *)
Definition wf_resource (r : Resource) : Prop :=
  forall n, is_Some (ScalarResources r !! n) ->
    (n ∉ native_names) /\ isScalar n = true.

Lemma amount_ResourceListOf d r :
  wf_resource r -> res_int64 r -> amount isScalar d (ResourceListOf r) = get d r.
Proof.
  intros Hw Hr. unfold amount, ResourceListOf.
  assert (forall n, n ∈ native_names -> ScalarResources r !! n = None) as Hnat.
  { intros n Hn. destruct (ScalarResources r !! n) eqn:E; [|done].
    destruct (Hw n) as [? _]; [eauto|done]. }
  destruct d as [| | | |n]; cbn [counted dim_name entry_value].
  1-4: rewrite lookup_union_r by (rewrite lookup_fmap, Hnat; [done|unfold native_names; set_solver]).
  - rewrite lookup_insert_eq. cbn. rewrite MilliValue_NewMilliQuantity. apply int64_id, (Hr DimCPU).
  - rewrite lookup_insert_ne, lookup_insert_eq by done. cbn. rewrite Value_NewQuantity.
    apply int64_id, (Hr DimMemory).
  - rewrite !lookup_insert_ne by done. rewrite lookup_singleton_eq. cbn. rewrite Value_NewQuantity.
    apply int64_id, (Hr DimStorage).
  - rewrite !lookup_insert_ne by done. rewrite lookup_insert_eq. cbn. rewrite Value_NewQuantity.
    apply int64_id, (Hr DimPods).
  - specialize (Hr (DimScalar n)). cbn in Hr |- *. unfold scalar in *.
    destruct (ScalarResources r !! n) as [v|] eqn:E; cbn in *.
    + destruct (Hw n) as [Hn ->]; [eauto|]. rewrite bool_decide_eq_false_2 by done. cbn.
      rewrite (lookup_union_Some_l _ _ n (NewQuantity v)) by (by rewrite lookup_fmap, E).
      cbn. rewrite Value_NewQuantity. by apply int64_id.
    + case_bool_decide as Hn; [done|]. cbn. destruct (isScalar n); [|done].
      pose proof (not_native n Hn) as (?&?&?&?).
      rewrite lookup_union_r by (by rewrite lookup_fmap, E).
      by rewrite !lookup_insert_ne by done.
Qed.

(** Adding a vector through its list adds the components. *)
Lemma get_Add_list d a b :
  res_int64 a -> wf_resource b -> res_int64 b ->
  get d (Add isScalar (ResourceListOf b) a) = get d a +! get d b.
Proof. intros Ha Hw Hb. by rewrite get_Add, amount_ResourceListOf. Qed.

Lemma add_entry_wf n q r : wf_resource r -> wf_resource (add_entry isScalar n q r).
Proof.
  intros Hr. unfold add_entry. repeat case_bool_decide; try exact Hr.
  destruct (isScalar n) eqn:E; [|exact Hr]. intros m. cbn.
  intros [v Hv]. apply lookup_insert_Some in Hv as [[<- _]|[_ Hv]]; [|apply Hr; eauto].
  split; [|done]. unfold native_names. rewrite !not_elem_of_cons.
  repeat split; try done. apply not_elem_of_nil.
Qed.

Lemma Add_wf rl r : wf_resource r -> wf_resource (Add isScalar rl r).
Proof.
  intros Hr. unfold Add. apply (map_fold_weak_ind (fun x _ => wf_resource x)); [done|].
  intros n q m x _ Hx. by apply add_entry_wf.
Qed.

Lemma zero_wf : wf_resource zero_resource.
Proof. intros n [v Hv]. cbn in Hv. by rewrite lookup_empty in Hv. Qed.
End ResourceLemmas.

(** ** The request of a pod *)

Section Request.
Variable isScalar : string -> bool.
(** The native resource names are not scalar resources. *)
Hypothesis native_not_scalar : forall n, n ∈ native_names -> isScalar n = false.

(** The dimensions [SetMaxResource] raises. *)
Definition raised (d : Dim) : bool :=
  match d with
  | DimPods => false
  | DimScalar n => isScalar n
  | _ => true
  end.

Lemma get_max_entry d n q r :
  get d (max_entry isScalar n q r)
  = if raised d && bool_decide (dim_name d = n) then Z.max (get d r) (entry_value d q) else get d r.
Proof using native_not_scalar.
  apply (native_cases (fun n => get d (max_entry isScalar n q r) = _) n).
  1,2,4: destruct d as [| | | |m]; try reflexivity; cbn [raised dim_name];
    (destruct (decide (m ∈ native_names)) as [Hm|Hm];
     [rewrite (native_not_scalar m Hm); reflexivity|]);
    pose proof (not_native m Hm) as (?&?&?&?);
    rewrite (bool_decide_eq_false_2 (m = _)) by done; by rewrite andb_false_r.
  - unfold max_entry. rewrite !bool_decide_eq_false_2 by done.
    rewrite native_not_scalar by (unfold native_names; set_solver).
    destruct d as [| | | |m]; try reflexivity. cbn [raised dim_name].
    case_bool_decide as Hm; [|by rewrite andb_false_r]. subst m.
    by rewrite native_not_scalar by (unfold native_names; set_solver).
  - intros Hn. pose proof (not_native n Hn) as (H1&H2&H3&H4). unfold max_entry.
    rewrite !bool_decide_eq_false_2 by done.
    destruct d as [| | | |m]; cbn [raised dim_name andb].
    1-3: rewrite bool_decide_eq_false_2 by congruence; destruct (isScalar n); done.
    { destruct (isScalar n); done. }
    destruct (decide (m = n)) as [->|Hm].
    + rewrite bool_decide_eq_true_2, andb_true_r by done.
      destruct (isScalar n); [|done]. by rewrite get_SetScalar, decide_True.
    + rewrite (bool_decide_eq_false_2 (m = n)), andb_false_r by done.
      destruct (isScalar n); [|done]. rewrite get_SetScalar, decide_False; congruence.
Qed.

(** The amount of a dimension in a list, where [SetMaxResource] looks. *)
Definition raised_to (d : Dim) (rl : ResourceList) (v : Z) : Z :=
  if raised d then match rl !! dim_name d with Some q => Z.max v (entry_value d q) | None => v end
  else v.

Lemma get_SetMax d rl r : get d (SetMaxResource isScalar rl r) = raised_to d rl (get d r).
Proof using native_not_scalar.
  unfold SetMaxResource, raised_to.
  apply (map_fold_weak_ind (fun x m => get d x = if raised d then
    match m !! dim_name d with Some q => Z.max (get d r) (entry_value d q) | None => get d r end
    else get d r)).
  - rewrite lookup_empty. by destruct (raised d).
  - intros n q m x Hm Hx. rewrite get_max_entry, Hx. destruct (raised d); cbn [andb]; [|done].
    case_bool_decide as Hn; [subst n|by rewrite lookup_insert_ne by congruence].
    by rewrite lookup_insert_eq, Hm.
Qed.

Lemma entry_value_int64 d q : in_int64 (entry_value d q).
Proof. destruct d; apply int64_range. Qed.

Lemma SetMax_int64 rl r : res_int64 r -> res_int64 (SetMaxResource isScalar rl r).
Proof using native_not_scalar.
  intros Hr d. rewrite get_SetMax. unfold raised_to. specialize (Hr d).
  destruct (raised d); [|done]. destruct (rl !! _) as [q|]; [|done].
  pose proof (entry_value_int64 d q). unfold in_int64 in *. lia.
Qed.

Lemma max_entry_wf n q r : wf_resource isScalar r -> wf_resource isScalar (max_entry isScalar n q r).
Proof using native_not_scalar.
  intros Hr. unfold max_entry. repeat case_bool_decide; try exact Hr.
  destruct (isScalar n) eqn:E; [|exact Hr]. intros m. cbn.
  intros [v Hv]. apply lookup_insert_Some in Hv as [[<- _]|[_ Hv]]; [|apply Hr; eauto].
  split; [|done]. intros Hn. by rewrite native_not_scalar in E.
Qed.

Lemma SetMax_wf rl r : wf_resource isScalar r -> wf_resource isScalar (SetMaxResource isScalar rl r).
Proof using native_not_scalar.
  intros Hr. unfold SetMaxResource.
  apply (map_fold_weak_ind (fun x _ => wf_resource isScalar x)); [done|].
  intros n q m x _ Hx. by apply max_entry_wf.
Qed.

(** The request in one dimension, computed there alone. *)
Definition request_dim (pod : Pod) (d : Dim) : Z :=
  let containers := foldl (fun v c => v +! amount isScalar d c) 0 (spec_containers (pod_spec pod)) in
  let peak := foldl (fun v c => raised_to d c v) containers (spec_init_containers (pod_spec pod)) in
  match spec_overhead (pod_spec pod) with
  | Some o => peak +! amount isScalar d o
  | None => peak
  end.

Lemma request_ok pod :
  let r := computePodResourceRequest isScalar pod in
  res_int64 r /\ wf_resource isScalar r /\ forall d, get d r = request_dim pod d.
Proof using native_not_scalar.
  unfold computePodResourceRequest.
  assert (forall l r, res_int64 r /\ wf_resource isScalar r ->
    let r' := foldl (fun r c => Add isScalar c r) r l in
    res_int64 r' /\ wf_resource isScalar r' /\
    forall d, get d r' = foldl (fun v c => v +! amount isScalar d c) (get d r) l) as HA.
  { induction l as [|c l IH]; intros r [Hr Hw]; [done|]. cbn [foldl].
    destruct (IH (Add isScalar c r)) as (H1 & H2 & H3);
      [split; [by apply Add_int64|by apply Add_wf]|].
    split; [done|]. split; [done|]. intros d. by rewrite H3, get_Add. }
  assert (forall l r, res_int64 r /\ wf_resource isScalar r ->
    let r' := foldl (fun r c => SetMaxResource isScalar c r) r l in
    res_int64 r' /\ wf_resource isScalar r' /\
    forall d, get d r' = foldl (fun v c => raised_to d c v) (get d r) l) as HM.
  { induction l as [|c l IH]; intros r [Hr Hw]; [done|]. cbn [foldl].
    destruct (IH (SetMaxResource isScalar c r)) as (H1 & H2 & H3);
      [split; [by apply SetMax_int64|by apply SetMax_wf]|].
    split; [done|]. split; [done|]. intros d. by rewrite H3, get_SetMax. }
  destruct (HA (spec_containers (pod_spec pod)) zero_resource) as (A1 & A2 & A3);
    [split; [apply zero_int64|apply zero_wf]|].
  destruct (HM (spec_init_containers (pod_spec pod)) _ (conj A1 A2)) as (M1 & M2 & M3).
  unfold request_dim. cbn zeta in *.
  destruct (spec_overhead (pod_spec pod)) as [o|].
  - split; [by apply Add_int64|]. split; [by apply Add_wf|].
    intros d. by rewrite get_Add, M3, A3, get_zero.
  - split; [done|]. split; [done|]. intros d. by rewrite M3, A3, get_zero.
Qed.
End Request.
