(* ===== verification/ElasticQuota.v ===== *)
(** * Elastic quotas

    [scheduler-plugins/pkg/capacityscheduling/elasticquota.go]: what the
    CapacityScheduling plugin knows of the [ElasticQuota] of a namespace. Every
    value is built by [newElasticQuotaInfo] or [clone], which leave none of
    [Min], [Max] and [Used] nil, so they are no pointers here and the nil tests
    of the comparisons have no counterpart. *)

From S2P Require Import Prelude.
From S2P Require Import KubeTypes.
From S2P Require Import Resource.

Definition UpperBoundOfMax : Z := 9223372036854775807.
Definition LowerBoundOfMin : Z := 0.

Record ElasticQuotaInfo := {
  eq_Namespace : string;
  eq_pods : gset string;          (* UIDs *)
  eq_Min : Resource;
  eq_Max : Resource;
  eq_Used : Resource;
}.

(** One quota per namespace. *)
Abbreviation ElasticQuotaInfos := (gmap string ElasticQuotaInfo).

Definition set_used (r : Resource) (e : ElasticQuotaInfo) : ElasticQuotaInfo := {|
  eq_Namespace := eq_Namespace e; eq_pods := eq_pods e; eq_Min := eq_Min e; eq_Max := eq_Max e;
  eq_Used := r |}.
Definition set_pods (s : gset string) (e : ElasticQuotaInfo) : ElasticQuotaInfo := {|
  eq_Namespace := eq_Namespace e; eq_pods := s; eq_Min := eq_Min e; eq_Max := eq_Max e;
  eq_Used := eq_Used e |}.

Definition makeResourceListForBound (bound : Z) : ResourceList :=
  {[ ResourceCPU := NewMilliQuantity bound; ResourceMemory := NewQuantity bound;
     ResourceEphemeralStorage := NewQuantity bound ]}.

(** The scalar part of a loop that adds or subtracts a request. *)
Definition scalars_with (op : Z -> Z -> Z) (request r : Resource) : Resource :=
  map_fold (fun name value r => SetScalar name (op (scalar r name) value) r) r
    (ScalarResources request).

Definition reserveResource (request r : Resource) : Resource :=
  scalars_with add64 request
    {| MilliCPU := MilliCPU r +! MilliCPU request; Memory := Memory r +! Memory request;
       EphemeralStorage := EphemeralStorage r +! EphemeralStorage request;
       AllowedPodNumber := AllowedPodNumber r +! AllowedPodNumber request;
       ScalarResources := ScalarResources r |}.

Definition unreserveResource (request r : Resource) : Resource :=
  scalars_with sub64 request
    {| MilliCPU := MilliCPU r -! MilliCPU request; Memory := Memory r -! Memory request;
       EphemeralStorage := EphemeralStorage r -! EphemeralStorage request;
       AllowedPodNumber := AllowedPodNumber r -! AllowedPodNumber request;
       ScalarResources := ScalarResources r |}.

(** The comparison of x1 + x2 against y: only the scalars of x1 are looked at,
    and a scalar y does not have counts as [bound]. *)
Definition cmp2 (x1 x2 y : Resource) (bound : Z) : bool :=
  if MilliCPU y <? MilliCPU x1 +! MilliCPU x2 then true
  else if Memory y <? Memory x1 +! Memory x2 then true
  else if EphemeralStorage y <? EphemeralStorage x1 +! EphemeralStorage x2 then true
  else if AllowedPodNumber y <? AllowedPodNumber x1 +! AllowedPodNumber x2 then true
  else existsb (fun '(rName, rQuant) =>
         let yQuant := default bound (ScalarResources y !! rName) in
         yQuant <? rQuant +! scalar x2 rName)
       (map_to_list (ScalarResources x1)).

Definition cmp (x y : Resource) (bound : Z) : bool := cmp2 x zero_resource y bound.

Definition usedOverMinWith (podRequest : Resource) (e : ElasticQuotaInfo) : bool :=
  cmp2 podRequest (eq_Used e) (eq_Min e) LowerBoundOfMin.
Definition usedOverMaxWith (podRequest : Resource) (e : ElasticQuotaInfo) : bool :=
  cmp2 podRequest (eq_Used e) (eq_Max e) UpperBoundOfMax.
Definition usedOverMin (e : ElasticQuotaInfo) : bool :=
  cmp (eq_Used e) (eq_Min e) LowerBoundOfMin.

(** A fresh set of pods and copies of the vectors. *)
Definition clone (e : ElasticQuotaInfo) : ElasticQuotaInfo := {|
  eq_Namespace := eq_Namespace e; eq_pods := eq_pods e; eq_Min := eq_Min e; eq_Max := eq_Max e;
  eq_Used := eq_Used e |}.
Definition clone_infos (e : ElasticQuotaInfos) : ElasticQuotaInfos := clone <$> e.

Section Quota.
Variable isScalar : string -> bool.

(** [None] stands for a nil list. *)
Definition newElasticQuotaInfo (namespace : string) (min max used : option ResourceList)
    : ElasticQuotaInfo :=
  let min := default (makeResourceListForBound LowerBoundOfMin) min in
  let max := default (makeResourceListForBound UpperBoundOfMax) max in
  {| eq_Namespace := namespace; eq_pods := ∅;
     eq_Min := NewResource isScalar min; eq_Max := NewResource isScalar max;
     eq_Used := NewResource isScalar (default ∅ used) |}.

(** The running sums over all quotas. *)
Definition aggregate (e : ElasticQuotaInfos) : Resource * Resource :=
  map_fold (fun _ info '(used, min) =>
    (Add isScalar (ResourceListOf (eq_Used info)) used,
     Add isScalar (ResourceListOf (eq_Min info)) min)) (zero_resource, zero_resource) e.

Definition aggregatedUsedOverMinWith (podRequest : Resource) (e : ElasticQuotaInfos) : bool :=
  let '(used, min) := aggregate e in
  cmp (Add isScalar (ResourceListOf podRequest) used) min LowerBoundOfMin.

(** [framework.GetPodKey]: the UID; a pod without one is an error. *)
Definition GetPodKey (pod : Pod) : option string :=
  if bool_decide (pod_uid pod = "") then None else Some (pod_uid pod).

(** [None] is the error of [GetPodKey]. *)
Definition addPodIfNotPresent (pod : Pod) (e : ElasticQuotaInfo) : option ElasticQuotaInfo :=
  match GetPodKey pod with
  | None => None
  | Some key =>
      if bool_decide (key ∈ eq_pods e) then Some e
      else Some (set_used (reserveResource (computePodResourceRequest isScalar pod) (eq_Used e))
                   (set_pods ({[key]} ∪ eq_pods e) e))
  end.

Definition deletePodIfPresent (pod : Pod) (e : ElasticQuotaInfo) : option ElasticQuotaInfo :=
  match GetPodKey pod with
  | None => None
  | Some key =>
      if bool_decide (key ∉ eq_pods e) then Some e
      else Some (set_used (unreserveResource (computePodResourceRequest isScalar pod) (eq_Used e))
                   (set_pods (eq_pods e ∖ {[key]}) e))
  end.
End Quota.
