(* ===== verification/ElasticQuotaProofs.v ===== *)
(** * Lemmas about elastic quotas

    The ledger of a quota: [Used] is, in every dimension, the total of the
    requests of the pods it holds. *)

From S2P Require Import Prelude.
From S2P Require Import KubeTypes.
From S2P Require Import Resource.
From S2P Require Import ElasticQuota.

(** ** Reserving and unreserving one request *)

Lemma get_scalars_with op d q r :
  (forall a, in_int64 a -> op a 0 = a) -> in_int64 (get d r) ->
  get d (scalars_with op q r)
  = match d with DimScalar n => op (get d r) (scalar q n) | _ => get d r end.
Proof.
  intros Hop Hr. unfold scalars_with.
  apply (map_fold_weak_ind (fun x m => get d x
    = match d with DimScalar n => op (get d r) (default 0 (m !! n)) | _ => get d r end)).
  - destruct d; try done. rewrite lookup_empty. cbn. by rewrite Hop.
  - intros n v m x Hm Hx. rewrite get_SetScalar.
    destruct d as [| | | |k]; try (by rewrite decide_False by done).
    destruct (decide (DimScalar k = DimScalar n)) as [[= ->]|Hk].
    + rewrite lookup_insert_eq, Hm in *. change (scalar x n) with (get (DimScalar n) x).
      rewrite Hx. by rewrite Hop.
    + rewrite lookup_insert_ne by congruence. done.
Qed.

Lemma add64_0 a : in_int64 a -> a +! 0 = a.
Proof. intros. rewrite add64_exact; rewrite Z.add_0_r; done. Qed.
Lemma sub64_0 a : in_int64 a -> a -! 0 = a.
Proof. intros. rewrite sub64_exact; rewrite Z.sub_0_r; done. Qed.

Lemma get_reserve d q r : res_int64 r -> get d (reserveResource q r) = get d r +! get d q.
Proof.
  intros Hr. unfold reserveResource. rewrite get_scalars_with; [by destruct d|apply add64_0|].
  destruct d; try apply int64_range. apply (Hr (DimScalar name)).
Qed.

Lemma get_unreserve d q r : res_int64 r -> get d (unreserveResource q r) = get d r -! get d q.
Proof.
  intros Hr. unfold unreserveResource. rewrite get_scalars_with; [by destruct d|apply sub64_0|].
  destruct d; try apply int64_range. apply (Hr (DimScalar name)).
Qed.

Lemma reserve_int64 q r : res_int64 r -> res_int64 (reserveResource q r).
Proof. intros Hr d. rewrite get_reserve by done. apply int64_range. Qed.
Lemma unreserve_int64 q r : res_int64 r -> res_int64 (unreserveResource q r).
Proof. intros Hr d. rewrite get_unreserve by done. apply int64_range. Qed.

(** Taking a request back restores every component. *)
Lemma unreserve_reserve q r : res_int64 r -> res_equiv (unreserveResource q (reserveResource q r)) r.
Proof.
  intros Hr d. rewrite get_unreserve by (by apply reserve_int64). rewrite get_reserve by done.
  unfold add64, sub64. rewrite int64_sub_l.
  replace (get d r + get d q - get d q) with (get d r) by lia. apply int64_id, Hr.
Qed.

(** ** The comparisons *)

(** What [y] allows in a dimension. *)
Definition limit (bound : Z) (y : Resource) (d : Dim) : Z :=
  match d with DimScalar n => default bound (ScalarResources y !! n) | _ => get d y end.

(** The dimensions a comparison looks at: the four native ones and the scalars
    of its first argument. *)
Definition watched (x : Resource) (d : Dim) : Prop :=
  match d with DimScalar n => is_Some (ScalarResources x !! n) | _ => True end.

Lemma cmp2_false x1 x2 y bound :
  cmp2 x1 x2 y bound = false <->
  forall d, watched x1 d -> get d x1 +! get d x2 <= limit bound y d.
Proof.
  unfold cmp2. split.
  - destruct (Z.ltb_spec (MilliCPU y) (MilliCPU x1 +! MilliCPU x2)); [done|].
    destruct (Z.ltb_spec (Memory y) (Memory x1 +! Memory x2)); [done|].
    destruct (Z.ltb_spec (EphemeralStorage y) (EphemeralStorage x1 +! EphemeralStorage x2)); [done|].
    destruct (Z.ltb_spec (AllowedPodNumber y) (AllowedPodNumber x1 +! AllowedPodNumber x2)); [done|].
    intros He d. destruct d as [| | | |n]; try done. cbn. intros [v Hv]. unfold scalar at 1. rewrite Hv. cbn.
    destruct (Z.ltb_spec (default bound (ScalarResources y !! n)) (v +! scalar x2 n)) as [Hlt|]; [|done].
    exfalso. apply not_true_iff_false in He. apply He, existsb_exists. exists (n, v).
    split; [by apply list_elem_of_In, elem_of_map_to_list|]. by apply Z.ltb_lt.
  - intros Hall.
    pose proof (Hall DimCPU I) as H1. pose proof (Hall DimMemory I) as H2.
    pose proof (Hall DimStorage I) as H3. pose proof (Hall DimPods I) as H4. cbn in H1, H2, H3, H4.
    rewrite !(proj2 (Z.ltb_ge _ _)) by done.
    apply not_true_iff_false. rewrite existsb_exists. intros ([n v] & Hin & Hlt).
    apply list_elem_of_In, elem_of_map_to_list in Hin. apply Z.ltb_lt in Hlt.
    specialize (Hall (DimScalar n)). cbn in Hall. unfold scalar at 1 in Hall. rewrite Hin in Hall.
    specialize (Hall ltac:(eauto)). cbn in Hall. lia.
Qed.

Lemma cmp_false x y bound :
  res_int64 x ->
  cmp x y bound = false <-> forall d, watched x d -> get d x <= limit bound y d.
Proof.
  intros Hx. unfold cmp. rewrite cmp2_false. split; intros H d Hd; specialize (H d Hd);
    rewrite get_zero, add64_0 in * by apply Hx; done.
Qed.

Section Quota.
Variable isScalar : string -> bool.
Abbreviation request := (computePodResourceRequest isScalar).

(** ** Sums over all quotas *)

Definition quota_ok (e : ElasticQuotaInfo) : Prop :=
  res_int64 (eq_Used e) /\ wf_resource isScalar (eq_Used e) /\
  res_int64 (eq_Min e) /\ wf_resource isScalar (eq_Min e).

Definition infos_ok (m : ElasticQuotaInfos) : Prop := map_Forall (fun _ e => quota_ok e) m.

Lemma new_quota_ok ns mn mx : quota_ok (newElasticQuotaInfo isScalar ns mn mx None).
Proof.
  unfold quota_ok, newElasticQuotaInfo, NewResource. cbn.
  split_and!; [by apply Add_int64, zero_int64|by apply Add_wf, zero_wf
              |by apply Add_int64, zero_int64|by apply Add_wf, zero_wf].
Qed.

Lemma scalars_wf op q r :
  wf_resource isScalar q -> wf_resource isScalar r -> wf_resource isScalar (scalars_with op q r).
Proof.
  intros Hq Hr. unfold scalars_with.
  cut (ScalarResources q ⊆ ScalarResources q ->
    wf_resource isScalar (map_fold (fun name value r => SetScalar name (op (scalar r name) value) r)
      r (ScalarResources q))); [auto|].
  apply (map_fold_weak_ind (fun x m => m ⊆ ScalarResources q -> wf_resource isScalar x)); [done|].
  intros n v m x Hn IH Hm k. cbn. destruct (decide (k = n)) as [->|Hne].
  - intros _. apply Hq. exists v. eapply lookup_weaken; [apply lookup_insert_eq|exact Hm].
  - rewrite lookup_insert_ne by done. apply IH.
    etransitivity; [|exact Hm]. by apply insert_subseteq.
Qed.

Definition total (f : ElasticQuotaInfo -> Z) (m : ElasticQuotaInfos) : Z :=
  sumZ f ((map_to_list m).*2).

Lemma total_insert f m n e :
  m !! n = None -> total f (<[n := e]> m) = f e + total f m.
Proof. intros Hm. unfold total. rewrite map_to_list_insert by done. done. Qed.

Lemma total_update f m n e e' :
  m !! n = Some e -> total f (<[n := e']> m) = total f m - f e + f e'.
Proof.
  intros Hm. rewrite <- (insert_delete_id m n e Hm) at 2.
  rewrite <- insert_delete_eq, !total_insert by apply lookup_delete_eq. lia.
Qed.

Lemma aggregate_ok m :
  infos_ok m ->
  let '(used, min) := aggregate isScalar m in
  res_int64 used /\ wf_resource isScalar used /\ res_int64 min /\ wf_resource isScalar min /\
  (forall d, get d used = int64 (total (fun e => get d (eq_Used e)) m)) /\
  (forall d, get d min = int64 (total (fun e => get d (eq_Min e)) m)).
Proof.
  intros Hok. unfold aggregate.
  apply (map_fold_weak_ind (fun x m' => infos_ok m' -> let '(used, min) := x in
    res_int64 used /\ wf_resource isScalar used /\ res_int64 min /\ wf_resource isScalar min /\
    (forall d, get d used = int64 (total (fun e => get d (eq_Used e)) m')) /\
    (forall d, get d min = int64 (total (fun e => get d (eq_Min e)) m')))); [| |done].
  - intros _. split_and!; try apply zero_int64; try apply zero_wf; intros d; by rewrite get_zero.
  - intros n e m' [used min] Hn IH [He Hm']%map_Forall_insert; [|done].
    destruct (IH Hm') as (H1 & H2 & H3 & H4 & H5 & H6).
    destruct He as (U1 & U2 & M1 & M2).
    split_and!; [by apply Add_int64|by apply Add_wf|by apply Add_int64|by apply Add_wf|..];
      intros d; rewrite get_Add_list, total_insert by done; [rewrite H5|rewrite H6]; int64_ring.
Qed.

(** ** The ledger of one quota *)

(** Pods are told apart by their UIDs, and a pod's request does not change. *)
Variable req_of : string -> Resource.
Definition known (pod : Pod) : Prop := request pod = req_of (pod_uid pod).

Record ledger (e : ElasticQuotaInfo) : Prop := {
  ledger_int64 : res_int64 (eq_Used e);
  ledger_used : forall d,
    get d (eq_Used e) = int64 (sumZ (fun k => get d (req_of k)) (elements (eq_pods e)));
}.

Lemma sumZ_insert {f : string -> Z} {k : string} {s : gset string} :
  k ∉ s -> sumZ f (elements ({[k]} ∪ s)) = f k + sumZ f (elements s).
Proof. intros Hk. by rewrite elements_union_singleton. Qed.

Lemma sumZ_delete {f : string -> Z} {k : string} {s : gset string} :
  k ∈ s -> sumZ f (elements (s ∖ {[k]})) = sumZ f (elements s) - f k.
Proof.
  intros Hk. assert (s = {[k]} ∪ s ∖ {[k]}) as Hs by (apply union_difference_L; set_solver).
  rewrite Hs at 2. rewrite sumZ_insert by set_solver. lia.
Qed.

Lemma ledger_add pod e e' :
  ledger e -> known pod -> addPodIfNotPresent isScalar pod e = Some e' -> ledger e'.
Proof.
  unfold known. intros [Hi Hu] Hp. unfold addPodIfNotPresent, GetPodKey. case_bool_decide; [done|].
  case_bool_decide; intros [= <-]; [by split|]. split; cbn; [by apply reserve_int64|].
  intros d. rewrite get_reserve, Hu, sumZ_insert, Hp by done. int64_ring.
Qed.

Lemma ledger_delete pod e e' :
  ledger e -> known pod -> deletePodIfPresent isScalar pod e = Some e' -> ledger e'.
Proof.
  unfold known. intros [Hi Hu] Hp. unfold deletePodIfPresent, GetPodKey. case_bool_decide; [done|].
  case_bool_decide as Hk; intros [= <-]; [by split|].
  split; cbn; [by apply unreserve_int64|].
  intros d. rewrite get_unreserve, Hu, sumZ_delete, Hp by done. int64_ring.
Qed.

Lemma ledger_empty e : eq_pods e = ∅ -> eq_Used e = zero_resource -> ledger e.
Proof.
  intros He Hu. split; rewrite ?Hu; [apply zero_int64|].
  intros d. by rewrite He, elements_empty, get_zero.
Qed.
End Quota.
