(* ===== verification/Capacity.v ===== *)
(** * The CapacityScheduling plugin: quotas, filtering, reservations, events

    [scheduler-plugins/pkg/capacityscheduling/capacity_scheduling.go], but for
    the preemption part, which is in [Preemption]. The plugin's state is its
    table of quotas; each handler runs under the plugin's lock, so it is a
    function of the table. The cycle state's two entries are explicit. *)

From S2P Require Import Prelude.
From S2P Require Import KubeTypes.
From S2P Require Import Framework.
From S2P Require Import Resource.
From S2P Require Import ElasticQuota.

(** [v1alpha1.ElasticQuota]. *)
Record ElasticQuota := {
  quota_namespace : string;
  quota_min : option ResourceList;
  quota_max : option ResourceList;
}.

Record PreFilterState := {
  podReq : Resource;
  nominatedPodsReqInEQWithPodReq : Resource;
  nominatedPodsReqWithPodReq : Resource;
}.

(** The entries the plugin keeps in the [CycleState]. *)
Record CycleData := {
  cd_snapshot : option ElasticQuotaInfos;
  cd_prefilter : option PreFilterState;
}.

(** [corev1helpers.PodPriority]. *)
Definition PodPriority (p : Pod) : Z := default 0 (spec_priority (pod_spec p)).

Section Capacity.
Variable isScalar : string -> bool.

(** ** [PreFilter] *)

(** One nominated pod of the loop: the two sums it may join. *)
Definition nominated_turn (live : ElasticQuotaInfos) (pod : Pod)
    (sums : Resource * Resource) (p : Pod) : Resource * Resource :=
  let '(inEQ, all) := sums in
  if bool_decide (pod_uid p = pod_uid pod) then sums
  else
    match live !! pod_namespace p with
    | None => sums
    | Some info =>
        let req := ResourceListOf (computePodResourceRequest isScalar p) in
        if bool_decide (pod_namespace p = pod_namespace pod) &&
           bool_decide (PodPriority pod <= PodPriority p)
        then (Add isScalar req inEQ, Add isScalar req all)
        else if bool_decide (pod_namespace p <> pod_namespace pod) && negb (usedOverMin info)
        then (inEQ, Add isScalar req all)
        else sums
    end.

(** [nodes] is the answer of the node lister with the nominated pods of each
    node, in the order of the list. *)
Definition PreFilter (live : ElasticQuotaInfos) (nodes : result (list (list Pod))) (pod : Pod)
    (state : CycleData) : FStatus * CycleData :=
  let snapshot := clone_infos live in
  let req := computePodResourceRequest isScalar pod in
  let state := {| cd_snapshot := Some snapshot; cd_prefilter := cd_prefilter state |} in
  let write s := {| cd_snapshot := cd_snapshot state; cd_prefilter := Some s |} in
  match snapshot !! pod_namespace pod with
  | None =>
      (NewStatus Success, write {| podReq := req; nominatedPodsReqInEQWithPodReq := zero_resource;
                                   nominatedPodsReqWithPodReq := zero_resource |})
  | Some eq =>
      match nodes with
      | Err _ => (NewStatus CodeError, state)
      | Ok nodeList =>
          let '(inEQ, all) := foldl (nominated_turn live pod) (zero_resource, zero_resource)
                                (concat nodeList) in
          let inEQ := Add isScalar (ResourceListOf req) inEQ in
          let all := Add isScalar (ResourceListOf req) all in
          let state := write {| podReq := req; nominatedPodsReqInEQWithPodReq := inEQ;
                                nominatedPodsReqWithPodReq := all |} in
          if usedOverMaxWith inEQ eq then (NewStatus Unschedulable, state)
          else if aggregatedUsedOverMinWith isScalar all snapshot
          then (NewStatus Unschedulable, state)
          else (NewStatus Success, state)
      end
  end.

(** ** The table of quotas *)

(** The update of the quota of a namespace by a method that may fail; the
    failure leaves the quota as it was. *)
Definition update_quota (f : ElasticQuotaInfo -> option ElasticQuotaInfo) (ns : string)
    (infos : ElasticQuotaInfos) : ElasticQuotaInfos * bool :=
  match infos !! ns with
  | None => (infos, true)
  | Some info =>
      match f info with
      | Some info' => (<[ns := info']> infos, true)
      | None => (infos, false)
      end
  end.

(** The prefilter extensions, on the snapshot of the cycle: a failure is only
    logged. *)
Definition ExtAddPod (state : CycleData) (podToAdd : Pod) : FStatus * CycleData :=
  match cd_snapshot state with
  | None => (NewStatus CodeError, state)
  | Some infos =>
      (NewStatus Success,
       {| cd_snapshot :=
            Some (update_quota (addPodIfNotPresent isScalar podToAdd) (pod_namespace podToAdd) infos).1;
          cd_prefilter := cd_prefilter state |})
  end.

Definition ExtRemovePod (state : CycleData) (podToRemove : Pod) : FStatus * CycleData :=
  match cd_snapshot state with
  | None => (NewStatus CodeError, state)
  | Some infos =>
      (NewStatus Success,
       {| cd_snapshot :=
            Some (update_quota (deletePodIfPresent isScalar podToRemove)
                    (pod_namespace podToRemove) infos).1;
          cd_prefilter := cd_prefilter state |})
  end.

Definition Reserve (pod : Pod) (infos : ElasticQuotaInfos) : FStatus * ElasticQuotaInfos :=
  let '(infos, ok) := update_quota (addPodIfNotPresent isScalar pod) (pod_namespace pod) infos in
  (if (ok : bool) then NewStatus Success else NewStatus CodeError, infos).

Definition Unreserve (pod : Pod) (infos : ElasticQuotaInfos) : ElasticQuotaInfos :=
  (update_quota (deletePodIfPresent isScalar pod) (pod_namespace pod) infos).1.

(** ** Informer events: deletions arrive as [Deleted_] *)

Definition addElasticQuota (eq : ElasticQuota) (infos : ElasticQuotaInfos) : ElasticQuotaInfos :=
  match infos !! quota_namespace eq with
  | Some _ => infos
  | None =>
      <[quota_namespace eq :=
          newElasticQuotaInfo isScalar (quota_namespace eq) (quota_min eq) (quota_max eq) None]> infos
  end.

Definition updateElasticQuota (oldEQ newEQ : ElasticQuota) (infos : ElasticQuotaInfos)
    : ElasticQuotaInfos :=
  let newEQInfo :=
    newElasticQuotaInfo isScalar (quota_namespace newEQ) (quota_min newEQ) (quota_max newEQ) None in
  let newEQInfo :=
    match infos !! quota_namespace oldEQ with
    | Some oldEQInfo => set_used (eq_Used oldEQInfo) (set_pods (eq_pods oldEQInfo) newEQInfo)
    | None => newEQInfo
    end in
  <[quota_namespace newEQ := newEQInfo]> infos.

Definition deleteElasticQuota (obj : Deleted_ ElasticQuota) (infos : ElasticQuotaInfos)
    : option ElasticQuotaInfos :=
  match obj with
  | Gone _ eq => Some (delete (quota_namespace eq) infos)
  | DeletedFinalStateUnknown _ _ => None
  end.

(** [listQuotas] is the client's [List] of the quotas of a namespace. *)
Definition addPod (listQuotas : string -> result (list ElasticQuota)) (pod : Pod)
    (infos : ElasticQuotaInfos) : ElasticQuotaInfos :=
  let add infos := (update_quota (addPodIfNotPresent isScalar pod) (pod_namespace pod) infos).1 in
  match infos !! pod_namespace pod with
  | Some _ => add infos
  | None =>
      match listQuotas (pod_namespace pod) with
      | Err _ => infos
      | Ok [] => infos
      | Ok (eq :: _) =>
          let info :=
            newElasticQuotaInfo isScalar (quota_namespace eq) (quota_min eq) (quota_max eq) None in
          let infos := <[quota_namespace eq := info]> infos in
          (update_quota (addPodIfNotPresent isScalar pod) (quota_namespace eq) infos).1
      end
  end.

Definition updatePod (oldPod newPod : Pod) (infos : ElasticQuotaInfos) : ElasticQuotaInfos :=
  if bool_decide (pod_phase oldPod = PodSucceeded) || bool_decide (pod_phase oldPod = PodFailed)
  then infos
  else if bool_decide (pod_phase newPod <> PodRunning) && bool_decide (pod_phase newPod <> PodPending)
  then (update_quota (deletePodIfPresent isScalar newPod) (pod_namespace newPod) infos).1
  else infos.

Definition deletePod (obj : Deleted_ Pod) (infos : ElasticQuotaInfos) : option ElasticQuotaInfos :=
  match obj with
  | Gone _ pod =>
      Some (update_quota (deletePodIfPresent isScalar pod) (pod_namespace pod) infos).1
  | DeletedFinalStateUnknown _ _ => None
  end.

Definition assignedPod (pod : Pod) : bool := negb (bool_decide (pod_node pod = "")).

(** The pod handlers behind the filter [assignedPod], the way the informer's
    filtering handler calls them. *)
Definition on_pod_add (listQuotas : string -> result (list ElasticQuota)) (pod : Pod)
    (infos : ElasticQuotaInfos) : ElasticQuotaInfos :=
  if assignedPod pod then addPod listQuotas pod infos else infos.

Definition on_pod_update (listQuotas : string -> result (list ElasticQuota)) (oldPod newPod : Pod)
    (infos : ElasticQuotaInfos) : option ElasticQuotaInfos :=
  match assignedPod newPod, assignedPod oldPod with
  | true, true => Some (updatePod oldPod newPod infos)
  | true, false => Some (addPod listQuotas newPod infos)
  | false, true => deletePod (Gone _ oldPod) infos
  | false, false => Some infos
  end.

Definition on_pod_delete (obj : Deleted_ Pod) (infos : ElasticQuotaInfos) : option ElasticQuotaInfos :=
  let pod := match obj with Gone _ p => p | DeletedFinalStateUnknown _ p => p end in
  if assignedPod pod then deletePod obj infos else Some infos.
End Capacity.
