(* ===== verification/CapacityProofs.v ===== *)
(** * Lemmas about the CapacityScheduling plugin *)

From S2P Require Import Prelude.
From S2P Require Import KubeTypes.
From S2P Require Import Framework.
From S2P Require Import Resource.
From S2P Require Import ElasticQuota.
From S2P Require Import ElasticQuotaProofs.
From S2P Require Import Capacity.

Section Capacity.
Variable isScalar : string -> bool.
Abbreviation request := (computePodResourceRequest isScalar).

(** ** What every handler keeps *)

Section Steps.
Variable req_of : string -> Resource.

(** What the scheduler and the informers do to the table. *)
Inductive quota_step : ElasticQuotaInfos -> ElasticQuotaInfos -> Prop :=
| step_reserve pod infos :
    known isScalar req_of pod -> quota_step infos (Reserve isScalar pod infos).2
| step_unreserve pod infos :
    known isScalar req_of pod -> quota_step infos (Unreserve isScalar pod infos)
| step_pod_add listQuotas pod infos :
    known isScalar req_of pod -> quota_step infos (on_pod_add isScalar listQuotas pod infos)
| step_pod_update listQuotas old new infos infos' :
    known isScalar req_of old -> known isScalar req_of new ->
    on_pod_update isScalar listQuotas old new infos = Some infos' -> quota_step infos infos'
| step_pod_delete obj infos infos' :
    (forall pod, obj = Gone _ pod -> known isScalar req_of pod) ->
    on_pod_delete isScalar obj infos = Some infos' -> quota_step infos infos'
| step_quota_add eq infos : quota_step infos (addElasticQuota isScalar eq infos)
| step_quota_update old new infos : quota_step infos (updateElasticQuota isScalar old new infos)
| step_quota_delete obj infos infos' :
    deleteElasticQuota obj infos = Some infos' -> quota_step infos infos'.

Inductive reachable : ElasticQuotaInfos -> Prop :=
| reach_start : reachable ∅
| reach_step infos infos' : reachable infos -> quota_step infos infos' -> reachable infos'.

(** A property of single quotas that new quotas have and that the two methods
    and the change of the bounds keep. *)
Variable Q : ElasticQuotaInfo -> Prop.
Hypothesis Q_new : forall ns mn mx, Q (newElasticQuotaInfo isScalar ns mn mx None).
Hypothesis Q_bounds : forall ns mn mx e, Q e ->
  Q (set_used (eq_Used e) (set_pods (eq_pods e) (newElasticQuotaInfo isScalar ns mn mx None))).
Hypothesis Q_add : forall pod e e', known isScalar req_of pod -> Q e ->
  addPodIfNotPresent isScalar pod e = Some e' -> Q e'.
Hypothesis Q_delete : forall pod e e', known isScalar req_of pod -> Q e ->
  deletePodIfPresent isScalar pod e = Some e' -> Q e'.
Abbreviation Qs := (map_Forall (fun (_ : string) e => Q e)).

Lemma update_quota_keeps f ns infos :
  (forall e e', Q e -> f e = Some e' -> Q e') -> Qs infos -> Qs (update_quota f ns infos).1.
Proof.
  intros Hf Hm. unfold update_quota. destruct (infos !! ns) as [e|] eqn:E; [|done].
  destruct (f e) as [e'|] eqn:Ef; [|done]. cbn. apply map_Forall_insert_2; [|done].
  eapply Hf; [|exact Ef]. by apply (Hm ns).
Qed.

Lemma add_pod_keeps pod ns infos :
  known isScalar req_of pod -> Qs infos ->
  Qs (update_quota (addPodIfNotPresent isScalar pod) ns infos).1.
Proof using Q_add. intros Hp. apply update_quota_keeps. intros e e'. by apply Q_add. Qed.

Lemma delete_pod_keeps pod ns infos :
  known isScalar req_of pod -> Qs infos ->
  Qs (update_quota (deletePodIfPresent isScalar pod) ns infos).1.
Proof using Q_delete. intros Hp. apply update_quota_keeps. intros e e'. by apply Q_delete. Qed.

Lemma addPod_keeps listQuotas pod infos :
  known isScalar req_of pod -> Qs infos -> Qs (addPod isScalar listQuotas pod infos).
Proof using Q_add Q_new.
  intros Hp Hm. unfold addPod.
  destruct (infos !! pod_namespace pod); [by apply add_pod_keeps|].
  destruct (listQuotas _) as [[|eq eqs]|]; [done| |done].
  apply add_pod_keeps; [done|]. by apply map_Forall_insert_2.
Qed.

Lemma quota_step_keeps infos infos' : quota_step infos infos' -> Qs infos -> Qs infos'.
Proof using Q_add Q_bounds Q_delete Q_new.
  intros Hs Hm. destruct Hs.
  - unfold Reserve. pose proof (add_pod_keeps pod (pod_namespace pod) infos H Hm) as H'.
    by destruct (update_quota _ _ _) as [i ok].
  - by apply delete_pod_keeps.
  - unfold on_pod_add. destruct (assignedPod pod); [by apply addPod_keeps|done].
  - unfold on_pod_update in *. destruct (assignedPod new), (assignedPod old); simplify_eq.
    + unfold updatePod. destruct (_ || _); [done|].
      destruct (_ && _); [by apply delete_pod_keeps|done].
    + by apply addPod_keeps.
    + cbn in *. simplify_eq. by apply delete_pod_keeps.
    + done.
  - unfold on_pod_delete in *. destruct obj as [pod|pod]; destruct (assignedPod pod); simplify_eq/=;
      try done. apply delete_pod_keeps; auto.
  - unfold addElasticQuota. destruct (infos !! _); [done|]. by apply map_Forall_insert_2.
  - unfold updateElasticQuota. apply map_Forall_insert_2; [|done].
    destruct (infos !! quota_namespace old) as [e|] eqn:E; [|apply Q_new].
    apply Q_bounds. by apply (Hm (quota_namespace old)).
  - destruct obj; simplify_eq/=. by apply map_Forall_delete.
Qed.

Lemma reachable_keeps infos : reachable infos -> Qs infos.
Proof using Q_add Q_bounds Q_delete Q_new.
  induction 1 as [|infos infos' _ IH Hs]; [apply map_Forall_empty|by eapply quota_step_keeps].
Qed.
End Steps.

Lemma reachable_ledgers req_of infos :
  reachable req_of infos -> map_Forall (fun _ e => ledger req_of e) infos.
Proof.
  apply reachable_keeps.
  - intros. by apply ledger_empty.
  - intros ns mn mx e [Hi Hu]. by split.
  - intros pod e e' Hp He. by eapply ledger_add.
  - intros pod e e' Hp He. by eapply ledger_delete.
Qed.

(** ** The sums of [PreFilter] *)

Hypothesis native_not_scalar : forall n, n ∈ native_names -> isScalar n = false.

Lemma reachable_ok req_of infos : reachable req_of infos -> infos_ok isScalar infos.
Proof using native_not_scalar.
  apply reachable_keeps.
  - intros. by apply new_quota_ok.
  - intros ns mn mx e (H1 & H2 & _). destruct (new_quota_ok isScalar ns mn mx) as (_ & _ & H3 & H4).
    by split_and!.
  - intros pod e e' _ (H1 & H2 & H3 & H4). destruct (request_ok isScalar native_not_scalar pod) as (_ & R & _).
    unfold addPodIfNotPresent. destruct (GetPodKey pod); [|done].
    case_bool_decide; intros [= <-]; split_and!; try done;
      [by apply reserve_int64|by apply (scalars_wf isScalar add64)].
  - intros pod e e' _ (H1 & H2 & H3 & H4). destruct (request_ok isScalar native_not_scalar pod) as (_ & R & _).
    unfold deletePodIfPresent. destruct (GetPodKey pod); [|done].
    case_bool_decide; intros [= <-]; split_and!; try done;
      [by apply unreserve_int64|by apply (scalars_wf isScalar sub64)].
Qed.

Lemma watched_Add rl r d :
  watched (Add isScalar rl r) d <->
  watched r d \/ match d with
                 | DimScalar n => is_Some (rl !! n) /\ (n ∉ native_names) /\ isScalar n = true
                 | _ => True
                 end.
Proof.
  destruct d as [| | | |n]; cbn [watched]; [tauto..|]. unfold Add.
  apply (map_fold_weak_ind (fun x m => is_Some (ScalarResources x !! n) <->
    is_Some (ScalarResources r !! n) \/ is_Some (m !! n) /\ (n ∉ native_names) /\ isScalar n = true)).
  - rewrite lookup_empty. split; [auto|]. intros [?|[[? ?] _]]; done.
  - intros k q m x Hk Hx. unfold add_entry.
    assert (k ∈ native_names -> is_Some (ScalarResources x !! n) <->
      is_Some (ScalarResources r !! n) \/
      is_Some (<[k:=q]> m !! n) /\ (n ∉ native_names) /\ isScalar n = true) as Hnat.
    { intros Hin. rewrite Hx. destruct (decide (n = k)) as [->|Hne]; [tauto|].
      by rewrite lookup_insert_ne by done. }
    repeat (case_bool_decide; [subst; apply Hnat; unfold native_names; set_solver|]).
    destruct (isScalar k) eqn:Ek.
    + cbn. destruct (decide (n = k)) as [->|Hne].
      * rewrite !lookup_insert_eq. split; [|eauto]. intros _. right. split; [eauto|].
        split; [|done]. unfold native_names. rewrite !not_elem_of_cons.
        repeat split; try done. apply not_elem_of_nil.
      * by rewrite !lookup_insert_ne by done.
    + rewrite Hx. destruct (decide (n = k)) as [->|Hne]; [|by rewrite lookup_insert_ne by done].
      rewrite Ek. naive_solver.
Qed.

Lemma watched_list r n :
  wf_resource isScalar r -> is_Some (ScalarResources r !! n) ->
  is_Some (ResourceListOf r !! n) /\ (n ∉ native_names) /\ isScalar n = true.
Proof.
  intros Hw Hn. destruct (Hw n Hn) as [H1 H2]. split; [|done]. destruct Hn as [v Hv].
  unfold ResourceListOf. exists (NewQuantity v). apply lookup_union_Some_l.
  by rewrite lookup_fmap, Hv.
Qed.

Lemma watched_Add_list a b d :
  wf_resource isScalar b -> watched b d -> watched (Add isScalar (ResourceListOf b) a) d.
Proof.
  intros Hw Hb. apply watched_Add. right. destruct d; try done. by apply watched_list.
Qed.

Lemma list_watched r n :
  is_Some (ResourceListOf r !! n) -> n ∈ native_names \/ is_Some (ScalarResources r !! n).
Proof.
  unfold ResourceListOf. intros [q [Hq|[_ Hq]]%lookup_union_Some_raw].
  - right. rewrite lookup_fmap in Hq. destruct (ScalarResources r !! n); eauto.
  - left. unfold native_names.
    repeat (apply lookup_insert_Some in Hq as [[<- _]|[_ Hq]]; [set_solver|]).
    apply lookup_singleton_Some in Hq as [<- _]. set_solver.
Qed.

(** The scalars a sum watches: those it had and those of the vector added. *)
Lemma watched_sum a b n :
  wf_resource isScalar b ->
  is_Some (ScalarResources (Add isScalar (ResourceListOf b) a) !! n) <->
  is_Some (ScalarResources a !! n) \/ is_Some (ScalarResources b !! n).
Proof.
  intros Hb. pose proof (watched_Add (ResourceListOf b) a (DimScalar n)) as Hx. cbn in Hx.
  rewrite Hx. apply or_iff_compat_l. split; [|by apply watched_list].
  intros (Hq & Hn & _). by apply list_watched in Hq as [?|?].
Qed.

(** The nominated pods that join each sum. *)
Definition joins_eq (live : ElasticQuotaInfos) (pod p : Pod) : bool :=
  negb (bool_decide (pod_uid p = pod_uid pod)) &&
  bool_decide (is_Some (live !! pod_namespace p)) &&
  bool_decide (pod_namespace p = pod_namespace pod) &&
  bool_decide (PodPriority pod <= PodPriority p).

Definition joins_all (live : ElasticQuotaInfos) (pod p : Pod) : bool :=
  joins_eq live pod p ||
  (negb (bool_decide (pod_uid p = pod_uid pod)) &&
   bool_decide (pod_namespace p <> pod_namespace pod) &&
   match live !! pod_namespace p with Some info => negb (usedOverMin info) | None => false end).

(** The exact total of a dimension over the pods that a test selects. *)
Definition joined (test : Pod -> bool) (d : Dim) (l : list Pod) : Z :=
  sumZ (fun p => get d (request p)) (base.filter (fun p => test p = true) l).

Lemma joined_cons test d p l :
  joined test d (p :: l) = (if test p then get d (request p) else 0) + joined test d l.
Proof.
  unfold joined. rewrite filter_cons. destruct (test p).
  - by rewrite decide_True, sumZ_cons.
  - by rewrite decide_False.
Qed.

Lemma joined_nonneg test d l :
  (forall p, p ∈ l -> 0 <= get d (request p)) -> 0 <= joined test d l.
Proof.
  induction l as [|p l IH]; intros H; [done|]. rewrite joined_cons.
  pose proof (H p ltac:(by left)). specialize (IH ltac:(intros; apply H; by right)).
  destruct (test p); lia.
Qed.

Lemma nominated_fold live pod l inEQ all :
  res_int64 inEQ -> wf_resource isScalar inEQ -> res_int64 all -> wf_resource isScalar all ->
  let '(inEQ', all') := foldl (nominated_turn isScalar live pod) (inEQ, all) l in
  res_int64 inEQ' /\ wf_resource isScalar inEQ' /\ res_int64 all' /\ wf_resource isScalar all' /\
  (forall d, get d inEQ' = int64 (get d inEQ + joined (joins_eq live pod) d l)) /\
  (forall d, get d all' = int64 (get d all + joined (joins_all live pod) d l)).
Proof using native_not_scalar.
  revert inEQ all. induction l as [|p l IH]; intros inEQ all H1 H2 H3 H4; cbn [foldl].
  { split_and!; try done; intros d; unfold joined; cbn; rewrite Z.add_0_r, int64_id; auto. }
  destruct (request_ok isScalar native_not_scalar p) as (R1 & R2 & _).
  unfold nominated_turn at 2.
  assert (forall a, res_int64 a ->
    res_int64 (Add isScalar (ResourceListOf (request p)) a)) as HA1 by (intros; by apply Add_int64).
  assert (forall a, wf_resource isScalar a ->
    wf_resource isScalar (Add isScalar (ResourceListOf (request p)) a)) as HA2
    by (intros; by apply Add_wf).
  assert (forall (e a : bool), joins_eq live pod p = e -> joins_all live pod p = a ->
    let i' := if e then Add isScalar (ResourceListOf (request p)) inEQ else inEQ in
    let a' := if a then Add isScalar (ResourceListOf (request p)) all else all in
    let '(inEQ', all') := foldl (nominated_turn isScalar live pod) (i', a') l in
    res_int64 inEQ' /\ wf_resource isScalar inEQ' /\ res_int64 all' /\ wf_resource isScalar all' /\
    (forall d, get d inEQ' = int64 (get d inEQ + joined (joins_eq live pod) d (p :: l))) /\
    (forall d, get d all' = int64 (get d all + joined (joins_all live pod) d (p :: l)))) as Hgen.
  { intros e a He Ha i' a'.
    specialize (IH i' a' ltac:(unfold i'; destruct e; auto) ltac:(unfold i'; destruct e; auto)
                  ltac:(unfold a'; destruct a; auto) ltac:(unfold a'; destruct a; auto)).
    destruct (foldl _ (i', a') l) as [inEQ' all']. destruct IH as (I1 & I2 & I3 & I4 & I5 & I6).
    split_and!; try done; intros d; rewrite joined_cons, ?He, ?Ha; [rewrite I5|rewrite I6].
    - unfold i'. destruct e; [|f_equal; lia]. rewrite get_Add_list by done. int64_ring.
    - unfold a'. destruct a; [|f_equal; lia]. rewrite get_Add_list by done. int64_ring. }
  unfold joins_all, joins_eq in Hgen.
  destruct (bool_decide (pod_uid p = pod_uid pod)) eqn:Bu; [by apply (Hgen false false)|].
  destruct (live !! pod_namespace p) as [info|] eqn:El.
  2:{ apply (Hgen false false); [done|]. cbn. by rewrite andb_false_r. }
  rewrite (bool_decide_eq_true_2 (is_Some (Some info))) in Hgen by eauto. cbn [negb andb] in Hgen.
  destruct (bool_decide (pod_namespace p = pod_namespace pod) &&
            bool_decide (PodPriority pod <= PodPriority p)) eqn:Be;
    [by apply (Hgen true true)|].
  destruct (bool_decide (pod_namespace p <> pod_namespace pod) && negb (usedOverMin info)) eqn:Ba;
    [by apply (Hgen false true)|by apply (Hgen false false)].
Qed.

(** ** The decision of [PreFilter] *)

Lemma clone_infos_id m : clone_infos m = m.
Proof.
  unfold clone_infos. rewrite <- (map_fmap_id m) at 2. apply map_fmap_ext.
  by intros i [? ? ? ? ?] _.
Qed.

(** The pod's namespace stays within its maximum with the nominated pods. *)
Definition within_max (live : ElasticQuotaInfos) (noms : list Pod) (pod : Pod)
    (e : ElasticQuotaInfo) : Prop :=
  forall d, (match d with
             | DimScalar n => is_Some (ScalarResources (request pod) !! n) \/
                 exists p, p ∈ noms /\ joins_eq live pod p = true /\
                   is_Some (ScalarResources (request p) !! n)
             | _ => True
             end) ->
    int64 (joined (joins_eq live pod) d noms + get d (request pod)) +! get d (eq_Used e)
    <= limit UpperBoundOfMax (eq_Max e) d.

(** All quotas together stay within the sum of their minima. *)
Definition within_min (live : ElasticQuotaInfos) (noms : list Pod) (pod : Pod) : Prop :=
  forall d, int64 (total (fun e => get d (eq_Used e)) live
                   + (joined (joins_all live pod) d noms + get d (request pod)))
            <= int64 (total (fun e => get d (eq_Min e)) live).

Lemma nominated_watched live pod l inEQ all n :
  wf_resource isScalar inEQ ->
  watched (foldl (nominated_turn isScalar live pod) (inEQ, all) l).1 (DimScalar n) <->
  is_Some (ScalarResources inEQ !! n) \/
  exists p, p ∈ l /\ joins_eq live pod p = true /\ is_Some (ScalarResources (request p) !! n).
Proof using native_not_scalar.
  revert inEQ all. induction l as [|p l IH]; intros inEQ all Hw; cbn [foldl].
  { cbn. split; [auto|]. intros [?|(p & Hp & _)]; [done|]. by apply not_elem_of_nil in Hp. }
  destruct (request_ok isScalar native_not_scalar p) as (_ & R2 & _).
  assert (watched (foldl (nominated_turn isScalar live pod)
      (if joins_eq live pod p then Add isScalar (ResourceListOf (request p)) inEQ else inEQ,
       (nominated_turn isScalar live pod (inEQ, all) p).2) l).1 (DimScalar n) <->
    is_Some (ScalarResources inEQ !! n) \/
    exists p', p' ∈ p :: l /\ joins_eq live pod p' = true /\
      is_Some (ScalarResources (request p') !! n)) as Hgen.
  { rewrite IH by (destruct (joins_eq live pod p); [by apply Add_wf|done]).
    assert ((exists p', p' ∈ p :: l /\ joins_eq live pod p' = true /\
        is_Some (ScalarResources (request p') !! n)) <->
      (joins_eq live pod p = true /\ is_Some (ScalarResources (request p) !! n)) \/
      exists p', p' ∈ l /\ joins_eq live pod p' = true /\
        is_Some (ScalarResources (request p') !! n)) as ->.
    { split.
      - intros (q & [->|Hq]%elem_of_cons & ? & ?); [by left|right; by exists q].
      - intros [[? ?]|(q & ? & ? & ?)]; [exists p|exists q]; split_and!; try done; by constructor. }
    destruct (joins_eq live pod p) eqn:J; [rewrite watched_sum by done; tauto|].
    assert ((false = true /\ is_Some (ScalarResources (request p) !! n)) <-> False) as -> by (by split; [intros []|]).
    tauto. }
  assert (nominated_turn isScalar live pod (inEQ, all) p =
    (if joins_eq live pod p then Add isScalar (ResourceListOf (request p)) inEQ else inEQ,
     (nominated_turn isScalar live pod (inEQ, all) p).2)) as ->; [|exact Hgen].
  unfold nominated_turn, joins_eq. destruct (bool_decide (pod_uid p = _)); [done|].
  destruct (live !! pod_namespace p); [|done].
  rewrite (bool_decide_eq_true_2 (is_Some (Some _))) by eauto. cbn [negb andb].
  destruct (bool_decide (pod_namespace p = _) && _); [done|]. by destruct (_ && _).
Qed.

Lemma prefilter_spec live nodes pod st e :
  infos_ok isScalar live -> live !! pod_namespace pod = Some e ->
  (forall d, 0 <= int64 (total (fun e => get d (eq_Min e)) live)) ->
  let r := PreFilter isScalar live (Ok nodes) pod st in
  (r.1 = NewStatus Success <->
   within_max live (concat nodes) pod e /\ within_min live (concat nodes) pod) /\
  (r.1 = NewStatus Success \/ r.1 = NewStatus Unschedulable).
Proof using native_not_scalar.
  intros Hok He Hmin. unfold PreFilter. rewrite clone_infos_id, He.
  set (noms := concat nodes).
  pose proof (nominated_fold live pod noms zero_resource zero_resource zero_int64
    (zero_wf isScalar) zero_int64 (zero_wf isScalar)) as Hf.
  assert (forall n, watched (foldl (nominated_turn isScalar live pod)
      (zero_resource, zero_resource) noms).1 (DimScalar n) <->
    exists p, p ∈ noms /\ joins_eq live pod p = true /\
      is_Some (ScalarResources (request p) !! n)) as Hw.
  { intros n. rewrite nominated_watched by apply zero_wf. cbn. rewrite lookup_empty.
    split; [|auto]. by intros [[? ?]|?]. }
  destruct (foldl _ _ noms) as [inEQ all]. destruct Hf as (F1 & F2 & F3 & F4 & F5 & F6).
  destruct (request_ok isScalar native_not_scalar pod) as (R1 & R2 & _).
  pose proof (aggregate_ok isScalar live Hok) as Ha. unfold aggregatedUsedOverMinWith.
  destruct (aggregate isScalar live) as [used mn]. destruct Ha as (A1 & A2 & A3 & A4 & A5 & A6).
  set (inEQ' := Add isScalar (ResourceListOf (request pod)) inEQ).
  set (all' := Add isScalar (ResourceListOf (request pod)) all).
  assert (forall d, get d inEQ' = int64 (joined (joins_eq live pod) d noms + get d (request pod)))
    as G1 by (intros d; unfold inEQ'; rewrite get_Add_list, F5, get_zero by done; int64_ring).
  assert (forall d, get d all' = int64 (joined (joins_all live pod) d noms + get d (request pod)))
    as G2 by (intros d; unfold all'; rewrite get_Add_list, F6, get_zero by done; int64_ring).
  assert (res_int64 all') as G3 by (by apply Add_int64).
  assert (wf_resource isScalar all') as G4 by (by apply Add_wf).
  assert (usedOverMaxWith inEQ' e = false <-> within_max live noms pod e) as HM.
  { unfold usedOverMaxWith. rewrite cmp2_false. unfold within_max.
    assert (forall d, watched inEQ' d <-> match d with
      | DimScalar n => is_Some (ScalarResources (request pod) !! n) \/
          exists p, p ∈ noms /\ joins_eq live pod p = true /\
            is_Some (ScalarResources (request p) !! n)
      | _ => True end) as Hwd.
    { intros d. unfold inEQ'. destruct d as [| | | |n]; try done. cbn [watched].
      rewrite watched_sum, <- (Hw n) by done. cbn. tauto. }
    split; intros H d Hd; specialize (H d); rewrite Hwd, G1 in *; auto. }
  assert (cmp (Add isScalar (ResourceListOf all') used) mn LowerBoundOfMin = false <->
          within_min live noms pod) as HN.
  { rewrite cmp_false by (by apply Add_int64). unfold within_min.
    assert (forall d, get d (Add isScalar (ResourceListOf all') used) =
      int64 (total (fun e => get d (eq_Used e)) live
             + (joined (joins_all live pod) d noms + get d (request pod)))) as Hg
      by (intros d; rewrite get_Add_list, A5, G2 by done; int64_ring).
    assert (forall d, limit LowerBoundOfMin mn d
      = int64 (total (fun e => get d (eq_Min e)) live)) as Hl.
    { intros d. rewrite <- A6. by destruct d. }
    split; intros H d; [|intros _; rewrite Hg, Hl; apply H].
    destruct d as [| | | |n]; try (rewrite <- Hg, <- Hl; by apply H).
    destruct (decide (is_Some (ScalarResources (Add isScalar (ResourceListOf all') used) !! n)))
      as [Hs|Hs]; [rewrite <- Hg, <- Hl; by apply H|].
    rewrite <- eq_None_not_Some in Hs.
    assert (get (DimScalar n) (Add isScalar (ResourceListOf all') used) = 0) as H0
      by (cbn; unfold scalar; by rewrite Hs).
    rewrite <- Hg, H0. apply Hmin. }
  assert (forall b : bool, b = false \/ b = true) as Hb by (intros []; auto).
  destruct (Hb (usedOverMaxWith inEQ' e)) as [E1|E1]; rewrite E1.
  - destruct (Hb (cmp (Add isScalar (ResourceListOf all') used) mn LowerBoundOfMin)) as [E2|E2];
      rewrite E2; (split; [|auto]); split; try done; try tauto.
    intros [_ H2]. apply HN in H2. congruence.
  - split; [|auto]. split; [done|]. intros [H1 _]. apply HM in H1. congruence.
Qed.
End Capacity.
