(* ===== verification/Preemption.v ===== *)
(** * Preemption under quotas

    The preemptor of [scheduler-plugins/pkg/capacityscheduling/capacity_scheduling.go]:
    [PodEligibleToPreemptOthers], [SelectVictimsOnNode] and
    [filterPodsWithPDBViolation], with the parts of the framework's [NodeInfo]
    they change ([vendor/.../scheduler/framework/types.go]).

    Parameters: [sort_slice] is [sort.Slice], whose order on ties is
    unspecified; [now] is what [time.Now] answers for pods that have not
    started; [runFilter] is the framework's [RunFilterPluginsWithNominatedPods],
    taken as a function of the pods on the node; [selects] tells whether a
    budget's selector is valid, not empty and matches a pod's labels. The
    prefilter extensions of the other plugins are taken to succeed. *)

From S2P Require Import Prelude.
From S2P Require Import KubeTypes.
From S2P Require Import Framework.
From S2P Require Import Resource.
From S2P Require Import ElasticQuota.
From S2P Require Import Capacity.

(** ** The slice of pods of a node

    [removeFromSlice] overwrites the element it deletes with the last one and
    shortens the slice; the backing array keeps its length. [None]: no pod of
    the slice has the key. *)
Record PodSlice := { sl_array : list Pod; sl_len : nat }.

Definition slice_of (l : list Pod) : PodSlice := {| sl_array := l; sl_len := length l |}.
Definition slice_pods (s : PodSlice) : list Pod := take (sl_len s) (sl_array s).

Definition has_key (key : string) (p : Pod) : bool := bool_decide (GetPodKey p = Some key).

Definition removeFromSlice (key : string) (s : PodSlice) : option PodSlice :=
  match list_find (fun p => has_key key p = true) (slice_pods s) with
  | None => None
  | Some (i, _) =>
      match sl_array s !! (sl_len s - 1)%nat with
      | None => None
      | Some last => Some {| sl_array := <[i := last]> (sl_array s); sl_len := (sl_len s - 1)%nat |}
      end
  end.

(** [NodeInfo.RemovePod]. *)
Definition RemovePod (pod : Pod) (s : PodSlice) : result PodSlice :=
  match GetPodKey pod with
  | None => Err (OtherError "cannot get cache key for pod with empty UID")
  | Some key =>
      match removeFromSlice key s with
      | Some s' => Ok s'
      | None => Err (OtherError ("no corresponding pod " +:+ pod_name pod))
      end
  end.

Definition AddPodInfo (pod : Pod) (s : PodSlice) : PodSlice := slice_of (slice_pods s ++ [pod]).

(** ** Disruption budgets *)

Record PodDisruptionBudget := {
  pdb_namespace : string;
  pdb_selector : string;
  pdb_allowed : Z;                 (* Status.DisruptionsAllowed, int32 *)
  pdb_disrupted : gset string;     (* names in Status.DisruptedPods *)
}.

Definition dec32 (z : Z) : Z := (z - 1 + 2147483648) mod 4294967296 - 2147483648.

Section PDB.
Variable selects : PodDisruptionBudget -> Pod -> bool.

(** Whether a budget counts the pod. *)
Definition budget_counts (pod : Pod) (pdb : PodDisruptionBudget) : bool :=
  bool_decide (pdb_namespace pdb = pod_namespace pod) && selects pdb pod &&
  negb (bool_decide (pod_name pod ∈ pdb_disrupted pdb)).

(** The loop over the budgets for one pod: the allowances left, and whether one
    of them is exceeded. *)
Fixpoint charge_budgets (pod : Pod) (pdbs : list PodDisruptionBudget) (allowed : list Z)
    : list Z * bool :=
  match pdbs, allowed with
  | pdb :: pdbs', a :: allowed' =>
      let '(rest, violated) := charge_budgets pod pdbs' allowed' in
      if budget_counts pod pdb
      then (dec32 a :: rest, (dec32 a <? 0) || violated)
      else (a :: rest, violated)
  | _, _ => ([], false)
  end.

(** A pod without labels matches no budget. *)
Definition violates (pod : Pod) (pdbs : list PodDisruptionBudget) (allowed : list Z)
    : list Z * bool :=
  if bool_decide (meta_labels (pod_meta pod) = ∅) then (allowed, false)
  else charge_budgets pod pdbs allowed.

Definition pdb_turn (pdbs : list PodDisruptionBudget) (acc : list Z * list Pod * list Pod) (pod : Pod)
    : list Z * list Pod * list Pod :=
  let '(allowed, violating, nonViolating) := acc in
  let '(allowed, v) := violates pod pdbs allowed in
  if (v : bool) then (allowed, violating ++ [pod], nonViolating)
  else (allowed, violating, nonViolating ++ [pod]).

Definition filterPodsWithPDBViolation (pods : list Pod) (pdbs : list PodDisruptionBudget)
    : list Pod * list Pod :=
  let '(_, violating, nonViolating) := foldl (pdb_turn pdbs) (pdb_allowed <$> pdbs, [], []) pods in
  (violating, nonViolating).
End PDB.

(** [schedutil.MoreImportantPod]. *)
Definition start_time (now : Z) (p : Pod) : Z := default now (pstatus_start_time (pod_status p)).
Definition MoreImportantPod (now : Z) (p1 p2 : Pod) : bool :=
  if bool_decide (PodPriority p1 <> PodPriority p2) then PodPriority p2 <? PodPriority p1
  else start_time now p1 <? start_time now p2.

Section Preemptor.
Variable isScalar : string -> bool.
Variable sort_slice : (Pod -> Pod -> bool) -> list Pod -> list Pod.
Variable now : Z.
Variable selects : PodDisruptionBudget -> Pod -> bool.

(** ** [PodEligibleToPreemptOthers]

    [node] is the node info of the nominated node, when the lister has it. *)
Definition blocks_quota (infos : ElasticQuotaInfos) (pod : Pod) (moreThanMin : bool) (p : Pod) : bool :=
  match meta_deletion (pod_meta p), infos !! pod_namespace p with
  | Some _, Some eqInfo =>
      (bool_decide (pod_namespace p = pod_namespace pod) &&
       bool_decide (PodPriority p < PodPriority pod)) ||
      (bool_decide (pod_namespace p <> pod_namespace pod) && negb moreThanMin && usedOverMin eqInfo)
  | _, _ => false
  end.

Definition blocks_plain (infos : ElasticQuotaInfos) (pod p : Pod) : bool :=
  negb (bool_decide (is_Some (infos !! pod_namespace p))) && pod_terminating p &&
  bool_decide (PodPriority p < PodPriority pod).

Definition PodEligibleToPreemptOthers (state : CycleData) (pod : Pod)
    (nominatedNodeStatus : FStatus) (node : option (list Pod)) : bool :=
  if spec_preempt_never (pod_spec pod) then false
  else
    match cd_prefilter state with
    | None => false
    | Some s =>
        if bool_decide (pstatus_nominated (pod_status pod) = "") then true
        else if bool_decide (st_code nominatedNodeStatus = UnschedulableAndUnresolvable) then true
        else
          match cd_snapshot state, node with
          | Some infos, Some pods =>
              match infos !! pod_namespace pod with
              | Some eq =>
                  let more := usedOverMinWith (nominatedPodsReqInEQWithPodReq s) eq in
                  negb (existsb (blocks_quota infos pod more) pods)
              | None => negb (existsb (blocks_plain infos pod) pods)
              end
          | _, _ => true
          end
    end.

(** ** [SelectVictimsOnNode]

    The node's pods and the snapshot of the quotas, changed in step. *)
Record NodeState := { nst_pods : PodSlice; nst_infos : ElasticQuotaInfos }.

Definition removePod (p : Pod) (st : NodeState) : result NodeState :=
  match RemovePod p (nst_pods st) with
  | Err e => Err e
  | Ok pods =>
      Ok {| nst_pods := pods;
            nst_infos := (update_quota (deletePodIfPresent isScalar p) (pod_namespace p)
                            (nst_infos st)).1 |}
  end.

Definition addPodTo (p : Pod) (st : NodeState) : NodeState := {|
  nst_pods := AddPodInfo p (nst_pods st);
  nst_infos := (update_quota (addPodIfNotPresent isScalar p) (pod_namespace p) (nst_infos st)).1 |}.

(** Whether a pod of the node is a potential victim, the quotas being what they
    are at its turn. [more] is fixed before the loop. *)
Definition candidate (infos : ElasticQuotaInfos) (pod : Pod) (withEQ more : bool) (p : Pod) : bool :=
  match infos !! pod_namespace p with
  | None => negb withEQ && bool_decide (PodPriority p < PodPriority pod)
  | Some eqInfo =>
      withEQ &&
      (if more
       then bool_decide (pod_namespace p = pod_namespace pod) &&
            bool_decide (PodPriority p < PodPriority pod)
       else bool_decide (pod_namespace p <> pod_namespace pod) && usedOverMin eqInfo)
  end.

(** The [for ... range] loop over [nodeInfo.Pods], which reads the backing array
    the removals write to: [n] positions are left, the next one is [i]. *)
Fixpoint remove_candidates (pod : Pod) (withEQ more : bool) (n i : nat)
    (st : NodeState) (victims : list Pod) : result (NodeState * list Pod) :=
  match n with
  | O => Ok (st, victims)
  | S n' =>
      match sl_array (nst_pods st) !! i with
      | None => Ok (st, victims)
      | Some p =>
          if candidate (nst_infos st) pod withEQ more p then
            match removePod p st with
            | Err e => Err e
            | Ok st' => remove_candidates pod withEQ more n' (S i) st' (victims ++ [p])
            end
          else remove_candidates pod withEQ more n' (S i) st victims
      end
  end.

(** The preemptor's own quota against a request. *)
Definition over_quota (pod : Pod) (inEQ all : Resource) (infos : ElasticQuotaInfos) : bool :=
  match infos !! pod_namespace pod with
  | None => false
  | Some eq => usedOverMaxWith inEQ eq || aggregatedUsedOverMinWith isScalar all infos
  end.

Variable runFilter : list Pod -> FStatus.

(** One call of [reprievePod]: the pod is put back; it becomes a victim again
    when the preemptor does not fit, and when the quotas would be exceeded. *)
Definition reprievePod (pod : Pod) (s : PreFilterState) (pi : Pod)
    (acc : NodeState * list Pod) : result (NodeState * list Pod * bool) :=
  let '(st, victims) := acc in
  let st := addPodTo pi st in
  let fits := IsSuccess (runFilter (slice_pods (nst_pods st))) in
  let r1 := if fits then Ok (st, victims)
            else match removePod pi st with Ok st => Ok (st, victims ++ [pi]) | Err e => Err e end in
  match r1 with
  | Err e => Err e
  | Ok (st, victims) =>
      if over_quota pod (nominatedPodsReqInEQWithPodReq s) (nominatedPodsReqWithPodReq s) (nst_infos st)
      then match removePod pi st with Ok st => Ok (st, victims ++ [pi], fits) | Err e => Err e end
      else Ok (st, victims, fits)
  end.

(** The two reprieve loops; the first one counts the pods that did not fit. *)
Fixpoint reprieve_all (pod : Pod) (s : PreFilterState) (l : list Pod)
    (acc : NodeState * list Pod) (numViolating : Z) : result (NodeState * list Pod * Z) :=
  match l with
  | [] => Ok (acc, numViolating)
  | pi :: l' =>
      match reprievePod pod s pi acc with
      | Err e => Err e
      | Ok (acc, fits) =>
          reprieve_all pod s l' acc (if (fits : bool) then numViolating else numViolating + 1)
      end
  end.

(** The victims, the number of violated budgets, the status, and the node and
    quotas as they are left. *)
Definition SelectVictimsOnNode (state : CycleData) (pod : Pod) (pods : list Pod)
    (pdbs : list PodDisruptionBudget) : FStatus * list Pod * Z * option NodeState :=
  match cd_snapshot state, cd_prefilter state with
  | Some infos, Some s =>
      let withEQ := bool_decide (is_Some (infos !! pod_namespace pod)) in
      let more := match infos !! pod_namespace pod with
                  | Some eq => usedOverMinWith (nominatedPodsReqInEQWithPodReq s) eq
                  | None => false
                  end in
      let sorted := sort_slice (fun a b => negb (MoreImportantPod now a b)) pods in
      let st := {| nst_pods := slice_of sorted; nst_infos := infos |} in
      match remove_candidates pod withEQ more (length sorted) 0 st [] with
      | Err _ => (NewStatus CodeError, [], 0, None)
      | Ok (_, []) => (NewStatus UnschedulableAndUnresolvable, [], 0, None)
      | Ok (st, potentialVictims) =>
          let f := runFilter (slice_pods (nst_pods st)) in
          if negb (IsSuccess f) then (f, [], 0, None)
          else if over_quota pod (podReq s) (podReq s) (nst_infos st)
          then (NewStatus Unschedulable, [], 0, None)
          else
            let potentialVictims := sort_slice (MoreImportantPod now) potentialVictims in
            let '(violating, nonViolating) :=
              filterPodsWithPDBViolation selects potentialVictims pdbs in
            match reprieve_all pod s violating (st, []) 0 with
            | Err _ => (NewStatus CodeError, [], 0, None)
            | Ok (acc, numViolatingVictim) =>
                match reprieve_all pod s nonViolating acc 0 with
                | Err _ => (NewStatus CodeError, [], 0, None)
                | Ok (st, victims, _) =>
                    (NewStatus Success, victims, numViolatingVictim, Some st)
                end
            end
      end
  | _, _ => (NewStatus Unschedulable, [], 0, None)
  end.
End Preemptor.
