(* ===== verification/PreemptionProofs.v ===== *)
(** * Lemmas about preemption *)

From S2P Require Import Prelude.
From S2P Require Import KubeTypes.
From S2P Require Import Framework.
From S2P Require Import Resource.
From S2P Require Import ElasticQuota.
From S2P Require Import Capacity.
From S2P Require Import Preemption.

(** ** Slices *)

(** Replacing a position by the last element and dropping the last one. *)
Lemma swap_remove_perm {A} (l : list A) i x y :
  (l ++ [y]) !! i = Some x -> l ++ [y] ≡ₚ x :: <[i := y]> l.
Proof.
  intros [Hl|[Hlen Hy]]%lookup_app_Some.
  - pose proof Hl as Hlt%lookup_lt_Some.
    rewrite (insert_take_drop l i y) by done.
    transitivity ((take i l ++ x :: drop (S i) l) ++ [y]); [by rewrite take_drop_middle|].
    rewrite <- (Permutation_middle (take i l) _ x), <- (Permutation_middle (take i l) _ y).
    cbn. by rewrite (Permutation_app_comm _ [y]).
  - destruct (i - length l)%nat as [|k] eqn:E; [|by destruct k]. injection Hy as ->.
    rewrite list_insert_ge by lia. by rewrite Permutation_app_comm.
Qed.

Definition slice_ok (s : PodSlice) : Prop := (sl_len s <= length (sl_array s))%nat.

Lemma slice_of_ok l : slice_ok (slice_of l).
Proof. unfold slice_ok. cbn. lia. Qed.

Lemma slice_of_pods l : slice_pods (slice_of l) = l.
Proof. apply take_ge. cbn. lia. Qed.

Lemma removeFromSlice_spec key s s' :
  slice_ok s -> removeFromSlice key s = Some s' ->
  exists i p, slice_pods s !! i = Some p /\ GetPodKey p = Some key /\
    slice_pods s ≡ₚ p :: slice_pods s' /\ slice_ok s' /\
    length (sl_array s') = length (sl_array s) /\
    (forall k, k <> i -> sl_array s' !! k = sl_array s !! k).
Proof.
  unfold slice_ok, removeFromSlice. intros Hok.
  destruct (list_find _ _) as [[i p]|] eqn:F; [|done].
  apply list_find_Some in F as (Hi & Hk & _).
  apply bool_decide_eq_true in Hk.
  destruct (sl_array s !! (sl_len s - 1)%nat) as [y|] eqn:Y; [|done]. intros [= <-].
  exists i, p. split; [done|]. split; [done|]. cbn. unfold slice_pods in *. cbn.
  pose proof Hi as Hil%lookup_lt_Some. rewrite length_take in Hil.
  assert (take (sl_len s) (sl_array s) = take (sl_len s - 1) (sl_array s) ++ [y]) as Hs.
  { rewrite <- take_S_r by done. f_equal. lia. }
  split_and!.
  - assert (take (sl_len s - 1) (<[i:=y]> (sl_array s)) = <[i:=y]> (take (sl_len s - 1) (sl_array s)))
      as ->.
    { rewrite take_insert. case_decide; [done|]. rewrite list_insert_ge; [done|].
      rewrite length_take. lia. }
    rewrite Hs in Hi |- *. by apply swap_remove_perm.
  - rewrite length_insert. lia.
  - apply length_insert.
  - intros k Hne. by apply list_lookup_insert_ne.
Qed.

Lemma removeFromSlice_found key s p :
  slice_ok s -> p ∈ slice_pods s -> GetPodKey p = Some key -> is_Some (removeFromSlice key s).
Proof.
  unfold slice_ok, removeFromSlice. intros Hok Hp Hk.
  destruct (list_find_elem_of (fun p => has_key key p = true) (slice_pods s) p) as [[i q] Hf]; [done| |].
  { by apply bool_decide_eq_true. }
  rewrite Hf. apply list_find_Some in Hf as (Hi & _ & _).
  apply lookup_lt_Some in Hi. unfold slice_pods in Hi. rewrite length_take in Hi.
  destruct (lookup_lt_is_Some_2 (sl_array s) (sl_len s - 1)%nat) as [y ->]; [lia|eauto].
Qed.

(** Pods with distinct keys. *)
Definition keyed (l : list Pod) : Prop :=
  NoDup (pod_uid <$> l) /\ forall p, p ∈ l -> pod_uid p <> "".

Lemma keyed_key l p : keyed l -> p ∈ l -> GetPodKey p = Some (pod_uid p).
Proof. intros [_ H] Hp. unfold GetPodKey. by rewrite bool_decide_eq_false_2 by auto. Qed.

Lemma GetPodKey_Some p k : GetPodKey p = Some k -> k = pod_uid p.
Proof. unfold GetPodKey. case_bool_decide; [done|]. by intros [= <-]. Qed.

Lemma keyed_eq l p q : keyed l -> p ∈ l -> q ∈ l -> pod_uid p = pod_uid q -> p = q.
Proof.
  intros [Hnd _] [i Hi]%list_elem_of_lookup [j Hj]%list_elem_of_lookup He.
  assert (i = j) as ->; [|congruence].
  eapply NoDup_lookup; [exact Hnd|rewrite list_lookup_fmap, Hi; cbn; by rewrite He
                         |by rewrite list_lookup_fmap, Hj].
Qed.

Lemma keyed_perm l l' : l ≡ₚ l' -> keyed l -> keyed l'.
Proof. intros Hp [H1 H2]. split; [by rewrite <- Hp|]. intros p. rewrite <- Hp. apply H2. Qed.

Lemma keyed_app_l l l' : keyed (l ++ l') -> keyed l.
Proof.
  intros [Hn H]. split; [rewrite fmap_app in Hn; by apply NoDup_app in Hn as [? _]|].
  intros p Hp. apply H, elem_of_app. by left.
Qed.

(** Appending a pod and removing it again gives the slice's pods back. *)
Lemma remove_appended p s :
  keyed (slice_pods s ++ [p]) ->
  exists s', RemovePod p (AddPodInfo p s) = Ok s' /\ slice_pods s' = slice_pods s.
Proof.
  intros Hk. unfold RemovePod. rewrite (keyed_key _ p Hk) by (apply elem_of_app; right; by left).
  set (l := slice_pods s) in *. unfold AddPodInfo. fold l.
  destruct (removeFromSlice_found (pod_uid p) (slice_of (l ++ [p])) p) as [s' Hs'];
    [apply slice_of_ok|rewrite slice_of_pods; apply elem_of_app; right; by left
    |apply (keyed_key _ p Hk); apply elem_of_app; right; by left|].
  rewrite Hs'. exists s'. split; [done|]. revert Hs'. unfold removeFromSlice.
  rewrite slice_of_pods. destruct (list_find _ _) as [[i q]|] eqn:F; [|done].
  apply list_find_Some in F as (Hi & Hq & _). apply bool_decide_eq_true in Hq.
  assert (i = length l) as ->.
  { apply GetPodKey_Some in Hq. destruct Hk as [Hnd _].
    eapply (NoDup_lookup _ _ _ (pod_uid p) Hnd); rewrite list_lookup_fmap.
    - by rewrite Hi, Hq.
    - by rewrite list_lookup_middle. }
  cbn. rewrite length_app. cbn. replace (length l + 1 - 1)%nat with (length l) by lia.
  rewrite list_lookup_middle by done. intros [= <-]. unfold slice_pods at 1. cbn.
  by rewrite take_insert_ge, take_app_length by done.
Qed.

(** ** Ranging over a slice while removing its pods

    After the positions of [pre] have been visited and [victims] removed: the
    array still has what lies ahead, and the pods left with the victims are the
    node's pods. *)
Record Ranging (l pre : list Pod) (s : PodSlice) (victims : list Pod) : Prop := {
  rg_ok : slice_ok s;
  rg_len : length (sl_array s) = length l;
  rg_ahead : forall k, (length pre <= k)%nat -> sl_array s !! k = l !! k;
  rg_perm : slice_pods s ++ victims ≡ₚ l;
  rg_behind : forall v, v ∈ victims -> v ∈ pre;
}.

Lemma ranging_start l : Ranging l [] (slice_of l) [].
Proof.
  split; [apply slice_of_ok|done|done|by rewrite slice_of_pods, app_nil_r|].
  by intros v ?%not_elem_of_nil.
Qed.

Lemma ranging_next l pre p suf s victims :
  l = pre ++ p :: suf -> Ranging l pre s victims -> sl_array s !! length pre = Some p.
Proof. intros Hl Hr. rewrite (rg_ahead _ _ _ _ Hr) by done. rewrite Hl. by apply list_lookup_middle. Qed.

Lemma ranging_skip l pre p s victims : Ranging l pre s victims -> Ranging l (pre ++ [p]) s victims.
Proof.
  intros [H1 H2 H3 H4 H5]. split; try done.
  - intros k Hk. rewrite length_app in Hk. apply H3. lia.
  - intros v Hv. apply elem_of_app. left. by apply H5.
Qed.

Lemma ranging_remove l pre p suf s victims :
  keyed l -> l = pre ++ p :: suf -> Ranging l pre s victims ->
  exists s', RemovePod p s = Ok s' /\ Ranging l (pre ++ [p]) s' (victims ++ [p]).
Proof.
  intros Hkey Hl [Hok Hlen Harr Hperm Hsub].
  assert (l !! length pre = Some p) as Hi by (rewrite Hl; by apply list_lookup_middle).
  assert (p ∈ l) as Hpl by (by eapply list_elem_of_lookup_2).
  pose proof (keyed_key l p Hkey Hpl) as Hkp.
  assert (p ∉ pre) as Hpre.
  { intros Hp. destruct Hkey as [Hnd _]. rewrite Hl, fmap_app in Hnd.
    apply NoDup_app in Hnd as (_ & Hd & _). apply (Hd (pod_uid p)); [apply list_elem_of_fmap; eauto|].
    by left. }
  assert (p ∈ slice_pods s) as Hps.
  { rewrite <- Hperm in Hpl. apply elem_of_app in Hpl as [?|Hv]; [done|].
    exfalso. by apply Hpre, Hsub. }
  unfold RemovePod. rewrite Hkp.
  destruct (removeFromSlice_found _ _ p Hok Hps Hkp) as [s' Hs']. rewrite Hs'. exists s'. split; [done|].
  apply removeFromSlice_spec in Hs' as (j & q & Hj & Hq & Hperm' & Hok' & Hlen' & Hother); [|done].
  assert (q = p) as ->.
  { apply GetPodKey_Some in Hq. eapply (keyed_eq l); try done.
    rewrite <- Hperm. apply elem_of_app. left. by eapply list_elem_of_lookup_2. }
  assert (j <= length pre)%nat as Hjle.
  { destruct (decide (j <= length pre)%nat); [done|]. exfalso.
    unfold slice_pods in Hj. apply lookup_take_Some in Hj as [Hj _]. rewrite Harr in Hj by lia.
    assert (j = length pre); [|lia]. destruct Hkey as [Hnd _].
    eapply (NoDup_lookup _ _ _ (pod_uid p) Hnd); by rewrite list_lookup_fmap, ?Hj, ?Hi. }
  split; [done|congruence|..].
  - intros k Hk. rewrite length_app in Hk. cbn in Hk. rewrite Hother by lia. apply Harr. lia.
  - rewrite <- Hperm, Hperm'. cbn. by rewrite app_assoc, (Permutation_app_comm _ [p]).
  - intros v [Hv|Hv]%elem_of_app; apply elem_of_app; [left; by apply Hsub|by right].
Qed.

(** ** The removal loop *)

Section Loop.
Variable isScalar : string -> bool.

Definition removed (p : Pod) (infos : ElasticQuotaInfos) : ElasticQuotaInfos :=
  (update_quota (deletePodIfPresent isScalar p) (pod_namespace p) infos).1.

(** The loop as the code reads: each pod of the list once, in order, against
    the quotas as the earlier removals left them. *)
Fixpoint pick (pod : Pod) (withEQ more : bool) (infos : ElasticQuotaInfos) (l : list Pod)
    : ElasticQuotaInfos * list Pod :=
  match l with
  | [] => (infos, [])
  | p :: l' =>
      if candidate infos pod withEQ more p
      then let '(infos', v) := pick pod withEQ more (removed p infos) l' in (infos', p :: v)
      else pick pod withEQ more infos l'
  end.

Lemma range_loop pod withEQ more l :
  keyed l -> forall suf pre st victims,
  l = pre ++ suf -> Ranging l pre (nst_pods st) victims ->
  exists pods',
    remove_candidates isScalar pod withEQ more (length suf) (length pre) st victims
      = Ok ({| nst_pods := pods'; nst_infos := (pick pod withEQ more (nst_infos st) suf).1 |},
            victims ++ (pick pod withEQ more (nst_infos st) suf).2) /\
    slice_ok pods' /\
    slice_pods pods' ++ victims ++ (pick pod withEQ more (nst_infos st) suf).2 ≡ₚ l.
Proof.
  intros Hkey suf. induction suf as [|p suf IH]; intros pre st victims Hl Hr.
  { exists (nst_pods st). cbn. rewrite !app_nil_r. destruct Hr. by destruct st. }
  cbn [length remove_candidates pick]. rewrite (ranging_next _ _ _ _ _ _ Hl Hr).
  assert (l = (pre ++ [p]) ++ suf) as Hl' by (by rewrite <- app_assoc).
  assert (S (length pre) = length (pre ++ [p])) as -> by (rewrite length_app; cbn; lia).
  destruct (candidate (nst_infos st) pod withEQ more p).
  - destruct (ranging_remove _ _ _ _ _ _ Hkey Hl Hr) as (s' & Hs' & Hr'). unfold removePod. rewrite Hs'.
    destruct (IH (pre ++ [p]) {| nst_pods := s'; nst_infos := removed p (nst_infos st) |}
                (victims ++ [p]) Hl' Hr') as (pods' & Hrun & Hok2 & Hp2).
    unfold removed in *. rewrite Hrun. cbn [nst_infos] in *. destruct (pick _ _ _ _ suf) as [infos' v].
    cbn in *. exists pods'. rewrite <- !app_assoc in *. by cbn.
  - apply IH; [done|by apply ranging_skip].
Qed.

(** The whole loop over a node's pods never fails, and its victims and quotas
    are those of the plain loop. *)
Lemma remove_candidates_spec pod withEQ more l infos :
  keyed l ->
  exists pods',
    remove_candidates isScalar pod withEQ more (length l) 0
      {| nst_pods := slice_of l; nst_infos := infos |} []
    = Ok ({| nst_pods := pods'; nst_infos := (pick pod withEQ more infos l).1 |},
          (pick pod withEQ more infos l).2) /\
    slice_ok pods' /\ slice_pods pods' ++ (pick pod withEQ more infos l).2 ≡ₚ l.
Proof.
  intros Hk. destruct (range_loop pod withEQ more l Hk l [] {| nst_pods := slice_of l; nst_infos := infos |} [])
    as (pods' & Hr & Hok & Hp); [done|apply ranging_start|].
  exists pods'. by rewrite app_nil_l in Hr, Hp.
Qed.

(** ** The victims *)

(** The class of pods a preemptor may evict, the quotas being [infos]: with a
    quota, the less important pods of its namespace when it already uses its
    guaranteed share, and otherwise the pods of other quotas that use more than
    their minimum; without one, the less important pods outside all quotas. *)
Definition evictable (infos : ElasticQuotaInfos) (pod : Pod) (more : bool) (v : Pod) : Prop :=
  match infos !! pod_namespace pod, infos !! pod_namespace v with
  | Some _, Some e =>
      if more then pod_namespace v = pod_namespace pod /\ PodPriority v < PodPriority pod
      else pod_namespace v <> pod_namespace pod /\ usedOverMin e = true
  | None, None => PodPriority v < PodPriority pod
  | _, _ => False
  end.

(** Whether the preemptor's quota is over its minimum with the preemptor. *)
Definition over_min (infos : ElasticQuotaInfos) (pod : Pod) (s : PreFilterState) : bool :=
  match infos !! pod_namespace pod with
  | Some eq => usedOverMinWith (nominatedPodsReqInEQWithPodReq s) eq
  | None => false
  end.

Lemma update_quota_dom f ns infos n :
  is_Some ((update_quota f ns infos).1 !! n) <-> is_Some (infos !! n).
Proof.
  unfold update_quota. destruct (infos !! ns) as [e|] eqn:E; [|done].
  destruct (f e); [|done]. cbn. destruct (decide (n = ns)) as [->|];
    [rewrite lookup_insert_eq, E; split; eauto|by rewrite lookup_insert_ne].
Qed.

Lemma pick_dom pod withEQ more infos l n :
  is_Some ((pick pod withEQ more infos l).1 !! n) <-> is_Some (infos !! n).
Proof.
  revert infos. induction l as [|p l IH]; intros infos; cbn [pick]; [done|].
  destruct (candidate _ _ _ _ p); [|apply IH].
  specialize (IH (removed p infos)). destruct (pick _ _ _ _ l). cbn [fst] in *. rewrite IH.
  unfold removed. apply update_quota_dom.
Qed.

Lemma pick_at_turn pod withEQ more infos l v :
  v ∈ (pick pod withEQ more infos l).2 ->
  exists before after, l = before ++ v :: after /\
    candidate (pick pod withEQ more infos before).1 pod withEQ more v = true.
Proof.
  revert infos. induction l as [|p l IH]; intros infos; cbn [pick]; [by intros ?%not_elem_of_nil|].
  destruct (candidate infos pod withEQ more p) eqn:C.
  - specialize (IH (removed p infos)). destruct (pick _ _ _ _ l). cbn [snd] in *.
    intros [->|Hv]%elem_of_cons; [by exists [], l|].
    destruct (IH Hv) as (before & after & -> & Hc). exists (p :: before), after. split; [done|].
    cbn [pick]. rewrite C. by destruct (pick _ _ _ _ before).
  - intros Hv. destruct (IH _ Hv) as (before & after & -> & Hc). exists (p :: before), after.
    split; [done|]. cbn [pick]. by rewrite C.
Qed.

Lemma candidate_evictable infos pod withEQ more p :
  (withEQ = true <-> is_Some (infos !! pod_namespace pod)) ->
  candidate infos pod withEQ more p = true -> evictable infos pod more p.
Proof.
  unfold candidate, evictable. intros Hw. destruct (infos !! pod_namespace pod) as [e|].
  - rewrite (proj2 Hw) by eauto. destruct (infos !! pod_namespace p); [|done]. cbn [andb].
    destruct more; rewrite andb_true_iff, !bool_decide_eq_true; [done|by intros [? ?]].
  - destruct withEQ; [by destruct (proj1 Hw eq_refl)|]. destruct (infos !! pod_namespace p); [done|].
    cbn. by rewrite bool_decide_eq_true.
Qed.

(** What makes [v] a victim: the loop reads the pods in [order], and at the turn
    of [v], the removals before it subtracted from the quotas, [v] is of the
    class the preemptor may evict. *)
Definition evictable_at_turn (infos : ElasticQuotaInfos) (pod : Pod) (more : bool) (order : list Pod)
    (v : Pod) : Prop :=
  exists before after, order = before ++ v :: after /\
    evictable (pick pod (bool_decide (is_Some (infos !! pod_namespace pod))) more infos before).1 pod more v.

Lemma pick_evictable infos pod more order v :
  v ∈ (pick pod (bool_decide (is_Some (infos !! pod_namespace pod))) more infos order).2 ->
  evictable_at_turn infos pod more order v.
Proof.
  intros (before & after & -> & Hc)%pick_at_turn. exists before, after. split; [done|].
  eapply candidate_evictable; [|exact Hc]. by rewrite pick_dom, bool_decide_eq_true.
Qed.
End Loop.

(** ** Reprieving *)

Section Reprieve.
Variable isScalar : string -> bool.
Variable runFilter : list Pod -> FStatus.
Variables (pod : Pod) (s : PreFilterState).

(** The preemptor fits with exactly these pods on the node. *)
Definition fits_with (l : list Pod) : Prop := IsSuccess (runFilter l) = true.

Lemma remove_missing p sl :
  (forall q, q ∈ slice_pods sl -> pod_uid q <> pod_uid p) -> exists e, RemovePod p sl = Err e.
Proof.
  intros Hn. unfold RemovePod. destruct (GetPodKey p) as [k|] eqn:K; [|eauto].
  apply GetPodKey_Some in K as ->. unfold removeFromSlice.
  destruct (list_find _ _) as [[i q]|] eqn:F; [|eauto].
  apply list_find_Some in F as (Hi & Hq & _). apply bool_decide_eq_true, GetPodKey_Some in Hq.
  exfalso. apply (Hn q); [by eapply list_elem_of_lookup_2|done].
Qed.

Lemma keyed_notin l p : keyed (l ++ [p]) -> forall q, q ∈ l -> pod_uid q <> pod_uid p.
Proof.
  intros [Hnd _] q Hq He. rewrite fmap_app in Hnd. apply NoDup_app in Hnd as (_ & Hd & _).
  apply (Hd (pod_uid q)); [apply list_elem_of_fmap; eauto|]. rewrite He. by left.
Qed.

(** What one call leaves: the pod is back on the node and the preemptor still
    fits, or the node is as before and the pod is a victim. A pod that neither
    fits nor respects the quotas makes the call fail. *)
Lemma reprieve_one pi st victims :
  keyed (slice_pods (nst_pods st) ++ [pi]) -> fits_with (slice_pods (nst_pods st)) ->
  match reprievePod isScalar runFilter pod s pi (st, victims) with
  | Err _ => ~ fits_with (slice_pods (nst_pods st) ++ [pi])
  | Ok (st', victims', fits) =>
      fits_with (slice_pods (nst_pods st')) /\
      ((slice_pods (nst_pods st') = slice_pods (nst_pods st) ++ [pi] /\ victims' = victims /\
        fits = true) \/
       (slice_pods (nst_pods st') = slice_pods (nst_pods st) /\ victims' = victims ++ [pi]))
  end.
Proof.
  intros Hk Hf. unfold reprievePod. set (L := slice_pods (nst_pods st)) in *.
  assert (slice_pods (nst_pods (addPodTo isScalar pi st)) = L ++ [pi]) as HL
    by apply slice_of_pods.
  assert (slice_pods (AddPodInfo pi (nst_pods st)) = L ++ [pi]) as HA by apply slice_of_pods.
  rewrite HL. destruct (remove_appended pi (nst_pods st) Hk) as (sl & Hsl & Hpods).
  unfold removePod at 1. unfold addPodTo. cbn [nst_pods]. rewrite Hsl.
  destruct (IsSuccess (runFilter (L ++ [pi]))) eqn:F.
  - destruct (over_quota _ _ _ _ _).
    + unfold removePod. cbn [nst_pods]. rewrite Hsl. cbn. split; [by rewrite Hpods|by right].
    + cbn [nst_pods]. rewrite HA. split; [done|by left].
  - cbn [nst_infos]. destruct (over_quota _ _ _ _ _).
    + unfold removePod. cbn [nst_pods].
      destruct (remove_missing pi sl) as [e He].
      { rewrite Hpods. by apply keyed_notin. }
      rewrite He. unfold fits_with. by rewrite F.
    + cbn. split; [by rewrite Hpods|by right].
Qed.

Lemma reprieve_spec l st victims n st' victims' n' :
  keyed (slice_pods (nst_pods st) ++ l) -> fits_with (slice_pods (nst_pods st)) ->
  reprieve_all isScalar runFilter pod s l (st, victims) n = Ok (st', victims', n') ->
  fits_with (slice_pods (nst_pods st')) /\
  exists kept vs, slice_pods (nst_pods st') = slice_pods (nst_pods st) ++ kept /\
    victims' = victims ++ vs /\ kept ++ vs ≡ₚ l.
Proof.
  revert st victims n. induction l as [|pi l IH]; intros st victims n Hk Hf; cbn [reprieve_all].
  { intros [= <- <- <-]. split; [done|]. exists [], []. by rewrite !app_nil_r. }
  assert (keyed (slice_pods (nst_pods st) ++ [pi])) as Hk1.
  { destruct Hk as [Hnd Hne]. split.
    - rewrite (cons_middle pi), app_assoc, fmap_app in Hnd. by apply NoDup_app in Hnd as [? _].
    - intros p Hp. apply Hne. apply elem_of_app in Hp as [?|?%list_elem_of_singleton];
        apply elem_of_app; [by left|right; subst; by left]. }
  pose proof (reprieve_one pi st victims Hk1 Hf) as H1.
  destruct (reprievePod _ _ _ _ _ _) as [[[st1 v1] fits]|e]; [|done].
  destruct H1 as [Hf1 Hcase]. intros Hr.
  assert (keyed (slice_pods (nst_pods st1) ++ l)) as Hk2.
  { destruct Hcase as [(-> & _)|(-> & _)]; [by rewrite <- app_assoc|].
    destruct Hk as [Hnd Hne]. split.
    - rewrite <- Permutation_middle in Hnd. by apply NoDup_cons in Hnd as [_ ?].
    - intros p Hp. apply Hne. apply elem_of_app in Hp as [?|?];
        apply elem_of_app; [by left|right; by constructor]. }
  destruct (IH _ _ _ Hk2 Hf1 Hr) as (Hf2 & kept & vs & Hs & Hv & Hp). split; [done|].
  destruct Hcase as [(E1 & E2 & _)|(E1 & E2)]; rewrite E1 in Hs; rewrite E2 in Hv.
  - exists (pi :: kept), vs. rewrite Hs, <- app_assoc, Hv. split_and!; [done..|].
    cbn. by rewrite Hp.
  - exists kept, (pi :: vs). rewrite Hs, Hv, <- app_assoc. split_and!; [done..|].
    rewrite <- Permutation_middle. by rewrite Hp.
Qed.
End Reprieve.

(** ** Disruption budgets *)

Section PDB.
Variable selects : PodDisruptionBudget -> Pod -> bool.

Lemma pdb_turns_perm pdbs pods allowed v nv :
  let '(_, v', nv') := foldl (pdb_turn selects pdbs) (allowed, v, nv) pods in
  exists a b, v' = v ++ a /\ nv' = nv ++ b /\ a ++ b ≡ₚ pods /\
    a `sublist_of` pods /\ b `sublist_of` pods.
Proof.
  revert allowed v nv. induction pods as [|p pods IH]; intros allowed v nv; cbn [foldl].
  { exists [], []. by rewrite !app_nil_r. }
  unfold pdb_turn at 2. destruct (violates selects p pdbs allowed) as [allowed1 [|]].
  - specialize (IH allowed1 (v ++ [p]) nv). destruct (foldl _ _ pods) as [[al v'] nv'].
    destruct IH as (a & b & -> & -> & Hp & Ha & Hb). exists (p :: a), b. rewrite <- app_assoc.
    split_and!; [done..|cbn; by rewrite Hp|by constructor|by constructor].
  - specialize (IH allowed1 v (nv ++ [p])). destruct (foldl _ _ pods) as [[al v'] nv'].
    destruct IH as (a & b & -> & -> & Hp & Ha & Hb). exists a, (p :: b). rewrite <- app_assoc.
    split_and!; [done..|rewrite <- Permutation_middle; by rewrite Hp|by constructor|by constructor].
Qed.

Lemma filter_pdb_perm pods pdbs :
  let '(v, nv) := filterPodsWithPDBViolation selects pods pdbs in
  v ++ nv ≡ₚ pods /\ v `sublist_of` pods /\ nv `sublist_of` pods.
Proof.
  unfold filterPodsWithPDBViolation.
  pose proof (pdb_turns_perm pdbs pods (pdb_allowed <$> pdbs) [] []) as H.
  destruct (foldl _ _ pods) as [[al v] nv]. destruct H as (a & b & -> & -> & ?).
  by rewrite !app_nil_l.
Qed.

(** How many pods of a list a budget counts. *)
Definition counted_by (pdb : PodDisruptionBudget) (l : list Pod) : Z :=
  sumZ (fun p => if negb (bool_decide (meta_labels (pod_meta p) = ∅)) && budget_counts selects p pdb
                 then 1 else 0) l.

Lemma counted_by_snoc pdb l p :
  counted_by pdb (l ++ [p]) = counted_by pdb l +
    (if negb (bool_decide (meta_labels (pod_meta p) = ∅)) && budget_counts selects p pdb
     then 1 else 0).
Proof. unfold counted_by. rewrite sumZ_app, sumZ_cons, sumZ_nil. lia. Qed.

Lemma counted_by_bounds pdb l : 0 <= counted_by pdb l <= Z.of_nat (length l).
Proof.
  unfold counted_by. induction l as [|p l IH]; [done|]. rewrite sumZ_cons. cbn [length].
  destruct (_ && _); lia.
Qed.

Lemma charge_spec pod pdbs allowed i pdb a :
  pdbs !! i = Some pdb -> allowed !! i = Some a ->
  (charge_budgets selects pod pdbs allowed).1 !! i
    = Some (if budget_counts selects pod pdb then dec32 a else a) /\
  (budget_counts selects pod pdb = true -> dec32 a < 0 ->
   (charge_budgets selects pod pdbs allowed).2 = true).
Proof.
  revert allowed i. induction pdbs as [|pdb' pdbs IH]; intros [|a' allowed] [|i]; try done; cbn.
  - intros [= ->] [= ->]. destruct (charge_budgets selects pod pdbs allowed) as [rest v].
    destruct (budget_counts selects pod pdb); [|done]. split; [done|].
    intros _ Hd. cbn. by rewrite (proj2 (Z.ltb_lt _ _) Hd).
  - intros Hp Ha. destruct (IH allowed i Hp Ha) as [H1 H2].
    destruct (charge_budgets selects pod pdbs allowed) as [rest v]. cbn in *.
    destruct (budget_counts selects pod pdb'); cbn; (split; [done|]); intros Hc Hd;
      rewrite (H2 Hc Hd); [apply orb_true_r|done].
Qed.

(** A budget is charged for the pods it counts, and a pod that is not in
    violation is covered by what the budget allows. *)
Lemma pdb_turns_budget pdbs i pdb pods :
  pdbs !! i = Some pdb -> 0 <= pdb_allowed pdb < 2147483648 -> Z.of_nat (length pods) < 2147483648 ->
  let '(allowed, _, nv) := foldl (pdb_turn selects pdbs) (pdb_allowed <$> pdbs, [], []) pods in
  allowed !! i = Some (pdb_allowed pdb - counted_by pdb pods) /\
  counted_by pdb nv <= counted_by pdb pods /\ counted_by pdb nv <= pdb_allowed pdb.
Proof.
  intros Hi Ha. induction pods as [|p pods IH] using rev_ind; intros Hlen.
  { cbn. rewrite list_lookup_fmap, Hi. cbn. rewrite Z.sub_0_r. split_and!; [done|lia|lia]. }
  rewrite length_app in Hlen. cbn in Hlen. rewrite foldl_app. cbn [foldl].
  specialize (IH ltac:(lia)). pose proof (counted_by_bounds pdb pods) as Hb.
  destruct (foldl _ _ pods) as [[allowed v] nv]. destruct IH as (H1 & H2 & H3).
  unfold pdb_turn, violates. rewrite counted_by_snoc.
  destruct (bool_decide (meta_labels (pod_meta p) = ∅)) eqn:L; cbn [negb andb].
  { rewrite counted_by_snoc, L. cbn [negb andb]. rewrite !Z.add_0_r. done. }
  destruct (charge_spec p pdbs allowed i pdb _ Hi H1) as [C1 C2].
  destruct (charge_budgets selects p pdbs allowed) as [allowed' viol]. cbn [fst snd] in C1, C2.
  assert (dec32 (pdb_allowed pdb - counted_by pdb pods)
          = pdb_allowed pdb - counted_by pdb pods - 1) as Hd
    by (unfold dec32; rewrite Z.mod_small; lia).
  destruct (budget_counts selects p pdb) eqn:B; rewrite ?Hd in *.
  - destruct viol.
    + split_and!; [rewrite C1; f_equal; lia|lia|lia].
    + rewrite counted_by_snoc, L, B. cbn [negb andb].
      destruct (decide (pdb_allowed pdb - counted_by pdb pods - 1 < 0)) as [Hneg|Hneg];
        [by specialize (C2 eq_refl Hneg)|].
      split_and!; [rewrite C1; f_equal; lia|lia|lia].
  - rewrite Z.add_0_r. destruct viol; [done|].
    rewrite counted_by_snoc, L, B. cbn [negb andb]. by rewrite Z.add_0_r.
Qed.
End PDB.

(** ** A successful [SelectVictimsOnNode] *)

(** The order in which the removal loop reads the pods: the least important
    first. *)
Definition removal_order (sort_slice : (Pod -> Pod -> bool) -> list Pod -> list Pod) (now : Z)
    (pods : list Pod) : list Pod :=
  sort_slice (fun a b => negb (MoreImportantPod now a b)) pods.

Lemma select_victims_ok isScalar sort_slice now selects runFilter state pod pods pdbs
    infos s victims n st :
  (forall f l, sort_slice f l ≡ₚ l) -> keyed pods ->
  cd_snapshot state = Some infos -> cd_prefilter state = Some s ->
  SelectVictimsOnNode isScalar sort_slice now selects runFilter state pod pods pdbs
  = (NewStatus Success, victims, n, Some st) ->
  slice_pods (nst_pods st) ++ victims ≡ₚ pods /\
  IsSuccess (runFilter (slice_pods (nst_pods st))) = true /\
  forall v, v ∈ victims ->
    evictable_at_turn isScalar infos pod (over_min infos pod s) (removal_order sort_slice now pods) v.
Proof.
  intros Hsort Hk Hi Hp. unfold SelectVictimsOnNode. rewrite Hi, Hp.
  fold (removal_order sort_slice now pods). set (sorted := removal_order sort_slice now pods). fold (over_min infos pod s). set (more := over_min infos pod s).
  assert (keyed sorted) as Hks by (unfold sorted, removal_order; eapply keyed_perm; [symmetry; apply Hsort|done]).
  destruct (remove_candidates_spec isScalar pod (bool_decide (is_Some (infos !! pod_namespace pod)))
    more sorted infos Hks) as (pods1 & -> & Hok & Hperm).
  pose proof (pick_evictable isScalar infos pod more sorted) as Hev.
  destruct (pick _ _ _ _ _ sorted) as [infos1 vs]. cbn [fst snd] in *.
  destruct vs as [|v0 vs0]; [done|]. set (vs := v0 :: vs0) in *.
  cbn [nst_pods nst_infos]. destruct (IsSuccess (runFilter (slice_pods pods1))) eqn:Hf; [|by intros [=]].
  cbn [negb]. destruct (over_quota _ _ _ _ _); [done|].
  pose proof (filter_pdb_perm selects (sort_slice (MoreImportantPod now) vs) pdbs) as Hpdb.
  destruct (filterPodsWithPDBViolation _ _ _) as [viol nonviol]. destruct Hpdb as (Hvn & _ & _).
  assert (keyed (slice_pods pods1 ++ viol ++ nonviol)) as Hk1.
  { eapply keyed_perm; [|exact Hks]. by rewrite Hvn, Hsort, Hperm. }
  destruct (reprieve_all _ _ _ _ viol _ _) as [[acc nviol]|] eqn:R1; [|done].
  destruct acc as [st1 v1]. apply reprieve_spec in R1 as (Hf1 & kept1 & out1 & Hs1 & Hv1 & Hp1);
    [|cbn; by eapply keyed_app_l; rewrite <- app_assoc|done].
  destruct (reprieve_all _ _ _ _ nonviol _ _) as [[[st2 v2] n2]|] eqn:R2; [|done].
  cbn in Hs1, Hv1. subst v1.
  apply reprieve_spec in R2 as (Hf2 & kept2 & out2 & Hs2 & Hv2 & Hp2); [| |done].
  2: { rewrite Hs1. eapply keyed_app_l. eapply keyed_perm; [|exact Hk1].
       rewrite <- Hp1. instantiate (1 := out1). solve_Permutation. }
  intros [= <- _ <-]. subst v2.
  assert (out1 ++ out2 ⊆ vs) as Hsub.
  { intros v Hv. rewrite <- (Hsort (MoreImportantPod now) vs), <- Hvn, <- Hp1, <- Hp2. set_solver. }
  split_and!; [|done|intros v Hv; by apply Hev, Hsub].
  assert (sorted ≡ₚ pods) as <- by apply Hsort.
  rewrite <- Hperm, Hs2, Hs1. rewrite <- (Hsort (MoreImportantPod now) vs), <- Hvn, <- Hp1, <- Hp2.
  solve_Permutation.
Qed.
