(* ===== verification/CapacityClaims.v ===== *)
(** * The properties of the CapacityScheduling plugin *)

From S2P Require Import Prelude.
From S2P Require Import KubeTypes.
From S2P Require Import Store.
From S2P Require Import GoSort.
From S2P Require Import Framework.
From S2P Require Import Resource.
From S2P Require Import ElasticQuota.
From S2P Require Import ElasticQuotaProofs.
From S2P Require Import Capacity.
From S2P Require Import CapacityProofs.
From S2P Require Import Preemption.
From S2P Require Import PreemptionProofs.

(** ** Concrete pods and quotas *)

Definition no_scalars (_ : string) : bool := false.

Lemma no_scalars_native n : n ∈ native_names -> no_scalars n = false.
Proof. done. Qed.

Definition milli_cpu (m : Z) : ResourceList := {[ ResourceCPU := NewMilliQuantity m ]}.

(** A pod of one container asking for [m] thousandths of a CPU. *)
Definition cpu_pod (ns name : string) (prio m : Z) : Pod := {|
  pod_meta := {| meta_name := name; meta_namespace := ns; meta_uid := "uid-" +:+ name;
    meta_labels := {[ "app" := name ]}; meta_annotations := ∅; meta_owners := [];
    meta_deletion := None; meta_creation := 0; meta_resource_version := 0 |};
  pod_spec := {| spec_node_name := "n1"; spec_priority := Some prio; spec_preempt_never := false; spec_priority_class := ""; spec_scheduler_name := "";
    spec_containers := [milli_cpu m]; spec_init_containers := []; spec_overhead := None |};
  pod_status := {| pstatus_phase := PodRunning; pstatus_nominated := "";
                   pstatus_start_time := Some 0; pstatus_conditions := [] |} |}.

Definition cpu_quota (ns : string) (mn mx : Z) : ElasticQuota :=
  {| quota_namespace := ns; quota_min := Some (milli_cpu mn); quota_max := Some (milli_cpu mx) |}.

Definition with_quota (q : ElasticQuota) (infos : ElasticQuotaInfos) : ElasticQuotaInfos :=
  addElasticQuota no_scalars q infos.
Definition with_pods (l : list Pod) (infos : ElasticQuotaInfos) : ElasticQuotaInfos :=
  foldl (fun m p => (Reserve no_scalars p m).2) infos l.

(** Two quotas, team "a" with one running pod. *)
Definition two_teams : ElasticQuotaInfos :=
  with_pods [cpu_pod "a" "a1" 0 1000]
    (with_quota (cpu_quota "a" 2000 4000) (with_quota (cpu_quota "b" 3000 6000) ∅)).

(** The requests of their pods. *)
Definition demo_req (uid : string) : Resource :=
  if bool_decide (uid = "uid-a1")
  then computePodResourceRequest no_scalars (cpu_pod "a" "a1" 0 1000) else zero_resource.

Lemma two_teams_reachable : reachable no_scalars demo_req two_teams.
Proof.
  eapply reach_step; [eapply reach_step; [eapply reach_step; [apply reach_start|]|]|].
  - apply (step_quota_add no_scalars demo_req (cpu_quota "b" 3000 6000)).
  - apply (step_quota_add no_scalars demo_req (cpu_quota "a" 2000 4000)).
  - apply (step_reserve no_scalars demo_req (cpu_pod "a" "a1" 0 1000)). vm_compute. reflexivity.
Qed.

Definition no_state : CycleData := {| cd_snapshot := None; cd_prefilter := None |}.

(** ** The request of a pod *)

(** [computePodResourceRequest] computes, in every dimension on its own,
    the larger of the sum of the containers and each init container, plus the
    overhead (init containers do not raise the number of pods), whatever order
    the resource lists are iterated in. *)
Theorem pod_request_spec isScalar pod d :
  (forall n, n ∈ native_names -> isScalar n = false) ->
  get d (computePodResourceRequest isScalar pod) = request_dim isScalar pod d.
Proof. intros Hn. by apply request_ok. Qed.

Lemma pod_request_spec_witness :
  get DimCPU (computePodResourceRequest no_scalars (cpu_pod "a" "a1" 0 1500))
  = request_dim no_scalars (cpu_pod "a" "a1" 0 1500) DimCPU.
Proof. exact (pod_request_spec no_scalars (cpu_pod "a" "a1" 0 1500) DimCPU no_scalars_native). Defined.

(** ** The ledger of the quotas *)

(** C5. The ledger invariant: starting with no quotas, after any sequence of
    reservations, releases and pod and quota events, the used vector of every
    quota is in each dimension the total (modulo 2^64) of the requests of the
    pods it holds: no request is counted twice or forgotten. Pods are told
    apart by UID, and a pod's request does not change. *)
Theorem quota_ledger_invariant isScalar req_of infos ns e d :
  reachable isScalar req_of infos -> infos !! ns = Some e ->
  get d (eq_Used e) = int64 (sumZ (fun uid => get d (req_of uid)) (elements (eq_pods e))).
Proof.
  intros Hr He. by apply (reachable_ledgers isScalar req_of infos Hr ns e He).
Qed.

Lemma quota_ledger_invariant_witness :
  exists e, two_teams !! "a" = Some e /\ get DimCPU (eq_Used e) = 1000 /\
  get DimCPU (eq_Used e)
  = int64 (sumZ (fun uid => get DimCPU (demo_req uid)) (elements (eq_pods e))).
Proof.
  eexists. split; [vm_compute; reflexivity|]. split; [reflexivity|].
  apply (quota_ledger_invariant no_scalars demo_req two_teams "a");
    [exact two_teams_reachable|vm_compute; reflexivity].
Defined.

(** [Unreserve] undoes [Reserve]: for a pod its quota did not hold, the
    set of pods is as before and so is every component of the used vector; the
    other quotas are untouched. *)
Theorem unreserve_undoes_quota_reserve isScalar pod infos e :
  infos !! pod_namespace pod = Some e -> res_int64 (eq_Used e) ->
  pod_uid pod <> "" -> pod_uid pod ∉ eq_pods e ->
  exists e', Unreserve isScalar pod (Reserve isScalar pod infos).2
             = <[pod_namespace pod := e']> infos /\
    eq_pods e' = eq_pods e /\ res_equiv (eq_Used e') (eq_Used e) /\
    eq_Min e' = eq_Min e /\ eq_Max e' = eq_Max e.
Proof.
  intros He Hi Hu Hn. unfold Reserve, Unreserve, update_quota at 2.
  unfold addPodIfNotPresent, GetPodKey. rewrite He, bool_decide_eq_false_2 by done.
  rewrite bool_decide_eq_false_2 by done. cbn [fst snd].
  set (e1 := set_used _ _). unfold update_quota, deletePodIfPresent, GetPodKey.
  rewrite lookup_insert_eq, bool_decide_eq_false_2 by done.
  rewrite bool_decide_eq_false_2 by (cbn; set_solver). cbn [fst].
  eexists. split; [by rewrite insert_insert_eq|]. cbn.
  split_and!; [set_solver|by apply unreserve_reserve|done|done].
Qed.

Lemma unreserve_undoes_quota_reserve_witness :
  let pod := cpu_pod "b" "b1" 0 500 in
  exists e', Unreserve no_scalars pod (Reserve no_scalars pod two_teams).2
             = <["b" := e']> two_teams /\
    eq_pods e' = ∅ /\ res_equiv (eq_Used e') zero_resource /\
    eq_Min e' = NewResource no_scalars (milli_cpu 3000) /\
    eq_Max e' = NewResource no_scalars (milli_cpu 6000).
Proof.
  intros pod.
  apply (unreserve_undoes_quota_reserve no_scalars pod two_teams
           (newElasticQuotaInfo no_scalars "b" (Some (milli_cpu 3000)) (Some (milli_cpu 6000)) None));
    [vm_compute; reflexivity|intros d; rewrite get_zero; by split|discriminate|].
  apply not_elem_of_empty.
Defined.

(** ** Admission *)

(** C17. [PreFilter] admits a pod exactly when its namespace has no quota, or its
    request, with the requests of the nominated pods that are as important,
    keeps the namespace's quota within its maximum and all quotas together
    within the sum of the minima; otherwise it answers Unschedulable. *)
Theorem prefilter_exact isScalar req_of live nodes pod st :
  (forall n, n ∈ native_names -> isScalar n = false) ->
  reachable isScalar req_of live ->
  (forall d, 0 <= int64 (total (fun e => get d (eq_Min e)) live)) ->
  let r := PreFilter isScalar live (Ok nodes) pod st in
  match live !! pod_namespace pod with
  | None => r.1 = NewStatus Success
  | Some e =>
      (r.1 = NewStatus Success <->
       within_max isScalar live (concat nodes) pod e /\ within_min isScalar live (concat nodes) pod) /\
      (r.1 = NewStatus Success \/ r.1 = NewStatus Unschedulable)
  end.
Proof.
  intros Hn Hr Hmin. destruct (live !! pod_namespace pod) as [e|] eqn:He; cbn zeta.
  - apply prefilter_spec; try done. by eapply reachable_ok.
  - unfold PreFilter. by rewrite clone_infos_id, He.
Qed.

(** A more important pod of team "b" is nominated to the only node. *)
Definition demo_nominated : list (list Pod) := [[cpu_pod "b" "b2" 5 1000]].

Lemma two_teams_min d : 0 <= int64 (total (fun e => get d (eq_Min e)) two_teams).
Proof. destruct d; vm_compute; discriminate. Qed.

Lemma prefilter_exact_witness :
  let r := PreFilter no_scalars two_teams (Ok demo_nominated) (cpu_pod "b" "b1" 0 500) no_state in
  exists e, two_teams !! "b" = Some e /\
  ((r.1 = NewStatus Success <->
    within_max no_scalars two_teams (concat demo_nominated) (cpu_pod "b" "b1" 0 500) e /\
    within_min no_scalars two_teams (concat demo_nominated) (cpu_pod "b" "b1" 0 500)) /\
   (r.1 = NewStatus Success \/ r.1 = NewStatus Unschedulable)).
Proof.
  intros r. eexists. split; [vm_compute; reflexivity|].
  exact (prefilter_exact no_scalars demo_req two_teams demo_nominated (cpu_pod "b" "b1" 0 500)
           no_state no_scalars_native two_teams_reachable two_teams_min).
Defined.

(** A pod that is admitted and reserved. The totals are taken without
    wrap-around: [room] asks that they are small enough. *)
Definition room (isScalar : string -> bool) (live : ElasticQuotaInfos) (noms : list Pod) (pod : Pod)
    (e : ElasticQuotaInfo) : Prop := forall d,
  let req := get d (computePodResourceRequest isScalar pod) in
  0 <= get d (eq_Used e) /\ 0 <= total (fun e => get d (eq_Used e)) live /\
  in_int64 (joined isScalar (joins_eq live pod) d noms + req + get d (eq_Used e)) /\
  in_int64 (total (fun e => get d (eq_Used e)) live
            + joined isScalar (joins_all live pod) d noms + req).

(** C6. Reserving a pod that [PreFilter] has just admitted keeps the quotas: in
    every dimension the pod asks for, its namespace's used total stays within
    the maximum, and in every dimension the used total of all namespaces stays
    within the sum of the minima. *)
Theorem admitted_pod_respects_quotas isScalar req_of live nodes pod st e :
  (forall n, n ∈ native_names -> isScalar n = false) ->
  reachable isScalar req_of live -> live !! pod_namespace pod = Some e ->
  (forall d, 0 <= int64 (total (fun e => get d (eq_Min e)) live)) ->
  (forall p d, p ∈ pod :: concat nodes -> 0 <= get d (computePodResourceRequest isScalar p)) ->
  room isScalar live (concat nodes) pod e ->
  pod_uid pod <> "" -> pod_uid pod ∉ eq_pods e ->
  (PreFilter isScalar live (Ok nodes) pod st).1 = NewStatus Success ->
  exists e', Reserve isScalar pod live = (NewStatus Success, <[pod_namespace pod := e']> live) /\
    eq_Max e' = eq_Max e /\
    (forall d, 0 < get d (computePodResourceRequest isScalar pod) ->
     get d (eq_Used e') <= limit UpperBoundOfMax (eq_Max e') d) /\
    (forall d, total (fun e => get d (eq_Used e)) (<[pod_namespace pod := e']> live)
               <= int64 (total (fun e => get d (eq_Min e)) live)).
Proof.
  intros Hn Hr He Hmin Hpos Hroom Hu Hf Hs.
  assert (infos_ok isScalar live) as Hok by (by eapply reachable_ok).
  apply (prefilter_spec isScalar Hn live nodes pod st e Hok He Hmin) in Hs as [Hmax Htot].
  assert (forall test d, 0 <= joined isScalar test d (concat nodes)) as Hj.
  { intros test d. apply joined_nonneg. intros p Hp. apply Hpos. by constructor. }
  unfold Reserve, update_quota, addPodIfNotPresent, GetPodKey. rewrite He.
  do 2 (rewrite bool_decide_eq_false_2 by done). eexists. split; [done|]. split; [done|].
  destruct (Hok _ _ He) as (Hi & _ & _ & _).
  assert (forall d, get d (reserveResource (computePodResourceRequest isScalar pod) (eq_Used e))
            = get d (eq_Used e) + get d (computePodResourceRequest isScalar pod)) as Hg.
  { intros d. rewrite get_reserve by done. apply add64_exact.
    destruct (Hroom d) as (? & ? & Hm & _). specialize (Hj (joins_eq live pod) d).
    pose proof (Hpos pod d ltac:(by left)). unfold in_int64 in *. lia. }
  split; intros d; cbn.
  - intros Hd. rewrite Hg. specialize (Hmax d). destruct (Hroom d) as (? & ? & Hm & _).
    replace (int64 _ +! _) with (joined isScalar (joins_eq live pod) d (concat nodes)
      + get d (computePodResourceRequest isScalar pod) + get d (eq_Used e)) in Hmax
      by (rewrite <- (int64_id _ Hm); int64_ring).
    specialize (Hj (joins_eq live pod) d). etransitivity; [|apply Hmax]; [lia|].
    destruct d as [| | | |n]; try done. left. cbn in Hd. unfold scalar in Hd.
    destruct (ScalarResources _ !! n); [eauto|done].
  - rewrite (total_update _ _ _ e) by done. cbn. rewrite Hg. specialize (Htot d).
    destruct (Hroom d) as (? & ? & _ & Hm).
    rewrite Z.add_assoc, int64_id in Htot by done. specialize (Hj (joins_all live pod) d). lia.
Qed.

Lemma admitted_pod_respects_quotas_witness :
  exists e', Reserve no_scalars (cpu_pod "b" "b1" 0 500) two_teams
             = (NewStatus Success, <["b" := e']> two_teams) /\
    eq_Max e' = NewResource no_scalars (milli_cpu 6000) /\
    (forall d, 0 < get d (computePodResourceRequest no_scalars (cpu_pod "b" "b1" 0 500)) ->
     get d (eq_Used e') <= limit UpperBoundOfMax (eq_Max e') d) /\
    (forall d, total (fun e => get d (eq_Used e)) (<["b" := e']> two_teams)
               <= int64 (total (fun e => get d (eq_Min e)) two_teams)).
Proof.
  apply (admitted_pod_respects_quotas no_scalars demo_req two_teams demo_nominated
           (cpu_pod "b" "b1" 0 500) no_state
           (newElasticQuotaInfo no_scalars "b" (Some (milli_cpu 3000)) (Some (milli_cpu 6000)) None)
           no_scalars_native two_teams_reachable); try reflexivity; [exact two_teams_min|..].
  - intros p d Hp. repeat apply elem_of_cons in Hp as [->|Hp]; [..|by apply not_elem_of_nil in Hp];
      destruct d; vm_compute; discriminate.
  - intros d. unfold in_int64. destruct d; vm_compute; repeat split; discriminate.
  - discriminate.
  - apply not_elem_of_empty.
Defined.

(** ** Preemption *)

(** The removal loop of [SelectVictimsOnNode] ranges over the very slice its
    removals shift, yet it reads every pod of the node exactly once and in
    order: it never fails, and its victims and the quotas it leaves are those of
    the plain loop over an unchanging list. *)
Theorem removal_loop_reads_every_pod isScalar pod withEQ more l infos :
  keyed l ->
  exists pods',
    remove_candidates isScalar pod withEQ more (length l) 0
      {| nst_pods := slice_of l; nst_infos := infos |} []
    = Ok ({| nst_pods := pods'; nst_infos := (pick isScalar pod withEQ more infos l).1 |},
          (pick isScalar pod withEQ more infos l).2) /\ slice_ok pods' /\
    slice_pods pods' ++ (pick isScalar pod withEQ more infos l).2 ≡ₚ l.
Proof. apply remove_candidates_spec. Qed.

(** Three pods of team "a" on one node. *)
Definition crowded : list Pod :=
  [cpu_pod "a" "a1" 0 1000; cpu_pod "a" "a2" 20 1000; cpu_pod "a" "a3" 1 1000].

Lemma crowded_keyed : keyed crowded.
Proof.
  split; [by apply (bool_decide_unpack _); vm_compute|].
  intros p Hp. repeat apply elem_of_cons in Hp as [->|Hp]; [..|by apply not_elem_of_nil in Hp]; done.
Qed.

Lemma removal_loop_reads_every_pod_witness :
  exists pods',
    remove_candidates no_scalars (cpu_pod "a" "p" 10 500) true true 3 0
      {| nst_pods := slice_of crowded; nst_infos := two_teams |} []
    = Ok ({| nst_pods := pods';
             nst_infos := (pick no_scalars (cpu_pod "a" "p" 10 500) true true two_teams crowded).1 |},
          [cpu_pod "a" "a1" 0 1000; cpu_pod "a" "a3" 1 1000]) /\ slice_ok pods' /\
    slice_pods pods' ++ [cpu_pod "a" "a1" 0 1000; cpu_pod "a" "a3" 1 1000] ≡ₚ crowded.
Proof.
  exact (removal_loop_reads_every_pod no_scalars (cpu_pod "a" "p" 10 500) true true crowded two_teams
           crowded_keyed).
Defined.

(** C7. When [SelectVictimsOnNode] succeeds, the victims and the pods it leaves
    on the node are together the node's pods, each once; the preemptor passes
    the filters with the pods that are left; and every victim was, when the loop
    over the pods came to it, of the class the preemptor may evict: for a
    preemptor whose quota is over its minimum with it, a less important pod of
    its namespace, for another with a quota a pod of another quota that, after
    the removals before, is still over its minimum, and for a preemptor without
    quota a less important pod without quota. *)
Theorem select_victims_sound isScalar sort_slice now selects runFilter state pod pods pdbs
    infos s victims n st :
  (forall f l, sort_slice f l ≡ₚ l) -> keyed pods ->
  cd_snapshot state = Some infos -> cd_prefilter state = Some s ->
  SelectVictimsOnNode isScalar sort_slice now selects runFilter state pod pods pdbs
  = (NewStatus Success, victims, n, Some st) ->
  slice_pods (nst_pods st) ++ victims ≡ₚ pods /\
  IsSuccess (runFilter (slice_pods (nst_pods st))) = true /\
  forall v, v ∈ victims ->
    evictable_at_turn isScalar infos pod (over_min infos pod s) (removal_order sort_slice now pods) v.
Proof. apply select_victims_ok. Qed.

(** A concrete [sort.Slice], and a node with room for [k] pods next to the
    preemptor. *)
Definition sort_by (lt : Pod -> Pod -> bool) (l : list Pod) : list Pod := insertion Pod lt l.

Lemma sort_by_perm lt l : sort_by lt l ≡ₚ l.
Proof. apply (@sort_perm insertion insertion_laws). Qed.

Definition room_for (k : nat) (l : list Pod) : FStatus :=
  NewStatus (if (length l <=? k)%nat then Success else Unschedulable).
Definition no_budget_counts (_ : PodDisruptionBudget) (_ : Pod) : bool := false.
Definition all_budgets_count (_ : PodDisruptionBudget) (_ : Pod) : bool := true.

(** The cycle of a pod after its [PreFilter]. *)
Definition cycle_of (live : ElasticQuotaInfos) (nominated : list (list Pod)) (pod : Pod) : CycleData :=
  (PreFilter no_scalars live (Ok nominated) pod no_state).2.

(** Team "a" runs three pods and is over its guaranteed share. *)
Definition busy_team : ElasticQuotaInfos :=
  with_pods crowded (with_quota (cpu_quota "a" 2000 4000) (with_quota (cpu_quota "b" 3000 6000) ∅)).

Definition demo_victims (selects : PodDisruptionBudget -> Pod -> bool) (runFilter : list Pod -> FStatus)
    (live : ElasticQuotaInfos) (nominated : list (list Pod)) (pods : list Pod)
    (pdbs : list PodDisruptionBudget) : FStatus * list Pod * Z * option NodeState :=
  SelectVictimsOnNode no_scalars sort_by 0 selects runFilter
    (cycle_of live nominated (cpu_pod "a" "p" 10 500)) (cpu_pod "a" "p" 10 500) pods pdbs.

(** The least important pod is the victim, the other two stay. *)
Lemma select_victims_sound_witness :
  exists st s, cd_prefilter (cycle_of busy_team [] (cpu_pod "a" "p" 10 500)) = Some s /\
  over_min busy_team (cpu_pod "a" "p" 10 500) s = true /\
  demo_victims no_budget_counts (room_for 2) busy_team [] crowded []
             = (NewStatus Success, [cpu_pod "a" "a1" 0 1000], 0, Some st) /\
  slice_pods (nst_pods st) ++ [cpu_pod "a" "a1" 0 1000] ≡ₚ crowded /\
  IsSuccess (room_for 2 (slice_pods (nst_pods st))) = true /\
  forall v, v ∈ [cpu_pod "a" "a1" 0 1000] ->
    evictable_at_turn no_scalars busy_team (cpu_pod "a" "p" 10 500)
      (over_min busy_team (cpu_pod "a" "p" 10 500) s) (removal_order sort_by 0 crowded) v.
Proof.
  eexists _, _. split; [vm_compute; reflexivity|]. split; [vm_compute; reflexivity|].
  split; [vm_compute; reflexivity|].
  eapply (select_victims_sound no_scalars sort_by 0 no_budget_counts (room_for 2)
    (cycle_of busy_team [] (cpu_pod "a" "p" 10 500)) (cpu_pod "a" "p" 10 500) crowded []
    busy_team _ [cpu_pod "a" "a1" 0 1000] 0 _ sort_by_perm crowded_keyed); vm_compute; reflexivity.
Defined.

(** Team "b" borrows from team "a": with three pods it is two over its minimum.
    The preemptor of team "a" takes back no more than that, although a node
    without room for any other pod would need all three evicted. *)
Definition borrowed : list Pod :=
  [cpu_pod "b" "b1" 20 1000; cpu_pod "b" "b2" 0 1000; cpu_pod "b" "b3" 5 1000].
Definition borrowing_team : ElasticQuotaInfos :=
  with_pods borrowed (with_quota (cpu_quota "a" 3000 4000) (with_quota (cpu_quota "b" 1000 6000) ∅)).

Example borrowing_pods_are_victims : exists st,
  demo_victims no_budget_counts (room_for 1) borrowing_team [] borrowed []
  = (NewStatus Success, [cpu_pod "b" "b3" 5 1000; cpu_pod "b" "b2" 0 1000], 0, Some st) /\
  (demo_victims no_budget_counts (room_for 0) borrowing_team [] borrowed []).1.1.1 = NewStatus Unschedulable.
Proof. eexists. vm_compute. split; reflexivity. Qed.

(** ** Victims that fail for two reasons *)

(** Team "a" uses all of its maximum, on two nodes; a more important pod of the
    team is nominated to another node. *)
Definition full_team : ElasticQuotaInfos :=
  with_pods [cpu_pod "a" "a0" 30 1000; cpu_pod "a" "a1" 0 1000]
    (with_quota (cpu_quota "a" 1000 2000) (with_quota (cpu_quota "b" 5000 6000) ∅)).
Definition nominated_elsewhere : list (list Pod) := [[cpu_pod "a" "q" 20 800]].

(** A potential victim that has to go for two reasons makes the node useless:
    when the preemptor does not fit next to it and the quota with the nominated
    pods stays exceeded, [reprievePod] removes it twice, the second removal
    fails, and [SelectVictimsOnNode] answers Error, although the preemptor fits
    on the node without the pod and its quota has room for the preemptor. *)
Theorem doubly_failing_victim_fails_node :
  let pod := cpu_pod "a" "p" 10 500 in
  let a1 := cpu_pod "a" "a1" 0 1000 in
  demo_victims no_budget_counts (room_for 0) full_team nominated_elsewhere [a1] []
  = (NewStatus CodeError, [], 0, None) /\
  IsSuccess (room_for 0 []) = true /\
  over_quota no_scalars pod (computePodResourceRequest no_scalars pod)
    (computePodResourceRequest no_scalars pod) (removed no_scalars a1 full_team) = false.
Proof. vm_compute. by split_and!. Qed.

(** A victim that violates a disruption budget is not counted when it is
    evicted for the quota alone: the node is reported with no violated budget,
    so it is preferred to nodes where preemption violates fewer budgets. *)
Theorem quota_victim_not_counted_as_violation :
  let a1 := cpu_pod "a" "a1" 0 1000 in
  let pdb := {| pdb_namespace := "a"; pdb_selector := "app=a1"; pdb_allowed := 0; pdb_disrupted := ∅ |} in
  filterPodsWithPDBViolation all_budgets_count [a1] [pdb] = ([a1], []) /\
  exists st, demo_victims all_budgets_count (room_for 5) full_team nominated_elsewhere [a1] [pdb]
             = (NewStatus Success, [a1], 0, Some st).
Proof. split; [vm_compute; reflexivity|]. eexists. vm_compute. reflexivity. Qed.

(** ** Disruption budgets *)

(** [filterPodsWithPDBViolation] splits the victims without losing or
    reordering any, and the pods it calls not violating stay, for every budget,
    within the disruptions the budget allows. *)
Theorem pdb_split_within_budgets selects pods pdbs i pdb :
  pdbs !! i = Some pdb -> 0 <= pdb_allowed pdb < 2147483648 ->
  Z.of_nat (length pods) < 2147483648 ->
  let '(violating, nonViolating) := filterPodsWithPDBViolation selects pods pdbs in
  violating ++ nonViolating ≡ₚ pods /\
  violating `sublist_of` pods /\ nonViolating `sublist_of` pods /\
  counted_by selects pdb nonViolating <= pdb_allowed pdb.
Proof.
  intros Hi Ha Hl. pose proof (filter_pdb_perm selects pods pdbs) as Hp.
  pose proof (pdb_turns_budget selects pdbs i pdb pods Hi Ha Hl) as Hb.
  unfold filterPodsWithPDBViolation in *. destruct (foldl _ _ pods) as [[al v] nv].
  destruct Hp as (? & ? & ?), Hb as (_ & _ & ?). by split_and!.
Qed.

Lemma pdb_split_within_budgets_witness :
  let pdb := {| pdb_namespace := "a"; pdb_selector := "app"; pdb_allowed := 1; pdb_disrupted := ∅ |} in
  let '(violating, nonViolating) := filterPodsWithPDBViolation all_budgets_count crowded [pdb] in
  violating ++ nonViolating ≡ₚ crowded /\
  violating `sublist_of` crowded /\ nonViolating `sublist_of` crowded /\
  counted_by all_budgets_count pdb nonViolating <= 1.
Proof.
  exact (pdb_split_within_budgets all_budgets_count crowded
    [{| pdb_namespace := "a"; pdb_selector := "app"; pdb_allowed := 1; pdb_disrupted := ∅ |}] 0 _
    eq_refl ltac:(cbn; lia) ltac:(cbn; lia)).
Defined.

(** ** Waiting for victims *)

(** [PodEligibleToPreemptOthers] refuses only a pod that never preempts, a
    cycle without [PreFilter], or a pod nominated to a node on which a pod of the
    class it may evict is terminating. *)
Theorem not_eligible_waits_for_victim state pod nominatedNodeStatus node :
  PodEligibleToPreemptOthers state pod nominatedNodeStatus node = false ->
  spec_preempt_never (pod_spec pod) = true \/ cd_prefilter state = None \/
  exists infos s pods p,
    cd_snapshot state = Some infos /\ cd_prefilter state = Some s /\ node = Some pods /\
    pstatus_nominated (pod_status pod) <> "" /\ p ∈ pods /\ pod_terminating p = true /\
    (evictable infos pod (over_min infos pod s) p \/ evictable infos pod true p).
Proof.
  unfold PodEligibleToPreemptOthers. destruct (spec_preempt_never _); [auto|].
  destruct (cd_prefilter state) as [s|]; [|auto]. case_bool_decide as Hn; [done|].
  case_bool_decide; [done|]. destruct (cd_snapshot state) as [infos|]; [|done].
  destruct node as [pods|]; [|done]. intros Hb. right; right. exists infos, s, pods.
  unfold evictable, over_min.
  destruct (infos !! pod_namespace pod) as [eq|] eqn:E;
    apply negb_false_iff, existsb_exists in Hb as (p & Hp & Hb); exists p;
    (split_and!; [done..|by apply list_elem_of_In| |]).
  - unfold blocks_quota in Hb. unfold pod_terminating. by destruct (meta_deletion _).
  - unfold blocks_quota in Hb. destruct (meta_deletion _); [|done].
    destruct (infos !! pod_namespace p) as [e|] eqn:Ep; [|done].
    apply orb_true_iff in Hb as [[H1%bool_decide_eq_true H2%bool_decide_eq_true]%andb_true_iff|Hb].
    + by right.
    + left. apply andb_true_iff in Hb as [[H1%bool_decide_eq_true H2]%andb_true_iff H3].
      apply negb_true_iff in H2. by rewrite H2.
  - unfold blocks_plain in Hb. apply andb_true_iff in Hb as [[_ Hb]%andb_true_iff _]. done.
  - unfold blocks_plain in Hb. apply andb_true_iff in Hb as [[Hb _]%andb_true_iff H2%bool_decide_eq_true].
    apply negb_true_iff, bool_decide_eq_false, eq_None_not_Some in Hb. left. by rewrite Hb.
Qed.

Definition nominated_to (node : string) (p : Pod) : Pod := {|
  pod_meta := pod_meta p; pod_spec := pod_spec p;
  pod_status := {| pstatus_phase := PodPending; pstatus_nominated := node;
                   pstatus_start_time := None; pstatus_conditions := [] |} |}.
Definition terminating (p : Pod) : Pod := {|
  pod_meta := {| meta_name := pod_name p; meta_namespace := pod_namespace p; meta_uid := pod_uid p;
    meta_labels := meta_labels (pod_meta p); meta_annotations := meta_annotations (pod_meta p);
    meta_owners := []; meta_deletion := Some 7; meta_creation := 0; meta_resource_version := 0 |};
  pod_spec := pod_spec p; pod_status := pod_status p |}.

(** The preemptor waits for its victim on the node it is nominated to. *)
Lemma not_eligible_waits_for_victim_witness :
  let pod := nominated_to "n1" (cpu_pod "a" "p" 10 500) in
  let state := cycle_of full_team [] pod in
  let pods := [terminating (cpu_pod "a" "a1" 0 1000)] in
  PodEligibleToPreemptOthers state pod (NewStatus Unschedulable) (Some pods) = false /\
  (spec_preempt_never (pod_spec pod) = true \/ cd_prefilter state = None \/
   exists infos s pods' p,
    cd_snapshot state = Some infos /\ cd_prefilter state = Some s /\ Some pods = Some pods' /\
    pstatus_nominated (pod_status pod) <> "" /\ p ∈ pods' /\ pod_terminating p = true /\
    (evictable infos pod (over_min infos pod s) p \/ evictable infos pod true p)).
Proof.
  intros pod state pods.
  assert (PodEligibleToPreemptOthers state pod (NewStatus Unschedulable) (Some pods) = false) as H
    by (vm_compute; reflexivity).
  split; [exact H|]. exact (not_eligible_waits_for_victim state pod _ (Some pods) H).
Defined.

(** ** A quota that comes late *)

(** Pods that were bound before their namespace got its quota are not in the
    quota's used vector: the informer's addition of a quota starts it empty, so
    [PreFilter] admits a pod although the running ones use the whole maximum. *)
Theorem late_quota_forgets_running_pods :
  let running := cpu_pod "a" "a1" 0 2000 in
  let no_quotas := fun _ : string => Ok [] in
  let live := addElasticQuota no_scalars (cpu_quota "a" 2000 2000)
                (on_pod_add no_scalars no_quotas running ∅) in
  (exists e, live !! "a" = Some e /\ eq_pods e = ∅ /\ get DimCPU (eq_Used e) = 0) /\
  (PreFilter no_scalars live (Ok []) (cpu_pod "a" "a2" 0 2000) no_state).1 = NewStatus Success /\
  forall phase, phase = PodRunning \/ phase = PodPending ->
    on_pod_update no_scalars no_quotas running
      {| pod_meta := pod_meta running; pod_spec := pod_spec running;
         pod_status := {| pstatus_phase := phase; pstatus_nominated := ""; pstatus_start_time := Some 0; pstatus_conditions := [] |} |}
      live = Some live.
Proof.
  split; [|split; [vm_compute; reflexivity|]].
  - eexists. split; [vm_compute; reflexivity|]. by split.
  - intros phase [-> | ->]; vm_compute; reflexivity.
Qed.
