(* ===== verification/Requeue.v ===== *)
(** * Which events retry a rejected pod

    A pod a plugin rejected stays in the scheduling queue's unschedulable pool
    until an event of the cluster matches one of those the plugin registered
    ([EventsToRegister]), or the pool is flushed after minutes. This file has
    the registrations of [CapacityScheduling], [Coscheduling] and
    [NodeResourceTopologyMatch], that of a plugin which registers nothing
    ([VaclabScheduling] among them), the scheduler's matching of events
    ([vendor/k8s.io/kubernetes/pkg/scheduler]), and the operations on the table
    of quotas with the event the scheduler sees for each. *)

From S2P Require Import Prelude.
From S2P Require Import KubeTypes.
From S2P Require Import Framework.
From S2P Require Import Resource.
From S2P Require Import ElasticQuota.
From S2P Require Import Capacity.

(** ** Events ([framework/types.go])

    An action is a set of bits of an int64. *)

Definition ActionType : Type := Z.
Definition AddAction : ActionType := 1.
Definition DeleteAction : ActionType := 2.
Definition UpdateNodeAllocatable : ActionType := 4.
Definition UpdateNodeLabel : ActionType := 8.
Definition UpdateNodeTaint : ActionType := 16.
Definition UpdateNodeCondition : ActionType := 32.
Definition UpdateNodeAnnotation : ActionType := 64.
Definition AllActions : ActionType := Z.shiftl 1 7 - 1.
Definition UpdateAction : ActionType :=
  Z.lor (Z.lor (Z.lor (Z.lor UpdateNodeAllocatable UpdateNodeLabel) UpdateNodeTaint)
    UpdateNodeCondition) UpdateNodeAnnotation.

Definition GVK : Type := string.
Definition PodGVK : GVK := "Pod".
Definition NodeGVK : GVK := "Node".
Definition WildCard : GVK := "*".

Record ClusterEvent := { ev_Resource : GVK; ev_ActionType : ActionType; ev_Label : string }.

#[export] Instance ClusterEvent_eq_dec : EqDecision ClusterEvent.
Proof. solve_decision. Defined.

(** A registered event has no label. *)
Definition on (resource : GVK) (action : ActionType) : ClusterEvent :=
  {| ev_Resource := resource; ev_ActionType := action; ev_Label := "" |}.

Definition IsWildCard (ce : ClusterEvent) : bool :=
  bool_decide (ev_Resource ce = WildCard) && bool_decide (ev_ActionType ce = AllActions).

Definition Match (ce event : ClusterEvent) : bool :=
  IsWildCard ce ||
  ((bool_decide (ev_Resource ce = WildCard) || bool_decide (ev_Resource ce = ev_Resource event)) &&
   negb (bool_decide (Z.land (ev_ActionType ce) (ev_ActionType event) = 0))).

(** What is registered for a plugin without [EventsToRegister]. *)
Definition UnrollWildCardResource : list ClusterEvent :=
  (fun gvk => on gvk AllActions) <$>
  [PodGVK; NodeGVK; "PersistentVolume"; "PersistentVolumeClaim"; "storage.k8s.io/CSINode";
   "storage.k8s.io/CSIDriver"; "storage.k8s.io/CSIStorageCapacity"; "storage.k8s.io/StorageClass";
   "PodSchedulingContext"; "ResourceClaim"; "ResourceClass"; "ResourceClaimParameters";
   "ResourceClassParameters"].

(** ** The plugins' registrations *)

Record EnqueueExtension := { ext_Name : string; ext_events : list ClusterEvent }.

Definition eqGVK : GVK := "elasticquotas.v1alpha1." +:+ "scheduling.x-k8s.io".
Definition pgGVK : GVK := "podgroups.v1alpha1." +:+ "scheduling.x-k8s.io".
Definition nrtGVK : GVK := "noderesourcetopologies.v1alpha2." +:+ "topology.node.k8s.io".
Definition bandwidthGVK : GVK := "bandwidths.v1." +:+ "networking.vaclab.org".

Module CapacityEvents.
Definition Name : string := "CapacityScheduling".
Definition EventsToRegister : list ClusterEvent :=
  [on PodGVK DeleteAction; on eqGVK AllActions].
Definition extension : EnqueueExtension := {| ext_Name := Name; ext_events := EventsToRegister |}.
End CapacityEvents.

Module CoschedulingEvents.
Definition Name : string := "Coscheduling".
Definition EventsToRegister : list ClusterEvent :=
  [on PodGVK AddAction; on pgGVK (Z.lor AddAction UpdateAction)].
Definition extension : EnqueueExtension := {| ext_Name := Name; ext_events := EventsToRegister |}.
End CoschedulingEvents.

Module TopologyEvents.
Definition Name : string := "NodeResourceTopologyMatch".
Definition EventsToRegister : list ClusterEvent :=
  [on PodGVK DeleteAction; on NodeGVK (Z.lor AddAction UpdateNodeAllocatable);
   on nrtGVK (Z.lor AddAction UpdateAction)].
Definition extension : EnqueueExtension := {| ext_Name := Name; ext_events := EventsToRegister |}.
End TopologyEvents.

(** [defaultEnqueueExtension]. *)
Definition defaultEnqueueExtension (pluginName : string) : EnqueueExtension :=
  {| ext_Name := pluginName; ext_events := UnrollWildCardResource |}.

Module VaclabEvents.
Definition Name : string := "VaclabScheduling".
Definition extension : EnqueueExtension := defaultEnqueueExtension Name.
End VaclabEvents.

(** ** The queue's decision

    None of the plugins here gives a hint function, so a match always queues the
    pod. Registering the addition of nodes registers the update of taints. *)

Definition registers (action : ActionType) (events : list ClusterEvent) : bool :=
  existsb (fun e => bool_decide (ev_Resource e = NodeGVK) &&
    negb (bool_decide (Z.land (ev_ActionType e) action = 0))) events.

Definition extension_hints (e : EnqueueExtension) : list (ClusterEvent * string) :=
  ((fun event => (event, ext_Name e)) <$> ext_events e) ++
  (if registers AddAction (ext_events e) && negb (registers UpdateNodeTaint (ext_events e))
   then [(on NodeGVK UpdateNodeTaint, ext_Name e)] else []).

Definition buildQueueingHintMap (es : list EnqueueExtension) : list (ClusterEvent * string) :=
  es ≫= extension_hints.

(** [rejectors] are the plugins that rejected the pod. *)
Definition isPodWorthRequeuing (hintMap : list (ClusterEvent * string)) (rejectors : gset string)
    (event : ClusterEvent) : bool :=
  if bool_decide (rejectors = ∅) then true
  else if IsWildCard event then true
  else existsb (fun '(eventToMatch, plugin) =>
         Match eventToMatch event && bool_decide (plugin ∈ rejectors)) hintMap.

(** ** The events of the scheduler's handlers ([internal/queue/events.go],
    [eventhandlers.go]) *)

Definition AssignedPodAdd : ClusterEvent :=
  {| ev_Resource := PodGVK; ev_ActionType := AddAction; ev_Label := "AssignedPodAdd" |}.
Definition AssignedPodUpdate : ClusterEvent :=
  {| ev_Resource := PodGVK; ev_ActionType := UpdateAction; ev_Label := "AssignedPodUpdate" |}.
Definition AssignedPodDelete : ClusterEvent :=
  {| ev_Resource := PodGVK; ev_ActionType := DeleteAction; ev_Label := "AssignedPodDelete" |}.

(** The handlers of a resource some plugin registered. *)
Definition resource_event (gvk : GVK) (action : ActionType) (label : string) : ClusterEvent :=
  {| ev_Resource := gvk; ev_ActionType := action; ev_Label := label |}.

(** ** Operations on the table of quotas and the event of each

    The plugin's handlers and the scheduler's listen to the same informers;
    the scheduler sees an update of an object that enters or leaves its filter
    as an addition or a deletion. [OpUnreserve] is the release of a pod whose
    binding failed, which the scheduler announces as a deletion. *)

Inductive QuotaOp :=
| OpReserve (pod : Pod)
| OpUnreserve (pod : Pod)
| OpPodAdd (pod : Pod)
| OpPodUpdate (oldPod newPod : Pod)
| OpPodDelete (obj : Deleted_ Pod)
| OpQuotaAdd (eq : ElasticQuota)
| OpQuotaUpdate (oldEQ newEQ : ElasticQuota)
| OpQuotaDelete (obj : Deleted_ ElasticQuota).

Definition event_of (op : QuotaOp) : option ClusterEvent :=
  match op with
  | OpReserve _ => None
  | OpUnreserve _ => Some AssignedPodDelete
  | OpPodAdd pod => if assignedPod pod then Some AssignedPodAdd else None
  | OpPodUpdate oldPod newPod =>
      match assignedPod newPod, assignedPod oldPod with
      | true, true => Some AssignedPodUpdate
      | true, false => Some AssignedPodAdd
      | false, true => Some AssignedPodDelete
      | false, false => None
      end
  | OpPodDelete (Gone _ pod) => if assignedPod pod then Some AssignedPodDelete else None
  | OpPodDelete (DeletedFinalStateUnknown _ _) => Some AssignedPodDelete
  | OpQuotaAdd _ => Some (resource_event eqGVK AddAction "ElasticquotasAdd")
  | OpQuotaUpdate _ _ => Some (resource_event eqGVK UpdateAction "ElasticquotasUpdate")
  | OpQuotaDelete _ => Some (resource_event eqGVK DeleteAction "ElasticquotasDelete")
  end.

Section Operations.
Variable isScalar : string -> bool.
Variable listQuotas : string -> result (list ElasticQuota).

(** [None] is the panic on a tombstone. *)
Definition apply_op (op : QuotaOp) (infos : ElasticQuotaInfos) : option ElasticQuotaInfos :=
  match op with
  | OpReserve pod => Some (Reserve isScalar pod infos).2
  | OpUnreserve pod => Some (Unreserve isScalar pod infos)
  | OpPodAdd pod => Some (on_pod_add isScalar listQuotas pod infos)
  | OpPodUpdate oldPod newPod => on_pod_update isScalar listQuotas oldPod newPod infos
  | OpPodDelete obj => on_pod_delete isScalar obj infos
  | OpQuotaAdd eq => Some (addElasticQuota isScalar eq infos)
  | OpQuotaUpdate oldEQ newEQ => Some (updateElasticQuota isScalar oldEQ newEQ infos)
  | OpQuotaDelete obj => deleteElasticQuota obj infos
  end.

Fixpoint run_ops (ops : list QuotaOp) (infos : ElasticQuotaInfos) : option ElasticQuotaInfos :=
  match ops with
  | [] => Some infos
  | op :: rest => infos' ← apply_op op infos; run_ops rest infos'
  end.
End Operations.

(** Whether the event of an operation retries the pods that
    [CapacityScheduling] rejected. *)
Definition retries (es : list EnqueueExtension) (op : QuotaOp) : bool :=
  match event_of op with
  | Some event =>
      isPodWorthRequeuing (buildQueueingHintMap es) {[CapacityEvents.Name]} event
  | None => false
  end.
