(* ===== verification/RequeueProofs.v ===== *)
(** * Lemmas about retried pods

    The matching of registered events, and what the operations on the table of
    quotas that retry nobody do to the decision of [PreFilter]. *)

From S2P Require Import Prelude.
From S2P Require Import KubeTypes.
From S2P Require Import Framework.
From S2P Require Import Resource.
From S2P Require Import ElasticQuota.
From S2P Require Import ElasticQuotaProofs.
From S2P Require Import Capacity.
From S2P Require Import CapacityProofs.
From S2P Require Import Requeue.

(** ** Matching *)

Lemma hint_in es e event :
  e ∈ es -> event ∈ ext_events e -> (event, ext_Name e) ∈ buildQueueingHintMap es.
Proof.
  intros He Hv. unfold buildQueueingHintMap. apply list_elem_of_bind. exists e. split; [|done].
  apply elem_of_app. left. apply list_elem_of_fmap. by exists event.
Qed.

(** A registered event retries the pods the plugin rejected. *)
Lemma worth_registered es e event event' rejectors :
  e ∈ es -> event ∈ ext_events e -> ext_Name e ∈ rejectors -> Match event event' = true ->
  isPodWorthRequeuing (buildQueueingHintMap es) rejectors event' = true.
Proof.
  intros He Hv Hr Hm. unfold isPodWorthRequeuing. case_bool_decide; [done|].
  destruct (IsWildCard event'); [done|]. apply existsb_exists. exists (event, ext_Name e).
  split; [by apply list_elem_of_In, hint_in|]. rewrite Hm. by rewrite bool_decide_eq_true_2.
Qed.

Lemma hint_named e event plugin : (event, plugin) ∈ extension_hints e -> plugin = ext_Name e.
Proof.
  intros [Hh|Hh]%elem_of_app.
  - by apply list_elem_of_fmap in Hh as (? & [= _ ->] & _).
  - destruct (_ && _); [|by apply not_elem_of_nil in Hh]. by apply list_elem_of_singleton in Hh as [= _ ->].
Qed.

(** The answer for the pods one plugin rejected. *)
Lemma worth_exact es e event :
  e ∈ es -> (forall e', e' ∈ es -> ext_Name e' = ext_Name e -> e' = e) ->
  isPodWorthRequeuing (buildQueueingHintMap es) {[ext_Name e]} event
  = IsWildCard event || existsb (fun r => Match r event) (extension_hints e).*1.
Proof.
  intros He Hu. unfold isPodWorthRequeuing. rewrite bool_decide_eq_false_2 by set_solver.
  destruct (IsWildCard event); [done|]. cbn [orb]. apply eq_true_iff_eq. rewrite !existsb_exists. split.
  - intros ([r p] & Hin & [Hm Hp]%andb_prop). apply bool_decide_eq_true, elem_of_singleton in Hp as ->.
    apply list_elem_of_In in Hin. unfold buildQueueingHintMap in Hin.
    apply list_elem_of_bind in Hin as (e' & Hh & He'). exists r. split; [|done].
    assert (e' = e) as ->; [|by apply list_elem_of_In, (list_elem_of_fmap_2 fst _ (r, ext_Name e))].
    apply Hu; [done|]. by apply hint_named in Hh.
  - intros (r & Hin & Hm). apply list_elem_of_In, list_elem_of_fmap in Hin as ([r' p] & -> & Hh).
    exists (r', p). pose proof (hint_named e _ _ Hh) as ->. cbn [fst] in Hm. split; [|by rewrite Hm, bool_decide_eq_true_2 by set_solver].
    apply list_elem_of_In, list_elem_of_bind. by exists e.
Qed.

Section Table.
Variable isScalar : string -> bool.
Variable listQuotas : string -> result (list ElasticQuota).
Abbreviation request := (computePodResourceRequest isScalar).
Abbreviation apply_op := (apply_op isScalar listQuotas).

Definition nonneg_request (p : Pod) : Prop := forall d, 0 <= get d (request p).

(** ** Runs of operations *)

(** The requests of an operation's pods do not change. *)
Definition op_known (req_of : string -> Resource) (op : QuotaOp) : Prop :=
  match op with
  | OpReserve p | OpUnreserve p | OpPodAdd p => known isScalar req_of p
  | OpPodUpdate old new => known isScalar req_of old /\ known isScalar req_of new
  | OpPodDelete obj => forall p, obj = Gone _ p -> known isScalar req_of p
  | _ => True
  end.

Lemma op_step req_of op infos infos' :
  op_known req_of op -> apply_op op infos = Some infos' -> quota_step isScalar req_of infos infos'.
Proof.
  destruct op; cbn [op_known Requeue.apply_op]; intros Hk Ha; try (injection Ha as <-).
  - by constructor.
  - by constructor.
  - by constructor.
  - exact (step_pod_update isScalar req_of listQuotas _ _ infos infos' (proj1 Hk) (proj2 Hk) Ha).
  - by eapply step_pod_delete.
  - by constructor.
  - by constructor.
  - by eapply step_quota_delete.
Qed.

(** What an operation is taken to do: requests are not negative, a pod is added
    to a namespace whose quota is known, and a pod that stays assigned stays
    pending or running. *)
Definition op_tame (infos : ElasticQuotaInfos) (op : QuotaOp) : Prop :=
  match op with
  | OpReserve p => nonneg_request p
  | OpPodAdd p => assignedPod p = true -> nonneg_request p /\ is_Some (infos !! pod_namespace p)
  | OpPodUpdate old new =>
      assignedPod new = true ->
      if assignedPod old then pod_phase new = PodRunning \/ pod_phase new = PodPending
      else nonneg_request new /\ is_Some (infos !! pod_namespace new)
  | _ => True
  end.

(** Nothing overflows: what is used and the demand of the rejected pod with the
    nominated ones fit an int64. *)
Definition roomy (noms : list Pod) (pod : Pod) (infos : ElasticQuotaInfos) : Prop :=
  forall d, (forall ns e, infos !! ns = Some e -> 0 <= get d (eq_Used e)) /\
    total (fun e => get d (eq_Used e)) infos + sumZ (fun p => get d (request p)) noms
      + get d (request pod) <= 9223372036854775807.

(** A run of operations between two scheduling attempts of a pod. *)
Inductive tame_run (req_of : string -> Resource) (noms : list Pod) (pod : Pod)
    : ElasticQuotaInfos -> list QuotaOp -> ElasticQuotaInfos -> Prop :=
| tame_nil infos : roomy noms pod infos -> tame_run req_of noms pod infos [] infos
| tame_cons infos op infos1 ops infos2 :
    roomy noms pod infos -> op_known req_of op -> op_tame infos op ->
    apply_op op infos = Some infos1 -> tame_run req_of noms pod infos1 ops infos2 ->
    tame_run req_of noms pod infos (op :: ops) infos2.

Lemma tame_run_roomy req_of noms pod infos ops infos' :
  tame_run req_of noms pod infos ops infos' -> roomy noms pod infos.
Proof. by destruct 1. Qed.

Lemma tame_run_ops req_of noms pod infos ops infos' :
  tame_run req_of noms pod infos ops infos' -> run_ops isScalar listQuotas ops infos = Some infos'.
Proof. induction 1; [done|]. cbn. by rewrite H2. Qed.

(** ** What an operation that retries nobody does *)

(** It charges one more pod to a quota, or nothing. *)
Inductive grows (infos : ElasticQuotaInfos) : ElasticQuotaInfos -> Prop :=
| grows_same : grows infos infos
| grows_charge ns e p : infos !! ns = Some e -> nonneg_request p ->
    grows infos (<[ns := set_used (reserveResource (request p) (eq_Used e))
                           (set_pods ({[pod_uid p]} ∪ eq_pods e) e)]> infos).

Lemma add_grows p ns infos : nonneg_request p ->
  grows infos (update_quota (addPodIfNotPresent isScalar p) ns infos).1.
Proof.
  intros Hp. unfold update_quota, addPodIfNotPresent, GetPodKey.
  destruct (infos !! ns) as [e|] eqn:He; [|constructor].
  case_bool_decide; [constructor|]. case_bool_decide; cbn [fst].
  - rewrite insert_id by done. constructor.
  - by apply grows_charge.
Qed.

Lemma addPod_grows p infos : nonneg_request p -> is_Some (infos !! pod_namespace p) ->
  grows infos (addPod isScalar listQuotas p infos).
Proof. intros Hp [e He]. unfold addPod. rewrite He. by apply add_grows. Qed.

Lemma capacity_retries es event :
  CapacityEvents.extension ∈ es ->
  (ev_Resource event = PodGVK /\ ev_ActionType event = DeleteAction) \/
  (ev_Resource event = eqGVK /\ ev_ActionType event ∈ [AddAction; DeleteAction; UpdateAction]) ->
  isPodWorthRequeuing (buildQueueingHintMap es) {[CapacityEvents.Name]} event = true.
Proof.
  intros He Hv.
  destruct Hv as [[Hr Ha]|[Hr Ha]].
  - apply (worth_registered es CapacityEvents.extension (on PodGVK DeleteAction));
      [done|by left|by apply elem_of_singleton|].
    unfold Match. cbn [on ev_Resource ev_ActionType]. by rewrite Hr, Ha.
  - apply (worth_registered es CapacityEvents.extension (on eqGVK AllActions));
      [done|right; by left|by apply elem_of_singleton|].
    unfold Match. cbn [on ev_Resource ev_ActionType]. rewrite Hr.
    by repeat (apply elem_of_cons in Ha as [->|Ha]; [done|]); apply not_elem_of_nil in Ha.
Qed.

Lemma silent_grows es op infos infos' :
  CapacityEvents.extension ∈ es -> retries es op = false -> op_tame infos op ->
  apply_op op infos = Some infos' -> grows infos infos'.
Proof.
  intros He Hr Ht Ha. unfold retries in Hr.
  destruct op as [p|p|p|old new|[p|p]|q|old new|obj]; cbn [event_of op_tame Requeue.apply_op] in *;
    try (rewrite capacity_retries in Hr by (first [done|left; done|right; split; [done|set_solver]]); done).
  - injection Ha as <-. unfold Reserve. pose proof (add_grows p (pod_namespace p) infos Ht).
    by destruct (update_quota _ _ _).
  - injection Ha as <-. unfold on_pod_add. destruct (assignedPod p); [|constructor].
    by apply addPod_grows; apply Ht.
  - unfold on_pod_update in Ha. destruct (assignedPod new), (assignedPod old);
      try (injection Ha as <-).
    + unfold updatePod. destruct (_ || _); [constructor|].
      destruct Ht as [->| ->]; [done|constructor|constructor].
    + by apply addPod_grows; apply Ht.
    + by rewrite capacity_retries in Hr by (first [done|left; done]).
    + constructor.
  - unfold on_pod_delete in Ha. destruct (assignedPod p).
    + by rewrite capacity_retries in Hr by (first [done|left; done]).
    + injection Ha as <-. constructor.
Qed.
(** ** What growing does to the decision of [PreFilter] *)

Hypothesis native_not_scalar : forall n, n ∈ native_names -> isScalar n = false.

Lemma joined_le (test : Pod -> bool) d l :
  (forall p, p ∈ l -> nonneg_request p) ->
  0 <= joined isScalar test d l <= sumZ (fun p => get d (request p)) l.
Proof.
  induction l as [|p l IH]; intros Hl; [unfold joined; cbn; lia|].
  rewrite joined_cons, sumZ_cons. pose proof (Hl p ltac:(by left) d).
  specialize (IH ltac:(intros q Hq; apply Hl; by right)). destruct (test p); lia.
Qed.

Lemma quotas_total_nonneg f (m : ElasticQuotaInfos) :
  (forall ns e, m !! ns = Some e -> 0 <= f e) ->
  forall ns e, m !! ns = Some e -> f e <= total f m.
Proof.
  intros Hf ns e He. rewrite <- (insert_delete_id m ns e He).
  rewrite total_insert by apply lookup_delete_eq.
  assert (0 <= total f (delete ns m)); [|lia]. unfold total. apply sumZ_nonneg.
  intros x Hx. apply list_elem_of_fmap in Hx as ([k y] & -> & Hk).
  apply elem_of_map_to_list, lookup_delete_Some in Hk as [_ Hk]. by eapply Hf.
Qed.

(** The pod has a quota and [PreFilter] rejects it. *)
Definition rejected (noms : list Pod) (pod : Pod) (infos : ElasticQuotaInfos) : Prop :=
  (forall d, 0 <= int64 (total (fun e => get d (eq_Min e)) infos)) /\
  exists e, infos !! pod_namespace pod = Some e /\
    ~ (within_max isScalar infos noms pod e /\ within_min isScalar infos noms pod).

Lemma rejected_spec nodes pod st infos :
  infos_ok isScalar infos ->
  (forall d, 0 <= int64 (total (fun e => get d (eq_Min e)) infos)) ->
  is_Some (infos !! pod_namespace pod) ->
  (PreFilter isScalar infos (Ok nodes) pod st).1 = NewStatus Unschedulable <->
  rejected (concat nodes) pod infos.
Proof using native_not_scalar.
  intros Hok Hm [e He].
  pose proof (prefilter_spec isScalar native_not_scalar infos nodes pod st e Hok He Hm) as [Hs Hd].
  unfold rejected. split.
  - intros Hu. split; [done|]. exists e. split; [done|]. intros Hw. apply Hs in Hw. by rewrite Hw in Hu.
  - intros (_ & e' & He' & Hw). simplify_eq. destruct Hd as [Hd|]; [|done]. by apply Hs in Hd.
Qed.
Lemma grows_dom infos infos' ns : grows infos infos' -> is_Some (infos !! ns) <-> is_Some (infos' !! ns).
Proof.
  intros [|ns' e p He _]; [done|]. destruct (decide (ns = ns')) as [->|Hne].
  - rewrite lookup_insert_eq, He. split; eauto.
  - by rewrite lookup_insert_ne.
Qed.

Lemma grows_min infos infos' d : grows infos infos' ->
  total (fun e => get d (eq_Min e)) infos' = total (fun e => get d (eq_Min e)) infos.
Proof. intros [|ns e p He _]; [done|]. rewrite (total_update _ _ _ _ _ He). cbn. lia. Qed.

(** The used vectors of a table with room only grow. *)
Lemma grows_used noms pod infos infos' ns e :
  infos_ok isScalar infos -> roomy noms pod infos' -> grows infos infos' -> infos !! ns = Some e ->
  exists e', infos' !! ns = Some e' /\ eq_Max e' = eq_Max e /\
    forall d, get d (eq_Used e) <= get d (eq_Used e').
Proof.
  intros Hok Hroom Hg He. destruct Hg as [|ns' e1 p He1 Hp]; [by exists e|].
  destruct (decide (ns = ns')) as [->|Hne]; [|by exists e; rewrite lookup_insert_ne].
  simplify_eq. rewrite lookup_insert_eq. eexists. split; [done|]. split; [done|]. cbn. intros d.
  destruct (Hok ns' e1 He1) as (Hi & _). pose proof (Hi d) as Hid.
  destruct (Hroom d) as [Hnn _]. specialize (Hnn ns' _ ltac:(apply lookup_insert_eq)). cbn in Hnn.
  rewrite get_reserve in * by done. specialize (Hp d).
  destruct (request_ok isScalar native_not_scalar p) as (Hr & _). specialize (Hr d).
  unfold add64, int64 in *. unfold in_int64 in *.
  pose proof (Z.mod_pos_bound (get d (eq_Used e1) + get d (request p) + 9223372036854775808) 18446744073709551616 ltac:(lia)).
  destruct (Z_lt_le_dec (get d (eq_Used e1) + get d (request p)) 9223372036854775808).
  - rewrite Z.mod_small by lia. lia.
  - rewrite <- (Z.mod_unique _ _ 1 (get d (eq_Used e1) + get d (request p) - 9223372036854775808)) in Hnn by lia.
    lia.
Qed.
Lemma grows_total noms pod infos infos' d :
  infos_ok isScalar infos -> roomy noms pod infos' -> grows infos infos' ->
  total (fun e => get d (eq_Used e)) infos <= total (fun e => get d (eq_Used e)) infos'.
Proof using native_not_scalar.
  intros Hok Hroom Hg. inversion Hg as [|ns e p He Hp Hm]; [lia|]. subst.
  destruct (grows_used noms pod infos _ ns e Hok Hroom Hg He) as (e' & He' & _ & Hle).
  rewrite lookup_insert_eq in He'. injection He' as <-.
  rewrite (total_update _ _ _ _ _ He). specialize (Hle d). lia.
Qed.

(** Nominated pods of the pod's own namespace join both sums or none, and the
    same ones before and after. *)
Definition own_nominated (noms : list Pod) (pod : Pod) : Prop :=
  forall p, p ∈ noms -> pod_namespace p = pod_namespace pod /\ nonneg_request p.

Lemma joins_all_own noms pod infos p : own_nominated noms pod -> p ∈ noms ->
  joins_all infos pod p = joins_eq infos pod p.
Proof.
  intros Ho Hp. unfold joins_all. destruct (Ho p Hp) as [-> _].
  rewrite (bool_decide_eq_false_2 (pod_namespace pod <> pod_namespace pod)) by naive_solver.
  by rewrite andb_false_r, orb_false_r.
Qed.

Lemma joins_eq_grows infos infos' pod p : grows infos infos' -> joins_eq infos' pod p = joins_eq infos pod p.
Proof.
  intros Hg. unfold joins_eq. do 2 f_equal. f_equal. apply bool_decide_ext.
  symmetry. by apply grows_dom.
Qed.

Lemma joined_ext f g d l : (forall p, p ∈ l -> f p = g p) -> joined isScalar f d l = joined isScalar g d l.
Proof.
  intros Hfg. induction l as [|p l IH]; [done|]. rewrite !joined_cons, Hfg, IH by (try (by left); intros; apply Hfg; by right).
  done.
Qed.

Lemma grows_rejected noms pod infos infos' :
  infos_ok isScalar infos -> roomy noms pod infos -> roomy noms pod infos' ->
  own_nominated noms pod -> nonneg_request pod -> grows infos infos' ->
  rejected noms pod infos -> rejected noms pod infos'.
Proof using native_not_scalar.
  intros Hok Hroom Hroom' Hown Hpod Hg (Hmin & e & He & Hw). split.
  { intros d. by rewrite (grows_min infos infos' d Hg). }
  destruct (grows_used noms pod infos infos' _ e Hok Hroom' Hg He) as (e' & He' & HMax & Hle).
  exists e'. split; [done|]. intros [HM HN]. apply Hw. clear Hw.
  assert (forall d, joined isScalar (joins_eq infos' pod) d noms = joined isScalar (joins_eq infos pod) d noms) as Hj
    by (intros d; apply joined_ext; intros; by apply joins_eq_grows).
  assert (forall m d, joined isScalar (joins_all m pod) d noms = joined isScalar (joins_eq m pod) d noms) as Hja
    by (intros m d; apply joined_ext; intros; by eapply joins_all_own).
  assert (forall d,
    0 <= joined isScalar (joins_eq infos pod) d noms <= sumZ (fun p => get d (request p)) noms) as Hb
    by (intros d; apply joined_le; intros p Hp; by apply Hown).
  assert (forall d, 0 <= get d (eq_Used e) /\ get d (eq_Used e') <= total (fun e => get d (eq_Used e)) infos') as Hu.
  { intros d. split; [by apply (proj1 (Hroom d) _ e He)|].
    apply (quotas_total_nonneg (fun e => get d (eq_Used e)) infos' (fun ns x Hx => proj1 (Hroom' d) ns x Hx) _ e' He'). }
  split.
  - intros d Hd. specialize (HM d). rewrite Hj, HMax in HM.
    etransitivity; [|apply HM].
    + destruct (Hroom' d) as [_ Hr']. specialize (Hb d). specialize (Hu d). specialize (Hle d). specialize (Hpod d).
      unfold add64. rewrite !int64_id by (unfold in_int64; rewrite ?int64_id by (unfold in_int64; lia); lia). lia.
    + destruct d; try done. destruct Hd as [?|(p & ? & Hjp & ?)]; [by left|right].
      exists p. by rewrite (joins_eq_grows infos infos').
  - intros d. specialize (HN d). rewrite !Hja, ?Hj, (grows_min infos infos' d Hg) in *.
    etransitivity; [|apply HN].
    destruct (Hroom' d) as [_ Hr']. specialize (Hb d). specialize (Hu d). specialize (Hle d). specialize (Hpod d).
    pose proof (grows_total noms pod infos infos' d Hok Hroom' Hg).
    pose proof (quotas_total_nonneg (fun e => get d (eq_Used e)) infos (fun ns x Hx => proj1 (Hroom d) ns x Hx) _ e He).
    cbv beta in *. rewrite !int64_id by (unfold in_int64; lia). lia.
Qed.

(** ** Runs that retry nobody *)

Lemma silent_run req_of es noms pod infos ops infos' :
  CapacityEvents.extension ∈ es -> own_nominated noms pod -> nonneg_request pod ->
  reachable isScalar req_of infos -> tame_run req_of noms pod infos ops infos' ->
  (forall op, op ∈ ops -> retries es op = false) ->
  rejected noms pod infos -> rejected noms pod infos' /\ reachable isScalar req_of infos'.
Proof using native_not_scalar.
  intros Hes Hown Hpod Hreach Hrun. revert Hreach.
  induction Hrun as [infos Hr|infos op infos1 ops infos2 Hr Hk Ht Ha Hrun IH]; intros Hreach Hs Hrej; [done|].
  apply IH.
  - eapply reach_step; [done|]. by eapply op_step.
  - intros op' Hop. apply Hs. by right.
  - eapply (grows_rejected noms pod infos infos1); try done; [by eapply reachable_ok|by eapply tame_run_roomy|].
    eapply silent_grows; [done| |done|done]. apply Hs. by left.
Qed.
End Table.
