(* ===== verification/RequeueClaims.v ===== *)
(** * The properties of retried pods *)

From S2P Require Import Prelude.
From S2P Require Import KubeTypes.
From S2P Require Import BandwidthTypes.
From S2P Require Import Client.
From S2P Require Import Store.
From S2P Require Import Demo.
From S2P Require Import Framework.
From S2P Require Import Resource.
From S2P Require Import ElasticQuota.
From S2P Require Import ElasticQuotaProofs.
From S2P Require Import Capacity.
From S2P Require Import CapacityProofs.
From S2P Require Import CapacityClaims.
From S2P Require Import VaclabHandle.
From S2P Require VaclabScheduling.
From S2P Require Import VaclabProofs.
From S2P Require Import Requeue.
From S2P Require Import RequeueProofs.

(** ** Which events retry *)

(** The plugins of a profile have different names. *)
Definition named_apart (es : list EnqueueExtension) : Prop :=
  forall e e', e ∈ es -> e' ∈ es -> ext_Name e = ext_Name e' -> e = e'.

Lemma named_apart_nodup es : NoDup (ext_Name <$> es) -> named_apart es.
Proof.
  intros Hn e e' [i Hi]%list_elem_of_lookup [j Hj]%list_elem_of_lookup He.
  assert (i = j) as ->; [|congruence].
  eapply NoDup_lookup; [exact Hn|rewrite list_lookup_fmap, Hi; done|rewrite list_lookup_fmap, Hj; cbn; by rewrite He].
Qed.

(** The actions of an event are bits of [AllActions]. *)
Definition some_action (event : ClusterEvent) (actions : ActionType) : Prop :=
  Z.land actions (ev_ActionType event) <> 0.

Lemma match_on gvk action event : gvk <> WildCard ->
  Match (on gvk action) event = true <-> ev_Resource event = gvk /\ some_action event action.
Proof.
  intros Hg. unfold Match, IsWildCard, some_action. cbn [on ev_Resource ev_ActionType].
  rewrite (bool_decide_eq_false_2 (gvk = WildCard)) by done. cbn [andb orb].
  rewrite andb_true_iff, negb_true_iff, bool_decide_eq_true, bool_decide_eq_false. naive_solver.
Qed.

Ltac retry_events He Hn :=
  rewrite worth_exact by (first [exact He|intros ? ? ?; by apply Hn]);
  rewrite orb_true_iff; cbn [extension_hints ext_events ext_Name]; split;
  [intros [Hw|Hx%existsb_exists]; [by left|right];
     destruct Hx as (r & Hin%list_elem_of_In & Hm);
     vm_compute in Hin;
     repeat (apply elem_of_cons in Hin as [->|Hin]; [apply match_on in Hm; [tauto|discriminate]|]);
     by apply not_elem_of_nil in Hin
  |intros [Hw|Hx]; [by left|right; apply existsb_exists];
     repeat (destruct Hx as [Hx|Hx]);
     (eexists; split; [|apply match_on; [|exact Hx]; discriminate]; vm_compute; tauto)].

(** The registrations, one by one: a pod that one plugin alone rejected is
    retried, but for the wildcard events, exactly by deletions of pods and any
    change of a quota for CapacityScheduling; by additions of pods and additions
    and updates of pod groups for Coscheduling; by deletions of pods, additions
    of nodes, changes of what a node allocates or of its taints, and additions
    and updates of topologies for NodeResourceTopologyMatch. *)
Theorem retry_table es event :
  named_apart es ->
  CapacityEvents.extension ∈ es -> CoschedulingEvents.extension ∈ es -> TopologyEvents.extension ∈ es ->
  let retried name := isPodWorthRequeuing (buildQueueingHintMap es) {[name]} event = true in
  (retried CapacityEvents.Name <-> IsWildCard event = true \/
     ev_Resource event = PodGVK /\ some_action event DeleteAction \/
     ev_Resource event = eqGVK /\ some_action event AllActions) /\
  (retried CoschedulingEvents.Name <-> IsWildCard event = true \/
     ev_Resource event = PodGVK /\ some_action event AddAction \/
     ev_Resource event = pgGVK /\ some_action event (Z.lor AddAction UpdateAction)) /\
  (retried TopologyEvents.Name <-> IsWildCard event = true \/
     ev_Resource event = PodGVK /\ some_action event DeleteAction \/
     ev_Resource event = NodeGVK /\ some_action event (Z.lor AddAction UpdateNodeAllocatable) \/
     ev_Resource event = nrtGVK /\ some_action event (Z.lor AddAction UpdateAction) \/
     ev_Resource event = NodeGVK /\ some_action event UpdateNodeTaint).
Proof.
  intros Hn H1 H2 H3. cbv zeta. split; [|split].
  - change CapacityEvents.Name with (ext_Name CapacityEvents.extension). retry_events H1 Hn.
  - change CoschedulingEvents.Name with (ext_Name CoschedulingEvents.extension). retry_events H2 Hn.
  - change TopologyEvents.Name with (ext_Name TopologyEvents.extension). retry_events H3 Hn.
Qed.

(** A profile with the plugins of this repository that filter. *)
Definition demo_profile : list EnqueueExtension :=
  [CapacityEvents.extension; CoschedulingEvents.extension; TopologyEvents.extension;
   VaclabEvents.extension; defaultEnqueueExtension "NetworkOverhead"].

Lemma demo_profile_apart : named_apart demo_profile.
Proof. apply named_apart_nodup. apply (bool_decide_unpack _). vm_compute. exact I. Qed.

Lemma retry_table_witness :
  isPodWorthRequeuing (buildQueueingHintMap demo_profile) {[CapacityEvents.Name]} AssignedPodDelete = true /\
  isPodWorthRequeuing (buildQueueingHintMap demo_profile) {[CoschedulingEvents.Name]} AssignedPodDelete = false.
Proof.
  pose proof (retry_table demo_profile AssignedPodDelete demo_profile_apart
    ltac:(by left) ltac:(right; by left) ltac:(do 2 right; by left)) as (H1 & H2 & _).
  split; [apply H1; right; left; by split|].
  apply not_true_iff_false. intros Hr%H2.
  destruct Hr as [Hr|[[_ Hr]|[Hr _]]]; [by vm_compute in Hr|by vm_compute in Hr|by vm_compute in Hr].
Defined.

(** ** Rejections of CapacityScheduling *)

(** C16. A rejection by CapacityScheduling is lifted only by an event that retries
    the pod, under these conditions. Between two attempts to schedule a pod the
    table of quotas goes through a sequence of reservations, releases, pod
    events and quota events in which requests are neither negative nor changed,
    what is used and asked for stays an int64, pods are added only where the
    quota is already known, and assigned pods that are updated stay pending or
    running ([tame_run]); the minima are not negative in total; the nominated
    pods are the same at both attempts and of the pod's own namespace
    ([own_nominated]); and the plugin is in the profile. If [PreFilter] rejected
    the pod before and admits it after, then one of the operations came with an
    event for which the queue retries the pods the plugin rejected. Without the
    conditions this may fail: see [rejection_lifted_in_silence]. *)
Theorem rejection_lifted_by_event isScalar listQuotas req_of es nodes pod st st' infos ops infos' :
  (forall n, n ∈ native_names -> isScalar n = false) ->
  CapacityEvents.extension ∈ es ->
  reachable isScalar req_of infos ->
  (forall d, 0 <= int64 (total (fun e => get d (eq_Min e)) infos)) ->
  own_nominated isScalar (concat nodes) pod -> nonneg_request isScalar pod ->
  tame_run isScalar listQuotas req_of (concat nodes) pod infos ops infos' ->
  (PreFilter isScalar infos (Ok nodes) pod st).1 = NewStatus Unschedulable ->
  (PreFilter isScalar infos' (Ok nodes) pod st').1 = NewStatus Success ->
  exists op, op ∈ ops /\ retries es op = true.
Proof.
  intros Hn Hes Hreach Hmin Hown Hpod Hrun Hrej Hadm.
  destruct (decide (Exists (fun op => retries es op = true) ops)) as [Hex|Hex].
  { by apply Exists_exists in Hex. }
  exfalso.
  assert (is_Some (infos !! pod_namespace pod)) as Hns.
  { apply not_eq_None_Some. intros H0. unfold PreFilter in Hrej.
    by rewrite clone_infos_id, H0 in Hrej. }
  destruct (silent_run isScalar listQuotas Hn req_of es (concat nodes) pod infos ops infos') as [Hrej' Hreach'];
    try done.
  - intros op Hop. apply not_true_iff_false. intros Hr. apply Hex, Exists_exists. eauto.
  - eapply rejected_spec; [done|by eapply reachable_ok|done|done|exact Hrej].
  - assert ((PreFilter isScalar infos' (Ok nodes) pod st').1 = NewStatus Unschedulable) as Hu.
    { destruct Hrej' as (Hm' & e' & He' & Hw').
      eapply rejected_spec; [done|by eapply reachable_ok|done|eauto|]. split; [done|eauto]. }
    by rewrite Hadm in Hu.
Qed.

(** [roomy] on a concrete table. *)
Lemma roomy_list isScalar noms pod infos :
  (forall d, Forall (fun e => 0 <= get d (eq_Used e)) ((map_to_list infos).*2) /\
    total (fun e => get d (eq_Used e)) infos
      + sumZ (fun p => get d (computePodResourceRequest isScalar p)) noms
      + get d (computePodResourceRequest isScalar pod) <= 9223372036854775807) ->
  roomy isScalar noms pod infos.
Proof.
  intros H d. destruct (H d) as [Hf Ht]. split; [|done]. intros ns e He.
  rewrite Forall_forall in Hf. apply Hf, list_elem_of_fmap. exists (ns, e).
  split; [done|]. by apply elem_of_map_to_list.
Qed.

Definition waiting_pod : Pod := cpu_pod "a" "a2" 0 3500.
Definition a1_deleted : ElasticQuotaInfos :=
  default ∅ (apply_op no_scalars (fun _ => Ok []) (OpPodDelete (Gone _ (cpu_pod "a" "a1" 0 1000))) two_teams).

Ltac concrete_room :=
  apply roomy_list; intros [| | | |n];
    (split; [vm_compute; repeat constructor; discriminate|vm_compute; discriminate]).

Lemma rejection_lifted_by_event_witness :
  (PreFilter no_scalars two_teams (Ok []) waiting_pod no_state).1 = NewStatus Unschedulable /\
  (PreFilter no_scalars a1_deleted (Ok []) waiting_pod no_state).1 = NewStatus Success /\
  exists op, op ∈ [OpPodDelete (Gone _ (cpu_pod "a" "a1" 0 1000))] /\ retries demo_profile op = true.
Proof.
  split; [vm_compute; reflexivity|]. split; [vm_compute; reflexivity|].
  apply (rejection_lifted_by_event no_scalars (fun _ => Ok []) demo_req demo_profile [] waiting_pod
           no_state no_state two_teams [OpPodDelete (Gone _ (cpu_pod "a" "a1" 0 1000))] a1_deleted).
  - exact no_scalars_native.
  - by left.
  - exact two_teams_reachable.
  - intros [| | | |n]; vm_compute; discriminate.
  - intros p Hp. by apply not_elem_of_nil in Hp.
  - intros [| | | |n]; vm_compute; discriminate.
  - eapply tame_cons; [concrete_room|intros p [= <-]; vm_compute; reflexivity|exact I|vm_compute; reflexivity|].
    apply tame_nil. concrete_room.
  - vm_compute. reflexivity.
  - vm_compute. reflexivity.
Defined.

(** *** What the theorem above leaves out *)

Module Silent.
(** Team "b" just under its minimum, with a nominated pod counted on top. *)
Definition team_b_nearly_full : ElasticQuotaInfos :=
  with_pods [cpu_pod "a" "a1" 0 1000; cpu_pod "b" "b1" 0 2900]
    (with_quota (cpu_quota "a" 6000 9000) (with_quota (cpu_quota "b" 3000 6000) ∅)).
Definition b_nominated : list (list Pod) := [[cpu_pod "b" "b2" 0 2500]].
Definition b_reserved : QuotaOp := OpReserve (cpu_pod "b" "b3" 0 200).

(** Team "b" has a quota the informer has not delivered yet. *)
Definition only_team_a : ElasticQuotaInfos :=
  with_pods [cpu_pod "a" "a1" 0 1000] (with_quota (cpu_quota "a" 2000 9000) ∅).
Definition listed (ns : string) : result (list ElasticQuota) :=
  if bool_decide (ns = "b") then Ok [cpu_quota "b" 3000 6000] else Ok [].
Definition first_of_b : QuotaOp := OpPodAdd (cpu_pod "b" "b1" 0 100).

(** A node stops reporting and its pods become unknown. *)
Definition unknown (p : Pod) : Pod := {|
  pod_meta := pod_meta p; pod_spec := pod_spec p;
  pod_status := {| pstatus_phase := PodUnknown; pstatus_nominated := ""; pstatus_start_time := Some 0;
                   pstatus_conditions := [] |} |}.
Definition a1_unknown : QuotaOp :=
  OpPodUpdate (cpu_pod "a" "a1" 0 1000) (unknown (cpu_pod "a" "a1" 0 1000)).

Definition a_pod : Pod := cpu_pod "a" "a2" 0 3000.

(** [PreFilter]'s answers for a pod before and after an operation. *)
Definition answers (infos : ElasticQuotaInfos) (nodes : list (list Pod)) (pod : Pod) (op : QuotaOp)
    : Code * option Code :=
  (st_code (PreFilter no_scalars infos (Ok nodes) pod no_state).1,
   (fun infos' => st_code (PreFilter no_scalars infos' (Ok nodes) pod no_state).1)
     <$> apply_op no_scalars listed op infos).
End Silent.
Import Silent.

(** Three operations turn a rejection by CapacityScheduling into an admission
    with no event that retries the rejected pod, which then waits for the flush
    of the queue: a reservation in another namespace that takes it over its
    minimum, so that its nominated pods no longer count; the first pod assigned
    in a namespace whose quota the plugin had not heard of, which adds that
    quota's minimum to the total; and a pod whose phase becomes unknown. *)
Theorem rejection_lifted_in_silence :
  (answers team_b_nearly_full b_nominated a_pod b_reserved = (Unschedulable, Some Success) /\
   retries demo_profile b_reserved = false) /\
  (answers only_team_a [] a_pod first_of_b = (Unschedulable, Some Success) /\
   retries demo_profile first_of_b = false) /\
  (answers two_teams [] waiting_pod a1_unknown = (Unschedulable, Some Success) /\
   retries demo_profile a1_unknown = false).
Proof. vm_compute. auto. Qed.

(** ** Rejections of VaclabScheduling *)

Lemma vaclab_deaf es action label :
  named_apart es -> VaclabEvents.extension ∈ es ->
  isPodWorthRequeuing (buildQueueingHintMap es) {[VaclabEvents.Name]}
    (resource_event bandwidthGVK action label) = false.
Proof.
  intros Hn He. change VaclabEvents.Name with (ext_Name VaclabEvents.extension).
  rewrite worth_exact by (first [exact He|intros ? ? ?; by apply Hn]).
  apply orb_false_intro; [done|]. apply not_true_iff_false. intros Hx%existsb_exists.
  destruct Hx as (r & Hin%list_elem_of_In & Hm). vm_compute in Hin.
  repeat (apply elem_of_cons in Hin as [->|Hin];
    [apply match_on in Hm as [Hg _]; [by vm_compute in Hg|discriminate]|]).
  by apply not_elem_of_nil in Hin.
Qed.

(** A node whose 1000 Mbps are half taken by a pod with a sibling
    elsewhere; the pod is deleted; the operator
    accounts for it. *)
Definition busy_pod : Pod :=
  mk_pod "default" "a" "uid-a" "n1" PodRunning (Clusters.annotated "500") [Clusters.web].
Definition busy : Store :=
  Clusters.synced (mk_store [mk_node "n1"; mk_node "n2"] [busy_pod; Clusters.web_pod "b" "n2"]
    [Clusters.node_bw "n1" [Clusters.request "a" 500]] []) "n1".
Definition pod_gone : Store := {|
  st_nodes := st_nodes busy; st_pods := delete (pod_key busy_pod) (st_pods busy); st_bws := st_bws busy; st_clock := st_clock busy;
  st_version := st_version busy; st_faults := []; st_log := st_log busy |}.
Definition accounted : Store := Clusters.synced pod_gone "n1".
Definition wants_600 : VaclabScheduling.preFilterState := {|
  VaclabScheduling.pf_ulMbps := 600; VaclabScheduling.pf_dlMbps := 600;
  VaclabScheduling.pf_ownerUID := "rs-1"; VaclabScheduling.pf_ownerKind := "ReplicaSet";
  VaclabScheduling.pf_hasWorkload := true |}.

(** C34. The rejection of a node by VaclabScheduling's [Filter] is lifted only by a
    change of that node's Bandwidth object, and no event on Bandwidth objects
    retries the pods the plugin rejected: the plugin registers nothing, and the
    default registration covers built-in kinds only. A pod rejected for want of
    bandwidth is retried when some pod is deleted, before the operator has
    accounted for it, and then not when the operator frees the bandwidth. *)
Theorem freed_bandwidth_retries_nobody {W} `{!Client W} {view : W -> View} `{!ClientLaws W view}
    {healthy : W -> Prop} `{!HealthLaws W view healthy} es s node w w' :
  named_apart es -> VaclabEvents.extension ∈ es -> healthy w -> healthy w' ->
  (VaclabScheduling.Filter (Some s) node w).1 = NewStatus Unschedulable ->
  (VaclabScheduling.Filter (Some s) node w').1 = NewStatus Success ->
  v_bws (view w) !! node <> v_bws (view w') !! node /\
  (forall action label,
     isPodWorthRequeuing (buildQueueingHintMap es) {[VaclabEvents.Name]}
       (resource_event bandwidthGVK action label) = false) /\
  isPodWorthRequeuing (buildQueueingHintMap es) {[VaclabEvents.Name]} AssignedPodDelete = true.
Proof.
  intros Hn He Hw Hw' Hu Hs. split; [|split; [intros; by apply vaclab_deaf|]].
  - intros Heq. rewrite (filter_healthy s node w Hw) in Hu. rewrite (filter_healthy s node w' Hw') in Hs.
    unfold available in Hu, Hs. rewrite Heq in Hu. by rewrite Hs in Hu.
  - apply (worth_registered es VaclabEvents.extension (on PodGVK AllActions));
      [done|vm_compute; by left|by apply elem_of_singleton|done].
Qed.

Lemma freed_bandwidth_retries_nobody_witness :
  (VaclabScheduling.Filter (Some wants_600) "n1" busy).1 = NewStatus Unschedulable /\
  (VaclabScheduling.Filter (Some wants_600) "n1" pod_gone).1 = NewStatus Unschedulable /\
  (VaclabScheduling.Filter (Some wants_600) "n1" accounted).1 = NewStatus Success /\
  v_bws (store_view pod_gone) !! "n1" <> v_bws (store_view accounted) !! "n1" /\
  (forall action label,
     isPodWorthRequeuing (buildQueueingHintMap demo_profile) {[VaclabEvents.Name]}
       (resource_event bandwidthGVK action label) = false) /\
  isPodWorthRequeuing (buildQueueingHintMap demo_profile) {[VaclabEvents.Name]} AssignedPodDelete = true.
Proof.
  do 3 (split; [vm_compute; reflexivity|]).
  apply (freed_bandwidth_retries_nobody (view := store_view) (healthy := store_healthy)
           demo_profile wants_600 "n1" pod_gone accounted).
  - exact demo_profile_apart.
  - do 3 right. by left.
  - vm_compute. reflexivity.
  - vm_compute. reflexivity.
  - vm_compute. reflexivity.
  - vm_compute. reflexivity.
Defined.
