(* ===== verification/Coscheduling.v ===== *)
(** * Scheduling pods in gangs

    The Coscheduling plugin: [scheduler-plugins/pkg/coscheduling/coscheduling.go],
    its manager [pkg/coscheduling/core/core.go] and the pod group helpers of
    [pkg/util/podgroup.go].

    The manager's state is its two caches of group names ([go-cache], with the
    time of the call as an argument). What it asks others is a parameter:
    [getPG] is the API client's [Get] of a group ([None] for any error),
    [listPods] the lister's pods of a namespace with a group label, and [charge]
    the request the framework's [NodeInfo] counts for a pod
    ([calculateResource]). The effects on waiting pods are returned as the list
    of the pods that are allowed or rejected. *)

From Stdlib Require Import SpecFloat.
From S2P Require Import Prelude.
From S2P Require Import GoFloat.
From S2P Require Import KubeTypes.
From S2P Require Import Framework.
From S2P Require Import Resource.
From S2P Require Import ElasticQuota.
From S2P Require Import Capacity.
From S2P Require Import Preemption.

(** ** Pod groups *)

Definition PodGroupLabel : string := "scheduling.x-k8s.io/pod-group".

Record PodGroup := {
  pg_name : string;
  pg_namespace : string;
  pg_created : Z;
  pg_min_member : Z;                       (* int32 *)
  pg_min_resources : option ResourceList;  (* None: nil *)
  pg_schedule_timeout : option Z;          (* seconds, int32 *)
}.

Definition GetPodGroupLabel (pod : Pod) : string :=
  default "" (meta_labels (pod_meta pod) !! PodGroupLabel).

Definition full_name (ns name : string) : string := ns +:+ "/" +:+ name.

Definition GetPodGroupFullName (pod : Pod) : string :=
  if bool_decide (GetPodGroupLabel pod = "") then ""
  else full_name (pod_namespace pod) (GetPodGroupLabel pod).

Definition GetNamespacedName (pod : Pod) : string := full_name (pod_namespace pod) (pod_name pod).

(** Durations are in nanoseconds. *)
Definition Second : Z := 1000000000.
Definition DefaultWaitTime : Z := 60 * Second.

Definition GetWaitTimeDuration (pg : option PodGroup) (scheduleTimeout : option Z) : Z :=
  match pg ≫= pg_schedule_timeout with
  | Some s => s * Second
  | None =>
      match scheduleTimeout with
      | Some t => if bool_decide (t <> 0) then t else DefaultWaitTime
      | None => DefaultWaitTime
      end
  end.

(** ** Expiring caches

    An expiration of 0 means never. [Add] keeps an entry that has not expired. *)
Record Cache := { cache_default : Z; cache_items : gmap string Z }.

Definition new_cache (d : Z) : Cache := {| cache_default := d; cache_items := ∅ |}.

Definition cache_get (now : Z) (k : string) (c : Cache) : bool :=
  match cache_items c !! k with
  | Some e => negb ((0 <? e) && (e <? now))
  | None => false
  end.

Definition cache_add (now : Z) (k : string) (d : Z) (c : Cache) : Cache :=
  if cache_get now k c then c
  else
    let d := if bool_decide (d = 0) then cache_default c else d in
    {| cache_default := cache_default c;
       cache_items := <[k := if 0 <? d then now + d else 0]> (cache_items c) |}.

Definition cache_delete (k : string) (c : Cache) : Cache :=
  {| cache_default := cache_default c; cache_items := delete k (cache_items c) |}.

(** ** The manager *)

Record PodGroupManager := { permittedPG : Cache; backedOffPG : Cache }.

Definition NewPodGroupManager : PodGroupManager :=
  {| permittedPG := new_cache (3 * Second); backedOffPG := new_cache (10 * Second) |}.

Definition BackoffPodGroup (now : Z) (name : string) (backoff : Z) (m : PodGroupManager)
    : PodGroupManager :=
  if bool_decide (backoff = 0) then m
  else {| permittedPG := permittedPG m; backedOffPG := cache_add now name backoff (backedOffPG m) |}.

Definition DeletePermittedPodGroup (name : string) (m : PodGroupManager) : PodGroupManager :=
  {| permittedPG := cache_delete name (permittedPG m); backedOffPG := backedOffPG m |}.

(** The manager's own status type. *)
Inductive PermitStatus := PodGroupNotSpecified | PodGroupNotFound | PermitSuccess | PermitWait.

(** What the snapshot holds of a node. *)
Record NodeInfo := {
  ni_has_node : bool;
  ni_pods : list Pod;
  ni_requested : Resource;
  ni_allocatable : Resource;
}.

Section Coscheduling.
Variable getPG : string -> string -> option PodGroup.
Variable listPods : string -> string -> result (list Pod).
Variable charge : Pod -> Resource.

Definition GetPodGroup (pod : Pod) : string * option PodGroup :=
  let pgName := GetPodGroupLabel pod in
  if bool_decide (pgName = "") then ("", None)
  else (full_name (pod_namespace pod) pgName, getPG (pod_namespace pod) pgName).

Definition GetCreationTimestamp (pod : Pod) (ts : Z) : Z :=
  let pgName := GetPodGroupLabel pod in
  if bool_decide (pgName = "") then ts
  else match getPG (pod_namespace pod) pgName with Some pg => pg_created pg | None => ts end.

(** Whether a pod of the snapshot is an assigned member of the group. *)
Definition assigned_member (name ns : string) (p : Pod) : bool :=
  bool_decide (GetPodGroupLabel p = name) && bool_decide (pod_namespace p = ns) &&
  negb (bool_decide (pod_node p = "")).

Definition CalculateAssignedPods (nodes : result (list NodeInfo)) (name ns : string) : Z :=
  match nodes with
  | Err _ => 0
  | Ok nodeInfos =>
      Z.of_nat (length (List.filter (assigned_member name ns) (nodeInfos ≫= ni_pods)))
  end.

(** *** Resources *)

(** [NodeInfo.RemovePod] on a clone, whose slice is its own; an error leaves it
    as it was. *)
Definition node_remove (p : Pod) (n : NodeInfo) : NodeInfo :=
  match RemovePod p (slice_of (ni_pods n)) with
  | Err _ => n
  | Ok s =>
      let r := ni_requested n in
      {| ni_has_node := ni_has_node n; ni_pods := slice_pods s;
         ni_requested := scalars_with sub64 (charge p)
           {| MilliCPU := MilliCPU r -! MilliCPU (charge p);
              Memory := Memory r -! Memory (charge p);
              EphemeralStorage := EphemeralStorage r -! EphemeralStorage (charge p);
              AllowedPodNumber := AllowedPodNumber r; ScalarResources := ScalarResources r |};
         ni_allocatable := ni_allocatable n |}
  end.

Definition node_without (desired : string) (info : NodeInfo) : NodeInfo :=
  foldl (fun n p => if bool_decide (GetPodGroupFullName p = desired) then node_remove p n else n)
    info (ni_pods info).

Definition getNodeResource (info : NodeInfo) (desired : string) : Resource :=
  let nodeClone := node_without desired info in
  let allocatable := ni_allocatable nodeClone in
  let requested := ni_requested nodeClone in
  {| MilliCPU := MilliCPU allocatable -! MilliCPU requested;
     Memory := Memory allocatable -! Memory requested;
     EphemeralStorage := EphemeralStorage allocatable -! EphemeralStorage requested;
     AllowedPodNumber := AllowedPodNumber allocatable -! Z.of_nat (length (ni_pods nodeClone));
     ScalarResources := map_imap (fun k a =>
       Some match ScalarResources requested !! k with None => a | Some r => a -! r end)
       (ScalarResources allocatable) |}.

(** One node's part of a request: the loop visits every name once, and forgets
    it when the node covers what is left of it. *)
Definition take_from (nodeResource request : ResourceList) : ResourceList :=
  map_imap (fun name quant =>
    let quant := quant - default 0 (nodeResource !! name) in
    if quant <=? 0 then None else Some quant) request.

Fixpoint CheckClusterResource (nodeList : list NodeInfo) (request : ResourceList) (desired : string)
    : result unit :=
  match nodeList with
  | [] => Err (OtherError "resource gap")
  | info :: nodeList =>
      if negb (ni_has_node info) then CheckClusterResource nodeList request desired
      else
        let request := take_from (ResourceListOf (getNodeResource info desired)) request in
        if bool_decide (request = ∅) then Ok tt else CheckClusterResource nodeList request desired
  end.

(** *** Extension points of the manager *)

Variable scheduleTimeout : Z.

Definition PreFilter (now : Z) (nodes : result (list NodeInfo)) (pod : Pod) (m : PodGroupManager)
    : result unit * PodGroupManager :=
  let '(pgFullName, pg) := GetPodGroup pod in
  match pg with
  | None => (Ok tt, m)
  | Some pg =>
      if cache_get now pgFullName (backedOffPG m)
      then (Err (OtherError (pgFullName +:+ " failed recently")), m)
      else
        match listPods (pod_namespace pod) (GetPodGroupLabel pod) with
        | Err e => (Err e, m)
        | Ok pods =>
            if Z.of_nat (length pods) <? pg_min_member pg
            then (Err (OtherError "cannot find enough sibling pods"), m)
            else
              match pg_min_resources pg with
              | None => (Ok tt, m)
              | Some minResources =>
                  if cache_get now pgFullName (permittedPG m) then (Ok tt, m)
                  else
                    match nodes with
                    | Err e => (Err e, m)
                    | Ok nodes =>
                        let minResources :=
                          <[ResourcePods := NewQuantity (pg_min_member pg)]> minResources in
                        match CheckClusterResource nodes minResources pgFullName with
                        | Err e => (Err e, m)
                        | Ok _ =>
                            (Ok tt,
                             {| permittedPG := cache_add now pgFullName scheduleTimeout (permittedPG m);
                                backedOffPG := backedOffPG m |})
                        end
                    end
              end
        end
  end.

(** The status, and whether the siblings are to be activated ([activate] is what
    the cycle state says before the call). *)
Definition manager_permit (nodes : result (list NodeInfo)) (pod : Pod) (activate : bool)
    : PermitStatus * bool :=
  let '(pgFullName, pg) := GetPodGroup pod in
  if bool_decide (pgFullName = "") then (PodGroupNotSpecified, activate)
  else
    match pg with
    | None => (PodGroupNotFound, activate)
    | Some pg =>
        let assigned := CalculateAssignedPods nodes (pg_name pg) (pg_namespace pg) in
        if pg_min_member pg <=? int32 (int32 assigned + 1) then (PermitSuccess, activate)
        else if bool_decide (assigned = 0) then (PermitWait, true) else (PermitWait, activate)
    end.

(** [toActivate] is the cycle's map of pods to activate, when it has one. *)
Definition drop_first (uid : string) (pods : list Pod) : list Pod :=
  match list_find (fun p => pod_uid p = uid) pods with
  | Some (i, _) => take i pods ++ drop (S i) pods
  | None => pods
  end.

Definition ActivateSiblings (pod : Pod) (activate : bool) (toActivate : option (gmap string Pod))
    : option (gmap string Pod) :=
  let pgName := GetPodGroupLabel pod in
  if bool_decide (pgName = "") then toActivate
  else if negb activate then toActivate
  else
    match listPods (pod_namespace pod) pgName with
    | Err _ => toActivate
    | Ok pods =>
        (fun m => foldl (fun m p => <[GetNamespacedName p := p]> m) m (drop_first (pod_uid pod) pods))
          <$> toActivate
    end.

(** ** The plugin *)

Definition Less (prio1 : Pod) (ts1 : Z) (prio2 : Pod) (ts2 : Z) : bool :=
  let p1 := PodPriority prio1 in
  let p2 := PodPriority prio2 in
  if bool_decide (p1 <> p2) then p2 <? p1
  else
    let t1 := GetCreationTimestamp prio1 ts1 in
    let t2 := GetCreationTimestamp prio2 ts2 in
    if bool_decide (t1 = t2) then String.ltb (GetNamespacedName prio1) (GetNamespacedName prio2)
    else t1 <? t2.

Definition plugin_prefilter (now : Z) (nodes : result (list NodeInfo)) (pod : Pod)
    (m : PodGroupManager) : FStatus * PodGroupManager :=
  let '(r, m) := PreFilter now nodes pod m in
  match r with
  | Ok _ => (NewStatus Success, m)
  | Err _ => (NewStatus UnschedulableAndUnresolvable, m)
  end.

(** The single-precision constant 0.1. *)
Definition tenth : spec_float := S754_finite false 13421773 (-27).

(** A tenth or less of the quorum is missing. *)
Definition small_gap (minMember assigned : Z) : bool :=
  SFleb (f32_div (float32 (minMember - assigned)) (float32 minMember)) tenth.

(** The waiting pods of a group, found by namespace and label. *)
Definition waiting_of (ns name : string) (waiting : list Pod) : list Pod :=
  List.filter (fun p => bool_decide (pod_namespace p = ns) && bool_decide (GetPodGroupLabel p = name))
    waiting.

Variable pgBackoff : option Z.

(** The status, the waiting pods it rejects, and the manager. *)
Definition PostFilter (now : Z) (nodes : result (list NodeInfo)) (waiting : list Pod) (pod : Pod)
    (m : PodGroupManager) : FStatus * list Pod * PodGroupManager :=
  let '(pgName, pg) := GetPodGroup pod in
  match pg with
  | None => (NewStatus Unschedulable, [], m)
  | Some pg =>
      let assigned := CalculateAssignedPods nodes (pg_name pg) (pod_namespace pod) in
      if pg_min_member pg <=? assigned then (NewStatus Unschedulable, [], m)
      else if small_gap (pg_min_member pg) assigned then (NewStatus Unschedulable, [], m)
      else
        let rejected := waiting_of (pod_namespace pod) (pg_name pg) waiting in
        let m :=
          match pgBackoff with
          | Some backoff =>
              match listPods (pod_namespace pod) (GetPodGroupLabel pod) with
              | Ok pods =>
                  if pg_min_member pg <=? Z.of_nat (length pods)
                  then BackoffPodGroup now pgName backoff m else m
              | Err _ => m
              end
          | None => m
          end in
        (NewStatus Unschedulable, rejected, DeletePermittedPodGroup pgName m)
  end.

(** What one call of [Permit] does. *)
Record PermitOutcome := {
  po_status : FStatus;
  po_wait : Z;
  po_activate : bool;
  po_to_activate : option (gmap string Pod);
  po_allowed : list Pod;
}.

Definition Permit (nodes : result (list NodeInfo)) (waiting : list Pod) (pod : Pod) (activate : bool)
    (toActivate : option (gmap string Pod)) : PermitOutcome :=
  let '(s, activate) := manager_permit nodes pod activate in
  match s with
  | PodGroupNotSpecified =>
      {| po_status := NewStatus Success; po_wait := 0; po_activate := activate;
         po_to_activate := toActivate; po_allowed := [] |}
  | PodGroupNotFound =>
      {| po_status := NewStatus Unschedulable; po_wait := 0; po_activate := activate;
         po_to_activate := toActivate; po_allowed := [] |}
  | PermitWait =>
      let wait := GetWaitTimeDuration (GetPodGroup pod).2 (Some scheduleTimeout) in
      {| po_status := NewStatus Wait;
         po_wait := if bool_decide (wait <> 0) then wait else scheduleTimeout;
         po_activate := activate; po_to_activate := ActivateSiblings pod activate toActivate;
         po_allowed := [] |}
  | PermitSuccess =>
      {| po_status := NewStatus Success; po_wait := 0; po_activate := activate;
         po_to_activate := toActivate;
         po_allowed := List.filter (fun w =>
           bool_decide (GetPodGroupFullName w = GetPodGroupFullName pod)) waiting |}
  end.

(** The waiting pods it rejects, and the manager. *)
Definition Unreserve (waiting : list Pod) (pod : Pod) (m : PodGroupManager)
    : list Pod * PodGroupManager :=
  let '(pgName, pg) := GetPodGroup pod in
  match pg with
  | None => ([], m)
  | Some pg =>
      (waiting_of (pod_namespace pod) (pg_name pg) waiting, DeletePermittedPodGroup pgName m)
  end.
End Coscheduling.
