(* ===== verification/CoschedulingProofs.v ===== *)
(** * Lemmas about gang scheduling *)

From S2P Require Import Prelude.
From S2P Require Import GoFloat.
From S2P Require Import KubeTypes.
From S2P Require Import Framework.
From S2P Require Import Resource.
From S2P Require Import ElasticQuota.
From S2P Require Import ElasticQuotaProofs.
From S2P Require Import Capacity.
From S2P Require Import Preemption.
From S2P Require Import PreemptionProofs.
From S2P Require Import Coscheduling.

(** ** What the nodes have left *)

Section Left.
Variable charge : Pod -> Resource.

Lemma get_node_remove p n s d :
  res_int64 (ni_requested n) -> RemovePod p (slice_of (ni_pods n)) = Ok s ->
  get d (ni_requested (node_remove charge p n))
  = match d with DimPods => get d (ni_requested n)
    | _ => get d (ni_requested n) -! get d (charge p) end.
Proof.
  intros Hr Hs. unfold node_remove. rewrite Hs. cbn [ni_requested].
  rewrite get_scalars_with; [by destruct d|apply sub64_0|].
  destruct d; try apply int64_range; [apply (Hr DimPods)|apply (Hr (DimScalar name))].
Qed.

(** Whether a pod belongs to the group that is left out. *)
Definition in_group (desired : string) (p : Pod) : bool :=
  bool_decide (GetPodGroupFullName p = desired).

Definition drop_group (desired : string) (n : NodeInfo) (p : Pod) : NodeInfo :=
  if bool_decide (GetPodGroupFullName p = desired) then node_remove charge p n else n.

Lemma drop_group_fold desired l rest n :
  keyed (l ++ rest) -> ni_pods n ≡ₚ l ++ rest -> res_int64 (ni_requested n) ->
  let n' := foldl (drop_group desired) n l in
  ni_allocatable n' = ni_allocatable n /\ res_int64 (ni_requested n') /\
  ni_pods n' ≡ₚ List.filter (fun p => negb (in_group desired p)) l ++ rest /\
  forall d, get d (ni_requested n') = match d with
    | DimPods => get d (ni_requested n)
    | _ => int64 (get d (ni_requested n)
                  - sumZ (fun p => get d (charge p)) (List.filter (in_group desired) l))
    end.
Proof.
  revert rest n. induction l as [|p l IH]; intros rest n Hk Hp Hr; cbn zeta.
  { cbn [foldl List.filter]. split_and!; try done. intros d.
    rewrite sumZ_nil, Z.sub_0_r, int64_id by apply Hr. by destruct d. }
  cbn [foldl]. unfold drop_group at 2 4 6 8. unfold in_group in *.
  destruct (bool_decide (GetPodGroupFullName p = desired)) eqn:G; cbn [List.filter]; rewrite G; cbn [negb].
  - assert (is_Some (removeFromSlice (pod_uid p) (slice_of (ni_pods n)))) as [s Hs].
    { apply (removeFromSlice_found _ _ p); [apply slice_of_ok|rewrite slice_of_pods, Hp; by left|].
      eapply keyed_key; [exact Hk|by left]. }
    assert (RemovePod p (slice_of (ni_pods n)) = Ok s) as HR.
    { unfold RemovePod. rewrite (keyed_key _ p Hk) by (by left). by rewrite Hs. }
    apply removeFromSlice_spec in Hs as (i & q & _ & Hq & Hperm & _); [|apply slice_of_ok].
    rewrite slice_of_pods in Hperm.
    assert (q = p) as ->.
    { apply GetPodKey_Some in Hq. eapply (keyed_eq _ _ _ Hk); [|by left|done].
      change (q ∈ (p :: l) ++ rest). rewrite <- Hp, Hperm. by left. }
    destruct (IH rest (node_remove charge p n)) as (H1 & H2 & H3 & H4).
    + destruct Hk as [Hnd Hne]. split; [cbn in Hnd; by apply NoDup_cons in Hnd as [_ ?]|].
      intros x Hx. apply Hne. by right.
    + unfold node_remove. rewrite HR. cbn [ni_pods]. apply (Permutation_cons_inv (a := p)).
      by rewrite <- Hperm.
    + intros d. rewrite (get_node_remove p n s) by done. destruct d; try apply int64_range.
      apply (Hr DimPods).
    + split_and!; [|done|done|].
      * rewrite H1. unfold node_remove. by rewrite HR.
      * intros d. rewrite H4. destruct d; rewrite (get_node_remove p n s) by done; try done;
          rewrite sumZ_cons; int64_ring.
  - destruct (IH (p :: rest) n) as (H1 & H2 & H3 & H4); [| |done|].
    + eapply keyed_perm; [|exact Hk]. cbn. by rewrite Permutation_middle.
    + rewrite Hp. cbn. by rewrite Permutation_middle.
    + split_and!; try done. rewrite H3. cbn. by rewrite Permutation_middle.
Qed.

(** The pods of the node that stay when the group is left out. *)
Definition others (desired : string) (info : NodeInfo) : list Pod :=
  List.filter (fun p => negb (in_group desired p)) (ni_pods info).

Definition node_dim (d : Dim) (info : NodeInfo) : bool :=
  match d with
  | DimScalar n => bool_decide (is_Some (ScalarResources (ni_allocatable info) !! n))
  | _ => true
  end.

Lemma node_resource desired info d :
  keyed (ni_pods info) -> res_int64 (ni_requested info) -> res_int64 (ni_allocatable info) ->
  get d (getNodeResource charge info desired) = match d with
    | DimPods => int64 (get d (ni_allocatable info) - Z.of_nat (length (others desired info)))
    | _ => if node_dim d info
           then int64 (get d (ni_allocatable info) - (get d (ni_requested info)
             - sumZ (fun p => get d (charge p)) (List.filter (in_group desired) (ni_pods info))))
           else 0
    end.
Proof.
  intros Hk Hr Ha.
  pose proof (drop_group_fold desired (ni_pods info) [] info) as Hf.
  rewrite app_nil_r in Hf. specialize (Hf Hk ltac:(done) Hr) as (H1 & H2 & H3 & H4).
  unfold getNodeResource, node_without.
  change (foldl _ info (ni_pods info)) with (foldl (drop_group desired) info (ni_pods info)).
  set (n' := foldl _ _ _) in *. rewrite H1.
  destruct d as [| | | |n]; cbn [get MilliCPU Memory EphemeralStorage AllowedPodNumber node_dim].
  1: pose proof (H4 DimCPU) as H; cbn in H; rewrite H; int64_ring.
  1: pose proof (H4 DimMemory) as H; cbn in H; rewrite H; int64_ring.
  1: pose proof (H4 DimStorage) as H; cbn in H; rewrite H; int64_ring.
  - rewrite H3, app_nil_r. done.
  - unfold scalar. cbn [ScalarResources]. rewrite map_lookup_imap.
    specialize (Ha (DimScalar n)). pose proof (H4 (DimScalar n)) as H. cbn [get] in H, Ha.
    unfold scalar in *. destruct (ScalarResources (ni_allocatable info) !! n) as [a|] eqn:Ea;
      cbn [option_bind mbind default from_option].
    + rewrite bool_decide_eq_true_2 by eauto. cbn [default from_option id] in Ha.
      destruct (ScalarResources (ni_requested n') !! n) as [r|]; cbn [default from_option id] in *.
      * rewrite H. int64_ring.
      * rewrite <- (int64_id a Ha) at 1. rewrite <- (Z.sub_0_r a) at 1.
        rewrite H at 1. int64_ring.
    + by rewrite bool_decide_eq_false_2 by (by intros [? ?]).
Qed.
End Left.

(** ** The resource check *)

(** What is left of a quantity after a prefix of the nodes, until it is
    covered. *)
Fixpoint covered (lefts : list Z) (q : Z) : bool :=
  match lefts with
  | [] => false
  | x :: lefts' => (q - x <=? 0) || covered lefts' (q - x)
  end.

Lemma covered_nonneg lefts q :
  (forall x, x ∈ lefts -> 0 <= x) -> 0 < q -> covered lefts q = bool_decide (q <= sumZ id lefts).
Proof.
  revert q. induction lefts as [|x l IH]; intros q Hpos Hq.
  { rewrite sumZ_nil, bool_decide_eq_false_2 by lia. done. }
  cbn [covered]. rewrite sumZ_cons. unfold id at 1.
  assert (forall y, y ∈ l -> 0 <= y) as Hl by (intros y Hy; apply Hpos; by right).
  assert (0 <= sumZ id l) as Hs.
  { clear -Hl. induction l as [|y l IH]; [done|]. rewrite sumZ_cons. unfold id at 1.
    pose proof (Hl y ltac:(by left)). specialize (IH ltac:(intros; apply Hl; by right)). lia. }
  destruct (Z.leb_spec (q - x) 0); cbn; [rewrite bool_decide_eq_true_2 by lia; done|].
  rewrite IH by (done || lia). apply bool_decide_ext. lia.
Qed.

Section Check.
Variable charge : Pod -> Resource.
Variable desired : string.

(** What a node counts for a name. *)
Definition left_of (name : string) (info : NodeInfo) : Z :=
  default 0 (ResourceListOf (getNodeResource charge info desired) !! name).
Definition lefts (name : string) (nodes : list NodeInfo) : list Z :=
  left_of name <$> base.filter (fun n => ni_has_node n = true) nodes.

Lemma take_from_lookup nr (req : ResourceList) name :
  take_from nr req !! name
  = req !! name ≫= fun q => let q' := q - default 0 (nr !! name) in
                            if q' <=? 0 then None else Some q'.
Proof. apply map_lookup_imap. Qed.

Lemma check_nonempty nodes req :
  req <> ∅ ->
  CheckClusterResource charge nodes req desired = Ok tt <->
  forall name q, req !! name = Some q -> covered (lefts name nodes) q = true.
Proof.
  revert req. induction nodes as [|info nodes IH]; intros req Hne; cbn [CheckClusterResource].
  { split; [done|]. intros H. exfalso. apply Hne, map_empty. intros name.
    destruct (req !! name) as [q|] eqn:E; [|done]. by specialize (H name q E). }
  destruct (ni_has_node info) eqn:N; cbn [negb].
  2: { rewrite IH by done. unfold lefts. by rewrite filter_cons_False by (by rewrite N). }
  set (req' := take_from _ req).
  assert (forall name q, req !! name = Some q -> covered (lefts name (info :: nodes)) q = true <->
            forall q', req' !! name = Some q' -> covered (lefts name nodes) q' = true) as Hstep.
  { intros name q Hq. unfold lefts. rewrite filter_cons_True by done. cbn [fmap list_fmap covered].
    unfold req'. rewrite take_from_lookup, Hq. cbn. unfold left_of at 1 2.
    destruct (_ <=? 0); cbn; [by split|]. split; [by intros H q' [= <-]|auto]. }
  case_bool_decide as He.
  - split; [|done]. intros _ name q Hq. apply (Hstep name q Hq). intros q' Hq'. by rewrite He in Hq'.
  - rewrite IH by done. split.
    + intros H name q Hq. apply (Hstep name q Hq). intros q'. apply H.
    + intros H name q' Hq'. destruct (req !! name) as [q|] eqn:Hq.
      * by apply (Hstep name q Hq); [apply H|].
      * unfold req' in Hq'. rewrite take_from_lookup in Hq'.
        apply bind_Some in Hq' as (q & Hq' & _).
        discriminate (eq_trans (eq_sym Hq) Hq').
Qed.

Lemma check_empty nodes :
  (exists n, n ∈ nodes /\ ni_has_node n = true) ->
  CheckClusterResource charge nodes ∅ desired = Ok tt.
Proof.
  induction nodes as [|info nodes IH]; intros (n & Hn & Hh).
  { by apply not_elem_of_nil in Hn. }
  cbn. destruct (ni_has_node info) eqn:N; cbn [negb].
  - rewrite bool_decide_eq_true_2; [done|]. apply map_empty. intros name.
    by rewrite take_from_lookup, lookup_empty.
  - apply IH. apply elem_of_cons in Hn as [->|Hn]; [congruence|eauto].
Qed.

End Check.

(** ** The order of the queue *)

Section Order.
Variable getPG : string -> string -> option PodGroup.

(** The three keys. *)
Definition group_time (p : Pod * Z) : Z := GetCreationTimestamp getPG p.1 p.2.

Lemma Less_spec p1 p2 :
  Less getPG p1.1 p1.2 p2.1 p2.2 = true <->
  PodPriority p2.1 < PodPriority p1.1 \/
  PodPriority p1.1 = PodPriority p2.1 /\
  (group_time p1 < group_time p2 \/
   group_time p1 = group_time p2 /\
   String.ltb (GetNamespacedName p1.1) (GetNamespacedName p2.1) = true).
Proof.
  unfold Less, group_time. case_bool_decide as Hp; [rewrite Z.ltb_lt; naive_solver|].
  case_bool_decide as Ht; [|rewrite Z.ltb_lt]; split; intros H.
  - right. auto.
  - destruct H as [?|[_ [?|[_ ?]]]]; [lia|lia|done].
  - right. auto.
  - destruct H as [?|[_ [?|[? _]]]]; [lia|done|done].
Qed.
End Order.

(** ** Names *)

Fixpoint no_slash (s : string) : bool :=
  match s with
  | EmptyString => true
  | String c s' => negb (Ascii.eqb c "/"%char) && no_slash s'
  end.

Lemma full_name_inj a b c d :
  no_slash a = true -> no_slash c = true -> full_name a b = full_name c d -> a = c /\ b = d.
Proof.
  unfold full_name. revert c. induction a as [|x a IH]; intros [|y c]; cbn.
  - intros _ _ H. split; [done|]. change ("/" +:+ b = "/" +:+ d) in H. by injection H.
  - intros _ [Hy _]%andb_true_iff H. exfalso.
    change (String "/" b = String y (c +:+ "/" +:+ d)) in H. injection H as Hx _.
    rewrite <- Hx in Hy. done.
  - intros [Hx _]%andb_true_iff _ H. exfalso.
    change (String x (a +:+ "/" +:+ b) = String "/" d) in H. injection H as Hy _.
    rewrite Hy in Hx. done.
  - intros [_ Ha]%andb_true_iff [_ Hc]%andb_true_iff H.
    change (String x (a +:+ "/" +:+ b) = String y (c +:+ "/" +:+ d)) in H.
    injection H as -> H. destruct (IH c Ha Hc H) as [-> ->]. done.
Qed.

Lemma full_name_nonempty a b : full_name a b <> "".
Proof.
  unfold full_name. destruct a as [|c a].
  - change (String "/" b <> ""). done.
  - change (String c (a +:+ "/" +:+ b) <> ""). done.
Qed.

(** ** Gangs over time

    The scheduler's cache of assumed and bound pods, the snapshot of the running
    scheduling cycle, the pods waiting in [Permit], those it has let through,
    and those it had let through that have left since. *)

Record Gang := {
  g_pods : list Pod;
  g_snapshot : option (list NodeInfo);
  g_waiting : list Pod;
  g_allowed : list Pod;
  g_gone : list Pod;
}.

Section Gang.
Variable getPG : string -> string -> option PodGroup.
Variable listPods : string -> string -> result (list Pod).
Variable scheduleTimeout : Z.

Definition end_cycle (s : Gang) : Gang :=
  {| g_pods := g_pods s; g_snapshot := None; g_waiting := g_waiting s; g_allowed := g_allowed s;
     g_gone := g_gone s |}.

Definition after_permit (o : PermitOutcome) (p : Pod) (s : Gang) : Gang :=
  match st_code (po_status o) with
  | Success =>
      {| g_pods := p :: g_pods s; g_snapshot := None;
         g_waiting := List.filter (fun w => negb (bool_decide (w ∈ po_allowed o))) (g_waiting s);
         g_allowed := g_allowed s ++ po_allowed o ++ [p]; g_gone := g_gone s |}
  | Wait =>
      {| g_pods := p :: g_pods s; g_snapshot := None;
         g_waiting := g_waiting s ++ [p]; g_allowed := g_allowed s; g_gone := g_gone s |}
  | _ => end_cycle s
  end.

Definition forget (w : Pod) (l : list Pod) : list Pod :=
  List.filter (fun q => negb (bool_decide (q = w))) l.

(** A cycle takes its snapshot, then reaches [Permit] with the pod assumed on a
    node. A waiting pod may be rejected, by its timeout, by another plugin, by
    [Unreserve] and [PostFilter] or because it is deleted, which forgets it; a
    pod that was let through may leave, because its binding fails, it completes
    or it is deleted. With [atomic], neither falls between a snapshot and its
    [Permit]. *)
Inductive gang_step (atomic : bool) : Gang -> Gang -> Prop :=
| gang_snapshot s nodes :
    nodes ≫= ni_pods ≡ₚ g_pods s ->
    gang_step atomic s {| g_pods := g_pods s; g_snapshot := Some nodes;
                          g_waiting := g_waiting s; g_allowed := g_allowed s; g_gone := g_gone s |}
| gang_permit s nodes p activate toActivate :
    g_snapshot s = Some nodes -> p ∉ g_pods s -> pod_node p <> "" ->
    no_slash (pod_namespace p) = true -> Z.of_nat (length (g_pods s)) < 2147483646 ->
    gang_step atomic s
      (after_permit (Permit getPG listPods scheduleTimeout (Ok nodes) (g_waiting s) p activate toActivate)
         p s)
| gang_abort s : gang_step atomic s (end_cycle s)
| gang_reject s w :
    w ∈ g_waiting s -> (atomic = true -> g_snapshot s = None) ->
    gang_step atomic s {| g_pods := forget w (g_pods s); g_snapshot := g_snapshot s;
                          g_waiting := forget w (g_waiting s); g_allowed := g_allowed s;
                          g_gone := g_gone s |}
| gang_leave s w :
    w ∈ g_allowed s -> (atomic = true -> g_snapshot s = None) ->
    gang_step atomic s {| g_pods := forget w (g_pods s); g_snapshot := g_snapshot s;
                          g_waiting := g_waiting s; g_allowed := forget w (g_allowed s);
                          g_gone := g_gone s ++ [w] |}.

(** A cluster in which nothing waits and whose pods are all bound. *)
Definition gang_start (pods : list Pod) : Gang :=
  {| g_pods := pods; g_snapshot := None; g_waiting := []; g_allowed := pods; g_gone := [] |}.

Inductive gang_run (atomic : bool) (s : Gang) : Gang -> Prop :=
| gang_here : gang_run atomic s s
| gang_more s' s'' : gang_run atomic s s' -> gang_step atomic s' s'' -> gang_run atomic s s''.

(** *** The invariant of one group *)

Variables (ns name : string) (pg : PodGroup).
Hypothesis pg_found : getPG ns name = Some pg.
Hypothesis pg_named : pg_name pg = name /\ pg_namespace pg = ns.
Hypothesis name_set : name <> "".
Hypothesis ns_plain : no_slash ns = true.

Definition member (p : Pod) : bool :=
  bool_decide (pod_namespace p = ns) && bool_decide (GetPodGroupLabel p = name).

Definition members (l : list Pod) : list Pod := List.filter member l.
Definition quorum (l : list Pod) : Prop := pg_min_member pg <= Z.of_nat (length (members l)).

(** At least the minimum of different pods of the group are in [l]. *)
Definition enough (l : list Pod) : Prop :=
  exists q, NoDup q /\ (forall p, p ∈ q -> p ∈ l /\ member p = true) /\
    pg_min_member pg <= Z.of_nat (length q).

Definition none_or_enough (l : list Pod) : Prop := members l = [] \/ enough l.

Record gang_ok (s : Gang) : Prop := {
  gang_nodup : NoDup (g_pods s);
  gang_perm : g_pods s ≡ₚ g_waiting s ++ g_allowed s;
  gang_placed : Forall (fun p => pod_node p <> "" /\ no_slash (pod_namespace p) = true) (g_pods s);
  gang_current : forall nodes, g_snapshot s = Some nodes -> nodes ≫= ni_pods ≡ₚ g_pods s;
  gang_quorum : members (g_waiting s) = [] \/ ~ quorum (g_pods s);
}.

Lemma filter_perm (f : Pod -> bool) l l' : l ≡ₚ l' -> List.filter f l ≡ₚ List.filter f l'.
Proof.
  induction 1 as [|x l l' _ IH|x y l|]; cbn; [done| |
    destruct (f x), (f y); first [reflexivity|by constructor]|etransitivity; eassumption].
  destruct (f x); [by rewrite IH|done].
Qed.

Lemma filter_split (f : Pod -> bool) l :
  l ≡ₚ List.filter f l ++ List.filter (fun p => negb (f p)) l.
Proof.
  induction l as [|p l IH]; [done|]. cbn. destruct (f p); cbn; [by rewrite <- IH|].
  rewrite <- Permutation_middle. by rewrite <- IH.
Qed.

Lemma filter_none (f : Pod -> bool) l : (forall p, p ∈ l -> f p = false) -> List.filter f l = [].
Proof.
  induction l as [|p l IH]; intros H; [done|]. cbn. rewrite (H p) by (by left).
  apply IH. intros q Hq. apply H. by right.
Qed.

Lemma filter_same (f g : Pod -> bool) l :
  (forall p, p ∈ l -> f p = g p) -> List.filter f l = List.filter g l.
Proof.
  induction l as [|p l IH]; intros H; [done|]. cbn. rewrite (H p) by (by left).
  rewrite IH by (intros q Hq; apply H; by right). done.
Qed.

Lemma members_app l l' : members (l ++ l') = members l ++ members l'.
Proof. apply List.filter_app. Qed.

Lemma filter_filter (f g : Pod -> bool) l :
  List.filter f (List.filter g l) = List.filter (fun p => g p && f p) l.
Proof. induction l as [|p l IH]; [done|]. cbn. destruct (g p); cbn; [destruct (f p)|]; by rewrite IH. Qed.

Lemma filter_in (f : Pod -> bool) l p : p ∈ List.filter f l <-> p ∈ l /\ f p = true.
Proof. rewrite !list_elem_of_In. apply List.filter_In. Qed.

(** What [Permit] lets through. *)
Lemma permit_allowed nodes waiting p activate ta :
  exists f, po_allowed (Permit getPG listPods scheduleTimeout nodes waiting p activate ta)
            = List.filter f waiting /\
  (forall w, f w = true -> GetPodGroupFullName w = GetPodGroupFullName p).
Proof.
  unfold Permit. destruct (manager_permit _ _ _ _) as [[] a]; cbn [po_allowed].
  1,2,4: exists (fun _ => false); split; [by rewrite filter_none|done].
  eexists. split; [reflexivity|]. intros w Hw. by apply bool_decide_eq_true in Hw.
Qed.

Lemma member_full p :
  no_slash (pod_namespace p) = true ->
  member p = bool_decide (GetPodGroupFullName p = full_name ns name).
Proof using name_set ns_plain.
  intros Hp. unfold member, GetPodGroupFullName. rewrite <- bool_decide_and.
  apply bool_decide_ext. case_bool_decide as Hl.
  - split; [intros [_ E]; exfalso; apply name_set; congruence|].
    intros H. exfalso. symmetry in H. exact (full_name_nonempty ns name H).
  - split; [by intros [-> ->]|]. intros H. by apply full_name_inj in H.
Qed.

Lemma assigned_members s nodes :
  gang_ok s -> g_snapshot s = Some nodes ->
  CalculateAssignedPods (Ok nodes) name ns = Z.of_nat (length (members (g_pods s))).
Proof.
  intros Hs Hn. unfold CalculateAssignedPods. f_equal.
  rewrite (filter_perm _ _ _ (gang_current s Hs nodes Hn)). f_equal.
  apply filter_same. intros p Hp. unfold assigned_member, member.
  destruct (proj1 (Forall_forall _ _) (gang_placed s Hs) p Hp) as [Hnode _].
  rewrite (bool_decide_eq_false_2 (pod_node p = "")) by done. by rewrite andb_true_r, andb_comm.
Qed.

Lemma permit_member s nodes p activate ta :
  gang_ok s -> g_snapshot s = Some nodes -> member p = true ->
  Z.of_nat (length (g_pods s)) < 2147483646 ->
  let o := Permit getPG listPods scheduleTimeout (Ok nodes) (g_waiting s) p activate ta in
  let assigned := Z.of_nat (length (members (g_pods s))) in
  (st_code (po_status o) = Success /\ pg_min_member pg <= assigned + 1 /\
   po_allowed o = List.filter (fun w =>
     bool_decide (GetPodGroupFullName w = GetPodGroupFullName p)) (g_waiting s)) \/
  (st_code (po_status o) = Wait /\ assigned + 1 < pg_min_member pg).
Proof using name_set pg_found pg_named.
  intros Hs Hn Hm Hlen o assigned.
  assert (0 <= assigned < 2147483646) as Ha.
  { unfold assigned, members. pose proof (List.filter_length_le member (g_pods s)). lia. }
  apply andb_true_iff in Hm as [H1%bool_decide_eq_true H2%bool_decide_eq_true].
  unfold o, Permit, manager_permit, GetPodGroup.
  rewrite H2, (bool_decide_eq_false_2 (name = "")) by done. rewrite H1, pg_found.
  destruct pg_named as [-> ->]. rewrite (assigned_members s) by done. fold assigned.
  rewrite (bool_decide_eq_false_2 (full_name ns name = "")) by apply full_name_nonempty.
  assert (int32 (int32 assigned + 1) = assigned + 1) as ->.
  { unfold int32. rewrite (Z.mod_small (assigned + 2147483648)) by lia. rewrite Z.mod_small; lia. }
  destruct (Z.leb_spec (pg_min_member pg) (assigned + 1)); cbn [po_status st_code po_allowed]; [auto|].
  right. split; [by case_bool_decide|done].
Qed.

(** The waiting pods that [Permit] leaves behind. *)
Lemma waiting_left (f : Pod -> bool) waiting :
  List.filter (fun w => negb (bool_decide (w ∈ List.filter f waiting))) waiting
  = List.filter (fun w => negb (f w)) waiting.
Proof.
  apply filter_same. intros w Hw. f_equal. destruct (f w) eqn:F.
  - apply bool_decide_eq_true_2, filter_in. auto.
  - apply bool_decide_eq_false_2. rewrite filter_in. intros [_ ?]. congruence.
Qed.

Lemma gang_plain s w : gang_ok s -> w ∈ g_waiting s -> no_slash (pod_namespace w) = true.
Proof.
  intros Hs Hw. apply (proj1 (Forall_forall _ _) (gang_placed s Hs)).
  rewrite (gang_perm s Hs). apply elem_of_app. by left.
Qed.

Lemma members_none l : members l = [] <-> forall p, p ∈ l -> member p = false.
Proof.
  unfold members. split; [|by apply filter_none].
  intros Hl p Hp. destruct (member p) eqn:M; [|done].
  assert (p ∈ List.filter member l) as H by (by apply filter_in). rewrite Hl in H. by apply not_elem_of_nil in H.
Qed.

Lemma none_or_enough_eq l l' :
  (forall p, member p = true -> p ∈ l <-> p ∈ l') -> none_or_enough l -> none_or_enough l'.
Proof.
  intros He [Hn|(q & Hnd & Hq & Hl)].
  - left. rewrite members_none in *. intros p Hp. destruct (member p) eqn:M; [|done].
    rewrite <- (He p M) in Hp. by rewrite (Hn p Hp) in M.
  - right. exists q. split_and!; [done| |done]. intros p Hp. destruct (Hq p Hp) as [Hi M].
    split; [by apply He|done].
Qed.

(** What [Permit] does for a pod of the group that it lets through. *)
Lemma permit_through s nodes p activate ta :
  gang_ok s -> g_snapshot s = Some nodes -> member p = true -> no_slash (pod_namespace p) = true ->
  Z.of_nat (length (g_pods s)) < 2147483646 ->
  let o := Permit getPG listPods scheduleTimeout (Ok nodes) (g_waiting s) p activate ta in
  st_code (po_status o) = Success ->
  po_allowed o = members (g_waiting s) /\ quorum (p :: g_pods s) /\ members (g_waiting (after_permit o p s)) = [].
Proof using name_set ns_plain pg_found pg_named.
  intros Hs Hn M Hp Hlen o Ho.
  destruct (permit_member s nodes p activate ta) as [(_ & Hq & Hall)|[Hw _]]; try done; [|fold o in Hw; congruence].
  fold o in Hall.
  assert (po_allowed o = members (g_waiting s)) as Hm.
  { rewrite Hall. apply filter_same. intros w Hw. rewrite member_full by (by eapply gang_plain).
    rewrite member_full in M by done. apply bool_decide_eq_true in M. by rewrite M. }
  split; [done|]. split.
  - unfold quorum, members. cbn [List.filter]. rewrite M. cbn [length]. fold (members (g_pods s)). lia.
  - unfold after_permit. rewrite Ho. cbn [g_waiting]. rewrite Hm. unfold members.
    rewrite waiting_left, filter_filter. apply filter_none. intros w _. by destruct (member w).
Qed.

(** A pod of another group lets no pod of this group through. *)
Lemma permit_other nodes p activate ta s :
  gang_ok s -> member p = false -> no_slash (pod_namespace p) = true ->
  forall w, w ∈ po_allowed (Permit getPG listPods scheduleTimeout (Ok nodes) (g_waiting s) p activate ta) ->
  member w = false.
Proof using name_set ns_plain.
  intros Hs M Hp w. destruct (permit_allowed (Ok nodes) (g_waiting s) p activate ta) as (f & -> & Hsame).
  intros [Hw F]%filter_in. rewrite member_full by (by eapply gang_plain).
  rewrite (Hsame w F). by rewrite <- member_full.
Qed.

Lemma fewer_waiting s (w' pods' : list Pod) :
  gang_ok s -> (forall p, p ∈ w' -> member p = true -> p ∈ g_waiting s) ->
  (length (members pods') <= length (members (g_pods s)))%nat ->
  members w' = [] \/ ~ quorum pods'.
Proof.
  intros Hs Hw Hl. destruct (gang_quorum s Hs) as [Hn|Hq]; [left|right; unfold quorum in *; lia].
  rewrite members_none in *. intros p Hp. destruct (member p) eqn:M; [|done].
  rewrite <- M. apply Hn. by apply Hw.
Qed.

Lemma permit_keeps s nodes p activate ta :
  gang_ok s -> g_snapshot s = Some nodes -> p ∉ g_pods s -> pod_node p <> "" ->
  no_slash (pod_namespace p) = true -> Z.of_nat (length (g_pods s)) < 2147483646 ->
  gang_ok (after_permit
    (Permit getPG listPods scheduleTimeout (Ok nodes) (g_waiting s) p activate ta) p s).
Proof using name_set ns_plain pg_found pg_named.
  intros Hs Hn Hnew Hnode Hp Hlen. set (o := Permit _ _ _ _ _ _ _ _).
  destruct (permit_allowed (Ok nodes) (g_waiting s) p activate ta) as (f & Hf & _). fold o in Hf.
  assert (NoDup (p :: g_pods s)) as Hnd by (constructor; [done|apply Hs]).
  assert (Forall (fun p => pod_node p <> "" /\ no_slash (pod_namespace p) = true) (p :: g_pods s)) as Hpl
    by (constructor; [done|apply Hs]).
  pose proof (permit_through s nodes p activate ta Hs Hn) as Hthrough. fold o in Hthrough.
  assert (member p = false -> members (p :: g_pods s) = members (g_pods s)) as Hskip
    by (intros M; unfold members; cbn [List.filter]; by rewrite M).
  unfold after_permit in *. destruct (st_code (po_status o)) eqn:So; try (by destruct Hs).
  - split; cbn [g_pods g_snapshot g_waiting g_allowed] in *; try done.
    + rewrite Hf, waiting_left. rewrite (gang_perm s Hs). rewrite (filter_split f (g_waiting s)) at 1.
      solve_Permutation.
    + destruct (member p) eqn:M; [left; by apply Hthrough|].
      apply (fewer_waiting s); [done| |by rewrite Hskip]. by intros w [Hw _]%filter_in _.
  - split; cbn [g_pods g_snapshot g_waiting g_allowed] in *; try done.
    + rewrite (gang_perm s Hs). solve_Permutation.
    + destruct (member p) eqn:M.
      * right. destruct (permit_member s nodes p activate ta) as [(H & _)|[_ H]]; try done;
          [fold o in H; congruence|].
        unfold quorum, members. cbn [List.filter]. rewrite M. cbn [length]. fold (members (g_pods s)). lia.
      * apply (fewer_waiting s); [done| |by rewrite Hskip].
        intros w [Hw|Hw%list_elem_of_singleton]%elem_of_app Mw; [done|congruence].
Qed.

Lemma forget_absent w l : w ∉ l -> forget w l = l.
Proof.
  unfold forget. intros Hn. induction l as [|p l IH]; [done|]. cbn.
  rewrite bool_decide_eq_false_2 by (intros ->; apply Hn; by left). cbn.
  f_equal. apply IH. intros Hw. apply Hn. by right.
Qed.

Lemma forget_in w l p : p ∈ forget w l <-> p ∈ l /\ p <> w.
Proof. unfold forget. by rewrite filter_in, negb_true_iff, bool_decide_eq_false. Qed.

(** A pod leaves, a waiting one or one that was let through. *)
Lemma forget_keeps w s :
  gang_ok s -> g_snapshot s = None -> forall gone,
  gang_ok {| g_pods := forget w (g_pods s); g_snapshot := g_snapshot s;
             g_waiting := forget w (g_waiting s); g_allowed := forget w (g_allowed s); g_gone := gone |}.
Proof.
  intros Hs Hsn gone. pose proof Hs as [Hnd Hperm Hpl _ _].
  split; cbn [g_pods g_snapshot g_waiting g_allowed].
  - unfold forget. rewrite NoDup_ListNoDup in *. by apply List.NoDup_filter.
  - unfold forget. by rewrite (filter_perm _ _ _ Hperm), List.filter_app.
  - apply Forall_forall. intros p [Hp _]%forget_in. by apply (proj1 (Forall_forall _ _) Hpl).
  - intros nodes Hn. congruence.
  - apply (fewer_waiting s); [done|by intros p [Hp _]%forget_in _|].
    unfold members, forget. rewrite filter_filter.
    rewrite (filter_same _ (fun q => member q && negb (bool_decide (q = w)))) by (intros; apply andb_comm).
    rewrite <- filter_filter. apply List.filter_length_le.
Qed.

Lemma waiting_not_allowed s w : gang_ok s -> w ∈ g_waiting s -> w ∉ g_allowed s.
Proof.
  intros Hs Hw. pose proof (gang_nodup s Hs) as Hnd. rewrite (gang_perm s Hs) in Hnd.
  apply NoDup_app in Hnd as (_ & Hd & _). by apply Hd.
Qed.

Lemma gang_step_keeps s s' : gang_ok s -> gang_step true s s' -> gang_ok s'.
Proof using name_set ns_plain pg_found pg_named.
  intros Hs Hstep.
  destruct Hstep as [s nodes Hn|s nodes p activate ta Hsn H1 H2 H3 H4|s|s w Hw Ha|s w Hw Ha].
  - destruct Hs. split; try done. by intros ? [= <-].
  - by eapply permit_keeps.
  - destruct Hs. by split.
  - rewrite <- (forget_absent w (g_allowed s)) by (by apply waiting_not_allowed). apply forget_keeps; auto.
  - rewrite <- (forget_absent w (g_waiting s)) by (intros Hin; by eapply waiting_not_allowed).
    apply forget_keeps; auto.
Qed.

Lemma gang_run_keeps pods s :
  NoDup pods -> Forall (fun p => pod_node p <> "" /\ no_slash (pod_namespace p) = true) pods ->
  gang_run true (gang_start pods) s -> gang_ok s.
Proof using name_set ns_plain pg_found pg_named.
  intros Hnd Hpl Hrun. induction Hrun as [|s s' _ IH Hstep]; [|by eapply gang_step_keeps].
  split; cbn; auto. done.
Qed.

(** A step lets pods of the group through only when with them it has its
    minimum, and then it lets all of them through. *)
Lemma gang_step_through s s' p :
  gang_ok s -> gang_step true s s' -> member p = true -> p ∈ g_allowed s' -> p ∉ g_allowed s ->
  members (g_waiting s') = [] /\ quorum (g_allowed s').
Proof using name_set ns_plain pg_found pg_named.
  intros Hs Hstep Mp Hin Hout. pose proof (gang_step_keeps s s' Hs Hstep) as Hs'.
  assert (members (g_waiting s') = [] /\ quorum (g_pods s')) as [Hw Hq].
  { destruct Hstep as [s nodes Hn|s nodes p' activate ta Hsn H1 H2 H3 H4|s|s w Hw Ha|s w Hw Ha]; try done;
      [|exfalso; apply Hout; by apply forget_in in Hin as [? _]].
    pose proof (permit_through s nodes p' activate ta Hs Hsn) as Ht.
    pose proof (permit_other nodes p' activate ta s Hs) as Ho.
    revert Hin Ht Ho. set (o := Permit _ _ _ _ _ _ _ _). unfold after_permit.
    destruct (st_code (po_status o)); try done. cbn [g_allowed g_waiting g_pods]. intros Hin Ht Ho.
    destruct (member p') eqn:M; [destruct Ht as (_ & ? & ?); done|]. exfalso.
    apply elem_of_app in Hin as [?|[Hi|Hi%list_elem_of_singleton]%elem_of_app]; [done| |congruence].
    rewrite (Ho eq_refl H3 p Hi) in Mp. done. }
  split; [done|]. unfold quorum, members in *. rewrite (Permutation_length (filter_perm member _ _ (gang_perm s' Hs'))) in Hq.
  by rewrite List.filter_app, Hw in Hq.
Qed.

(** The pods of the group that have ever been let through. *)
Lemma gang_step_ever s s' :
  gang_ok s -> gang_step true s s' ->
  none_or_enough (g_allowed s ++ g_gone s) -> none_or_enough (g_allowed s' ++ g_gone s').
Proof using name_set ns_plain pg_found pg_named.
  intros Hs Hstep He. pose proof (gang_step_through s s') as Hth. pose proof (gang_step_keeps s s' Hs Hstep) as Hs'.
  destruct (decide (Exists (fun p => member p = true /\ p ∉ g_allowed s) (g_allowed s'))) as [Hex|Hno].
  - apply Exists_exists in Hex as (p & Hp & M & Hout). destruct (Hth p Hs Hstep M Hp Hout) as [_ Hq].
    right. exists (members (g_allowed s')). split_and!; [|by intros q [Hq' Mq]%filter_in; rewrite elem_of_app; auto|done].
    pose proof (gang_nodup s' Hs') as Hnd. rewrite (gang_perm s' Hs') in Hnd. apply NoDup_app in Hnd as (_ & _ & Hnd).
    unfold members. rewrite NoDup_ListNoDup in *. by apply List.NoDup_filter.
  - assert (forall p, member p = true -> p ∈ g_allowed s' -> p ∈ g_allowed s) as Hold.
    { intros p M Hp. destruct (decide (p ∈ g_allowed s)) as [|Hout]; [done|]. exfalso.
      apply Hno, Exists_exists. eauto. }
    eapply none_or_enough_eq; [|exact He]. intros p M. rewrite !elem_of_app.
    destruct Hstep as [s nodes Hn|s nodes p' activate ta Hsn H1 H2 H3 H4|s|s w Hw Ha|s w Hw Ha]; try done.
    + revert Hold. unfold after_permit. destruct (st_code _); try done. cbn [g_allowed g_gone]. intros Hold.
      split; [|naive_solver]. intros [?|?]; [left; by apply elem_of_app; left|by right].
    + cbn [g_allowed g_gone]. rewrite forget_in, elem_of_app, list_elem_of_singleton.
      destruct (decide (p = w)) as [->|]; naive_solver.
Qed.

Lemma gang_run_ever pods s :
  NoDup pods -> Forall (fun p => pod_node p <> "" /\ no_slash (pod_namespace p) = true) pods ->
  members pods = [] -> gang_run true (gang_start pods) s -> none_or_enough (g_allowed s ++ g_gone s).
Proof using name_set ns_plain pg_found pg_named.
  intros Hnd Hpl Hm Hrun. induction Hrun as [|s s' Hr IH Hstep].
  - left. cbn. by rewrite app_nil_r.
  - eapply gang_step_ever; [by eapply gang_run_keeps|done..].
Qed.
End Gang.
