(* ===== verification/CoschedulingClaims.v ===== *)
(** * The properties of the Coscheduling plugin *)

From Stdlib Require Import SpecFloat.
From S2P Require Import Prelude.
From S2P Require Import GoFloat.
From S2P Require Import KubeTypes.
From S2P Require Import Framework.
From S2P Require Import Resource.
From S2P Require Import ElasticQuota.
From S2P Require Import Capacity.
From S2P Require Import Preemption.
From S2P Require Import PreemptionProofs.
From S2P Require Import Coscheduling.
From S2P Require Import CoschedulingProofs.

(** ** Concrete groups, pods and nodes *)

Definition group (name : string) (created min : Z) : PodGroup := {|
  pg_name := name; pg_namespace := "ml"; pg_created := created; pg_min_member := min;
  pg_min_resources := None; pg_schedule_timeout := None |}.

(** Two groups of the namespace "ml": "train" needs two pods. *)
Definition demo_groups (ns name : string) : option PodGroup :=
  if bool_decide (ns = "ml") then
    if bool_decide (name = "train") then Some (group "train" 5 2)
    else if bool_decide (name = "infer") then Some (group "infer" 5 2)
    else if bool_decide (name = "batch") then Some (group "batch" 9 3) else None
  else None.

Definition grouped (g name : string) (node : string) : Pod := {|
  pod_meta := {| meta_name := name; meta_namespace := "ml"; meta_uid := "uid-" +:+ name;
    meta_labels := {[ PodGroupLabel := g ]}; meta_annotations := ∅; meta_owners := [];
    meta_deletion := None; meta_creation := 0; meta_resource_version := 0 |};
  pod_spec := {| spec_node_name := node; spec_priority := Some 0; spec_preempt_never := false; spec_priority_class := ""; spec_scheduler_name := "";
    spec_containers := []; spec_init_containers := []; spec_overhead := None |};
  pod_status := {| pstatus_phase := PodPending; pstatus_nominated := ""; pstatus_start_time := None; pstatus_conditions := [] |} |}.

Definition cpu (m : Z) : Resource := {|
  MilliCPU := m; Memory := 0; EphemeralStorage := 0; AllowedPodNumber := 10; ScalarResources := ∅ |}.

Definition node_of (pods : list Pod) (requested allocatable : Z) : NodeInfo := {|
  ni_has_node := true; ni_pods := pods; ni_requested := cpu requested; ni_allocatable := cpu allocatable |}.

Definition demo_list (ns label : string) : result (list Pod) :=
  Ok [grouped label "t1" ""; grouped label "t2" ""; grouped label "t3" ""].

Definition t1 : Pod := grouped "train" "t1" "n1".
Definition t2 : Pod := grouped "train" "t2" "n1".

(** ** All or nothing *)

(** C4. Gang scheduling is all or nothing, whatever pods are scheduled, rejected,
    deleted or completed, as long as no waiting pod is rejected and no pod that
    was let through leaves between the snapshot of a cycle and its [Permit], and
    the group's object does not change. A pod of a group waits only while fewer
    pods of the group than its minimum are on nodes; whenever pods of the group
    are let through, the group then has its minimum of them bound or binding and
    none waiting; and of a group that had no pods on nodes at first, either none
    has ever been let through or at least the minimum of different pods. *)
Theorem gang_all_or_nothing getPG listPods scheduleTimeout ns name pg pods s :
  getPG ns name = Some pg -> pg_name pg = name /\ pg_namespace pg = ns ->
  name <> "" -> no_slash ns = true ->
  NoDup pods -> Forall (fun p => pod_node p <> "" /\ no_slash (pod_namespace p) = true) pods ->
  gang_run getPG listPods scheduleTimeout true (gang_start pods) s ->
  (members ns name (g_waiting s) = [] \/
   Z.of_nat (length (members ns name (g_pods s))) < pg_min_member pg) /\
  (forall s' p, gang_step getPG listPods scheduleTimeout true s s' ->
     member ns name p = true -> p ∈ g_allowed s' -> p ∉ g_allowed s ->
     members ns name (g_waiting s') = [] /\
     pg_min_member pg <= Z.of_nat (length (members ns name (g_allowed s')))) /\
  (members ns name pods = [] -> none_or_enough ns name pg (g_allowed s ++ g_gone s)).
Proof.
  intros Hf Hn Hne Hns Hnd Hpl Hrun.
  pose proof (gang_run_keeps getPG listPods scheduleTimeout ns name pg Hf Hn Hne Hns pods s Hnd Hpl Hrun) as Hok.
  split_and!.
  - destruct (gang_quorum ns name pg s Hok) as [?|Hq]; [by left|right]. unfold quorum in Hq. lia.
  - intros s' p Hstep. by apply (gang_step_through getPG listPods scheduleTimeout ns name pg Hf Hn Hne Hns s s' p Hok).
  - intros Hm. by eapply (gang_run_ever getPG listPods scheduleTimeout ns name pg Hf Hn Hne Hns pods s).
Qed.

(** One cycle: a snapshot in which one node holds all pods, then [Permit]. *)
Lemma one_cycle atomic s0 s p :
  gang_run demo_groups demo_list 60 atomic s0 s -> p ∉ g_pods s -> pod_node p <> "" ->
  no_slash (pod_namespace p) = true -> Z.of_nat (length (g_pods s)) < 2147483646 ->
  gang_run demo_groups demo_list 60 atomic s0
    (after_permit (Permit demo_groups demo_list 60 (Ok [node_of (g_pods s) 0 0]) (g_waiting s) p
       false None) p
       {| g_pods := g_pods s; g_snapshot := Some [node_of (g_pods s) 0 0]; g_waiting := g_waiting s;
          g_allowed := g_allowed s; g_gone := g_gone s |}).
Proof.
  intros Hr ? ? ? ?. eapply gang_more; [eapply gang_more; [exact Hr|]|].
  - apply (gang_snapshot _ _ _ _ _ [node_of (g_pods s) 0 0]). cbn. by rewrite app_nil_r.
  - by apply (gang_permit _ _ _ _ {| g_pods := g_pods s;
      g_snapshot := Some [node_of (g_pods s) 0 0]; g_waiting := g_waiting s;
      g_allowed := g_allowed s; g_gone := g_gone s |} [node_of (g_pods s) 0 0]).
Qed.

Definition t3 : Pod := grouped "train" "t3" "n1".

(** The first pod waits, the second lets both through. *)
Definition both_through : Gang :=
  {| g_pods := [t2; t1]; g_snapshot := None; g_waiting := []; g_allowed := [t1; t2]; g_gone := [] |}.

Lemma both_through_run : gang_run demo_groups demo_list 60 true (gang_start []) both_through.
Proof.
  change (gang_run demo_groups demo_list 60 true (gang_start [])
    (after_permit (Permit demo_groups demo_list 60 (Ok [node_of [t1] 0 0]) [t1] t2 false None) t2
       {| g_pods := [t1]; g_snapshot := Some [node_of [t1] 0 0]; g_waiting := [t1]; g_allowed := [];
          g_gone := [] |})).
  apply (one_cycle true (gang_start [])
    {| g_pods := [t1]; g_snapshot := None; g_waiting := [t1]; g_allowed := []; g_gone := [] |}); try done.
  - apply (one_cycle true (gang_start []) (gang_start []) t1); try done; [apply gang_here|].
    apply not_elem_of_nil.
  - cbn. rewrite list_elem_of_singleton. done.
Qed.

(** Both leave, and a third pod has to wait for another one. *)
Definition third_waits : Gang :=
  {| g_pods := [t3]; g_snapshot := None; g_waiting := [t3]; g_allowed := []; g_gone := [t1; t2] |}.

Lemma third_waits_run : gang_run demo_groups demo_list 60 true (gang_start []) third_waits.
Proof.
  apply (one_cycle true (gang_start [])
    {| g_pods := []; g_snapshot := None; g_waiting := []; g_allowed := []; g_gone := [t1; t2] |} t3); try done;
    [|apply not_elem_of_nil].
  eapply gang_more; [eapply gang_more; [exact both_through_run|]|].
  - apply (gang_leave _ _ _ _ both_through t1); [by left|done].
  - apply (gang_leave _ _ _ _ {| g_pods := [t2]; g_snapshot := None; g_waiting := []; g_allowed := [t2];
      g_gone := [t1] |} t2); [by left|done].
Qed.

Lemma gang_all_or_nothing_witness :
  (members "ml" "train" (g_waiting both_through) = [] \/
   Z.of_nat (length (members "ml" "train" (g_pods both_through))) < 2) /\
  g_waiting third_waits = [t3] /\ Z.of_nat (length (members "ml" "train" (g_pods third_waits))) < 2 /\
  none_or_enough "ml" "train" (group "train" 5 2) [t1; t2].
Proof.
  pose proof (fun s => gang_all_or_nothing demo_groups demo_list 60 "ml" "train" (group "train" 5 2) [] s
    eq_refl (conj eq_refl eq_refl) ltac:(done) eq_refl (NoDup_nil_2) (List.Forall_nil _)) as H.
  split; [exact (proj1 (H both_through both_through_run))|].
  destruct (H third_waits third_waits_run) as (H1 & _ & H3).
  split; [reflexivity|]. split; [destruct H1 as [H1|H1]; [vm_compute in H1; discriminate|exact H1]|].
  exact (H3 eq_refl).
Defined.

(** The condition is needed: when a waiting pod times out after the next
    pod's snapshot, [Permit] still counts it, and the next pod is let through
    alone although its group needs two. *)
Theorem stale_snapshot_breaks_gang :
  exists s, gang_run demo_groups demo_list 60 false (gang_start []) s /\
    g_allowed s = [t2] /\ g_pods s = [t2] /\ g_gone s = [] /\
    (pg_min_member <$> demo_groups "ml" "train") = Some 2.
Proof.
  set (waits := {| g_pods := [t1]; g_snapshot := None; g_waiting := [t1]; g_allowed := []; g_gone := [] |}).
  set (seen := {| g_pods := [t1]; g_snapshot := Some [node_of [t1] 0 0]; g_waiting := [t1];
                  g_allowed := []; g_gone := [] |}).
  set (gone := {| g_pods := []; g_snapshot := Some [node_of [t1] 0 0]; g_waiting := [];
                  g_allowed := []; g_gone := [] |}).
  exists {| g_pods := [t2]; g_snapshot := None; g_waiting := []; g_allowed := [t2]; g_gone := [] |}.
  split_and!; try done. eapply (gang_more _ _ _ _ _ gone).
  - eapply (gang_more _ _ _ _ _ seen).
    + eapply (gang_more _ _ _ _ _ waits).
      * apply (one_cycle false (gang_start []) (gang_start []) t1); try done; [apply gang_here|].
        apply not_elem_of_nil.
      * by apply (gang_snapshot _ _ _ _ waits [node_of [t1] 0 0]).
    + apply (gang_reject _ _ _ _ seen t1); [by left|done].
  - apply (gang_permit demo_groups demo_list 60 false gone [node_of [t1] 0 0] t2 false None); try done.
    apply not_elem_of_nil.
Qed.

(** ** The resource check *)

(** C22. Where no node has a negative amount left, [CheckClusterResource] accepts
    a request exactly when, for every name, the nodes together have it left;
    nodes without a node object do not count. *)
Theorem check_cluster_exact charge nodes req desired :
  (exists n, n ∈ nodes /\ ni_has_node n = true) ->
  (forall name q, req !! name = Some q ->
    0 < q /\ forall x, x ∈ lefts charge desired name nodes -> 0 <= x) ->
  CheckClusterResource charge nodes req desired = Ok tt <->
  forall name q, req !! name = Some q -> q <= sumZ id (lefts charge desired name nodes).
Proof.
  intros Hnode Hpos. destruct (decide (req = ∅)) as [->|Hne].
  - split; [intros _ name q; by rewrite lookup_empty|]. intros _. by apply check_empty.
  - rewrite check_nonempty by done. split; intros H name q Hq; specialize (H name q Hq);
      destruct (Hpos name q Hq) as [Hq0 Hl]; rewrite covered_nonneg in * by done.
    + by apply bool_decide_eq_true in H.
    + by apply bool_decide_eq_true.
Qed.

Definition no_charge (_ : Pod) : Resource := zero_resource.

Lemma check_cluster_exact_witness :
  let nodes := [node_of [] 1000 2000; node_of [] 0 1500] in
  CheckClusterResource no_charge nodes {[ "cpu" := NewMilliQuantity 2500 ]} "ml/train" = Ok tt <->
  forall name q, ({[ "cpu" := NewMilliQuantity 2500 ]} : ResourceList) !! name = Some q ->
    q <= sumZ id (lefts no_charge "ml/train" name nodes).
Proof.
  apply (check_cluster_exact no_charge [node_of [] 1000 2000; node_of [] 0 1500]
           {[ "cpu" := NewMilliQuantity 2500 ]} "ml/train").
  - eexists. split; [by left|reflexivity].
  - intros name q [<- <-]%lookup_singleton_Some. split; [reflexivity|].
    intros x Hx. vm_compute in Hx. repeat apply elem_of_cons in Hx as [->|Hx];
      [..|by apply not_elem_of_nil in Hx]; vm_compute; discriminate.
Defined.

(** An overcommitted node makes the check depend on the order of the nodes:
    after it a request is refused that is accepted before it, and accepting it
    ignores what the later node is short of. *)
Theorem check_depends_on_node_order :
  let short := node_of [] 3000 1000 in
  let free := node_of [] 0 5000 in
  let req := {[ "cpu" := NewMilliQuantity 4000 ]} in
  CheckClusterResource no_charge [free; short] req "ml/train" = Ok tt /\
  exists e, CheckClusterResource no_charge [short; free] req "ml/train" = Err e.
Proof. split; [vm_compute; reflexivity|]. eexists. vm_compute. reflexivity. Qed.

(** What [getNodeResource] finds left of a node is its allocatable amount
    less the requests of the pods outside the group, and for pods their number:
    the pods of the group count as if they were not there yet. *)
Theorem node_left_excludes_group charge desired info d :
  keyed (ni_pods info) -> res_int64 (ni_requested info) -> res_int64 (ni_allocatable info) ->
  node_dim d info = true ->
  get d (ni_requested info) = int64 (sumZ (fun p => get d (charge p)) (ni_pods info)) ->
  get d (getNodeResource charge info desired) = match d with
    | DimPods => int64 (get d (ni_allocatable info) - Z.of_nat (length (others desired info)))
    | _ => int64 (get d (ni_allocatable info) - sumZ (fun p => get d (charge p)) (others desired info))
    end.
Proof.
  intros Hk Hr Ha Hd Hreq. rewrite node_resource, Hd, Hreq by done.
  assert (sumZ (fun p => get d (charge p)) (ni_pods info)
          = sumZ (fun p => get d (charge p)) (List.filter (in_group desired) (ni_pods info))
            + sumZ (fun p => get d (charge p)) (others desired info)) as Hsum.
  { rewrite <- sumZ_app. by rewrite <- filter_split. }
  rewrite Hsum. set (a := get d (ni_allocatable info)). set (b := sumZ _ (others desired info)).
  set (c := sumZ _ (List.filter _ _)).
  assert (int64 (a - (int64 (c + b) - c)) = int64 (a - b)) as H.
  { replace (a - (int64 (c + b) - c)) with (a + c - int64 (c + b)) by lia. int64_ring. }
  by destruct d.
Qed.

(** Two pods of "train" and one other pod, each charged 1000. *)
Lemma node_left_excludes_group_witness :
  get DimCPU (getNodeResource (fun _ => cpu 1000)
    (node_of [t1; grouped "infer" "i1" "n1"; t2] 3000 8000) "ml/train")
  = int64 (8000 - sumZ (fun p => 1000) [grouped "infer" "i1" "n1"]).
Proof.
  apply (node_left_excludes_group (fun _ => cpu 1000) "ml/train"
    (node_of [t1; grouped "infer" "i1" "n1"; t2] 3000 8000) DimCPU).
  - split; [by apply (bool_decide_unpack _); vm_compute|].
    intros p Hp. cbn in Hp. repeat apply elem_of_cons in Hp as [->|Hp];
      [..|by apply not_elem_of_nil in Hp]; done.
  - intros d. by destruct d.
  - intros d. by destruct d.
  - reflexivity.
  - reflexivity.
Defined.

(** ** The queue *)

(** [Less] orders the queue: it is irreflexive and transitive, two pods of
    different names are comparable, and the pods of a group form a block: a pod
    that comes from another time or priority is on the same side of all pods of
    the group that have one priority. *)
Theorem less_orders_queue getPG (p1 p2 p3 : Pod * Z) :
  let lt a b := Less getPG a.1 a.2 b.1 b.2 in
  lt p1 p1 = false /\
  (lt p1 p2 = true -> lt p2 p3 = true -> lt p1 p3 = true) /\
  (GetNamespacedName p1.1 <> GetNamespacedName p2.1 -> lt p1 p2 = true \/ lt p2 p1 = true) /\
  (PodPriority p1.1 = PodPriority p2.1 -> group_time getPG p1 = group_time getPG p2 ->
   PodPriority p3.1 <> PodPriority p1.1 \/ group_time getPG p3 <> group_time getPG p1 ->
   lt p1 p3 = lt p2 p3 /\ lt p3 p1 = lt p3 p2).
Proof.
  intros lt. split_and!.
  - apply not_true_iff_false. unfold lt. rewrite Less_spec, ltb_true.
    intros [?|[_ [?|[_ [_ ?]]]]]; [lia|lia|done].
  - unfold lt. rewrite !Less_spec.
    intros [H1|[H1 [H2|[H2 H3]]]] [G1|[G1 [G2|[G2 G3]]]];
      try (left; lia); right; (split; [lia|]); try (left; lia).
    right. split; [lia|]. by eapply ltb_trans.
  - intros Hne. unfold lt. rewrite !Less_spec.
    destruct (Z.lt_trichotomy (PodPriority p1.1) (PodPriority p2.1)) as [?|[E|?]]; [auto| |auto].
    destruct (Z.lt_trichotomy (group_time getPG p1) (group_time getPG p2)) as [?|[E2|?]];
      [naive_solver| |naive_solver].
    destruct (ltb_total _ _ Hne); [left|right]; right; auto.
  - intros Hp Ht H3. unfold lt. split; apply eq_iff_eq_true; rewrite !Less_spec;
      split; intros [?|[? [?|[? _]]]]; first [left; lia|right; split; [lia|left; lia]|lia].
Qed.

Lemma less_orders_queue_witness :
  let lt a b := Less demo_groups a.1 a.2 b.1 b.2 in
  lt (t1, 0) (grouped "batch" "a0" "", 0) = lt (t2, 7) (grouped "batch" "a0" "", 0) /\
  lt (grouped "batch" "a0" "", 0) (t1, 0) = lt (grouped "batch" "a0" "", 0) (t2, 7).
Proof.
  refine (proj2 (proj2 (proj2 (less_orders_queue demo_groups (t1, 0) (t2, 7)
    (grouped "batch" "a0" "", 0)))) _ _ _); [reflexivity|reflexivity|right; vm_compute; discriminate].
Defined.

(** Two groups created in the same second are not kept apart: the pods'
    names decide, and the groups interleave in the queue. *)
Theorem same_second_groups_interleave :
  let lt a b := Less demo_groups a 0 b 0 in
  lt (grouped "train" "a1" "") (grouped "infer" "a2" "") = true /\
  lt (grouped "infer" "a2" "") (grouped "train" "a3" "") = true /\
  lt (grouped "train" "a3" "") (grouped "infer" "a4" "") = true.
Proof. vm_compute. by split_and!. Qed.

(** ** Rejection *)

(** When a pod of a group without quorum cannot be scheduled, [PostFilter]
    rejects the waiting pods of the group and no others, forgets that the group
    fitted, and, when enough of its pods exist, holds the group back: for the
    backoff time the manager's [PreFilter] fails for every pod of it, and not
    because of this entry afterwards. *)
Theorem rejected_group_backs_off getPG listPods charge scheduleTimeout now nodes waiting pod m
    full pg pods d :
  GetPodGroup getPG pod = (full, Some pg) ->
  CalculateAssignedPods nodes (pg_name pg) (pod_namespace pod) < pg_min_member pg ->
  small_gap (pg_min_member pg) (CalculateAssignedPods nodes (pg_name pg) (pod_namespace pod)) = false ->
  listPods (pod_namespace pod) (GetPodGroupLabel pod) = Ok pods ->
  pg_min_member pg <= Z.of_nat (length pods) ->
  0 <= now -> 0 < d -> cache_get now full (backedOffPG m) = false ->
  let '(status, rejected, m') := PostFilter getPG listPods (Some d) now nodes waiting pod m in
  status = NewStatus Unschedulable /\
  (forall w, w ∈ rejected <->
     w ∈ waiting /\ pod_namespace w = pod_namespace pod /\ GetPodGroupLabel w = pg_name pg) /\
  (forall t, cache_get t full (permittedPG m') = false) /\
  (forall t, cache_get t full (backedOffPG m') = bool_decide (t <= now + d)) /\
  (forall t nodes' p', GetPodGroup getPG p' = (full, Some pg) -> t <= now + d ->
     exists e, PreFilter getPG listPods charge scheduleTimeout t nodes' p' m' = (Err e, m')).
Proof.
  intros Hpg Ha Hgap Hl Hlen Hnow Hd Hfresh. unfold PostFilter. rewrite Hpg.
  rewrite (proj2 (Z.leb_gt _ _) Ha), Hgap, Hl, (proj2 (Z.leb_le _ _) Hlen).
  unfold BackoffPodGroup, DeletePermittedPodGroup, cache_add. rewrite bool_decide_eq_false_2 by lia.
  rewrite Hfresh. cbn [permittedPG backedOffPG].
  assert (forall t, cache_get t full {| cache_default := cache_default (backedOffPG m);
    cache_items := <[full := if 0 <? d then now + d else 0]> (cache_items (backedOffPG m)) |}
    = bool_decide (t <= now + d)) as Hget.
  { intros t. unfold cache_get. cbn [cache_items]. rewrite lookup_insert_eq.
    rewrite (proj2 (Z.ltb_lt _ _) Hd), (proj2 (Z.ltb_lt 0 (now + d)) ltac:(lia)). cbn [andb].
    rewrite Z.ltb_antisym, negb_involutive. destruct (Z.leb_spec t (now + d));
      [by rewrite bool_decide_eq_true_2|by rewrite bool_decide_eq_false_2 by lia]. }
  split_and!; [done|..].
  - intros w. unfold waiting_of. rewrite filter_in, andb_true_iff, !bool_decide_eq_true. tauto.
  - intros t. unfold cache_get. cbn. by rewrite lookup_delete_eq.
  - exact Hget.
  - intros t nodes' p' Hp' Ht. unfold PreFilter. rewrite Hp'. cbn [backedOffPG].
    rewrite Hget, bool_decide_eq_true_2 by done. eauto.
Qed.

Definition no_manager : PodGroupManager := NewPodGroupManager.

(** "batch" needs three pods, one is waiting; its backoff is 10 s. *)
Lemma rejected_group_backs_off_witness :
  let b := grouped "batch" "b1" "n1" in
  let nodes := Ok [node_of [b] 0 0] in
  let '(status, rejected, m') :=
    PostFilter demo_groups demo_list (Some 10) 100 nodes [t1; b] (grouped "batch" "b2" "") no_manager in
  status = NewStatus Unschedulable /\
  (forall w, w ∈ rejected <->
     w ∈ [t1; b] /\ pod_namespace w = "ml" /\ GetPodGroupLabel w = "batch") /\
  (forall t, cache_get t "ml/batch" (permittedPG m') = false) /\
  (forall t, cache_get t "ml/batch" (backedOffPG m') = bool_decide (t <= 110)) /\
  (forall t nodes' p', GetPodGroup demo_groups p' = ("ml/batch", Some (group "batch" 9 3)) -> t <= 110 ->
     exists e, PreFilter demo_groups demo_list no_charge 60 t nodes' p' m' = (Err e, m')).
Proof.
  intros b nodes.
  apply (rejected_group_backs_off demo_groups demo_list no_charge 60 100 nodes [t1; b]
    (grouped "batch" "b2" "") no_manager "ml/batch" (group "batch" 9 3)
    [grouped "batch" "t1" ""; grouped "batch" "t2" ""; grouped "batch" "t3" ""] 10);
    try reflexivity; vm_compute; discriminate.
Defined.

Definition gaps_exact (m : nat) : bool :=
  forallb (fun a => Bool.eqb (small_gap (Z.of_nat m) (Z.of_nat a))
                      (10 * (Z.of_nat m - Z.of_nat a) <=? Z.of_nat m)) (seq 0 m).

Lemma gaps_exact_128 : forallb gaps_exact (seq 1 128) = true.
Proof. vm_compute. reflexivity. Qed.

(** The single-precision comparison of [PostFilter] is exact for groups of
    up to 128 pods: the gap is small when at most a tenth of the minimum is
    missing. In particular a group of fewer than ten pods has no small gap. *)
Theorem small_gap_is_a_tenth m a :
  0 < m <= 128 -> 0 <= a < m -> small_gap m a = (10 * (m - a) <=? m).
Proof.
  intros Hm Ha. pose proof gaps_exact_128 as H. rewrite forallb_forall in H.
  specialize (H (Z.to_nat m) ltac:(apply in_seq; lia)). unfold gaps_exact in H.
  rewrite forallb_forall in H. specialize (H (Z.to_nat a) ltac:(apply in_seq; lia)).
  apply Bool.eqb_prop in H. by rewrite !Z2Nat.id in H by lia.
Qed.

Lemma small_gap_is_a_tenth_witness :
  small_gap 30 27 = (10 * (30 - 27) <=? 30) /\ small_gap 30 26 = (10 * (30 - 26) <=? 30).
Proof. split; apply small_gap_is_a_tenth; lia. Defined.
