(* ===== verification/PodGroupController.v ===== *)
(** * The controller of pod groups

    [scheduler-plugins/pkg/controllers/podgroup_controller.go]: the phase of a
    group follows the phases of its pods. One call of [Reconcile] is a function
    of what the API server answers: the group, the listed pods and the two
    patches. *)

From stdpp Require Import sorting.
From S2P Require Import Prelude.
From S2P Require Import KubeTypes.
From S2P Require Import Coscheduling.

(** [v1alpha1.PodGroupPhase]; a group without a phase is new. *)
Inductive PodGroupPhase :=
| PodGroupNew | PodGroupPending | PodGroupRunning | PodGroupScheduling | PodGroupUnknown
| PodGroupFinished | PodGroupFailed.

#[export] Instance PodGroupPhase_eq_dec : EqDecision PodGroupPhase.
Proof. solve_decision. Defined.

Record PodGroupStatus := {
  pgs_phase : PodGroupPhase;
  pgs_occupied_by : string;
  pgs_running : Z;       (* int32 *)
  pgs_succeeded : Z;
  pgs_failed : Z;
  pgs_schedule_start : Z;
}.

(** The group with its status. *)
Record PodGroupObject := { pgo_group : PodGroup; pgo_status : PodGroupStatus }.

Definition set_phase (p : PodGroupPhase) (s : PodGroupStatus) : PodGroupStatus := {|
  pgs_phase := p; pgs_occupied_by := pgs_occupied_by s; pgs_running := pgs_running s;
  pgs_succeeded := pgs_succeeded s; pgs_failed := pgs_failed s;
  pgs_schedule_start := pgs_schedule_start s |}.

Definition set_stats (stats : Z * Z * Z) (s : PodGroupStatus) : PodGroupStatus :=
  let '(running, succeeded, failed) := stats in {|
  pgs_phase := pgs_phase s; pgs_occupied_by := pgs_occupied_by s; pgs_running := running;
  pgs_succeeded := succeeded; pgs_failed := failed; pgs_schedule_start := pgs_schedule_start s |}.

Definition set_occupied (o : string) (s : PodGroupStatus) : PodGroupStatus := {|
  pgs_phase := pgs_phase s; pgs_occupied_by := o; pgs_running := pgs_running s;
  pgs_succeeded := pgs_succeeded s; pgs_failed := pgs_failed s;
  pgs_schedule_start := pgs_schedule_start s |}.

(** The loop's counters are int32. *)
Definition count_pod (acc : Z * Z * Z) (p : Pod) : Z * Z * Z :=
  let '(running, succeeded, failed) := acc in
  match pod_phase p with
  | PodRunning => (int32 (running + 1), succeeded, failed)
  | PodSucceeded => (running, int32 (succeeded + 1), failed)
  | PodFailed => (running, succeeded, int32 (failed + 1))
  | _ => acc
  end.

Definition getCurrentPodStats (pods : list Pod) : Z * Z * Z := foldl count_pod (0, 0, 0) pods.

(** [sort.Strings] and [strings.Join]. *)
Definition fillOccupiedObj (pod : Pod) (s : PodGroupStatus) : PodGroupStatus :=
  match meta_owners (pod_meta pod) with
  | [] => s
  | owners =>
      let refs := (fun o => full_name (pod_namespace pod) (owner_name o)) <$> owners in
      set_occupied (String.concat "," (merge_sort String.le refs)) s
  end.

(** The [switch] on the phase; [None] is the panic of [pods[0]] on an empty
    list. *)
Definition next_status (min : Z) (pods : list Pod) (s : PodGroupStatus) : option PodGroupStatus :=
  match pgs_phase s with
  | PodGroupNew => Some (set_phase PodGroupPending s)
  | PodGroupPending =>
      if min <=? Z.of_nat (length pods) then
        match pods with
        | [] => None
        | pod :: _ => Some (fillOccupiedObj pod (set_phase PodGroupScheduling s))
        end
      else Some s
  | _ =>
      let s := set_stats (getCurrentPodStats pods) s in
      if Z.of_nat (length pods) <? min then Some (set_phase PodGroupPending s)
      else
        let quorum := int32 (pgs_succeeded s + pgs_running s) in
        let all := int32 (int32 (pgs_failed s + pgs_running s) + pgs_succeeded s) in
        let s := if quorum <? min then set_phase PodGroupScheduling s else s in
        let s := if min <=? quorum then set_phase PodGroupRunning s else s in
        let s := if bool_decide (pgs_failed s <> 0) && (min <=? all)
                 then set_phase PodGroupFailed s else s in
        Some (if min <=? pgs_succeeded s then set_phase PodGroupFinished s else s)
  end.

Definition is_final (p : PodGroupPhase) : bool :=
  bool_decide (p = PodGroupFinished) || bool_decide (p = PodGroupFailed).

(** A group that started being scheduled two days after its creation and has
    nothing running is left alone; times are in nanoseconds. *)
Definition timed_out (o : PodGroupObject) : bool :=
  let s := pgo_status o in
  (bool_decide (pgs_phase s = PodGroupScheduling) || bool_decide (pgs_phase s = PodGroupPending)) &&
  bool_decide (pgs_running s = 0) &&
  (48 * 3600 * Second <? pgs_schedule_start s - pg_created (pgo_group o)).

(** What a call leaves stored, and its error; [None] is a panic. [list] is the
    client's list of the pods with a group label, in every namespace;
    [patchStatus] and [patch] answer the two writes of the changed object. *)
Definition patchPodGroup (patchStatus patch : result unit) (old new : PodGroupObject)
    : PodGroupObject * option ApiError :=
  match patchStatus with
  | Err e => (old, Some e)
  | Ok _ => (new, match patch with Err e => Some e | Ok _ => None end)
  end.

Definition Reconcile (list : string -> result (list Pod)) (patchStatus patch : result unit)
    (o : PodGroupObject) : option (PodGroupObject * option ApiError) :=
  if is_final (pgs_phase (pgo_status o)) then Some (o, None)
  else if timed_out o then Some (o, None)
  else
    match list (pg_name (pgo_group o)) with
    | Err e => Some (o, Some e)
    | Ok pods =>
        match next_status (pg_min_member (pgo_group o)) pods (pgo_status o) with
        | None => None
        | Some s =>
            Some (patchPodGroup patchStatus patch o {| pgo_group := pgo_group o; pgo_status := s |})
        end
    end.

(** The whole handler: the group may be gone or unreadable. *)
Definition reconcile_request (get : result PodGroupObject) (list : string -> result (list Pod))
    (patchStatus patch : result unit) : option (option PodGroupObject * option ApiError) :=
  match get with
  | Err e => Some (None, if IsNotFound e then None else Some e)
  | Ok o =>
      match Reconcile list patchStatus patch o with
      | None => None
      | Some (o, e) => Some (Some o, e)
      end
  end.

(** [podToPodGroup]: the group a pod's event concerns. *)
Definition podToPodGroup (pod : Pod) : list (string * string) :=
  if bool_decide (GetPodGroupLabel pod = "") then []
  else [(pod_namespace pod, GetPodGroupLabel pod)].
