(* ===== verification/QuotaController.v ===== *)
(** * The controller of elastic quotas

    [scheduler-plugins/pkg/controllers/elasticquota_controller.go], with the
    operations on resource lists it uses
    ([vendor/k8s.io/apiserver/pkg/quota/v1/resources.go]). Quantities are
    exact: the controller adds them without rounding. *)

From S2P Require Import Prelude.
From S2P Require Import KubeTypes.
From S2P Require Import Capacity.

(** [quota.Add] and [quota.Max]: the names of either list. *)
Definition quota_Add (a b : ResourceList) : ResourceList := union_with (fun x y => Some (x + y)) a b.
Definition quota_Max (a b : ResourceList) : ResourceList :=
  union_with (fun x y => Some (Z.max x y)) a b.

(** The sum with the overhead is computed and dropped. *)
Definition computePodResourceRequest (pod : Pod) : ResourceList :=
  let result := foldl quota_Add ∅ (spec_containers (pod_spec pod)) in
  let initRes := foldl quota_Max ∅ (spec_init_containers (pod_spec pod)) in
  quota_Max result initRes.

Definition newZeroUsed (eq : ElasticQuota) : ResourceList :=
  let zeros (l : option ResourceList) := (fun _ => 0) <$> default ∅ l in
  zeros (quota_max eq) ∪ zeros (quota_min eq).

Definition used_turn (used : ResourceList) (p : Pod) : ResourceList :=
  if bool_decide (pod_phase p = PodRunning) then quota_Add used (computePodResourceRequest p) else used.

Definition computeElasticQuotaUsed (pods : result (list Pod)) (eq : ElasticQuota) : result ResourceList :=
  match pods with
  | Err e => Err e
  | Ok pods => Ok (foldl used_turn (newZeroUsed eq) pods)
  end.

(** One call, on what the API server answers: the quotas and the pods of the
    namespace, and the patch of the status. [stored] is the status of the first
    quota; the result is what it is afterwards, and the error. *)
Definition Reconcile (eqs : result (list (ElasticQuota * ResourceList))) (pods : result (list Pod))
    (patch : result unit) : option ResourceList * option ApiError :=
  match eqs with
  | Err e => (None, if IsNotFound e then None else Some e)
  | Ok [] => (None, None)
  | Ok ((eq, stored) :: _) =>
      match computeElasticQuotaUsed pods eq with
      | Err e => (Some stored, Some e)
      | Ok used =>
          if bool_decide (used = stored) then (Some stored, None)
          else match patch with Err e => (Some stored, Some e) | Ok _ => (Some used, None) end
      end
  end.
