(* ===== verification/ControllerClaims.v ===== *)
(** * The properties of the controllers of pod groups and elastic quotas *)

From S2P Require Import Prelude.
From S2P Require Import KubeTypes.
From S2P Require Import Framework.
From S2P Require Import Resource.
From S2P Require Import Capacity.
From S2P Require Import Coscheduling.
From S2P Require Import PodGroupController.
From S2P Require Import QuotaController.

(** ** Counting pods *)

Definition in_phase (ph : PodPhase) (pods : list Pod) : Z :=
  sumZ (fun p => if bool_decide (pod_phase p = ph) then 1 else 0) pods.

Lemma in_phase_bounds ph pods : 0 <= in_phase ph pods <= Z.of_nat (length pods).
Proof.
  unfold in_phase. induction pods as [|p pods IH]; [done|]. rewrite sumZ_cons. cbn [length].
  case_bool_decide; lia.
Qed.

Lemma stats_exact pods :
  Z.of_nat (length pods) < 2147483648 ->
  getCurrentPodStats pods
  = (in_phase PodRunning pods, in_phase PodSucceeded pods, in_phase PodFailed pods).
Proof.
  unfold getCurrentPodStats. induction pods as [|p pods IH] using rev_ind; intros Hl; [done|].
  rewrite length_app in Hl. cbn in Hl. rewrite foldl_app, IH by lia. cbn [foldl].
  assert (forall ph, in_phase ph (pods ++ [p])
    = in_phase ph pods + if bool_decide (pod_phase p = ph) then 1 else 0) as Hs.
  { intros ph. unfold in_phase. rewrite sumZ_app, sumZ_cons, sumZ_nil. lia. }
  rewrite !Hs. pose proof (in_phase_bounds PodRunning pods).
  pose proof (in_phase_bounds PodSucceeded pods). pose proof (in_phase_bounds PodFailed pods).
  unfold count_pod. destruct (pod_phase p); rewrite ?int32_id by (unfold in_int32; lia);
    repeat (rewrite bool_decide_eq_true_2 by done || rewrite bool_decide_eq_false_2 by done);
    by rewrite ?Z.add_0_r.
Qed.

(** Every pod is in one phase. *)
Lemma phases_bound pods :
  in_phase PodRunning pods + in_phase PodSucceeded pods + in_phase PodFailed pods
  <= Z.of_nat (length pods).
Proof.
  unfold in_phase. induction pods as [|p pods IH]; [done|]. rewrite !sumZ_cons. cbn [length].
  repeat case_bool_decide; first [lia|congruence].
Qed.

(** ** The phase of a group *)

(** The phase the pods call for. *)
Definition phase_of (min : Z) (pods : list Pod) : PodGroupPhase :=
  let running := in_phase PodRunning pods in
  let succeeded := in_phase PodSucceeded pods in
  let failed := in_phase PodFailed pods in
  if Z.of_nat (length pods) <? min then PodGroupPending
  else if min <=? succeeded then PodGroupFinished
  else if bool_decide (failed <> 0) && (min <=? failed + running + succeeded) then PodGroupFailed
  else if min <=? succeeded + running then PodGroupRunning
  else PodGroupScheduling.

Definition counted_status (min : Z) (pods : list Pod) (s : PodGroupStatus) : PodGroupStatus :=
  set_phase (phase_of min pods)
    (set_stats (in_phase PodRunning pods, in_phase PodSucceeded pods, in_phase PodFailed pods) s).

Lemma next_status_counts min pods s :
  Z.of_nat (length pods) < 2147483648 ->
  pgs_phase s <> PodGroupNew -> pgs_phase s <> PodGroupPending ->
  next_status min pods s = Some (counted_status min pods s).
Proof.
  intros Hl H1 H2. unfold next_status, counted_status, phase_of.
  pose proof (phases_bound pods). pose proof (in_phase_bounds PodRunning pods).
  pose proof (in_phase_bounds PodSucceeded pods). pose proof (in_phase_bounds PodFailed pods).
  rewrite stats_exact by done. cbn [set_stats pgs_succeeded pgs_running pgs_failed].
  rewrite !int32_id by (rewrite ?int32_id by (unfold in_int32; lia); unfold in_int32; lia).
  replace (in_phase PodFailed pods + in_phase PodRunning pods + in_phase PodSucceeded pods)
    with (in_phase PodFailed pods + in_phase PodRunning pods + in_phase PodSucceeded pods) by done.
  destruct (pgs_phase s); try done;
    (destruct (Z.ltb_spec (Z.of_nat (length pods)) min); [done|];
     destruct (Z.ltb_spec (in_phase PodSucceeded pods + in_phase PodRunning pods) min);
     destruct (Z.leb_spec min (in_phase PodSucceeded pods + in_phase PodRunning pods)); try lia;
     cbn [pgs_failed pgs_succeeded set_phase set_stats];
     destruct (bool_decide (in_phase PodFailed pods <> 0) && _); cbn [pgs_succeeded set_phase];
     destruct (Z.leb_spec min (in_phase PodSucceeded pods)); done).
Qed.

(** Repeated calls with the same answers of the API server. *)
Fixpoint reconcile_n (n : nat) (pods : list Pod) (o : PodGroupObject) : option PodGroupObject :=
  match n with
  | O => Some o
  | S n' =>
      match PodGroupController.Reconcile (fun _ => Ok pods) (Ok tt) (Ok tt) o with
      | Some (o', None) => reconcile_n n' pods o'
      | _ => None
      end
  end.

Lemma set_phase_same s : set_phase (pgs_phase s) s = s.
Proof. by destruct s. Qed.

Lemma counted_again min pods s :
  counted_status min pods (counted_status min pods s) = counted_status min pods s.
Proof. by destruct s. Qed.

(** One call, for a group that has not timed out. *)
Lemma reconcile_step pods o s :
  is_final (pgs_phase (pgo_status o)) = false -> timed_out o = false ->
  next_status (pg_min_member (pgo_group o)) pods (pgo_status o) = Some s ->
  PodGroupController.Reconcile (fun _ => Ok pods) (Ok tt) (Ok tt) o
  = Some ({| pgo_group := pgo_group o; pgo_status := s |}, None).
Proof. intros Hf Ht Hs. unfold PodGroupController.Reconcile. by rewrite Hf, Ht, Hs. Qed.

(** The group's scheduling did not start more than two days after its creation;
    no code sets that time, so it is the zero time. *)
Definition in_time (g : PodGroup) (s : PodGroupStatus) : Prop :=
  pgs_schedule_start s - pg_created g <= 48 * 3600 * Second.

Lemma timed_out_false o :
  in_time (pgo_group o) (pgo_status o) -> timed_out o = false.
Proof.
  unfold in_time. intros H. unfold timed_out. rewrite (proj2 (Z.ltb_ge _ _)) by done.
  apply andb_false_r.
Qed.

(** Once the pods are counted the group rests. *)
Lemma counted_rests pods g s :
  Z.of_nat (length pods) < 2147483648 -> in_time g s ->
  PodGroupController.Reconcile (fun _ => Ok pods) (Ok tt) (Ok tt)
    {| pgo_group := g; pgo_status := counted_status (pg_min_member g) pods s |}
  = Some ({| pgo_group := g; pgo_status := counted_status (pg_min_member g) pods s |}, None).
Proof.
  intros Hl Hs. set (o := {| pgo_group := g; pgo_status := _ |}).
  destruct (is_final (pgs_phase (pgo_status o))) eqn:F.
  { unfold PodGroupController.Reconcile. by rewrite F. }
  apply (reconcile_step pods o); [done|by apply timed_out_false|]. unfold o. cbn [pgo_status pgo_group].
  destruct (decide (phase_of (pg_min_member g) pods = PodGroupPending)) as [E|E].
  - unfold next_status, counted_status. cbn [pgs_phase set_phase]. rewrite E.
    assert (Z.of_nat (length pods) < pg_min_member g) as Hlt.
    { unfold phase_of in E. destruct (Z.ltb_spec (Z.of_nat (length pods)) (pg_min_member g)); [done|].
      destruct (_ <=? in_phase PodSucceeded pods); [done|]. destruct (_ && _); [done|].
      by destruct (_ <=? _). }
    rewrite (proj2 (Z.leb_gt _ _) Hlt). done.
  - rewrite next_status_counts by (done || (cbn; try done;
      unfold phase_of; repeat (case_match; try done))).
    by rewrite counted_again.
Qed.

Definition rests (pods : list Pod) (o : PodGroupObject) : Prop :=
  PodGroupController.Reconcile (fun _ => Ok pods) (Ok tt) (Ok tt) o = Some (o, None).

Definition settled (pods : list Pod) (g : PodGroup) (o : PodGroupObject) : Prop :=
  pgo_group o = g /\ pgs_phase (pgo_status o) = phase_of (pg_min_member g) pods /\ rests pods o.

Lemma rest_n k pods o : rests pods o -> reconcile_n k pods o = Some o.
Proof. intros H. induction k as [|k IH]; [done|]. cbn. unfold rests in H. by rewrite H. Qed.

Lemma more_steps n k pods o o' :
  reconcile_n n pods o = Some o' -> rests pods o' -> reconcile_n (n + k) pods o = Some o'.
Proof.
  revert o. induction n as [|n IH]; intros o; cbn; [intros [= ->]; by apply rest_n|].
  destruct (PodGroupController.Reconcile _ _ _ o) as [[o1 [e|]]|]; [done| |done]. apply IH.
Qed.

Lemma counted_settles pods g s :
  Z.of_nat (length pods) < 2147483648 -> in_time g s ->
  is_final (pgs_phase s) = false -> pgs_phase s <> PodGroupNew -> pgs_phase s <> PodGroupPending ->
  exists o, reconcile_n 1 pods {| pgo_group := g; pgo_status := s |} = Some o /\ settled pods g o.
Proof.
  intros Hl Hs Hf H1 H2.
  exists {| pgo_group := g; pgo_status := counted_status (pg_min_member g) pods s |}.
  split; [|by split_and!; [..|apply counted_rests]]. cbn [reconcile_n].
  rewrite (reconcile_step pods _ (counted_status (pg_min_member g) pods s));
    [done|done|by apply timed_out_false|by apply next_status_counts].
Qed.

Lemma pending_settles pods g s :
  0 < pg_min_member g -> Z.of_nat (length pods) < 2147483648 ->
  in_time g s -> pgs_phase s = PodGroupPending ->
  exists o, reconcile_n 2 pods {| pgo_group := g; pgo_status := s |} = Some o /\ settled pods g o.
Proof.
  intros Hmin Hl Hs Hp. set (o := {| pgo_group := g; pgo_status := s |}).
  assert (is_final (pgs_phase (pgo_status o)) = false) as Hf by (cbn; by rewrite Hp).
  pose proof (timed_out_false o Hs) as Ht.
  destruct (Z.leb_spec (pg_min_member g) (Z.of_nat (length pods))) as [Hle|Hlt].
  - destruct pods as [|p pods']; [cbn in Hle; lia|]. set (pods := p :: pods') in *.
    set (s1 := fillOccupiedObj p (set_phase PodGroupScheduling s)).
    assert (pgs_phase s1 = PodGroupScheduling /\ pgs_schedule_start s1 = pgs_schedule_start s) as [E1 E2]
      by (unfold s1, fillOccupiedObj; by destruct (meta_owners (pod_meta p))).
    destruct (counted_settles pods g s1) as (o' & Hr & Ho'); unfold in_time in *; rewrite ?E1, ?E2; try done.
    exists o'. split; [|done]. cbn [reconcile_n].
    rewrite (reconcile_step pods o s1); [done|done|done|]. unfold o, next_status. cbn [pgo_status pgo_group].
    rewrite Hp, (proj2 (Z.leb_le _ _) Hle). done.
  - assert (rests pods o) as Hr.
    { apply (reconcile_step pods o s); [done|done|]. unfold o, next_status. cbn [pgo_status pgo_group].
      by rewrite Hp, (proj2 (Z.leb_gt _ _) Hlt). }
    exists o. split; [by apply rest_n|]. split_and!; [done| |done]. cbn. rewrite Hp. unfold phase_of.
    by rewrite (proj2 (Z.ltb_lt _ _) Hlt).
Qed.

(** C18. The controller reaches the phase its pods call for and stays there. For
    a group with a positive minimum (with 0, which the API server's validation
    refuses, the controller panics on a group without pods) whose scheduling did
    not start more than two days after its creation, and fewer than 2^31 pods:
    from whatever phase that is not final, three calls on unchanging pods lead
    to [phase_of], and a further call changes nothing. That phase is Pending with
    fewer pods than the minimum; else Finished when the minimum succeeded; else
    Failed when a pod failed and the minimum failed, runs or succeeded; else
    Running when the minimum runs or succeeded; and else Scheduling, whether or
    not the pods are scheduled. *)
Theorem pod_group_settles pods o :
  0 < pg_min_member (pgo_group o) -> Z.of_nat (length pods) < 2147483648 ->
  is_final (pgs_phase (pgo_status o)) = false ->
  in_time (pgo_group o) (pgo_status o) ->
  exists o', reconcile_n 3 pods o = Some o' /\ pgo_group o' = pgo_group o /\
    pgs_phase (pgo_status o') = phase_of (pg_min_member (pgo_group o)) pods /\
    PodGroupController.Reconcile (fun _ => Ok pods) (Ok tt) (Ok tt) o' = Some (o', None).
Proof.
  intros Hmin Hl Hf Hs. destruct o as [g s]. cbn [pgo_group pgo_status] in *.
  assert (exists n o', (n <= 3)%nat /\ reconcile_n n pods {| pgo_group := g; pgo_status := s |} = Some o' /\
            settled pods g o') as (n & o' & Hn & Hr & H1 & H2 & H3).
  { destruct (decide (pgs_phase s = PodGroupNew)) as [E|E].
    - destruct (pending_settles pods g (set_phase PodGroupPending s)) as (o' & Hr & Ho'); try done.
      exists 3%nat, o'. split_and!; [lia| |done]. cbn [reconcile_n].
      rewrite (reconcile_step pods _ (set_phase PodGroupPending s)); [done|done|by apply timed_out_false|].
      unfold next_status. cbn. by rewrite E.
    - destruct (decide (pgs_phase s = PodGroupPending)) as [E2|E2].
      + destruct (pending_settles pods g s) as (o' & Hr & Ho'); try done.
        exists 2%nat, o'. split_and!; [lia|done|done].
      + destruct (counted_settles pods g s) as (o' & Hr & Ho'); try done.
        exists 1%nat, o'. split_and!; [lia|done|done]. }
  exists o'. split_and!; [|done|done|done].
  replace 3%nat with (n + (3 - n))%nat by lia. by apply more_steps.
Qed.

Definition demo_group (phase : PodGroupPhase) (min : Z) : PodGroupObject := {|
  pgo_group := {| pg_name := "train"; pg_namespace := "ml"; pg_created := 5; pg_min_member := min;
                  pg_min_resources := None; pg_schedule_timeout := None |};
  pgo_status := {| pgs_phase := phase; pgs_occupied_by := ""; pgs_running := 0; pgs_succeeded := 0;
                   pgs_failed := 0; pgs_schedule_start := 0 |} |}.

Definition pod_in (ns name : string) (phase : PodPhase) (containers : list ResourceList)
    (overhead : option ResourceList) : Pod := {|
  pod_meta := {| meta_name := name; meta_namespace := ns; meta_uid := "uid-" +:+ name;
    meta_labels := {[ PodGroupLabel := "train" ]}; meta_annotations := ∅; meta_owners := [];
    meta_deletion := None; meta_creation := 0; meta_resource_version := 0 |};
  pod_spec := {| spec_node_name := "n1"; spec_priority := None; spec_preempt_never := false; spec_priority_class := ""; spec_scheduler_name := "";
    spec_containers := containers; spec_init_containers := []; spec_overhead := overhead |};
  pod_status := {| pstatus_phase := phase; pstatus_nominated := ""; pstatus_start_time := None; pstatus_conditions := [] |} |}.

(** A new group with two running pods and one that waits is running in the end. *)
Definition three_pods : list Pod :=
  [pod_in "ml" "t1" PodRunning [] None; pod_in "ml" "t2" PodRunning [] None;
   pod_in "ml" "t3" PodPending [] None].

Lemma pod_group_settles_witness :
  phase_of 2 three_pods = PodGroupRunning /\
  exists o', reconcile_n 3 three_pods (demo_group PodGroupNew 2) = Some o' /\
    pgo_group o' = pgo_group (demo_group PodGroupNew 2) /\
    pgs_phase (pgo_status o') = phase_of 2 three_pods /\
    PodGroupController.Reconcile (fun _ => Ok three_pods) (Ok tt) (Ok tt) o' = Some (o', None).
Proof.
  split; [vm_compute; reflexivity|].
  apply (pod_group_settles three_pods (demo_group PodGroupNew 2)); unfold in_time; cbn; unfold Second; lia || reflexivity.
Defined.

(** Where the phases differ from their descriptions in the API: pods of which
    none is scheduled, a minimum of which only one pod runs, and a pod of the
    minimum that failed. *)
Example phases_as_coded :
  phase_of 2 [pod_in "ml" "t1" PodPending [] None; pod_in "ml" "t2" PodPending [] None] = PodGroupScheduling /\
  phase_of 2 [pod_in "ml" "t1" PodRunning [] None; pod_in "ml" "t2" PodSucceeded [] None] = PodGroupRunning /\
  phase_of 2 [pod_in "ml" "t1" PodFailed [] None; pod_in "ml" "t2" PodPending [] None] = PodGroupScheduling.
Proof. vm_compute. auto. Qed.

(** The pods are listed by label in every namespace: the pods of a group of the
    same name in another namespace start this group. *)
Example other_namespace_counts :
  let list label := Ok (List.filter (fun p => bool_decide (GetPodGroupLabel p = label))
    [pod_in "other" "t1" PodRunning [] None; pod_in "other" "t2" PodRunning [] None]) in
  (fun r => pgs_phase (pgo_status r.1)) <$>
    PodGroupController.Reconcile list (Ok tt) (Ok tt) (demo_group PodGroupScheduling 2)
  = Some PodGroupRunning.
Proof. vm_compute. reflexivity. Qed.

(** A group whose minimum is not set makes the controller panic without pods. *)
Example no_minimum_panics :
  PodGroupController.Reconcile (fun _ => Ok []) (Ok tt) (Ok tt) (demo_group PodGroupPending 0) = None.
Proof. vm_compute. reflexivity. Qed.

(** ** The used vector of a quota *)

Definition of_list (l : ResourceList) (n : string) : Z := default (0 : Quantity) (l !! n : option Quantity).

Lemma quota_Add_lookup a b n :
  of_list (quota_Add a b) n = of_list a n + of_list b n /\
  (is_Some (quota_Add a b !! n) <-> is_Some (a !! n) \/ is_Some (b !! n)).
Proof.
  assert (quota_Add a b !! n
          = union_with (fun x y : Quantity => Some (x + y : Quantity)) (a !! n) (b !! n)) as E
    by apply lookup_union_with.
  unfold of_list. rewrite E. assert (forall x y : option Quantity,
    let z := union_with (fun x y : Quantity => Some (x + y : Quantity)) x y in
    default (0 : Quantity) z = default (0 : Quantity) x + default (0 : Quantity) y /\
    (is_Some z <-> is_Some x \/ is_Some y)) as H
    by (intros [x|] [y|]; cbn; (split; [lia|]); naive_solver).
  exact (H (a !! n) (b !! n)).
Qed.

(** *** The request of a pod *)

(** What a pod asks of [n]: the sum over the containers that name it, and what
    each init container that names it asks for. *)
Definition asked (n : string) (p : Pod) : list Z :=
  let containers := omap (fun c : ResourceList => c !! n) (spec_containers (pod_spec p)) in
  (if bool_decide (containers = []) then [] else [sumZ id containers]) ++
  omap (fun c : ResourceList => c !! n) (spec_init_containers (pod_spec p)).

Definition largest_of (l : list Z) : option Z :=
  match l with [] => None | x :: l => Some (foldr Z.max x l) end.

Lemma fold_union_lookup (f : Z -> Z -> Z) (cs : list ResourceList) (acc : ResourceList) n :
  foldl (fun a b : ResourceList => union_with (fun x y => Some (f x y)) a b : ResourceList) acc cs !! n
  = foldl (fun o x => Some (match o with Some y => f y x | None => x end)) (acc !! n)
      (omap (fun c : ResourceList => c !! n) cs).
Proof.
  revert acc. induction cs as [|c cs IH]; intros acc; [done|]. cbn [foldl omap list_omap].
  rewrite IH, lookup_union_with. destruct (c !! n), (acc !! n); done.
Qed.

Lemma fold_sum (l : list Z) x :
  foldl (fun o x => Some (match o with Some y => y + x | None => x end)) (Some x) l = Some (x + sumZ id l).
Proof.
  revert x. induction l as [|y l IH]; intros x; cbn [foldl].
  - rewrite sumZ_nil. f_equal. lia.
  - rewrite IH, sumZ_cons. unfold id. f_equal. lia.
Qed.

Lemma foldr_max x y l : foldr Z.max (Z.max x y) l = Z.max x (foldr Z.max y l).
Proof. induction l as [|z l IH]; cbn; [done|rewrite IH; lia]. Qed.

Lemma fold_max (l : list Z) x :
  foldl (fun o x => Some (match o with Some y => Z.max y x | None => x end)) (Some x) l
  = Some (foldr Z.max x l).
Proof.
  revert x. induction l as [|y l IH]; intros x; cbn [foldl foldr]; [done|].
  by rewrite IH, Z.max_comm, foldr_max.
Qed.

(** The controller's request of a pod is, for every name, the largest of what is
    asked, and it has the names of the containers and no others. *)
Lemma request_asked p n :
  (QuotaController.computePodResourceRequest p !! n : option Z) = largest_of (asked n p).
Proof.
  unfold QuotaController.computePodResourceRequest, asked. cbn zeta.
  unfold quota_Max at 1. rewrite lookup_union_with.
  change (foldl quota_Add ∅ ?l) with
    (foldl (fun a b : ResourceList => union_with (fun x y => Some (Z.add x y)) a b : ResourceList) ∅ l).
  change (foldl quota_Max ∅ ?l) with
    (foldl (fun a b : ResourceList => union_with (fun x y => Some (Z.max x y)) a b : ResourceList) ∅ l).
  rewrite !fold_union_lookup, lookup_empty.
  destruct (omap _ (spec_containers _)) as [|x l], (omap _ (spec_init_containers _)) as [|y l'];
    cbn [foldl]; rewrite ?fold_sum, ?fold_max; try done; rewrite bool_decide_false by done;
    cbn [app largest_of foldr]; rewrite sumZ_cons; try done.
  cbn. unfold id. f_equal. by rewrite <- foldr_max, Z.max_comm, foldr_max.
Qed.

Definition running (pods : list Pod) : list Pod :=
  List.filter (fun p => bool_decide (pod_phase p = PodRunning)) pods.

Lemma used_fold pods used n :
  let r := foldl used_turn used pods in
  of_list r n = of_list used n
    + sumZ (fun p => of_list (QuotaController.computePodResourceRequest p) n) (running pods) /\
  (is_Some (r !! n) <-> is_Some (used !! n) \/
     exists p, p ∈ running pods /\ is_Some (QuotaController.computePodResourceRequest p !! n)).
Proof.
  revert used. induction pods as [|p pods IH]; intros used; cbn zeta; cbn [foldl].
  { cbn [running List.filter]. split; [unfold sumZ; cbn; lia|]. split; [auto|]. intros [?|(q & Hq & _)]; [done|].
    by apply not_elem_of_nil in Hq. }
  destruct (IH (used_turn used p)) as [H1 H2]. rewrite H1, H2.
  unfold used_turn, running. cbn [List.filter].
  destruct (bool_decide (pod_phase p = PodRunning)); [|done].
  destruct (quota_Add_lookup used (QuotaController.computePodResourceRequest p) n) as [A1 A2].
  rewrite A1, A2, sumZ_cons. split; [lia|]. split.
  - intros [[?|?]|(q & ? & ?)]; [auto|right; exists p; split; [by left|done]
      |right; exists q; split; [by right|done]].
  - intros [?|(q & [->|Hq]%elem_of_cons & ?)]; [auto|auto|right; eauto].
Qed.

(** C39. The used vector the controller stores is exact: for every name it is the
    sum, without rounding, over the running pods of the namespace, of the larger
    of what the containers of the pod together and each of its init containers
    ask for; the overhead of a pod is left out, although the code's comment says
    that it is added. The vector lists the names of the quota's bounds and of
    these requests and no others, and once it is stored a further call changes
    nothing. *)
Theorem quota_used_exact pods eq stored eqs n :
  let r := (QuotaController.Reconcile (Ok ((eq, stored) :: eqs)) (Ok pods) (Ok tt)) in
  exists used, r = (Some used, None) /\
    of_list used n = sumZ (fun p => default 0 (largest_of (asked n p))) (running pods) /\
    (is_Some (used !! n) <->
       is_Some (default ∅ (quota_min eq) !! n) \/ is_Some (default ∅ (quota_max eq) !! n) \/
       exists p, p ∈ running pods /\ asked n p <> []) /\
    forall patch, QuotaController.Reconcile (Ok ((eq, used) :: eqs)) (Ok pods) patch = (Some used, None).
Proof.
  cbn zeta. set (used := foldl used_turn (newZeroUsed eq) pods). exists used.
  destruct (used_fold pods (newZeroUsed eq) n) as [H1 H2]. fold used in H1, H2.
  assert (forall l : option ResourceList,
    is_Some (((fun _ => 0) <$> default ∅ l) !! n) <-> is_Some (default ∅ l !! n)) as Hz
    by (intros l; rewrite lookup_fmap; apply fmap_is_Some).
  split_and!.
  - unfold QuotaController.Reconcile. cbn [computeElasticQuotaUsed]. fold used.
    case_bool_decide as E; [by rewrite E|done].
  - rewrite H1. rewrite (sumZ_ext _ (fun p => default 0 (largest_of (asked n p))))
      by (intros p _; unfold of_list; by rewrite <- request_asked).
    assert (of_list (newZeroUsed eq) n = 0) as ->; [|lia].
    unfold of_list, newZeroUsed. rewrite lookup_union, !lookup_fmap.
    by destruct (default ∅ (quota_max eq) !! n), (default ∅ (quota_min eq) !! n).
  - rewrite H2. unfold newZeroUsed. rewrite lookup_union, union_is_Some, !Hz.
    assert (forall p, is_Some (QuotaController.computePodResourceRequest p !! n) <-> asked n p <> []) as Ha.
    { intros p. rewrite <- not_eq_None_Some. change (QuotaController.computePodResourceRequest p !! n) with
        (QuotaController.computePodResourceRequest p !! n : option Z). rewrite request_asked.
      by destruct (asked n p). }
    setoid_rewrite Ha. tauto.
  - intros patch. unfold QuotaController.Reconcile. cbn [computeElasticQuotaUsed]. fold used.
    by rewrite bool_decide_eq_true_2.
Qed.

(** The controller and the scheduler disagree about pods with an overhead:
    the controller's request is the same with and without it, whatever the
    overhead is, whereas the scheduler's quotas are charged for it. *)
Theorem controller_ignores_overhead :
  (forall ns name ph containers o,
     QuotaController.computePodResourceRequest (pod_in ns name ph containers o)
     = QuotaController.computePodResourceRequest (pod_in ns name ph containers None)) /\
  let p := pod_in "ml" "t1" PodRunning [{[ "cpu" := NewMilliQuantity 500 ]}]
             (Some {[ "cpu" := NewMilliQuantity 250 ]}) in
  of_list (QuotaController.computePodResourceRequest p) "cpu" = NewMilliQuantity 500 /\
  MilliCPU (Resource.computePodResourceRequest (fun _ => false) p) = 750.
Proof. split; [done|]. vm_compute. by split. Qed.
