(* ===== verification/NetworkUtil.v ===== *)
(** * Network-aware scheduling: data and look-ups

    [scheduler-plugins/pkg/networkaware/util/util.go] with the fields of the
    custom resources it reads ([AppGroup], [NetworkTopology] of the vendored
    diktyo-io APIs). The three look-ups are binary searches written out in the
    code; they share the loop [search], whose outcome says whether it found a
    position, gave up, left the slice's bounds or ran out of fuel. One unit of
    fuel is one iteration; [search_terminates] bounds them by a logarithm. *)

From S2P Require Import Prelude.
From S2P Require Import KubeTypes.
From S2P Require Import GoSort.

(** ** The custom resources *)

Record DependenciesInfo := { dep_selector : string; MaxNetworkCost : Z }.
Record AppGroupWorkload := { wl_selector : string; Dependencies : list DependenciesInfo }.
Record AppGroupTopologyInfo := { topo_selector : string; topo_index : Z }.
Record AppGroup := {
  ag_uid : string;
  Workloads : list AppGroupWorkload;
  TopologyOrder : list AppGroupTopologyInfo;
}.

Record CostInfo := { Destination : string; NetworkCost : Z }.
Record OriginInfo := { Origin : string; CostList : list CostInfo }.
Record TopologyInfo := { TopologyKey : string; OriginList : list OriginInfo }.
Record WeightInfo := { weight_name : string; TopologyList : list TopologyInfo }.
Record NetworkTopology := { nt_uid : string; Weights : list WeightInfo }.

Definition AppGroupLabel : string := "appgroup.diktyo.x-k8s.io".
Definition AppGroupSelectorLabel : string := "appgroup.diktyo.x-k8s.io.workload".
Definition LabelTopologyRegion : string := "topology.kubernetes.io/region".
Definition LabelTopologyZone : string := "topology.kubernetes.io/zone".
Definition NetperfCosts : string := "NetperfCosts".

(** ** The package's own data *)

Record CostKey := { ck_origin : string; ck_destination : string }.

#[export] Instance CostKey_eq_dec : EqDecision CostKey.
Proof. solve_decision. Defined.
#[export] Instance CostKey_countable : Countable CostKey.
Proof.
  refine (inj_countable' (fun k => (ck_origin k, ck_destination k))
    (fun p => {| ck_origin := p.1; ck_destination := p.2 |}) _).
  by intros [].
Defined.

Abbreviation CostMap := (gmap CostKey Z).

Record ScheduledInfo := {
  sch_name : string; sch_selector : string; sch_replica : string; sch_hostname : string;
}.

(** A missing label reads as the empty string. *)
Definition label (k : string) (m : ObjectMeta) : string := default "" (meta_labels m !! k).

Definition GetNodeRegion (n : Node) : string := label LabelTopologyRegion (node_meta n).
Definition GetNodeZone (n : Node) : string := label LabelTopologyZone (node_meta n).
Definition GetPodAppGroupLabel (p : Pod) : string := label AppGroupLabel (pod_meta p).
Definition GetPodAppGroupSelector (p : Pod) : string := label AppGroupSelectorLabel (pod_meta p).

(** ** Binary search *)

Inductive SearchResult := Found (i : nat) | Absent | OutOfBounds | OutOfFuel.

(** A slice indexed by an [int]. *)
Definition at_index {A} (l : list A) (i : Z) : option A :=
  if i <? 0 then None else l !! Z.to_nat i.

Fixpoint search (keys : list string) (target : string) (fuel : nat) (low high : Z) : SearchResult :=
  match fuel with
  | O => OutOfFuel
  | S fuel' =>
      if low <=? high then
        let mid := (low +! high) /! 2 in
        match at_index keys mid with
        | None => OutOfBounds
        | Some k =>
            if bool_decide (k = target) then Found (Z.to_nat mid)
            else if String.ltb k target then search keys target fuel' (mid +! 1) high
            else if String.ltb target k then search keys target fuel' low (mid -! 1)
            else search keys target fuel' low high
        end
      else Absent
  end.

Definition search_key {A} (key : A -> string) (l : list A) (target : string) : SearchResult :=
  search (key <$> l) target (S (length l)) 0 (Z.of_nat (length l) - 1).

(** [None] is a run that panics or does not end. *)
Definition FindPodOrder (t : list AppGroupTopologyInfo) (selector : string) : option Z :=
  match search_key topo_selector t selector with
  | Found i => topo_index <$> t !! i
  | Absent => Some (-1)
  | _ => None
  end.

Definition FindOriginCosts (originList : list OriginInfo) (origin : string) : option (list CostInfo) :=
  match search_key Origin originList origin with
  | Found i => CostList <$> originList !! i
  | Absent => Some []
  | _ => None
  end.

(** The origin list found, with its position: the slice that is returned is the
    one in the topology list, and the caller sorts it there. *)
Definition FindTopologyKey (topologyList : list TopologyInfo) (key : string)
    : option (list OriginInfo * option nat) :=
  match search_key TopologyKey topologyList key with
  | Found i => (fun t => (OriginList t, Some i)) <$> topologyList !! i
  | Absent => Some ([], None)
  | _ => None
  end.

(** ** Dependencies and scheduled pods *)

Definition GetDependencyList (pod : Pod) (ag : AppGroup) : list DependenciesInfo :=
  foldl (fun deps w =>
    if bool_decide (wl_selector w = GetPodAppGroupSelector pod)
    then foldl (fun deps d => deps ++ [d]) deps (Dependencies w)
    else deps) [] (Workloads ag).

Definition scheduled_info (p : Pod) : ScheduledInfo := {|
  sch_name := pod_name p; sch_selector := GetPodAppGroupSelector p;
  sch_replica := pod_uid p; sch_hostname := pod_node p |}.

Definition GetScheduledList (pods : list Pod) : list ScheduledInfo :=
  foldl (fun l p => if bool_decide (pod_node p = "") then l else l ++ [scheduled_info p]) [] pods.
