(* ===== verification/NetworkOverhead.v ===== *)
(** * The NetworkOverhead plugin

    [scheduler-plugins/pkg/networkaware/networkoverhead/networkoverhead.go].
    The reads of custom resources ([getAppGroup], [getTopology]), the pod lister
    and the snapshot's [List] and [Get] are arguments; the snapshot only holds
    node infos that have a node. The NetworkTopology is a fresh copy of the
    stored object, whose slices the plugin sorts in place: the sorted object is
    an output of the functions that sort it. [None] is a nil dereference. *)

From S2P Require Import Prelude.
From S2P Require Import KubeTypes.
From S2P Require Import Framework.
From S2P Require Import GoSort.
From S2P Require Import GoFloat.
From S2P Require Import NetworkUtil.
From Stdlib Require Import SpecFloat.

Definition MaxCost : Z := 100.
Definition SameHostname : Z := 0.
Definition SameZone : Z := 1.

Record NetworkOverheadArgs := { no_namespaces : list string; no_weightsName : string; no_ntName : string }.

Record PreFilterState := {
  scoreEqually : bool;
  agName : string;
  appGroup : option AppGroup;
  networkTopology : option NetworkTopology;
  dependencyList : list DependenciesInfo;
  scheduledList : list ScheduledInfo;
  nodeCostMap : gmap string CostMap;
  satisfiedMap : gmap string Z;
  violatedMap : gmap string Z;
  finalCostMap : gmap string Z;
}.

Definition initial_state : PreFilterState := {|
  scoreEqually := true; agName := ""; appGroup := None; networkTopology := None;
  dependencyList := []; scheduledList := []; nodeCostMap := ∅; satisfiedMap := ∅;
  violatedMap := ∅; finalCostMap := ∅ |}.

Record Snapshot := { snap_List : result (list Node); snap_Get : string -> result Node }.

Definition node_name (n : Node) : string := meta_name (node_meta n).

(** The first namespace that has the object; an object without a UID counts as
    missing. *)
Fixpoint find_object {A} (get : string -> string -> result A) (uid : A -> string)
    (namespaces : list string) (name : string) : option A :=
  match namespaces with
  | [] => None
  | ns :: rest =>
      match get ns name with
      | Err _ => find_object get uid rest name
      | Ok a => if bool_decide (uid a <> "") then Some a else find_object get uid rest name
      end
  end.

Section Costs.
Context `{!GoSort}.
Variable args : NetworkOverheadArgs.

Definition manual : bool := bool_decide (no_weightsName args <> NetperfCosts).

Definition with_topologies (w : WeightInfo) (tl : list TopologyInfo) : WeightInfo :=
  {| weight_name := weight_name w; TopologyList := tl |}.
Definition with_origins (t : TopologyInfo) (ol : list OriginInfo) : TopologyInfo :=
  {| TopologyKey := TopologyKey t; OriginList := ol |}.
Definition with_weights (nt : NetworkTopology) (ws : list WeightInfo) : NetworkTopology :=
  {| nt_uid := nt_uid nt; Weights := ws |}.

Definition sortNetworkTopologyCosts (nt : option NetworkTopology) : option (option NetworkTopology) :=
  if manual then
    match nt with
    | None => None
    | Some nt =>
        Some (Some (with_weights nt
          ((fun w => with_topologies w (sort_Sort (by_key TopologyKey) (TopologyList w))) <$> Weights nt)))
    end
  else Some nt.

(** The costs from [origin], written over those already in the map. *)
Definition add_costs (origin : string) (costs : list CostInfo) (m : CostMap) : CostMap :=
  foldl (fun m c => <[{| ck_origin := origin; ck_destination := Destination c |} := NetworkCost c]> m)
    m costs.

(** The block for regions and the block for zones: [origin] is the node's
    region or zone. *)
Definition populate_level (key origin : string) (tl : list TopologyInfo) (m : CostMap)
    : option (list TopologyInfo * CostMap) :=
  if bool_decide (origin = "") then Some (tl, m)
  else
    match FindTopologyKey tl key with
    | None => None
    | Some (ol, pos) =>
        let ol := if manual then sort_Sort (by_key Origin) ol else ol in
        let tl := match pos with
                  | Some i => alter (fun t => with_origins t ol) i tl
                  | None => tl
                  end in
        match FindOriginCosts ol origin with
        | None => None
        | Some costs => Some (tl, add_costs origin costs m)
        end
    end.

Definition populate_weight (region zone : string) (w : WeightInfo) (m : CostMap)
    : option (WeightInfo * CostMap) :=
  if bool_decide (weight_name w <> no_weightsName args) then Some (w, m)
  else
    match populate_level LabelTopologyRegion region (TopologyList w) m with
    | None => None
    | Some (tl, m) =>
        match populate_level LabelTopologyZone zone tl m with
        | None => None
        | Some (tl, m) => Some (with_topologies w tl, m)
        end
    end.

Fixpoint populate_weights (region zone : string) (ws : list WeightInfo) (m : CostMap)
    : option (list WeightInfo * CostMap) :=
  match ws with
  | [] => Some ([], m)
  | w :: ws =>
      match populate_weight region zone w m with
      | None => None
      | Some (w, m) =>
          match populate_weights region zone ws m with
          | None => None
          | Some (ws, m) => Some (w :: ws, m)
          end
      end
  end.

Definition populateCostMap (m : CostMap) (nt : option NetworkTopology) (region zone : string)
    : option (option NetworkTopology * CostMap) :=
  match nt with
  | None => None
  | Some nt =>
      match populate_weights region zone (Weights nt) m with
      | None => None
      | Some (ws, m) => Some (Some (with_weights nt ws), m)
      end
  end.
End Costs.

(** ** Counting dependencies and adding costs *)

Section Counting.
Variable get : string -> result Node.
Variables (nodeName region zone : string) (costMap : CostMap).

Definition cost_between (origin destination : string) : option Z :=
  costMap !! {| ck_origin := origin; ck_destination := destination |}.

(** A cost that is not in the map counts on neither side. *)
Definition count_cost (cost : option Z) (max : Z) (acc : Z * Z) : Z * Z :=
  let '(satisfied, violated) := acc in
  match cost with
  | Some c => if c <=? max then (satisfied +! 1, violated) else (satisfied, violated +! 1)
  | None => (satisfied, violated)
  end.

(** One turn of the inner loop; the error is the look-up's. *)
Definition check_dependency (p : ScheduledInfo) (acc : Z * Z) (d : DependenciesInfo)
    : (Z * Z) * option ApiError :=
  let '(satisfied, violated) := acc in
  if bool_decide (sch_selector p <> dep_selector d) then (acc, None)
  else if bool_decide (sch_hostname p = nodeName) then ((satisfied +! 1, violated), None)
  else
    match get (sch_hostname p) with
    | Err e => (acc, Some e)
    | Ok n =>
        let regionPod := GetNodeRegion n in
        let zonePod := GetNodeZone n in
        if bool_decide (regionPod = "") && bool_decide (zonePod = "")
        then ((satisfied, violated +! 1), None)
        else if bool_decide (region = regionPod) then
          if bool_decide (zone = zonePod) then ((satisfied +! 1, violated), None)
          else (count_cost (cost_between zone zonePod) (MaxNetworkCost d) acc, None)
        else (count_cost (cost_between region regionPod) (MaxNetworkCost d) acc, None)
    end.

(** A loop whose body may return early with an error. *)
Fixpoint loop_until_error {A S} (body : S -> A -> S * option ApiError) (s : S) (l : list A)
    : S * option ApiError :=
  match l with
  | [] => (s, None)
  | a :: l' =>
      match body s a with
      | (s, Some e) => (s, Some e)
      | (s, None) => loop_until_error body s l'
      end
  end.

Definition checkMaxNetworkCostRequirements (sl : list ScheduledInfo) (deps : list DependenciesInfo)
    : (Z * Z) * option ApiError :=
  loop_until_error (fun acc p =>
    if bool_decide (sch_hostname p <> "") then loop_until_error (check_dependency p) acc deps
    else (acc, None)) (0, 0) sl.

Definition add_dependency_cost (p : ScheduledInfo) (cost : Z) (d : DependenciesInfo)
    : Z * option ApiError :=
  if bool_decide (sch_selector p <> dep_selector d) then (cost, None)
  else if bool_decide (sch_hostname p = nodeName) then (cost +! SameHostname, None)
  else
    match get (sch_hostname p) with
    | Err e => (cost, Some e)
    | Ok n =>
        let regionPod := GetNodeRegion n in
        let zonePod := GetNodeZone n in
        if bool_decide (regionPod = "") && bool_decide (zonePod = "") then (cost +! MaxCost, None)
        else if bool_decide (region = regionPod) then
          if bool_decide (zone = zonePod) then (cost +! SameZone, None)
          else (cost +! default MaxCost (cost_between zone zonePod), None)
        else (cost +! default MaxCost (cost_between region regionPod), None)
    end.

Definition getAccumulatedCost (sl : list ScheduledInfo) (deps : list DependenciesInfo)
    : Z * option ApiError :=
  loop_until_error (fun cost p => loop_until_error (add_dependency_cost p) cost deps) 0 sl.
End Counting.

(** ** The extension points *)

Section Plugin.
Context `{!GoSort}.
Variable args : NetworkOverheadArgs.
Variable getAppGroup : string -> string -> result AppGroup.
Variable getTopology : string -> string -> result NetworkTopology.
Variable listPods : string -> string -> result (list Pod).   (* label, value *)
Variable snapshot : Snapshot.

(** The maps the loop over the nodes fills, with the sorted topology. *)
Record NodeMaps := {
  nm_topology : option NetworkTopology;
  nm_costs : gmap string CostMap;
  nm_satisfied : gmap string Z;
  nm_violated : gmap string Z;
  nm_final : gmap string Z;
}.

(** One turn of the loop: the maps, or an error that ends [PreFilter]. *)
Definition prefilter_node (sl : list ScheduledInfo) (deps : list DependenciesInfo) (nm : NodeMaps)
    (n : Node) : option (NodeMaps * option ApiError) :=
  let name := node_name n in
  let region := GetNodeRegion n in
  let zone := GetNodeZone n in
  match populateCostMap args ∅ (nm_topology nm) region zone with
  | None => None
  | Some (nt, costMap) =>
      let nm := {| nm_topology := nt; nm_costs := <[name := costMap]> (nm_costs nm);
                   nm_satisfied := nm_satisfied nm; nm_violated := nm_violated nm;
                   nm_final := nm_final nm |} in
      let '((satisfied, violated), err) :=
        checkMaxNetworkCostRequirements (snap_Get snapshot) name region zone costMap sl deps in
      match err with
      | Some e => Some (nm, Some e)
      | None =>
          let nm := {| nm_topology := nm_topology nm; nm_costs := nm_costs nm;
                       nm_satisfied := <[name := satisfied]> (nm_satisfied nm);
                       nm_violated := <[name := violated]> (nm_violated nm);
                       nm_final := nm_final nm |} in
          let '(cost, err) :=
            getAccumulatedCost (snap_Get snapshot) name region zone costMap sl deps in
          match err with
          | Some e => Some (nm, Some e)
          | None =>
              Some ({| nm_topology := nm_topology nm; nm_costs := nm_costs nm;
                       nm_satisfied := nm_satisfied nm; nm_violated := nm_violated nm;
                       nm_final := <[name := cost]> (nm_final nm) |}, None)
          end
      end
  end.

Fixpoint prefilter_nodes (sl : list ScheduledInfo) (deps : list DependenciesInfo) (nm : NodeMaps)
    (l : list Node) : option (NodeMaps * option ApiError) :=
  match l with
  | [] => Some (nm, None)
  | n :: l' =>
      match prefilter_node sl deps nm n with
      | None => None
      | Some (nm, Some e) => Some (nm, Some e)
      | Some (nm, None) => prefilter_nodes sl deps nm l'
      end
  end.

(** The status and the plugin's entry of the cycle state. *)
Definition PreFilter (pod : Pod) : option (FStatus * PreFilterState) :=
  let success := Some (NewStatus Success, initial_state) in
  let agName := GetPodAppGroupLabel pod in
  if bool_decide (agName = "") then success
  else
    let appGroup := find_object getAppGroup ag_uid (no_namespaces args) agName in
    let networkTopology := find_object getTopology nt_uid (no_namespaces args) (no_ntName args) in
    match sortNetworkTopologyCosts args networkTopology, appGroup with
    | None, _ | _, None => None
    | Some networkTopology, Some ag =>
        match GetDependencyList pod ag with
        | [] => success
        | deps =>
            match listPods AppGroupLabel agName with
            | Err _ => success
            | Ok [] => success
            | Ok pods =>
                match GetScheduledList pods with
                | [] => success
                | sl =>
                    match snap_List snapshot with
                    | Err _ => Some (NewStatus CodeError, initial_state)
                    | Ok nodes =>
                        match prefilter_nodes sl deps
                          {| nm_topology := networkTopology; nm_costs := ∅; nm_satisfied := ∅;
                             nm_violated := ∅; nm_final := ∅ |} nodes with
                        | None => None
                        | Some (_, Some _) => Some (NewStatus CodeError, initial_state)
                        | Some (nm, None) =>
                            Some (NewStatus Success,
                              {| scoreEqually := false; agName := agName; appGroup := Some ag;
                                 networkTopology := nm_topology nm; dependencyList := deps;
                                 scheduledList := sl; nodeCostMap := nm_costs nm;
                                 satisfiedMap := nm_satisfied nm; violatedMap := nm_violated nm;
                                 finalCostMap := nm_final nm |})
                        end
                    end
                end
            end
        end
    end.
End Plugin.

(** A missing key of a map to integers reads as 0. [None] for the node is a node
    info without one; [None] for the state is an entry that is missing. *)
Definition Filter (state : option PreFilterState) (node : option Node) : FStatus :=
  match node with
  | None => NewStatus CodeError
  | Some n =>
      match state with
      | None => NewStatus CodeError
      | Some s =>
          if scoreEqually s then NewStatus Success
          else
            let satisfied := default 0 (satisfiedMap s !! node_name n) in
            let violated := default 0 (violatedMap s !! node_name n) in
            if satisfied <? violated then NewStatus Unschedulable else NewStatus Success
      end
  end.

Definition Score (state : option PreFilterState) (nodeName : string) : Z * FStatus :=
  match state with
  | None => (MinNodeScore, NewStatus CodeError)
  | Some s =>
      if scoreEqually s then (MinNodeScore, NewStatus Success)
      else (default 0 (finalCostMap s !! nodeName), NewStatus Success)
  end.

Definition MinInt64 : Z := -9223372036854775808.
Definition MaxInt64 : Z := 9223372036854775807.

Definition getMinMaxScores (scores : NodeScoreList) : Z * Z :=
  foldl (fun mm n =>
    let '(min, max) := mm in
    (if ns_score n <? min then ns_score n else min,
     if max <? ns_score n then ns_score n else max)) (MaxInt64, MinInt64) scores.

(** [other] is what converting a float64 that is out of range gives. *)
Definition normalized (other : spec_float -> Z) (minCost maxCost score : Z) : Z :=
  if bool_decide (maxCost <> minCost) then
    let normCost := f64_div (f64_mul (float64 MaxNodeScore) (float64 (score -! minCost)))
                            (float64 (maxCost -! minCost)) in
    MaxNodeScore -! to_int64 other normCost
  else MaxNodeScore -! to_int64 other (float64 (score -! minCost)).

Definition NormalizeScore (other : spec_float -> Z) (scores : NodeScoreList) : NodeScoreList :=
  let '(minCost, maxCost) := getMinMaxScores scores in
  if bool_decide (minCost = 0) && bool_decide (maxCost = 0) then scores
  else (fun n => with_score n (normalized other minCost maxCost (ns_score n))) <$> scores.

(** [AddPod] and [RemovePod] of the pre-filter extensions do nothing. *)
Definition AddPod (state : option PreFilterState) (podToAdd : Pod) (node : option Node) : FStatus :=
  NewStatus Success.
Definition RemovePod (state : option PreFilterState) (podToRemove : Pod) (node : option Node) : FStatus :=
  NewStatus Success.
