(* ===== verification/TopologicalSort.v ===== *)
(** * The TopologicalSort queue order

    [scheduler-plugins/pkg/networkaware/topologicalsort/topologicalsort.go]. The
    read of the AppGroup is an argument; a queued pod is the pod and the time it
    entered the queue. [None] is a nil dereference. *)

From S2P Require Import Prelude.
From S2P Require Import KubeTypes.
From S2P Require Import Capacity.
From S2P Require Import NetworkUtil.

(** [queuesort.PrioritySort]: higher priority first, then first in first out. *)
Definition priority_less (p1 p2 : Pod * Z) : bool :=
  (PodPriority p2.1 <? PodPriority p1.1) ||
  (bool_decide (PodPriority p1.1 = PodPriority p2.1) && (p1.2 <? p2.2)).

Section Sort.
Variable getAppGroup : string -> string -> result AppGroup.
Variable namespaces : list string.

(** The first namespace that has it; unlike in NetworkOverhead the UID is not
    looked at. *)
Definition findAppGroupTopologicalSort (agName : string) : option AppGroup :=
  foldr (fun ns rest => match getAppGroup ns agName with Ok ag => Some ag | Err _ => rest end)
    None namespaces.

Definition Less (p1 p2 : Pod * Z) : option bool :=
  let g1 := GetPodAppGroupLabel p1.1 in
  let g2 := GetPodAppGroupLabel p2.1 in
  if bool_decide (g1 <> g2) || bool_decide (g1 = "") then Some (priority_less p1 p2)
  else
    match findAppGroupTopologicalSort g1 with
    | None => None
    | Some ag =>
        match FindPodOrder (TopologyOrder ag) (GetPodAppGroupSelector p1.1),
              FindPodOrder (TopologyOrder ag) (GetPodAppGroupSelector p2.1) with
        | Some o1, Some o2 => Some (o1 <=? o2)
        | _, _ => None
        end
    end.
End Sort.
