(* ===== verification/NetworkProofs.v ===== *)
(** * Lemmas on the network-aware plugins

    The binary search against the linear look-up [assoc], the cost map against
    its specification [cost_map] on the topology as it was read, and the counting
    loops against sums over the pairs of a scheduled pod and a dependency. *)

From stdpp Require Import sorting.
From S2P Require Import Prelude.
From S2P Require Import KubeTypes.
From S2P Require Import Framework.
From S2P Require Import GoSort.
From S2P Require Import NetworkUtil.
From S2P Require Import NetworkOverhead.

(** ** Linear look-up by key *)

Fixpoint assoc {A} (key : A -> string) (l : list A) (t : string) : option A :=
  match l with
  | [] => None
  | a :: l' => if bool_decide (key a = t) then Some a else assoc key l' t
  end.

Section Assoc.
Context {A : Type} (key : A -> string).
Implicit Types (l : list A) (a : A) (t : string).

Lemma assoc_elem l t a : assoc key l t = Some a -> a ∈ l /\ key a = t.
Proof.
  induction l as [|b l IH]; cbn; [done|]. case_bool_decide; [|naive_solver set_solver].
  intros [= ->]. split; [left|done].
Qed.

Lemma assoc_None l t : assoc key l t = None <-> t ∉ key <$> l.
Proof.
  induction l as [|b l IH]; cbn; [set_solver|]. rewrite not_elem_of_cons.
  case_bool_decide; [naive_solver|]. rewrite IH. naive_solver.
Qed.

Lemma assoc_nodup l t a : NoDup (key <$> l) -> a ∈ l -> key a = t -> assoc key l t = Some a.
Proof.
  induction l as [|b l IH]; cbn; [by intros _ ?%not_elem_of_nil|].
  rewrite NoDup_cons. intros [Hni Hnd] [->|Ha]%elem_of_cons Hk; [by rewrite bool_decide_true|].
  rewrite bool_decide_false; [by apply IH|]. intros Hb. apply Hni. rewrite Hb, <- Hk.
  apply list_elem_of_fmap. eauto.
Qed.

Lemma assoc_perm l l' t : NoDup (key <$> l) -> l ≡ₚ l' -> assoc key l t = assoc key l' t.
Proof.
  intros Hnd Hp. destruct (assoc key l t) as [a|] eqn:E.
  - apply assoc_elem in E as [Ha Hk]. symmetry. apply assoc_nodup; [by rewrite <- Hp|by rewrite <- Hp|done].
  - symmetry. apply assoc_None. rewrite <- Hp. by apply assoc_None.
Qed.

Lemma increasing_lookup l i j a b : increasing key l -> l !! i = Some a -> l !! j = Some b ->
  (i < j)%nat -> String.ltb (key a) (key b) = true.
Proof.
  intros Hs. revert i j. induction Hs as [|c l Hs IH Hc]; intros i j Hi Hj Hij; [done|].
  destruct j as [|j]; [lia|]. destruct i as [|i]; cbn in *; [|apply (IH i j); auto; lia].
  simplify_eq. rewrite Forall_forall in Hc. apply Hc. by eapply list_elem_of_lookup_2.
Qed.

Lemma increasing_nodup l : increasing key l -> NoDup (key <$> l).
Proof.
  induction 1 as [|a l Hs IH Ha]; cbn; constructor; [|done].
  intros (b & Hb & Hin)%list_elem_of_fmap. rewrite Forall_forall in Ha. specialize (Ha b Hin).
  rewrite Hb, ltb_irrefl in Ha. done.
Qed.
End Assoc.

(** ** Binary search *)

Lemma mid_bounds low high : 0 <= low <= high -> high < 4611686018427387904 ->
  low <= (low +! high) /! 2 <= high /\
  2 * ((low +! high) /! 2) <= low + high < 2 * ((low +! high) /! 2) + 2.
Proof.
  intros Hl Hh. rewrite add64_exact by (unfold in_int64; lia). unfold div64.
  rewrite Z.quot_div_nonneg, int64_id by (unfold in_int64; lia || (pose proof (Z.div_mod (low + high) 2);
    pose proof (Z.mod_pos_bound (low + high) 2); lia)).
  pose proof (Z.div_mod (low + high) 2). pose proof (Z.mod_pos_bound (low + high) 2). lia.
Qed.

(** Every index a sorted slice holds the target at. *)
Definition holds_at (keys : list string) (target : string) (low high : Z) : Prop :=
  exists j, low <= Z.of_nat j <= high /\ keys !! j = Some target.

Lemma search_spec keys target fuel low high :
  Z.of_nat (length keys) < 4611686018427387904 -> 0 <= low -> high < Z.of_nat (length keys) ->
  high - low + 1 < 2 ^ Z.of_nat fuel ->
  (exists i, search keys target (S fuel) low high = Found i /\ keys !! i = Some target) \/
  (search keys target (S fuel) low high = Absent /\
   (increasing id keys -> ~ holds_at keys target low high)).
Proof.
  intros Hlen. revert low high. induction fuel as [|fuel IH]; intros low high Hl Hh Hn.
  - right. cbn [search]. rewrite (proj2 (Z.leb_gt _ _)) by (cbn in Hn; lia).
    split; [done|]. intros _ (j & Hj & _). cbn in Hn. lia.
  - rewrite Nat2Z.inj_succ, Z.pow_succ_r in Hn by lia. set (f := S fuel) in *. cbn [search].
    destruct (Z.leb_spec low high) as [Hle|Hgt].
    2:{ right. split; [done|]. intros _ (j & Hj & _). lia. }
    destruct (mid_bounds low high) as [Hmid Hhalf]; [lia..|].
    set (mid := (low +! high) /! 2) in *. unfold at_index. rewrite (proj2 (Z.ltb_ge mid 0)) by lia.
    destruct (lookup_lt_is_Some_2 keys (Z.to_nat mid)) as [k Hk]; [lia|]. rewrite Hk.
    case_bool_decide as Heq; [left; exists (Z.to_nat mid); by subst|].
    assert (Hside : increasing id keys -> forall j, keys !! j = Some target ->
      (String.ltb k target = true -> mid < Z.of_nat j) /\ (String.ltb target k = true -> Z.of_nat j < mid)).
    { intros Hs j Hj.
      assert (forall s, String.ltb s s = false) as Hirr by exact (fun s => ltb_irrefl s).
      destruct (Nat.lt_trichotomy j (Z.to_nat mid)) as [Hlt|[->|Hgt]]; [|congruence|].
      - pose proof (increasing_lookup id _ _ _ _ _ Hs Hj Hk Hlt) as H1. cbn in H1. split; [|lia].
        intros H2. pose proof (ltb_trans _ _ _ H1 H2). rewrite Hirr in *. done.
      - pose proof (increasing_lookup id _ _ _ _ _ Hs Hk Hj Hgt) as H1. cbn in H1. split; [lia|].
        intros H2. pose proof (ltb_trans _ _ _ H1 H2). rewrite Hirr in *. done. }
    destruct (String.ltb k target) eqn:E1.
    + rewrite add64_exact by (unfold in_int64; lia).
      destruct (IH (mid + 1) high) as [Hf|[Ha Hno]]; [lia..|by left|]. right. split; [done|].
      intros Hs (j & Hj & Hjk). apply Hno; [done|]. exists j.
      destruct (Hside Hs j Hjk) as [Hr _]. specialize (Hr eq_refl). split; [lia|done].
    + destruct (ltb_total k target Heq) as [?|E2]; [congruence|]. rewrite E2.
      rewrite sub64_exact by (unfold in_int64; lia).
      destruct (IH low (mid - 1)) as [Hf|[Ha Hno]]; [lia..|by left|]. right. split; [done|].
      intros Hs (j & Hj & Hjk). apply Hno; [done|]. exists j.
      destruct (Hside Hs j Hjk) as [_ Hr]. specialize (Hr E2). split; [lia|done].
Qed.

Lemma search_more_fuel keys target fuel fuel' low high : (fuel <= fuel')%nat ->
  search keys target fuel low high <> OutOfFuel ->
  search keys target fuel' low high = search keys target fuel low high.
Proof.
  revert fuel' low high. induction fuel as [|fuel IH]; intros fuel' low high Hle Hne; [done|].
  destruct fuel' as [|fuel']; [lia|]. cbn [search] in *.
  repeat case_match; try done; apply IH; (lia || done).
Qed.

(** Slices of up to 2^62 elements. *)
Definition int_sized {A} (l : list A) : Prop := Z.of_nat (length l) < 4611686018427387904.

Lemma increasing_fmap {A} (key : A -> string) l : increasing key l <-> increasing id (key <$> l).
Proof.
  unfold increasing. split.
  - induction 1 as [|a l Hs IH Ha]; [constructor|]. rewrite fmap_cons. constructor; [done|].
    by rewrite Forall_fmap.
  - induction l as [|a l IH]; [constructor|]. rewrite fmap_cons. inversion 1 as [|? ? Hs Ha]. subst.
    constructor; [by apply IH|]. rewrite Forall_fmap in Ha. exact Ha.
Qed.

Lemma search_key_cases {A} (key : A -> string) l target : int_sized l ->
  (exists i a, search_key key l target = Found i /\ l !! i = Some a /\ key a = target) \/
  (search_key key l target = Absent /\ (increasing key l -> assoc key l target = None)).
Proof.
  intros Hlen. unfold search_key. unfold int_sized in Hlen.
  destruct (search_spec (key <$> l) target (length l) 0 (Z.of_nat (length l) - 1))
    as [(i & Hf & Hi)|[Ha Hno]].
  - by rewrite length_fmap.
  - lia.
  - rewrite length_fmap. lia.
  - pose proof (Z.pow_gt_lin_r 2 (Z.of_nat (length l))). lia.
  - left. rewrite list_lookup_fmap in Hi. destruct (l !! i) as [a|] eqn:E; [|done].
    cbn in Hi. simplify_eq. eauto.
  - right. split; [done|]. intros Hs. apply assoc_None. intros (j & Hj)%list_elem_of_lookup.
    apply Hno; [by apply (proj1 (increasing_fmap key l))|]. exists j. split; [|done].
    apply lookup_lt_Some in Hj. rewrite length_fmap in Hj. lia.
Qed.

Lemma search_key_assoc {A} (key : A -> string) l target : int_sized l -> increasing key l ->
  match search_key key l target with
  | Found i => l !! i = assoc key l target /\ is_Some (l !! i)
  | Absent => assoc key l target = None
  | _ => False
  end.
Proof.
  intros Hlen Hs. destruct (search_key_cases key l target Hlen) as [(i & a & -> & Hi & Hk)|[-> Hno]]; [|auto].
  rewrite Hi. split; [symmetry|done]. apply assoc_nodup; [by apply increasing_nodup| |done].
  by eapply list_elem_of_lookup_2.
Qed.

(** ** The cost map *)

(** The costs from an origin at a level, by linear look-ups. *)
Definition level_costs (tl : list TopologyInfo) (key origin : string) : list CostInfo :=
  match assoc TopologyKey tl key with
  | Some t => default [] (CostList <$> assoc Origin (OriginList t) origin)
  | None => []
  end.

(** The cost map of a node with this region and zone. *)
Definition add_level (tl : list TopologyInfo) (key origin : string) (m : CostMap) : CostMap :=
  if bool_decide (origin = "") then m else add_costs origin (level_costs tl key origin) m.

Definition add_weight (name region zone : string) (m : CostMap) (w : WeightInfo) : CostMap :=
  if bool_decide (weight_name w <> name) then m
  else add_level (TopologyList w) LabelTopologyZone zone
         (add_level (TopologyList w) LabelTopologyRegion region m).

Definition cost_map (name : string) (nt : NetworkTopology) (region zone : string) : CostMap :=
  foldl (add_weight name region zone) ∅ (Weights nt).

(** Slices that are the same up to the order of the origins. *)
Definition same_level (t t' : TopologyInfo) : Prop :=
  TopologyKey t' = TopologyKey t /\ OriginList t' ≡ₚ OriginList t.
Definition distinct_origins (t : TopologyInfo) : Prop :=
  int_sized (OriginList t) /\ NoDup (Origin <$> OriginList t).

Lemma same_assoc tl tl' key : Forall2 same_level tl tl' ->
  match assoc TopologyKey tl key, assoc TopologyKey tl' key with
  | Some t, Some t' => same_level t t' /\ t ∈ tl
  | None, None => True
  | _, _ => False
  end.
Proof.
  induction 1 as [|t t' tl tl' Ht _ IH]; cbn; [done|]. destruct Ht as [Hk Hp]. rewrite Hk.
  case_bool_decide; [split; [done|left]|]. repeat case_match; try done.
  destruct IH. split; [done|by right].
Qed.

Lemma same_level_costs tl tl' key origin : Forall distinct_origins tl -> Forall2 same_level tl tl' ->
  level_costs tl' key origin = level_costs tl key origin.
Proof.
  intros Hd Hs. unfold level_costs. pose proof (same_assoc tl tl' key Hs) as H.
  destruct (assoc TopologyKey tl key) as [t|], (assoc TopologyKey tl' key) as [t'|]; try done.
  destruct H as [[_ Hp] Hin]. rewrite Forall_forall in Hd. destruct (Hd t Hin) as [_ Hnd].
  by rewrite (assoc_perm Origin _ _ origin Hnd (symmetry Hp)).
Qed.

Lemma FindOriginCosts_assoc ol origin : int_sized ol -> increasing Origin ol ->
  FindOriginCosts ol origin = Some (default [] (CostList <$> assoc Origin ol origin)).
Proof.
  intros Hl Hs. unfold FindOriginCosts. pose proof (search_key_assoc Origin ol origin Hl Hs) as H.
  destruct (search_key Origin ol origin); [|by rewrite H|done|done].
  destruct H as [-> Hsome]. by destruct (assoc Origin ol origin) as [o|]; [|destruct Hsome].
Qed.

Section Populate.
Context `{!GoSort, !SortLaws}.
Variable args : NetworkOverheadArgs.

(** What the plugin needs of a weight's topology list. The origins of a manual
    weight are sorted by the plugin; those of measured costs must be sorted. *)
Definition ready (tl : list TopologyInfo) : Prop :=
  int_sized tl /\ increasing TopologyKey tl /\ Forall distinct_origins tl /\
  (manual args = false -> Forall (fun t => increasing Origin (OriginList t)) tl).

Lemma FindTopologyKey_cases tl key : int_sized tl -> increasing TopologyKey tl ->
  (exists i t, FindTopologyKey tl key = Some (OriginList t, Some i) /\ tl !! i = Some t /\
               assoc TopologyKey tl key = Some t) \/
  (FindTopologyKey tl key = Some ([], None) /\ assoc TopologyKey tl key = None).
Proof.
  intros Hl Hs. unfold FindTopologyKey. pose proof (search_key_assoc TopologyKey tl key Hl Hs) as Hk.
  destruct (search_key TopologyKey tl key) as [i| | |]; [|by right|done|done].
  destruct Hk as [Hk [t Ht]]. left. exists i, t. rewrite Ht in *. done.
Qed.

Lemma sorted_origins ol : int_sized ol -> NoDup (Origin <$> ol) ->
  (manual args = false -> increasing Origin ol) ->
  let ol' := if manual args then sort_Sort (by_key Origin) ol else ol in
  ol' ≡ₚ ol /\ int_sized ol' /\ increasing Origin ol'.
Proof.
  intros Hl Hnd Hm. destruct (manual args); cbn; [|auto].
  pose proof (sort_perm _ (by_key Origin) ol) as Hp. split; [done|]. split.
  - unfold int_sized. by rewrite Hp.
  - by apply sort_increasing.
Qed.

Lemma same_level_refl tl : Forall2 same_level tl tl.
Proof. apply Forall2_same_length_lookup. split; [done|]. intros. simplify_eq. done. Qed.

Lemma same_keys tl tl' : Forall2 same_level tl tl' -> TopologyKey <$> tl' = TopologyKey <$> tl.
Proof. induction 1 as [|? ? ? ? [Hk _] _ IH]; cbn; [done|]. by rewrite Hk, IH. Qed.

Lemma same_ready tl tl' : ready tl -> Forall2 same_level tl tl' ->
  (manual args = false -> Forall (fun t => increasing Origin (OriginList t)) tl') -> ready tl'.
Proof.
  intros (Hl & Hs & Hd & _) Hsame Hm. split; [|split; [|split; [|done]]].
  - unfold int_sized in *. by rewrite <- (Forall2_length _ _ _ Hsame).
  - apply increasing_fmap. rewrite (same_keys _ _ Hsame). by apply increasing_fmap in Hs.
  - clear Hl Hs Hm. induction Hsame as [|t t' tl tl' [_ Hp] _ IH]; [constructor|].
    apply Forall_cons in Hd as [[H1 H2] Hd]. constructor; [|by apply IH].
    unfold distinct_origins, int_sized. by rewrite Hp.
Qed.

Lemma populate_level_spec key origin tl m : ready tl ->
  exists tl', populate_level args key origin tl m = Some (tl', add_level tl key origin m) /\
    ready tl' /\ Forall2 same_level tl tl'.
Proof.
  intros Hr. pose proof Hr as (Hl & Hs & Hd & Hm). unfold populate_level, add_level.
  case_bool_decide as Ho; [by eauto using same_level_refl|].
  destruct (FindTopologyKey_cases tl key Hl Hs) as [(i & t & -> & Hi & Ha)|[-> Ha]].
  2:{ assert ((if manual args then sort_Sort (by_key Origin) [] else []) = []) as ->.
      { destruct (manual args); [|done]. apply Permutation_nil. symmetry. apply sort_perm. }
      unfold level_costs. rewrite Ha. cbn. by eauto using same_level_refl. }
  assert (distinct_origins t /\ (manual args = false -> increasing Origin (OriginList t))) as [[Hlt Hnd] Hmt].
  { apply list_elem_of_lookup_2 in Hi. rewrite Forall_forall in Hd.
    split; [by apply Hd|]. intros E. specialize (Hm E). rewrite Forall_forall in Hm. by apply Hm. }
  destruct (sorted_origins (OriginList t) Hlt Hnd Hmt) as (Hp & Hl' & Hs').
  set (ol := if manual args then sort_Sort (by_key Origin) (OriginList t) else OriginList t) in *.
  rewrite FindOriginCosts_assoc by done.
  assert (level_costs tl key origin = default [] (CostList <$> assoc Origin ol origin)) as ->.
  { unfold level_costs. rewrite Ha. by rewrite (assoc_perm Origin _ _ origin Hnd (symmetry Hp)). }
  eexists. split; [done|].
  assert (Forall2 same_level tl (alter (fun t0 => with_origins t0 ol) i tl)) as Hsame.
  { apply Forall2_same_length_lookup. split; [by rewrite length_alter|]. intros j x y Hx Hy.
    destruct (decide (i = j)) as [->|?];
      [rewrite list_lookup_alter_eq, Hi in Hy|rewrite list_lookup_alter_ne in Hy by done];
      simplify_eq/=; done. }
  split; [|done]. apply (same_ready _ _ Hr Hsame). intros E. specialize (Hm E).
  rewrite Forall_forall in Hm |- *. intros x (j & Hj)%list_elem_of_lookup.
  destruct (decide (i = j)) as [->|?];
    [rewrite list_lookup_alter_eq, Hi in Hj|rewrite list_lookup_alter_ne in Hj by done];
    simplify_eq/=; [done|]. by eapply Hm, list_elem_of_lookup_2.
Qed.
Definition ready_weight (w : WeightInfo) : Prop :=
  weight_name w = no_weightsName args -> ready (TopologyList w).
Definition same_weight (w w' : WeightInfo) : Prop :=
  weight_name w' = weight_name w /\ Forall2 same_level (TopologyList w) (TopologyList w').

Lemma same_level_trans tl1 tl2 tl3 :
  Forall2 same_level tl1 tl2 -> Forall2 same_level tl2 tl3 -> Forall2 same_level tl1 tl3.
Proof.
  intros H1. revert tl3. induction H1 as [|a b l1 l2 [Hk Hp] _ IH]; intros tl3 H2;
    inversion H2 as [|? c ? l3 [Hk' Hp'] H3]; subst; constructor; [|by apply IH].
  split; [congruence|by etransitivity].
Qed.

Lemma same_weight_trans ws1 ws2 ws3 :
  Forall2 same_weight ws1 ws2 -> Forall2 same_weight ws2 ws3 -> Forall2 same_weight ws1 ws3.
Proof.
  intros H1. revert ws3. induction H1 as [|a b l1 l2 [Hk Hp] _ IH]; intros ws3 H2;
    inversion H2 as [|? c ? l3 [Hk' Hp'] H3]; subst; constructor; [|by apply IH].
  split; [congruence|by eapply same_level_trans].
Qed.

Lemma same_weight_refl ws : Forall2 same_weight ws ws.
Proof. apply Forall2_same_length_lookup. split; [done|]. intros i x y Hx Hy.
  rewrite Hx in Hy. injection Hy as <-. split; [done|apply same_level_refl]. Qed.

Lemma same_add_level tl tl' key origin m : ready tl -> Forall2 same_level tl tl' ->
  add_level tl' key origin m = add_level tl key origin m.
Proof.
  intros (_ & _ & Hd & _) Hs. unfold add_level. by rewrite (same_level_costs _ _ key origin Hd Hs).
Qed.

Lemma same_add_weights ws ws' region zone m : Forall ready_weight ws -> Forall2 same_weight ws ws' ->
  foldl (add_weight (no_weightsName args) region zone) m ws'
  = foldl (add_weight (no_weightsName args) region zone) m ws.
Proof.
  intros Hr Hs. revert m. induction Hs as [|w w' ws ws' [Hn Hw] _ IH]; intros m; [done|].
  apply Forall_cons in Hr as [Hr1 Hr]. cbn [foldl]. rewrite IH by done. f_equal.
  unfold add_weight. rewrite Hn. case_bool_decide as E; [done|].
  specialize (Hr1 E). by rewrite !(same_add_level _ _ _ _ _ Hr1 Hw).
Qed.

Lemma populate_weight_spec region zone w m : ready_weight w ->
  exists w', populate_weight args region zone w m
             = Some (w', add_weight (no_weightsName args) region zone m w) /\
    ready_weight w' /\ same_weight w w'.
Proof.
  intros Hr. unfold populate_weight, add_weight. case_bool_decide as E.
  { exists w. split; [done|]. split; [done|]. split; [done|apply same_level_refl]. }
  assert (ready (TopologyList w)) as Hw by (by apply Hr).
  destruct (populate_level_spec LabelTopologyRegion region (TopologyList w) m Hw)
    as (tl1 & -> & Hr1 & Hs1).
  destruct (populate_level_spec LabelTopologyZone zone tl1
    (add_level (TopologyList w) LabelTopologyRegion region m) Hr1) as (tl2 & -> & Hr2 & Hs2).
  rewrite (same_add_level (TopologyList w) tl1) by done.
  eexists. split; [done|]. split; [by intros _|]. split; [done|by apply (same_level_trans _ tl1)].
Qed.

Lemma populate_weights_spec region zone ws m : Forall ready_weight ws ->
  exists ws', populate_weights args region zone ws m
              = Some (ws', foldl (add_weight (no_weightsName args) region zone) m ws) /\
    Forall ready_weight ws' /\ Forall2 same_weight ws ws'.
Proof.
  intros Hr. revert m. induction Hr as [|w ws Hw _ IH]; intros m; cbn.
  { exists []. by repeat constructor. }
  destruct (populate_weight_spec region zone w m Hw) as (w' & -> & Hw' & Hsw).
  destruct (IH (add_weight (no_weightsName args) region zone m w)) as (ws' & -> & Hr' & Hs').
  eexists. split; [done|]. by split; constructor.
Qed.

(** ** Sorting the topology keys once, before the nodes are visited *)

Definition well_formed (nt : NetworkTopology) : Prop :=
  Forall (fun w => weight_name w = no_weightsName args ->
    let tl := TopologyList w in
    int_sized tl /\ NoDup (TopologyKey <$> tl) /\ Forall distinct_origins tl /\
    (manual args = false -> increasing TopologyKey tl /\
                            Forall (fun t => increasing Origin (OriginList t)) tl)) (Weights nt).

Definition sorted_weight (w : WeightInfo) : WeightInfo :=
  if manual args then with_topologies w (sort_Sort (by_key TopologyKey) (TopologyList w)) else w.

Lemma sortNetworkTopologyCosts_eq nt :
  sortNetworkTopologyCosts args (Some nt) = Some (Some (with_weights nt (sorted_weight <$> Weights nt))).
Proof.
  unfold sortNetworkTopologyCosts, sorted_weight. destruct (manual args); [done|].
  rewrite list_fmap_id. by destruct nt.
Qed.

Lemma sorted_ready nt : well_formed nt -> Forall ready_weight (sorted_weight <$> Weights nt).
Proof.
  unfold well_formed. rewrite Forall_fmap. intros H'. eapply Forall_impl; [exact H'|]. intros w Hw.
  unfold sorted_weight, ready_weight, ready.
  cbn. destruct (manual args) eqn:E; cbn; intros Hn; destruct (Hw Hn) as (Hl & Hnd & Hd & Hm).
  - pose proof (sort_perm _ (by_key TopologyKey) (TopologyList w)) as Hp. split; [|split; [|split; [|done]]].
    + unfold int_sized. by rewrite Hp.
    + by apply sort_increasing.
    + by rewrite Hp.
  - destruct (Hm eq_refl). done.
Qed.

Lemma sorted_cost_map nt region zone : well_formed nt ->
  cost_map (no_weightsName args) (with_weights nt (sorted_weight <$> Weights nt)) region zone
  = cost_map (no_weightsName args) nt region zone.
Proof.
  unfold well_formed, cost_map. cbn [Weights with_weights]. generalize (∅ : CostMap) as m.
  induction (Weights nt) as [|w ws IH]; intros m Hw; [done|].
  apply Forall_cons in Hw as [Hw Hws]. cbn. rewrite IH by done. f_equal.
  unfold add_weight, sorted_weight. destruct (manual args); [|done]. cbn [weight_name with_topologies].
  case_bool_decide as E; [done|]. destruct (Hw E) as (_ & Hnd & _).
  unfold add_level, level_costs. cbn [TopologyList with_topologies].
  pose proof (sort_perm _ (by_key TopologyKey) (TopologyList w)) as Hp.
  by rewrite <- !(assoc_perm TopologyKey _ _ _ Hnd (symmetry Hp)).
Qed.

(** The topology while the nodes are visited. *)
Definition current (nt nt' : NetworkTopology) : Prop :=
  Forall2 same_weight (sorted_weight <$> Weights nt) (Weights nt') /\ Forall ready_weight (Weights nt').

Lemma populate_current nt nt' region zone : well_formed nt -> current nt nt' ->
  exists nt'', populateCostMap args ∅ (Some nt') region zone
    = Some (Some nt'', cost_map (no_weightsName args) nt region zone) /\ current nt nt''.
Proof.
  intros Hw [Hs Hr]. unfold populateCostMap.
  destruct (populate_weights_spec region zone (Weights nt') ∅ Hr) as (ws & -> & Hr' & Hs').
  rewrite (same_add_weights _ _ _ _ _ (sorted_ready nt Hw) Hs).
  change (foldl _ _ _) with
    (cost_map (no_weightsName args) (with_weights nt (sorted_weight <$> Weights nt)) region zone).
  rewrite sorted_cost_map by done. eexists. split; [done|]. split; [by eapply same_weight_trans|done].
Qed.
End Populate.

(** ** Pairs of a scheduled pod and a dependency *)

Definition pairs (sl : list ScheduledInfo) (deps : list DependenciesInfo)
    : list (ScheduledInfo * DependenciesInfo) :=
  p ← sl; d ← deps;
  if bool_decide (sch_selector p = dep_selector d) then [(p, d)] else [].

Section Pairs.
Variable get : string -> result Node.
Variables (nodeName region zone : string) (costMap : CostMap).

(** Where the other pod runs, seen from the node. *)
Inductive Distance :=
| SameNode | NoTopology | SameZoneAs | Measured (cost : option Z) | Unresolved (e : ApiError).

Definition distance (p : ScheduledInfo) : Distance :=
  if bool_decide (sch_hostname p = nodeName) then SameNode
  else
    match get (sch_hostname p) with
    | Err e => Unresolved e
    | Ok n =>
        if bool_decide (GetNodeRegion n = "" /\ GetNodeZone n = "") then NoTopology
        else if bool_decide (region = GetNodeRegion n /\ zone = GetNodeZone n) then SameZoneAs
        else if bool_decide (region = GetNodeRegion n)
        then Measured (costMap !! {| ck_origin := zone; ck_destination := GetNodeZone n |})
        else Measured (costMap !! {| ck_origin := region; ck_destination := GetNodeRegion n |})
    end.

(** [Some true] is a dependency met, [Some false] one violated. *)
Definition verdict (pd : ScheduledInfo * DependenciesInfo) : option bool :=
  match distance pd.1 with
  | SameNode | SameZoneAs => Some true
  | NoTopology => Some false
  | Measured cost => (fun c => c <=? MaxNetworkCost pd.2) <$> cost
  | Unresolved _ => None
  end.

Definition pair_cost (pd : ScheduledInfo * DependenciesInfo) : Z :=
  match distance pd.1 with
  | SameNode => 0
  | SameZoneAs => 1
  | NoTopology | Measured None | Unresolved _ => 100
  | Measured (Some c) => c
  end.

Definition resolved (pd : ScheduledInfo * DependenciesInfo) : Prop :=
  match distance pd.1 with Unresolved _ => False | _ => True end.

#[export] Instance resolved_dec pd : Decision (resolved pd).
Proof. unfold resolved. destruct (distance pd.1); apply _. Defined.

Definition count_verdict (b : bool) (l : list (ScheduledInfo * DependenciesInfo)) : Z :=
  sumZ (fun pd => if bool_decide (verdict pd = Some b) then 1 else 0) l.

Definition ind (b : bool) : Z := if b then 1 else 0.

(** One turn of either inner loop on a pair, when the sums are kept modulo 2^64. *)
Lemma check_dependency_eq p d s v : sch_selector p = dep_selector d ->
  check_dependency get nodeName region zone costMap p (int64 s, int64 v) d =
  match distance p with
  | Unresolved e => ((int64 s, int64 v), Some e)
  | _ => ((int64 (s + ind (bool_decide (verdict (p, d) = Some true))),
           int64 (v + ind (bool_decide (verdict (p, d) = Some false)))), None)
  end.
Proof.
  intros Hsel. unfold check_dependency, verdict, distance, cost_between, count_cost, ind, add64.
  rewrite (bool_decide_false (sch_selector p <> dep_selector d)) by (intros H; by apply H).
  cbn [fst snd]. rewrite !int64_add_l.
  case_bool_decide; [rewrite Z.add_0_r; done|].
  destruct (get (sch_hostname p)) as [n|e]; [|done].
  rewrite !(bool_decide_and _ _).
  destruct (bool_decide (GetNodeRegion n = "")), (bool_decide (GetNodeZone n = "")),
    (bool_decide (region = _)), (bool_decide (zone = _)); cbn; rewrite ?Z.add_0_r; try done;
    (destruct (costMap !! _) as [c|]; cbn; [destruct (c <=? _)|]; cbn; by rewrite ?Z.add_0_r).
Qed.

Lemma add_dependency_cost_eq p d c : sch_selector p = dep_selector d ->
  add_dependency_cost get nodeName region zone costMap p (int64 c) d =
  match distance p with
  | Unresolved e => (int64 c, Some e)
  | _ => (int64 (c + pair_cost (p, d)), None)
  end.
Proof.
  intros Hsel. unfold add_dependency_cost, pair_cost, distance, cost_between, add64.
  rewrite (bool_decide_false (sch_selector p <> dep_selector d)) by (intros H; by apply H).
  cbn [fst snd]. rewrite !int64_add_l. case_bool_decide; [done|].
  destruct (get (sch_hostname p)) as [n|e]; [|done].
  rewrite !(bool_decide_and _ _).
  destruct (bool_decide (GetNodeRegion n = "")), (bool_decide (GetNodeZone n = "")),
    (bool_decide (region = _)), (bool_decide (zone = _)); cbn; try done;
    rewrite ?int64_add_l; by destruct (costMap !! _).
Qed.

(** The two nested loops are one loop over the pairs. *)
Lemma loop_pairs {S} (body : ScheduledInfo -> S -> DependenciesInfo -> S * option ApiError) s sl deps :
  (forall p s d, sch_selector p <> dep_selector d -> body p s d = (s, None)) ->
  loop_until_error (fun s p => loop_until_error (body p) s deps) s sl
  = loop_until_error (fun s pd => body pd.1 s pd.2) s (pairs sl deps).
Proof.
  intros Hskip.
  assert (Happ : forall (l1 l2 : list (ScheduledInfo * DependenciesInfo)) s,
    loop_until_error (fun s pd => body pd.1 s pd.2) s (l1 ++ l2) =
    match loop_until_error (fun s pd => body pd.1 s pd.2) s l1 with
    | (s, None) => loop_until_error (fun s pd => body pd.1 s pd.2) s l2
    | r => r
    end).
  { induction l1 as [|[p d] l1 IH]; intros l2 s'; cbn; [done|].
    destruct (body p s' d) as [s'' [e|]]; [done|apply IH]. }
  revert s. induction sl as [|p sl IH]; intros s; [done|].
  unfold pairs. rewrite bind_cons, Happ. cbn [loop_until_error].
  assert (loop_until_error (fun s pd => body pd.1 s pd.2) s
            (deps ≫= (fun d => if bool_decide (sch_selector p = dep_selector d) then [(p, d)] else []))
          = loop_until_error (body p) s deps) as ->.
  { clear IH. revert s. induction deps as [|d deps IHd]; intros s; [done|]. rewrite bind_cons, Happ.
    cbn [loop_until_error]. case_bool_decide as Hsel; cbn.
    - destruct (body p s d) as [s' [e|]]; [done|apply IHd].
    - rewrite Hskip by done. apply IHd. }
  destruct (loop_until_error (body p) s deps) as [s' [e|]]; [done|apply IH].
Qed.

(** A loop over pairs that can only fail on an unresolved one; [f] is how the
    loop's state represents the sums [step] computes. *)
Lemma loop_sum {S T} (f : T -> S) (body : S -> ScheduledInfo * DependenciesInfo -> S * option ApiError)
    (step : T -> ScheduledInfo * DependenciesInfo -> T) t l :
  (forall t pd, pd ∈ l -> body (f t) pd =
     match distance pd.1 with Unresolved e => (f t, Some e) | _ => (f (step t pd), None) end) ->
  (Forall resolved l -> loop_until_error body (f t) l = (f (foldl step t l), None)) /\
  (~ Forall resolved l -> exists s' e, loop_until_error body (f t) l = (s', Some e)).
Proof.
  revert t. induction l as [|pd l IH]; intros t Hb; [split; [done|by intros []]|].
  cbn [loop_until_error foldl]. rewrite (Hb t pd) by left.
  destruct (IH (step t pd)) as [IH1 IH2]; [intros; apply Hb; by right|].
  destruct (decide (resolved pd)) as [Hr|Hr].
  - pose proof Hr as Hr'. unfold resolved in Hr. split.
    + intros [_ Hl]%Forall_cons. destruct (distance pd.1); by try apply IH1.
    + intros Hn. assert (~ Forall resolved l) as Hl by (intros ?; apply Hn; by constructor).
      destruct (distance pd.1); by try apply IH2.
  - split; [by intros [? _]%Forall_cons|]. intros _. unfold resolved in Hr.
    destruct (distance pd.1); try done. eauto.
Qed.

Lemma loop_ext {A S} (b1 b2 : S -> A -> S * option ApiError) s l :
  (forall s a, a ∈ l -> b1 s a = b2 s a) -> loop_until_error b1 s l = loop_until_error b2 s l.
Proof.
  revert s. induction l as [|a l IH]; intros s Hb; [done|]. cbn. rewrite (Hb s a) by left.
  destruct (b2 s a) as [s' [e|]]; [done|]. apply IH. intros. apply Hb. by right.
Qed.

Lemma pairs_selector sl deps pd : pd ∈ pairs sl deps ->
  sch_selector pd.1 = dep_selector pd.2 /\ pd.1 ∈ sl.
Proof.
  intros (p & Hpd & Hp)%list_elem_of_bind. apply list_elem_of_bind in Hpd as (d & Hpd & Hd).
  case_bool_decide; [|by apply not_elem_of_nil in Hpd]. apply list_elem_of_singleton in Hpd as ->. done.
Qed.

Lemma check_spec sl deps : Forall (fun p => sch_hostname p <> "") sl ->
  let l := pairs sl deps in
  let r := checkMaxNetworkCostRequirements get nodeName region zone costMap sl deps in
  (Forall resolved l -> r = ((int64 (count_verdict true l), int64 (count_verdict false l)), None)) /\
  (~ Forall resolved l -> exists s e, r = (s, Some e)).
Proof.
  intros Hh l r.
  assert (r = loop_until_error (fun acc pd => check_dependency get nodeName region zone costMap pd.1 acc pd.2)
                (0, 0) l) as ->.
  { unfold r, l, checkMaxNetworkCostRequirements. rewrite <- loop_pairs.
    - apply loop_ext. intros s p Hp. rewrite Forall_forall in Hh. by rewrite bool_decide_true by auto.
    - intros p [s v] d Hne. unfold check_dependency. by rewrite bool_decide_true. }
  set (f := fun sv : Z * Z => (int64 sv.1, int64 sv.2)).
  set (step := fun (sv : Z * Z) pd => (sv.1 + ind (bool_decide (verdict pd = Some true)),
                                       sv.2 + ind (bool_decide (verdict pd = Some false)))).
  destruct (loop_sum f (fun acc pd => check_dependency get nodeName region zone costMap pd.1 acc pd.2)
    step (0, 0) l) as [H1 H2].
  { intros [s v] [p d] Hpd. apply pairs_selector in Hpd as [Hsel _]. unfold f. cbn [fst snd].
    rewrite check_dependency_eq by done. by destruct (distance p). }
  split; [|exact H2]. intros Hl. etransitivity; [exact (H1 Hl)|]. f_equal.
  assert (forall sv, foldl step sv l = (sv.1 + count_verdict true l, sv.2 + count_verdict false l)) as ->.
  { clear H1 H2 Hl. clearbody l. induction l as [|pd l IH]; intros [s v]; cbn [foldl].
    - cbn. by rewrite !Z.add_0_r.
    - rewrite IH. unfold step, count_verdict, ind. rewrite !sumZ_cons. cbn [fst snd]. f_equal; lia. }
  done.
Qed.

Lemma accumulated_spec sl deps :
  let l := pairs sl deps in
  let r := getAccumulatedCost get nodeName region zone costMap sl deps in
  (Forall resolved l -> r = (int64 (sumZ pair_cost l), None)) /\
  (~ Forall resolved l -> exists s e, r = (s, Some e)).
Proof.
  intros l r.
  assert (r = loop_until_error (fun c pd => add_dependency_cost get nodeName region zone costMap pd.1 c pd.2)
                0 l) as ->.
  { unfold r, l, getAccumulatedCost. rewrite <- loop_pairs; [done|].
    intros p c d Hne. unfold add_dependency_cost. by rewrite bool_decide_true. }
  destruct (loop_sum int64 (fun c pd => add_dependency_cost get nodeName region zone costMap pd.1 c pd.2)
    (fun c pd => c + pair_cost pd) 0 l) as [H1 H2].
  { intros c [p d] Hpd. apply pairs_selector in Hpd as [Hsel _]. cbn [fst snd].
    rewrite add_dependency_cost_eq by done. by destruct (distance p). }
  split; [|exact H2]. intros Hl. etransitivity; [exact (H1 Hl)|]. f_equal. f_equal.
  assert (forall c, foldl (fun c pd => c + pair_cost pd) c l = c + sumZ pair_cost l) as ->; [|done].
  clear. induction l as [|pd l IH]; intros c; cbn [foldl]; [cbn; lia|]. rewrite IH, sumZ_cons. lia.
Qed.
End Pairs.

Lemma foldl_insert_lookup {A V} (k : A -> string) (v : A -> V) (m : gmap string V) l a :
  NoDup (k <$> l) -> a ∈ l -> foldl (fun m a => <[k a := v a]> m) m l !! k a = Some (v a).
Proof.
  revert m. induction l as [|b l IH]; intros m Hnd Ha; [by apply not_elem_of_nil in Ha|].
  rewrite fmap_cons in Hnd. apply NoDup_cons in Hnd as [Hni Hnd]. cbn [foldl].
  apply elem_of_cons in Ha as [->|Ha]; [|by apply IH].
  clear IH Hnd. assert (forall m : gmap string V, m !! k b = Some (v b) ->
    foldl (fun m a => <[k a := v a]> m) m l !! k b = Some (v b)) as H.
  { induction l as [|c l IH]; intros m' Hm; [done|]. cbn [foldl]. apply IH; [set_solver|].
    rewrite lookup_insert_ne; [done|]. set_solver. }
  apply H, lookup_insert_eq.
Qed.

Lemma count_verdict_bounds get name region zone cm b l :
  0 <= count_verdict get name region zone cm b l <= Z.of_nat (length l).
Proof.
  unfold count_verdict. induction l as [|pd l IH]; [done|]. rewrite sumZ_cons.
  cbn [length]. case_bool_decide; lia.
Qed.

Lemma count_verdict_int64 get name region zone cm b l :
  Z.of_nat (length l) < 4611686018427387904 ->
  int64 (count_verdict get name region zone cm b l) = count_verdict get name region zone cm b l.
Proof.
  intros Hl. apply int64_id. pose proof (count_verdict_bounds get name region zone cm b l).
  unfold in_int64. lia.
Qed.

(** ** The loop over the nodes *)

Section Nodes.
Context `{!GoSort, !SortLaws}.
Variable args : NetworkOverheadArgs.
Variable snapshot : Snapshot.
Variable nt : NetworkTopology.
Hypothesis nt_wf : well_formed args nt.
Variables (sl : list ScheduledInfo) (deps : list DependenciesInfo).
Hypothesis hosts : Forall (fun p => sch_hostname p <> "") sl.

(** What the maps say of a node. *)
Definition node_costs (n : Node) : CostMap :=
  cost_map (no_weightsName args) nt (GetNodeRegion n) (GetNodeZone n).
Definition node_count (b : bool) (n : Node) : Z :=
  int64 (count_verdict (snap_Get snapshot) (node_name n) (GetNodeRegion n) (GetNodeZone n)
           (node_costs n) b (pairs sl deps)).
Definition node_final (n : Node) : Z :=
  int64 (sumZ (pair_cost (snap_Get snapshot) (node_name n) (GetNodeRegion n) (GetNodeZone n)
           (node_costs n)) (pairs sl deps)).

(** Every dependency's host is the node or in the snapshot. *)
Definition node_ok (n : Node) : Prop :=
  Forall (fun pd => sch_hostname pd.1 = node_name n \/
                    is_Ok (snap_Get snapshot (sch_hostname pd.1)) = true) (pairs sl deps).

#[export] Instance node_ok_dec n : Decision (node_ok n).
Proof. unfold node_ok. apply _. Defined.

Lemma resolved_iff n pd :
  resolved (snap_Get snapshot) (node_name n) (GetNodeRegion n) (GetNodeZone n) (node_costs n) pd <->
  sch_hostname pd.1 = node_name n \/ is_Ok (snap_Get snapshot (sch_hostname pd.1)) = true.
Proof.
  unfold resolved, distance. case_bool_decide; [naive_solver|].
  destruct (snap_Get snapshot (sch_hostname pd.1)); cbn; [|naive_solver].
  repeat case_bool_decide; naive_solver.
Qed.

Lemma node_ok_resolved n : node_ok n <->
  Forall (resolved (snap_Get snapshot) (node_name n) (GetNodeRegion n) (GetNodeZone n) (node_costs n))
    (pairs sl deps).
Proof. unfold node_ok. split; intros Hf; (eapply Forall_impl; [exact Hf|]); intros pd; apply resolved_iff. Qed.

Definition topology_current (o : option NetworkTopology) : Prop :=
  match o with Some nt' => current args nt nt' | None => False end.

Lemma prefilter_node_spec nm n : topology_current (nm_topology nm) ->
  (node_ok n -> exists o, topology_current o /\
     prefilter_node args snapshot sl deps nm n =
       Some ({| nm_topology := o; nm_costs := <[node_name n := node_costs n]> (nm_costs nm);
                nm_satisfied := <[node_name n := node_count true n]> (nm_satisfied nm);
                nm_violated := <[node_name n := node_count false n]> (nm_violated nm);
                nm_final := <[node_name n := node_final n]> (nm_final nm) |}, None)) /\
  (~ node_ok n -> exists nm' e, prefilter_node args snapshot sl deps nm n = Some (nm', Some e)).
Proof.
  intros Ht. destruct (nm_topology nm) as [nt'|] eqn:E; [|done]. cbn in Ht.
  destruct (populate_current args nt nt' (GetNodeRegion n) (GetNodeZone n) nt_wf Ht) as (nt'' & Hp & Hc).
  destruct (check_spec (snap_Get snapshot) (node_name n) (GetNodeRegion n) (GetNodeZone n)
    (node_costs n) sl deps hosts) as [Hc1 Hc2].
  destruct (accumulated_spec (snap_Get snapshot) (node_name n) (GetNodeRegion n) (GetNodeZone n)
    (node_costs n) sl deps) as [Ha1 _].
  unfold prefilter_node. rewrite E, Hp. fold (node_costs n). rewrite !node_ok_resolved. split.
  - intros Hok. rewrite (Hc1 Hok), (Ha1 Hok). exists (Some nt''). done.
  - intros Hno. destruct (Hc2 Hno) as ([s v] & e & ->). eauto.
Qed.

Lemma prefilter_nodes_spec nodes nm : topology_current (nm_topology nm) ->
  (Forall node_ok nodes -> exists o, 
     prefilter_nodes args snapshot sl deps nm nodes =
       Some ({| nm_topology := o;
                nm_costs := foldl (fun m n => <[node_name n := node_costs n]> m) (nm_costs nm) nodes;
                nm_satisfied := foldl (fun m n => <[node_name n := node_count true n]> m) (nm_satisfied nm) nodes;
                nm_violated := foldl (fun m n => <[node_name n := node_count false n]> m) (nm_violated nm) nodes;
                nm_final := foldl (fun m n => <[node_name n := node_final n]> m) (nm_final nm) nodes |},
             None)) /\
  (~ Forall node_ok nodes ->
     exists nm' e, prefilter_nodes args snapshot sl deps nm nodes = Some (nm', Some e)).
Proof.
  revert nm. induction nodes as [|n nodes IH]; intros nm Ht; cbn [prefilter_nodes foldl].
  - split; [|by intros []]. intros _. exists (nm_topology nm). by destruct nm.
  - destruct (prefilter_node_spec nm n Ht) as [H1 H2].
    destruct (decide (node_ok n)) as [Hok|Hno].
    + destruct (H1 Hok) as (o & Ho & Hn). rewrite Hn.
      match type of Hn with _ = Some (?nm', _) => destruct (IH nm' Ho) as [IH1 IH2] end. split.
      * intros [_ Hall]%Forall_cons. destruct (IH1 Hall) as (o' & ->). eauto.
      * intros Hno. apply IH2. intros Hall. apply Hno. by constructor.
    + destruct (H2 Hno) as (nm' & e & ->). split; [by intros [? _]%Forall_cons|eauto].
Qed.
End Nodes.

(** ** Minimum and maximum of the scores *)

Lemma minmax_spec scores : scores <> [] -> (forall n, n ∈ scores -> in_int64 (ns_score n)) ->
  let mm := getMinMaxScores scores in
  (forall n, n ∈ scores -> mm.1 <= ns_score n <= mm.2) /\
  (exists n, n ∈ scores /\ ns_score n = mm.1) /\ (exists n, n ∈ scores /\ ns_score n = mm.2).
Proof.
  intros Hne Hr mm. destruct (minmax_fold scores MaxInt64 MinInt64) as (_ & Hall & Hmin & Hmax).
  fold (getMinMaxScores scores) in *. fold mm in Hall, Hmin, Hmax. split; [done|].
  destruct scores as [|n scores]; [done|]. pose proof (Hr n ltac:(left)) as Hn.
  pose proof (Hall n ltac:(left)) as Hb. unfold in_int64, MaxInt64, MinInt64 in *.
  split; [destruct Hmin as [E|?]|destruct Hmax as [E|?]]; try done; exists n; (split; [left|lia]).
Qed.

(** ** The two lists *)

Lemma foldl_snoc {A} (deps l : list A) : foldl (fun deps d => deps ++ [d]) deps l = deps ++ l.
Proof.
  revert deps. induction l as [|d l IH]; intros deps; cbn; [by rewrite app_nil_r|].
  by rewrite IH, <- app_assoc.
Qed.

Lemma GetDependencyList_spec pod ag :
  GetDependencyList pod ag =
  (Workloads ag ≫= fun w => if bool_decide (wl_selector w = GetPodAppGroupSelector pod)
                            then Dependencies w else []).
Proof.
  unfold GetDependencyList.
  enough (forall acc, foldl (fun deps w =>
    if bool_decide (wl_selector w = GetPodAppGroupSelector pod)
    then foldl (fun deps d => deps ++ [d]) deps (Dependencies w) else deps) acc (Workloads ag)
    = acc ++ (Workloads ag ≫= fun w => if bool_decide (wl_selector w = GetPodAppGroupSelector pod)
                                       then Dependencies w else [])) as H by apply (H []).
  induction (Workloads ag) as [|w ws IH]; intros acc; cbn [foldl]; [by rewrite app_nil_r|].
  rewrite IH, bind_cons. case_bool_decide; [by rewrite foldl_snoc, app_assoc|done].
Qed.

Lemma GetScheduledList_spec pods :
  GetScheduledList pods =
  (pods ≫= fun p => if bool_decide (pod_node p = "") then [] else [scheduled_info p]).
Proof.
  unfold GetScheduledList.
  enough (forall acc, foldl (fun l p => if bool_decide (pod_node p = "") then l
                                        else l ++ [scheduled_info p]) acc pods
    = acc ++ (pods ≫= fun p => if bool_decide (pod_node p = "") then [] else [scheduled_info p]))
    as H by apply (H []).
  induction pods as [|p pods IH]; intros acc; cbn [foldl]; [by rewrite app_nil_r|].
  rewrite IH, bind_cons. case_bool_decide; [done|by rewrite <- app_assoc].
Qed.

Lemma GetScheduledList_hosts pods : Forall (fun p => sch_hostname p <> "") (GetScheduledList pods).
Proof.
  rewrite GetScheduledList_spec, Forall_forall. intros x (p & Hx & _)%list_elem_of_bind.
  case_bool_decide; [by apply not_elem_of_nil in Hx|]. by apply list_elem_of_singleton in Hx as ->.
Qed.
