(* ===== verification/NetworkClaims.v ===== *)
(** * Properties of the network-aware plugins

    Stated for every implementation of [sort.Sort] with its laws; the witnesses
    use insertion sort and a cluster of three nodes in two zones. *)

From S2P Require Import Prelude.
From S2P Require Import KubeTypes.
From S2P Require Import Framework.
From S2P Require Import GoSort.
From S2P Require Import GoFloat.
From S2P Require Import Capacity.
From S2P Require Import NetworkUtil.
From S2P Require Import NetworkOverhead.
From S2P Require Import TopologicalSort.
From S2P Require Import NetworkProofs.
From Stdlib Require Import SpecFloat.

(** ** A cluster *)

Module NetDemo.
Definition labelled (name : string) (l : list (string * string)) : ObjectMeta := {|
  meta_name := name; meta_namespace := "default"; meta_uid := name; meta_labels := list_to_map l;
  meta_annotations := ∅; meta_owners := []; meta_deletion := None; meta_creation := 0;
  meta_resource_version := 0 |}.
Definition node (name region zone : string) : Node := {|
  node_meta := labelled name [(LabelTopologyRegion, region); (LabelTopologyZone, zone)];
  node_allocatable := ∅ |}.
Definition pod (name workload host : string) (priority : Z) : Pod := {|
  pod_meta := labelled name [(AppGroupLabel, "a1"); (AppGroupSelectorLabel, workload)];
  pod_spec := {| spec_node_name := host; spec_priority := Some priority; spec_preempt_never := false; spec_priority_class := ""; spec_scheduler_name := "";
                 spec_containers := []; spec_init_containers := []; spec_overhead := None |};
  pod_status := {| pstatus_phase := PodPending; pstatus_nominated := ""; pstatus_start_time := None; pstatus_conditions := [] |} |}.
Definition group : AppGroup := {|
  ag_uid := "u1";
  Workloads := [{| wl_selector := "p1"; Dependencies := [{| dep_selector := "p2"; MaxNetworkCost := 5 |}] |}];
  TopologyOrder := [{| topo_selector := "p1"; topo_index := 2 |}; {| topo_selector := "p2"; topo_index := 1 |}] |}.
Definition zones : list OriginInfo :=
  [{| Origin := "z2"; CostList := [{| Destination := "z1"; NetworkCost := 4 |}] |};
   {| Origin := "z1"; CostList := [{| Destination := "z2"; NetworkCost := 8 |}] |}].
Definition topology : NetworkTopology := {|
  nt_uid := "u2";
  Weights := [{| weight_name := "UserDefined";
                 TopologyList := [{| TopologyKey := LabelTopologyZone; OriginList := zones |};
                                  {| TopologyKey := LabelTopologyRegion; OriginList := [] |}] |}] |}.
Definition args : NetworkOverheadArgs := {|
  no_namespaces := ["default"]; no_weightsName := "UserDefined"; no_ntName := "nt" |}.
Definition nodes : list Node := [node "n1" "r" "z1"; node "n2" "r" "z2"; node "n3" "r" "z3"].
Definition snapshot_of (l : list Node) : Snapshot := {|
  snap_List := Ok l;
  snap_Get := fun name => match list_find (fun n => node_name n = name) l with
                          | Some (_, n) => Ok n | None => Err NotFound end |}.
Definition getGroup (ns name : string) : result AppGroup :=
  if bool_decide (name = "a1") then Ok group else Err NotFound.
Definition getTopology (ns name : string) : result NetworkTopology := Ok topology.
Definition running : list Pod := [pod "b" "p2" "n2" 0; pod "c" "p2" "" 0].
Definition listPods (label value : string) : result (list Pod) := Ok running.
Definition incoming : Pod := pod "a" "p1" "" 0.
End NetDemo.

(** ** Look-ups *)

(** C23. On a slice sorted by its key without repetitions the three binary
    searches find what a linear scan finds: the index of a workload (-1 when it
    has none), the cost list of an origin, the origin list of a topology key. *)
Theorem binary_search_exact order ol tl selector origin key :
  int_sized order -> increasing topo_selector order ->
  int_sized ol -> increasing Origin ol ->
  int_sized tl -> increasing TopologyKey tl ->
  FindPodOrder order selector
    = Some (default (-1) (topo_index <$> assoc topo_selector order selector)) /\
  FindOriginCosts ol origin = Some (default [] (CostList <$> assoc Origin ol origin)) /\
  fst <$> FindTopologyKey tl key = Some (default [] (OriginList <$> assoc TopologyKey tl key)).
Proof.
  intros Hol Hos Hcl Hcs Htl Hts. split; [|split].
  - unfold FindPodOrder. pose proof (search_key_assoc topo_selector order selector Hol Hos) as H.
    destruct (search_key topo_selector order selector); [|by rewrite H|done|done].
    destruct H as [-> Hsome]. by destruct (assoc topo_selector order selector); [|destruct Hsome].
  - by apply FindOriginCosts_assoc.
  - by destruct (FindTopologyKey_cases tl key Htl Hts) as [(i & t & -> & _ & ->)|[-> ->]].
Qed.

Lemma increasing_pair {A} (key : A -> string) a b :
  String.ltb (key a) (key b) = true -> increasing key [a; b].
Proof. intros H. repeat constructor. done. Qed.

Lemma binary_search_exact_witness :
  FindPodOrder (TopologyOrder NetDemo.group) "p2" = Some 1 /\
  FindOriginCosts (rev NetDemo.zones) "z2" = Some [{| Destination := "z1"; NetworkCost := 4 |}].
Proof.
  destruct (binary_search_exact (TopologyOrder NetDemo.group) (rev NetDemo.zones) [] "p2" "z2" "")
    as (H1 & H2 & _).
  - unfold int_sized. cbn. lia.
  - by apply increasing_pair.
  - unfold int_sized. cbn. lia.
  - by apply increasing_pair.
  - unfold int_sized. cbn. lia.
  - constructor.
  - split; [exact H1|exact H2].
Defined.

(** The binary search ends within a logarithm of the slice's length, on
    sorted and unsorted slices alike, and never reads outside the slice: with
    fewer than [2 ^ f] elements, [f + 1] iterations give the result, and a
    position that is found holds the key. *)
Theorem search_terminates {A} (key : A -> string) l target f :
  int_sized l -> Z.of_nat (length l) < 2 ^ Z.of_nat f ->
  search (key <$> l) target (S f) 0 (Z.of_nat (length l) - 1) = search_key key l target /\
  (search_key key l target = Absent \/
   exists i a, search_key key l target = Found i /\ l !! i = Some a /\ key a = target).
Proof.
  intros Hl Hf. split.
  - unfold search_key. destruct (decide (f <= length l)%nat) as [Hle|Hgt].
    + symmetry. apply search_more_fuel; [lia|].
      destruct (search_spec (key <$> l) target f 0 (Z.of_nat (length l) - 1)) as [(i & -> & _)|[-> _]];
        rewrite ?length_fmap; done || lia.
    + apply search_more_fuel; [lia|].
      pose proof (search_key_cases key l target Hl) as H. unfold search_key in H.
      destruct H as [(i & a & -> & _)|[-> _]]; done.
  - destruct (search_key_cases key l target Hl) as [(i & a & H)|[H _]]; eauto.
Qed.

Lemma search_terminates_witness :
  search (Origin <$> NetDemo.zones) "z1" 3 0 1 = search_key Origin NetDemo.zones "z1".
Proof.
  exact (proj1 (search_terminates Origin NetDemo.zones "z1" 2
    ltac:(unfold int_sized; cbn; lia) ltac:(cbn; lia))).
Defined.

(** ** PreFilter, Filter and Score *)

Section Cluster.
Context `{!GoSort, !SortLaws}.
Variable args : NetworkOverheadArgs.
Variable getAppGroup : string -> string -> result AppGroup.
Variable getTopology : string -> string -> result NetworkTopology.
Variable listPods : string -> string -> result (list Pod).
Variable snapshot : Snapshot.
Variables (pod : Pod) (ag : AppGroup) (nt : NetworkTopology) (pods : list Pod) (nodes : list Node).

(** The cluster a pod of an AppGroup is scheduled in, dependencies placed. *)
Record Placed : Prop := {
  placed_group : GetPodAppGroupLabel pod <> "";
  placed_ag : find_object getAppGroup ag_uid (no_namespaces args) (GetPodAppGroupLabel pod) = Some ag;
  placed_nt : find_object getTopology nt_uid (no_namespaces args) (no_ntName args) = Some nt;
  placed_wf : well_formed args nt;
  placed_deps : GetDependencyList pod ag <> [];
  placed_pods : listPods AppGroupLabel (GetPodAppGroupLabel pod) = Ok pods;
  placed_sl : GetScheduledList pods <> [];
  placed_nodes : snap_List snapshot = Ok nodes;
  placed_names : NoDup (node_name <$> nodes);
}.

Abbreviation the_pairs := (pairs (GetScheduledList pods) (GetDependencyList pod ag)).

(** Every pod that is depended on runs on the node or on a known one. *)
Definition hosts_known (n : Node) : Prop :=
  forall pd, pd ∈ the_pairs -> sch_hostname pd.1 <> node_name n ->
    is_Ok (snap_Get snapshot (sch_hostname pd.1)) = true.

Definition met (b : bool) (n : Node) : Z :=
  count_verdict (snap_Get snapshot) (node_name n) (GetNodeRegion n) (GetNodeZone n)
    (cost_map (no_weightsName args) nt (GetNodeRegion n) (GetNodeZone n)) b the_pairs.
Definition total_cost (n : Node) : Z :=
  sumZ (pair_cost (snap_Get snapshot) (node_name n) (GetNodeRegion n) (GetNodeZone n)
    (cost_map (no_weightsName args) nt (GetNodeRegion n) (GetNodeZone n))) the_pairs.

Lemma hosts_known_ok n :
  hosts_known n <-> node_ok snapshot (GetScheduledList pods) (GetDependencyList pod ag) n.
Proof.
  unfold hosts_known, node_ok. rewrite Forall_forall. split; intros Hk pd Hpd; specialize (Hk pd Hpd).
  - destruct (decide (sch_hostname pd.1 = node_name n)); [by left|right; auto].
  - intros Hne. by destruct Hk.
Qed.

Lemma PreFilter_run (Hpl : Placed) :
  let deps := GetDependencyList pod ag in
  let sl := GetScheduledList pods in
  exists t, topology_current args nt t /\
  PreFilter args getAppGroup getTopology listPods snapshot pod =
  match prefilter_nodes args snapshot sl deps
    {| nm_topology := t; nm_costs := ∅; nm_satisfied := ∅; nm_violated := ∅; nm_final := ∅ |} nodes with
  | None => None
  | Some (_, Some _) => Some (NewStatus CodeError, initial_state)
  | Some (nm, None) =>
      Some (NewStatus Success,
        {| scoreEqually := false; agName := GetPodAppGroupLabel pod; appGroup := Some ag;
           networkTopology := nm_topology nm; dependencyList := deps; scheduledList := sl;
           nodeCostMap := nm_costs nm; satisfiedMap := nm_satisfied nm;
           violatedMap := nm_violated nm; finalCostMap := nm_final nm |})
  end.
Proof.
  destruct Hpl as [Hg Hag Hnt Hwf Hdeps Hpods Hsl Hnodes _]. intros deps sl.
  exists (Some (with_weights nt (sorted_weight args <$> Weights nt))). split.
  { split; [apply same_weight_refl|by apply sorted_ready]. }
  unfold PreFilter. rewrite bool_decide_false, Hag, Hnt, sortNetworkTopologyCosts_eq, Hpods, Hnodes by done.
  fold deps. fold sl in Hsl |- *. fold deps in Hdeps.
  destruct pods as [|p ps]; [by destruct Hsl|]. fold sl.
  clearbody deps sl. by destruct deps as [|d deps], sl as [|s sl].
Qed.
(** C12. When every pod that is depended on runs on a known node, [PreFilter]
    succeeds, and on each node of the snapshot [Filter] rejects the pod exactly
    when more dependencies are violated than met and [Score] is the sum of the
    costs, both read off the topology by linear look-ups although the code sorts
    its slices in place and searches them by bisection, node after node. *)
Theorem network_verdicts_exact :
  Placed -> (forall n, n ∈ nodes -> hosts_known n) ->
  Z.of_nat (length the_pairs) < 4611686018427387904 ->
  exists s, PreFilter args getAppGroup getTopology listPods snapshot pod = Some (NewStatus Success, s) /\
  forall n, n ∈ nodes ->
    Filter (Some s) (Some n)
      = NewStatus (if met true n <? met false n then Unschedulable else Success) /\
    Score (Some s) (node_name n) = (int64 (total_cost n), NewStatus Success).
Proof.
  intros Hpl Hk Hlen. destruct (PreFilter_run Hpl) as (t & Ht & ->).
  set (deps := GetDependencyList pod ag) in *. set (sl := GetScheduledList pods) in *.
  match goal with |- context [prefilter_nodes _ _ _ _ ?nm0 _] => set (nm := nm0) end.
  destruct (prefilter_nodes_spec args snapshot nt (placed_wf Hpl) sl deps (GetScheduledList_hosts pods)
    nodes nm Ht) as [Hok _].
  destruct Hok as (o & Hrun).
  { rewrite Forall_forall. intros n Hn. by apply hosts_known_ok, Hk. }
  rewrite Hrun. eexists. split; [done|]. intros n Hn.
  pose proof (placed_names Hpl) as Hnd.
  assert (forall b, node_count args snapshot nt sl deps b n = met b n) as Hcount.
  { intros b. by apply count_verdict_int64. }
  unfold Filter, Score. cbn [scoreEqually satisfiedMap violatedMap finalCostMap nm_satisfied nm_violated
    nm_final nm].
  rewrite !(foldl_insert_lookup node_name _ _ nodes n Hnd Hn). cbn [from_option id]. rewrite !Hcount.
  by destruct (met true n <? met false n).
Qed.

(** One pod of the group on a node that the snapshot does not have makes
    [PreFilter] fail, and with it the pod's whole cycle, although the other
    nodes could be judged. *)
Theorem network_unknown_host n :
  Placed -> n ∈ nodes -> ~ hosts_known n ->
  PreFilter args getAppGroup getTopology listPods snapshot pod
    = Some (NewStatus CodeError, initial_state).
Proof.
  intros Hpl Hn Hno. destruct (PreFilter_run Hpl) as (t & Ht & ->).
  set (deps := GetDependencyList pod ag) in *. set (sl := GetScheduledList pods) in *.
  match goal with |- context [prefilter_nodes _ _ _ _ ?nm0 _] => set (nm := nm0) end.
  destruct (prefilter_nodes_spec args snapshot nt (placed_wf Hpl) sl deps (GetScheduledList_hosts pods)
    nodes nm Ht) as [_ Herr].
  destruct Herr as (nm' & e & ->); [|done].
  rewrite Forall_forall. intros Hall. apply Hno, hosts_known_ok, Hall, Hn.
Qed.
End Cluster.

(** ** The witnesses' cluster *)

Lemma demo_well_formed : well_formed NetDemo.args NetDemo.topology.
Proof.
  apply Forall_singleton. intros _. cbn zeta. split; [unfold int_sized; cbn; lia|].
  split; [apply (bool_decide_unpack _); vm_compute; exact I|]. split; [|done].
  repeat constructor; try (unfold int_sized; cbn; lia); apply (bool_decide_unpack _); vm_compute; exact I.
Qed.

Lemma demo_placed l : NoDup (node_name <$> l) ->
  @Placed NetDemo.args NetDemo.getGroup NetDemo.getTopology NetDemo.listPods (NetDemo.snapshot_of l)
    NetDemo.incoming NetDemo.group NetDemo.topology NetDemo.running l.
Proof.
  intros Hnd. split; try done; [apply demo_well_formed|..]; by vm_compute.
Qed.

Lemma network_verdicts_exact_witness :
  exists s, @PreFilter insertion NetDemo.args NetDemo.getGroup NetDemo.getTopology NetDemo.listPods
      (NetDemo.snapshot_of NetDemo.nodes) NetDemo.incoming = Some (NewStatus Success, s) /\
    (* cost 8 from z1 to z2, more than the 5 allowed; no cost known from z3 *)
    Filter (Some s) (Some (NetDemo.node "n1" "r" "z1")) = NewStatus Unschedulable /\
    Filter (Some s) (Some (NetDemo.node "n2" "r" "z2")) = NewStatus Success /\
    Filter (Some s) (Some (NetDemo.node "n3" "r" "z3")) = NewStatus Success /\
    Score (Some s) "n3" = (100, NewStatus Success).
Proof.
  destruct (@network_verdicts_exact insertion insertion_laws NetDemo.args NetDemo.getGroup
    NetDemo.getTopology NetDemo.listPods (NetDemo.snapshot_of NetDemo.nodes) NetDemo.incoming
    NetDemo.group NetDemo.topology NetDemo.running NetDemo.nodes) as (s & Hs & Hall).
  - apply demo_placed. apply (bool_decide_unpack _). vm_compute. exact I.
  - intros n _ pd Hpd _. vm_compute in Hpd.
    apply list_elem_of_singleton in Hpd as ->. by vm_compute.
  - by vm_compute.
  - exists s. split; [exact Hs|].
    destruct (Hall (NetDemo.node "n1" "r" "z1")) as [F1 _]; [left|].
    destruct (Hall (NetDemo.node "n2" "r" "z2")) as [F2 _]; [right; left|].
    destruct (Hall (NetDemo.node "n3" "r" "z3")) as [F3 S3]; [right; right; left|].
    rewrite F1, F2, F3. do 3 (split; [by vm_compute|]). etransitivity; [exact S3|by vm_compute].
Defined.

Lemma network_unknown_host_witness :
  @PreFilter insertion NetDemo.args NetDemo.getGroup NetDemo.getTopology NetDemo.listPods
      (NetDemo.snapshot_of [NetDemo.node "n1" "r" "z1"]) NetDemo.incoming
    = Some (NewStatus CodeError, initial_state).
Proof.
  apply (@network_unknown_host insertion insertion_laws NetDemo.args NetDemo.getGroup
    NetDemo.getTopology NetDemo.listPods (NetDemo.snapshot_of [NetDemo.node "n1" "r" "z1"])
    NetDemo.incoming NetDemo.group NetDemo.topology NetDemo.running [NetDemo.node "n1" "r" "z1"]
    (NetDemo.node "n1" "r" "z1")).
  - apply demo_placed. apply (bool_decide_unpack _). vm_compute. exact I.
  - left.
  - intros Hk. specialize (Hk ({| sch_name := "b"; sch_selector := "p2"; sch_replica := "b"; sch_hostname := "n2" |},
      {| dep_selector := "p2"; MaxNetworkCost := 5 |})).
    vm_compute in Hk. discriminate (Hk ltac:(left) ltac:(discriminate)).
Defined.

(** ** Normalisation *)

Lemma normalized_spec other mn mx x : in_int64 mn -> in_int64 mx -> mn <= x <= mx ->
  mx - mn <= 70368744177664 ->
  normalized other mn mx x = MaxNodeScore - (if bool_decide (mx = mn) then 0 else (x - mn) * 100 / (mx - mn)).
Proof.
  unfold in_int64. intros H1 H2 Hx Hd. unfold normalized, MaxNodeScore.
  rewrite (sub64_exact x mn), (sub64_exact mx mn) by (unfold in_int64; lia).
  destruct (decide (mx = mn)) as [->|Hne].
  - rewrite (bool_decide_true (mn = mn)) by done.
    rewrite (bool_decide_false (mn <> mn)) by (intros Hn; by apply Hn).
    by replace (x - mn) with 0 by lia.
  - rewrite bool_decide_true, bool_decide_false by done.
    rewrite (int64_quotient other (x - mn) (mx - mn) 100 7) by lia.
    assert (0 <= (x - mn) * 100 / (mx - mn)) by (apply Z.div_pos; lia).
    assert ((x - mn) * 100 / (mx - mn) <= 100) by (apply Z.div_le_upper_bound; lia).
    apply sub64_exact. unfold in_int64. lia.
Qed.

(** Normalisation in double precision is exact as long as the costs lie
    within 2^46 of each other: a node's score is 100 less the integer part of its
    share of the range, so it lies between 0 and 100, the cheapest node gets
    100, the dearest 0 when costs differ, and a cheaper node never scores less;
    costs that are all 0 are left alone. *)
Theorem normalize_costs_exact other scores lo :
  scores <> [] -> in_int64 lo -> in_int64 (lo + 70368744177664) ->
  (forall n, n ∈ scores -> lo <= ns_score n <= lo + 70368744177664) ->
  let '(mn, mx) := getMinMaxScores scores in
  let f := fun x => 100 - (if bool_decide (mx = mn) then 0 else (x - mn) * 100 / (mx - mn)) in
  NormalizeScore other scores =
    (if bool_decide (mn = 0 /\ mx = 0) then scores
     else (fun n => with_score n (f (ns_score n))) <$> scores) /\
  (forall n, n ∈ scores -> 0 <= f (ns_score n) <= 100) /\
  f mn = 100 /\ (mn <> mx -> f mx = 0) /\
  (forall x y, mn <= x -> x <= y -> y <= mx -> f y <= f x).
Proof.
  intros Hne Hlo Hhi Hb. unfold in_int64 in Hlo, Hhi.
  destruct (minmax_spec scores Hne) as (Hall & (n1 & Hn1 & E1) & (n2 & Hn2 & E2)).
  { intros n Hn. specialize (Hb n Hn). unfold in_int64. lia. }
  unfold NormalizeScore. destruct (getMinMaxScores scores) as [mn mx]. cbn [fst snd] in Hall, E1, E2.
  pose proof (Hb n1 Hn1). pose proof (Hb n2 Hn2). pose proof (Hall n1 Hn1).
  set (f := fun x => 100 - (if bool_decide (mx = mn) then 0 else (x - mn) * 100 / (mx - mn))).
  cbn zeta. fold f.
  assert (Hf : forall x, mn <= x <= mx -> 0 <= f x <= 100).
  { intros x Hx. unfold f. case_bool_decide; [lia|].
    assert (0 <= (x - mn) * 100 / (mx - mn)) by (apply Z.div_pos; lia).
    assert ((x - mn) * 100 / (mx - mn) <= 100) by (apply Z.div_le_upper_bound; lia). lia. }
  split; [|split; [|split; [|split]]].
  - rewrite bool_decide_and. destruct (bool_decide (mn = 0) && bool_decide (mx = 0)); [done|].
    apply list_fmap_ext. intros i n Hi. f_equal. apply normalized_spec; unfold in_int64; [lia..| |lia].
    by eapply Hall, list_elem_of_lookup_2.
  - intros n Hn. by apply Hf, Hall.
  - unfold f. case_bool_decide; [lia|]. by rewrite Z.sub_diag.
  - intros Hd. unfold f. rewrite bool_decide_false by congruence.
    rewrite Z.mul_comm, Z.div_mul by lia. done.
  - intros x y Hx Hxy Hy. unfold f. case_bool_decide; [lia|].
    pose proof (Z.div_le_mono ((x - mn) * 100) ((y - mn) * 100) (mx - mn)). lia.
Qed.

Lemma normalize_costs_exact_witness :
  ns_score <$> NormalizeScore (fun _ => 0)
    [{| ns_name := "n1"; ns_score := 8 |}; {| ns_name := "n2"; ns_score := 0 |};
     {| ns_name := "n3"; ns_score := 3 |}] = [0; 100; 63].
Proof.
  destruct (normalize_costs_exact (fun _ => 0)
    [{| ns_name := "n1"; ns_score := 8 |}; {| ns_name := "n2"; ns_score := 0 |};
     {| ns_name := "n3"; ns_score := 3 |}] 0) as (H & _).
  - discriminate.
  - unfold in_int64. lia.
  - unfold in_int64. lia.
  - intros n Hn. repeat (apply elem_of_cons in Hn as [->|Hn]; [cbn; lia|]). by apply not_elem_of_nil in Hn.
  - rewrite H. by vm_compute.
Defined.

(** ** The queue order *)

(** Inside a group whose topology order is sorted, [Less] never panics,
    compares any two pods one way or the other, and is transitive; but a pod is
    less than itself, so it is no strict order. *)
Theorem group_less_preorder getAppGroup namespaces g ag :
  g <> "" -> findAppGroupTopologicalSort getAppGroup namespaces g = Some ag ->
  int_sized (TopologyOrder ag) -> increasing topo_selector (TopologyOrder ag) ->
  let less p q := Less getAppGroup namespaces p q = Some true in
  let member (p : Pod * Z) := GetPodAppGroupLabel p.1 = g in
  (forall p q, member p -> member q ->
     Less getAppGroup namespaces p q <> None /\ (less p q \/ less q p)) /\
  (forall p q r, member p -> member q -> member r -> less p q -> less q r -> less p r) /\
  (forall p, member p -> less p p).
Proof.
  intros Hg Hag Hl Hs less member.
  set (idx := fun p : Pod * Z =>
    default (-1) (topo_index <$> assoc topo_selector (TopologyOrder ag) (GetPodAppGroupSelector p.1))).
  assert (Hless : forall p q, member p -> member q -> Less getAppGroup namespaces p q = Some (idx p <=? idx q)).
  { intros p q Hp Hq. unfold member in *. unfold Less.
    rewrite bool_decide_false, bool_decide_false by (rewrite Hp; try rewrite Hq; auto).
    cbn [orb]. rewrite Hp, Hag.
    assert (forall sel, FindPodOrder (TopologyOrder ag) sel
              = Some (default (-1) (topo_index <$> assoc topo_selector (TopologyOrder ag) sel))) as Hfind.
    { intros sel. unfold FindPodOrder.
      pose proof (search_key_assoc topo_selector (TopologyOrder ag) sel Hl Hs) as H.
      destruct (search_key topo_selector (TopologyOrder ag) sel); [|by rewrite H|done|done].
      destruct H as [-> Hsome]. by destruct (assoc topo_selector (TopologyOrder ag) sel); [|destruct Hsome]. }
    by rewrite !Hfind. }
  split; [|split].
  - intros p q Hp Hq. unfold less. rewrite !Hless by done.
    split; [done|]. destruct (Z.leb_spec (idx p) (idx q)), (Z.leb_spec (idx q) (idx p)); auto; lia.
  - intros p q r Hp Hq Hr. unfold less. rewrite !Hless by done. intros [= H1] [= H2]. f_equal. lia.
  - intros p Hp. unfold less. rewrite Hless by done. f_equal. lia.
Qed.

Lemma group_less_preorder_witness :
  Less NetDemo.getGroup ["default"] (NetDemo.pod "x" "p2" "" 0, 7) (NetDemo.pod "x" "p2" "" 0, 7) = Some true.
Proof.
  destruct (group_less_preorder NetDemo.getGroup ["default"] "a1" NetDemo.group) as (_ & _ & H).
  - discriminate.
  - by vm_compute.
  - unfold int_sized. cbn. lia.
  - by apply increasing_pair.
  - apply (H (NetDemo.pod "x" "p2" "" 0, 7)). by vm_compute.
Defined.

(** Across groups the order is not transitive: the topology index ranks two
    pods of a group, the priority ranks each of them against a pod of no group,
    and the three comparisons run in a circle. *)
Theorem topological_less_cycle :
  let less := Less NetDemo.getGroup ["default"] in
  let a := (NetDemo.pod "a" "p2" "" 0, 1) in       (* index 1, priority 0 *)
  let b := (NetDemo.pod "b" "p1" "" 20, 2) in      (* index 2, priority 20 *)
  let c := ({| pod_meta := NetDemo.labelled "c" []; pod_spec := pod_spec (NetDemo.pod "c" "" "" 10);
               pod_status := pod_status (NetDemo.pod "c" "" "" 10) |}, 3) in
  less a b = Some true /\ less b c = Some true /\ less c a = Some true /\
  less b a = Some false /\ less c b = Some false /\ less a c = Some false.
Proof. by vm_compute. Qed.

(** A pod whose label names an AppGroup that no namespace has makes both plugins
    dereference a nil pointer. *)
Theorem missing_group_panics `{!GoSort} args getAppGroup getTopology listPods snapshot namespaces pod ts :
  (forall ns name, getAppGroup ns name = Err NotFound) -> GetPodAppGroupLabel pod <> "" ->
  PreFilter args getAppGroup getTopology listPods snapshot pod = None /\
  Less getAppGroup namespaces (pod, ts) (pod, ts) = None.
Proof.
  intros Hno Hg. split.
  - unfold PreFilter. rewrite bool_decide_false by done.
    assert (find_object getAppGroup ag_uid (no_namespaces args) (GetPodAppGroupLabel pod) = None) as ->.
    { induction (no_namespaces args) as [|ns l IH]; cbn; [done|]. by rewrite Hno. }
    by destruct (sortNetworkTopologyCosts args _).
  - unfold Less. cbn [fst]. rewrite !bool_decide_false by auto. cbn [orb].
    assert (findAppGroupTopologicalSort getAppGroup namespaces (GetPodAppGroupLabel pod) = None) as ->; [|done].
    unfold findAppGroupTopologicalSort. induction namespaces as [|ns l IH]; cbn; [done|]. by rewrite Hno.
Qed.
