(* ===== verification/Toleration.v ===== *)
(** * Preemption toleration

    [scheduler-plugins/pkg/preemptiontoleration]: the policy of a priority class
    (preemption_toleration_policy.go) and the preemptor that honours it
    (preemption_toleration.go), on the node's slice of pods as in [Preemption].

    Parameters: the priority-class lister, [sort.Slice], the times the sort and
    the attempt look at ([now], [curTime]), the label match of a disruption budget; [runFilter], the framework's
    [RunFilterPluginsWithNominatedPods] as a function of the pods on the node;
    [extRemovePod] and [extAddPod], the prefilter extensions of the other
    plugins, which may refuse. Times are nanoseconds. *)

From S2P Require Import Prelude.
From S2P Require Import KubeTypes.
From S2P Require Import Framework.
From S2P Require Import Capacity.
From S2P Require Import Preemption.

Definition MinimumPreemptablePriorityKey : string :=
  "preemption-toleration.scheduling.x-k8s.io/minimum-preemptable-priority".
Definition TolerationSecondsKey : string :=
  "preemption-toleration.scheduling.x-k8s.io/toleration-seconds".

(** [schedulingv1.PriorityClass]; the value is an int32. *)
Record PriorityClass := { pc_value : Z; pc_annotations : gmap string string }.

Record Policy := { MinimumPreemptablePriority : Z; TolerationSeconds : Z }.

(** [strconv.ParseInt(s, 10, 32)]; with 64 bits it is [Atoi]. *)
Definition ParseInt32 (s : string) : option Z :=
  match Atoi s with
  | Some z => if bool_decide (in_int32 z) then Some z else None
  | None => None
  end.

Definition parsePreemptionTolerationPolicy (pc : PriorityClass) : option Policy :=
  match (match pc_annotations pc !! MinimumPreemptablePriorityKey with
         | None => Some (int32 (pc_value pc + 1))
         | Some s => ParseInt32 s
         end) with
  | None => None
  | Some prio =>
      match (match pc_annotations pc !! TolerationSecondsKey with
             | None => Some 0
             | Some s => Atoi s
             end) with
      | None => None
      | Some secs => Some {| MinimumPreemptablePriority := prio; TolerationSeconds := secs |}
      end
  end.

Definition GetPodCondition (p : Pod) (type : string) : option PodCondition :=
  snd <$> list_find (fun c => cond_type c = type) (pstatus_conditions (pod_status p)).

Definition Second : Z := 1000000000.

Section Toleration.
Variable getPriorityClass : string -> result PriorityClass.

Definition ExemptedFromPreemption (victimCandidate preemptor : Pod) (now : Z) : result bool :=
  let class := spec_priority_class (pod_spec victimCandidate) in
  if bool_decide (class = "") then Ok false
  else
    match getPriorityClass class with
    | Err e => Err e
    | Ok pc =>
        if spec_preempt_never (pod_spec preemptor) then Ok true
        else
          match parsePreemptionTolerationPolicy pc with
          | None => Ok false
          | Some policy =>
              if MinimumPreemptablePriority policy <=? PodPriority preemptor then Ok false
              else if TolerationSeconds policy <? 0 then Ok true
              else
                match GetPodCondition victimCandidate "PodScheduled" with
                | None => Ok true
                | Some c =>
                    if negb (cond_true c) then Ok true
                    else
                      let tolerationDuration := TolerationSeconds policy *! Second in
                      Ok (now <? cond_transition c + tolerationDuration)
                end
          end
    end.

(** ** The preemptor *)

Variable sort_slice : (Pod -> Pod -> bool) -> list Pod -> list Pod.
Variables (now curTime : Z).
Variable selects : PodDisruptionBudget -> Pod -> bool.
Variable runFilter : list Pod -> FStatus.
Variables extRemovePod extAddPod : Pod -> list Pod -> FStatus.

(** The copy of this file; it is the code of [Preemption]'s. *)
Definition filterPodsWithPDBViolation (pods : list Pod) (pdbs : list PodDisruptionBudget)
    : list Pod * list Pod := Preemption.filterPodsWithPDBViolation selects pods pdbs.

Definition AsError (s : FStatus) : ApiError := OtherError "extension".

Definition removePod (p : Pod) (s : PodSlice) : result PodSlice :=
  match RemovePod p s with
  | Err e => Err e
  | Ok s =>
      let status := extRemovePod p (slice_pods s) in
      if IsSuccess status then Ok s else Err (AsError status)
  end.

Definition addPod (p : Pod) (s : PodSlice) : result PodSlice :=
  let s := AddPodInfo p s in
  let status := extAddPod p (slice_pods s) in
  if IsSuccess status then Ok s else Err (AsError status).

(** The [for ... range] loop over the node's pods, which reads the array its
    removals write to: [n] positions are left, the next one is [i]. *)
Fixpoint remove_intolerant (preemptor : Pod) (n i : nat) (s : PodSlice) (victims : list Pod)
    : result (PodSlice * list Pod) :=
  match n with
  | O => Ok (s, victims)
  | S n' =>
      match sl_array s !! i with
      | None => Ok (s, victims)
      | Some pi =>
          if PodPriority preemptor <=? PodPriority pi
          then remove_intolerant preemptor n' (S i) s victims
          else
            match ExemptedFromPreemption pi preemptor curTime with
            | Err e => Err e
            | Ok true => remove_intolerant preemptor n' (S i) s victims
            | Ok false =>
                match removePod pi s with
                | Err e => Err e
                | Ok s => remove_intolerant preemptor n' (S i) s (victims ++ [pi])
                end
            end
      end
  end.

Definition reprievePod (pi : Pod) (acc : PodSlice * list Pod) : result (PodSlice * list Pod * bool) :=
  let '(s, victims) := acc in
  match addPod pi s with
  | Err e => Err e
  | Ok s =>
      let fits := IsSuccess (runFilter (slice_pods s)) in
      if fits then Ok (s, victims, fits)
      else
        match removePod pi s with
        | Err e => Err e
        | Ok s => Ok (s, victims ++ [pi], fits)
        end
  end.

(** The two reprieve loops; the first one counts what did not fit. *)
Fixpoint reprieve_all (l : list Pod) (acc : PodSlice * list Pod) (numViolating : Z)
    : result (PodSlice * list Pod * Z) :=
  match l with
  | [] => Ok (acc, numViolating)
  | pi :: l' =>
      match reprievePod pi acc with
      | Err e => Err e
      | Ok (acc, fits) => reprieve_all l' acc (if (fits : bool) then numViolating else numViolating +! 1)
      end
  end.

(** The victims, how many of them violate a budget, the status, and the pods
    the node is left with. *)
Definition SelectVictimsOnNode (preemptor : Pod) (pods : list Pod) (pdbs : list PodDisruptionBudget)
    : FStatus * list Pod * Z * option PodSlice :=
  match remove_intolerant preemptor (length pods) 0 (slice_of pods) [] with
  | Err _ => (NewStatus CodeError, [], 0, None)
  | Ok (_, []) => (NewStatus UnschedulableAndUnresolvable, [], 0, None)
  | Ok (s, potentialVictims) =>
      let status := runFilter (slice_pods s) in
      if negb (IsSuccess status) then (status, [], 0, None)
      else
        let potentialVictims := sort_slice (MoreImportantPod now) potentialVictims in
        let '(violating, nonViolating) := filterPodsWithPDBViolation potentialVictims pdbs in
        match reprieve_all violating (s, []) 0 with
        | Err _ => (NewStatus CodeError, [], 0, None)
        | Ok (acc, numViolatingVictim) =>
            match reprieve_all nonViolating acc 0 with
            | Err _ => (NewStatus CodeError, [], 0, None)
            | Ok (s, victims, _) => (NewStatus Success, victims, numViolatingVictim, Some s)
            end
        end
  end.

(** [node] is the node info of the nominated node, when the lister has it. *)
Definition PodEligibleToPreemptOthers (pod : Pod) (nominatedNodeStatus : FStatus)
    (node : option (list Pod)) : bool :=
  if spec_preempt_never (pod_spec pod) then false
  else if bool_decide (pstatus_nominated (pod_status pod) = "") then true
  else if bool_decide (st_code nominatedNodeStatus = UnschedulableAndUnresolvable) then true
  else
    match node with
    | None => true
    | Some pods =>
        negb (existsb (fun p => pod_terminating p && (PodPriority p <? PodPriority pod)) pods)
    end.
End Toleration.

(** ** How many candidates to look for *)

Record PreemptionTolerationArgs := {
  MinCandidateNodesPercentage : Z; MinCandidateNodesAbsolute : Z;
}.

Definition mul32 (a b : Z) : Z := int32 (a * b).

Definition calculateNumCandidates (args : PreemptionTolerationArgs) (numNodes : Z) : Z :=
  let n := Z.quot (mul32 numNodes (MinCandidateNodesPercentage args)) 100 in
  let n := if n <? MinCandidateNodesAbsolute args then MinCandidateNodesAbsolute args else n in
  if numNodes <? n then numNodes else n.

(** [candidates] by node name; a later candidate of a node replaces an earlier
    one. *)
Definition CandidatesToVictimsMap {V} (candidates : list (string * V)) : gmap string V :=
  foldl (fun m c => <[c.1 := c.2]> m) ∅ candidates.
