(* ===== verification/TolerationClaims.v ===== *)
(** * Properties of preemption toleration *)

From S2P Require Import Prelude.
From S2P Require Import KubeTypes.
From S2P Require Import Framework.
From S2P Require Import Capacity.
From S2P Require Import Preemption.
From S2P Require Import PreemptionProofs.
From S2P Require Import Toleration.

(** ** Pods and a priority class to evaluate on *)

Module TolDemo.
Definition pod (uid : string) (prio : Z) (class : string) (scheduled : list PodCondition) : Pod := {|
  pod_meta := meta_named "default" uid uid;
  pod_spec := {| spec_node_name := "n1"; spec_priority := Some prio; spec_preempt_never := false;
                 spec_priority_class := class; spec_scheduler_name := ""; spec_containers := []; spec_init_containers := [];
                 spec_overhead := None |};
  pod_status := {| pstatus_phase := PodRunning; pstatus_nominated := ""; pstatus_start_time := Some 0;
                   pstatus_conditions := scheduled |} |}.
Definition scheduled_at (t : Z) : list PodCondition :=
  [{| cond_type := "PodScheduled"; cond_true := true; cond_transition := t |}].
Definition tolerant (secs : string) : PriorityClass := {|
  pc_value := 8000;
  pc_annotations := {[ MinimumPreemptablePriorityKey := "10000"; TolerationSecondsKey := secs ]} |}.
Definition classes (secs name : string) : result PriorityClass :=
  if bool_decide (name = "tolerant") then Ok (tolerant secs) else Err NotFound.
(** Room for two pods beside the preemptor. *)
Definition fits (l : list Pod) : FStatus :=
  NewStatus (if (length l <=? 2)%nat then Success else Unschedulable).
Definition accept (p : Pod) (l : list Pod) : FStatus := NewStatus Success.
Definition node_pods : list Pod :=
  [pod "a" 100 "" []; pod "t" 200 "tolerant" (scheduled_at 0); pod "b" 300 "" []; pod "c" 50 "" []].
End TolDemo.

(** ** The policy *)

(** A policy written to the annotations of a priority class is read back:
    every int32 minimum and every int64 number of seconds. *)
Theorem policy_roundtrip pc prio secs :
  in_int32 prio -> in_int64 secs -> secs <> -9223372036854775808 ->
  pc_annotations pc !! MinimumPreemptablePriorityKey = Some (FormatInt prio) ->
  pc_annotations pc !! TolerationSecondsKey = Some (FormatInt secs) ->
  parsePreemptionTolerationPolicy pc
    = Some {| MinimumPreemptablePriority := prio; TolerationSeconds := secs |}.
Proof.
  intros Hp Hs Hmin H1 H2. unfold parsePreemptionTolerationPolicy. rewrite H1, H2.
  assert (Hround : forall z, in_int64 z -> z <> -9223372036854775808 -> Atoi (FormatInt z) = Some z).
  { intros z Hz Hne. destruct (decide (0 <= z)); [by apply FormatInt_Atoi|].
    replace z with (- - z) by lia. apply FormatInt_neg; unfold in_int64 in *; lia. }
  unfold ParseInt32. rewrite !Hround by (unfold in_int32, in_int64 in *; lia).
  by rewrite bool_decide_true.
Qed.

Lemma policy_roundtrip_witness :
  parsePreemptionTolerationPolicy (TolDemo.tolerant "3600")
    = Some {| MinimumPreemptablePriority := 10000; TolerationSeconds := 3600 |}.
Proof.
  apply (policy_roundtrip (TolDemo.tolerant "3600") 10000 3600).
  - unfold in_int32. lia.
  - unfold in_int64. lia.
  - lia.
  - by vm_compute.
  - by vm_compute.
Defined.

(** What the policy promises a victim. *)
Definition still_tolerating (victim : Pod) (secs now : Z) : Prop :=
  match GetPodCondition victim "PodScheduled" with
  | Some c => cond_true c = true -> now < cond_transition c + secs * Second
  | None => True
  end.

#[export] Instance still_tolerating_dec victim secs now : Decision (still_tolerating victim secs now).
Proof. unfold still_tolerating. destruct (GetPodCondition _ _); apply _. Defined.

(** A victim of a class with a policy is exempted exactly when the preemptor
    never preempts, or has less than the policy's priority and the policy's time
    is unlimited, the victim is not yet scheduled, or its time since scheduling is
    not over; as long as the toleration, in nanoseconds, is an int64. *)
Theorem exempted_exact getPC victim preemptor now pc policy :
  spec_priority_class (pod_spec victim) <> "" ->
  getPC (spec_priority_class (pod_spec victim)) = Ok pc ->
  parsePreemptionTolerationPolicy pc = Some policy ->
  TolerationSeconds policy <= 9223372036 ->
  ExemptedFromPreemption getPC victim preemptor now = Ok (bool_decide (
    spec_preempt_never (pod_spec preemptor) = true \/
    (PodPriority preemptor < MinimumPreemptablePriority policy /\
     (TolerationSeconds policy < 0 \/ still_tolerating victim (TolerationSeconds policy) now)))).
Proof.
  intros Hc Hpc Hpol Hsecs. unfold ExemptedFromPreemption.
  rewrite bool_decide_false, Hpc by done.
  assert (Hyes : forall P `{!Decision P}, P -> Ok true = Ok (bool_decide P))
    by (intros P ? HP; by rewrite bool_decide_true).
  assert (Hno : forall P `{!Decision P}, ~ P -> Ok false = Ok (bool_decide P))
    by (intros P ? HP; by rewrite bool_decide_false).
  destruct (spec_preempt_never (pod_spec preemptor)); [apply Hyes; by left|].
  rewrite Hpol.
  destruct (Z.leb_spec (MinimumPreemptablePriority policy) (PodPriority preemptor)).
  { apply Hno. intros [?|[? _]]; [done|lia]. }
  destruct (Z.ltb_spec (TolerationSeconds policy) 0); [apply Hyes; auto|].
  destruct (GetPodCondition victim "PodScheduled") as [c|] eqn:Ec.
  2:{ apply Hyes. unfold still_tolerating. rewrite Ec. auto. }
  destruct (cond_true c) eqn:Et; cbn [negb].
  2:{ apply Hyes. right. split; [done|]. right. unfold still_tolerating. by rewrite Ec, Et. }
  unfold mul64. rewrite int64_id by (unfold in_int64, Second; lia).
  destruct (Z.ltb_spec now (cond_transition c + TolerationSeconds policy * Second)).
  - apply Hyes. right. split; [done|]. right. unfold still_tolerating. by rewrite Ec.
  - apply Hno. unfold still_tolerating. rewrite Ec. intros [?|[_ [?|Hlt]]]; [done|lia|].
    specialize (Hlt Et). lia.
Qed.

Lemma exempted_exact_witness :
  ExemptedFromPreemption (TolDemo.classes "3600")
    (TolDemo.pod "t" 200 "tolerant" (TolDemo.scheduled_at 0)) (TolDemo.pod "p" 9000 "" []) (3599 * Second)
  = Ok true /\
  ExemptedFromPreemption (TolDemo.classes "3600")
    (TolDemo.pod "t" 200 "tolerant" (TolDemo.scheduled_at 0)) (TolDemo.pod "p" 9000 "" []) (3600 * Second)
  = Ok false.
Proof.
  split; (rewrite (exempted_exact (TolDemo.classes "3600")
    (TolDemo.pod "t" 200 "tolerant" (TolDemo.scheduled_at 0)) (TolDemo.pod "p" 9000 "" []) _
    (TolDemo.tolerant "3600") {| MinimumPreemptablePriority := 10000; TolerationSeconds := 3600 |});
    [vm_compute; reflexivity|discriminate|reflexivity|vm_compute; reflexivity|cbn; lia]).
Defined.

(** A toleration of more than 292 years (up to 584) overflows the duration:
    a scheduled pod is then not protected at all. *)
Theorem long_toleration_is_none getPC victim preemptor now pc policy c :
  spec_priority_class (pod_spec victim) <> "" ->
  getPC (spec_priority_class (pod_spec victim)) = Ok pc ->
  parsePreemptionTolerationPolicy pc = Some policy ->
  spec_preempt_never (pod_spec preemptor) = false ->
  9223372037 <= TolerationSeconds policy <= 18446744073 ->
  GetPodCondition victim "PodScheduled" = Some c -> cond_true c = true -> cond_transition c <= now ->
  ExemptedFromPreemption getPC victim preemptor now = Ok false.
Proof.
  intros Hc Hpc Hpol Hn Hsecs Hcond Ht Hnow. unfold ExemptedFromPreemption.
  rewrite bool_decide_false, Hpc, Hn, Hpol by done.
  destruct (MinimumPreemptablePriority policy <=? PodPriority preemptor); [done|].
  rewrite (proj2 (Z.ltb_ge _ 0)) by lia. rewrite Hcond, Ht. cbn [negb].
  assert (TolerationSeconds policy *! Second < 0) as Hneg.
  { unfold mul64, Second, int64.
    replace (TolerationSeconds policy * 1000000000 + 9223372036854775808)
      with (TolerationSeconds policy * 1000000000 - 9223372036854775808 + 1 * 18446744073709551616) by lia.
    rewrite Z_mod_plus_full, Z.mod_small by lia. lia. }
  by rewrite (proj2 (Z.ltb_ge _ _)) by lia.
Qed.

Lemma long_toleration_is_none_witness :
  ExemptedFromPreemption (TolDemo.classes "10000000000")
    (TolDemo.pod "t" 200 "tolerant" (TolDemo.scheduled_at 0)) (TolDemo.pod "p" 9000 "" []) 0 = Ok false.
Proof.
  apply (long_toleration_is_none (TolDemo.classes "10000000000")
    (TolDemo.pod "t" 200 "tolerant" (TolDemo.scheduled_at 0)) (TolDemo.pod "p" 9000 "" []) 0
    (TolDemo.tolerant "10000000000")
    {| MinimumPreemptablePriority := 10000; TolerationSeconds := 10000000000 |}
    {| cond_type := "PodScheduled"; cond_true := true; cond_transition := 0 |}).
  - discriminate.
  - reflexivity.
  - vm_compute. reflexivity.
  - done.
  - cbn. lia.
  - by vm_compute.
  - done.
  - cbn. lia.
Defined.

(** ** The victims *)

Section Victims.
Variable getPC : string -> result PriorityClass.
Variable sort_slice : (Pod -> Pod -> bool) -> list Pod -> list Pod.
Variables (now curTime : Z).
Variable selects : PodDisruptionBudget -> Pod -> bool.
Variable runFilter : list Pod -> FStatus.
Variables extRemovePod extAddPod : Pod -> list Pod -> FStatus.

Definition fits_with (l : list Pod) : Prop := IsSuccess (runFilter l) = true.

(** The pods the preemptor may evict. *)
Definition intolerant (preemptor p : Pod) : Prop :=
  PodPriority p < PodPriority preemptor /\ ExemptedFromPreemption getPC p preemptor curTime = Ok false.

#[export] Instance intolerant_dec preemptor p : Decision (intolerant preemptor p).
Proof. unfold intolerant. apply _. Defined.

Lemma remove_intolerant_spec preemptor l : keyed l -> forall suf pre s victims r,
  l = pre ++ suf -> Ranging l pre s victims ->
  remove_intolerant getPC curTime extRemovePod preemptor (length suf) (length pre) s victims = Ok r ->
  r.2 = victims ++ filter (intolerant preemptor) suf /\ Ranging l l r.1 r.2.
Proof.
  intros Hkey suf. induction suf as [|p suf IH]; intros pre s victims r Hl Hr.
  { intros [= <-]. rewrite app_nil_r in Hl. subst pre. cbn [fst snd]. by rewrite filter_nil, app_nil_r. }
  cbn [length remove_intolerant]. rewrite (ranging_next _ _ _ _ _ _ Hl Hr).
  assert (l = (pre ++ [p]) ++ suf) as Hl' by (by rewrite <- app_assoc).
  assert (S (length pre) = length (pre ++ [p])) as -> by (rewrite length_app; cbn; lia).
  destruct (Z.leb_spec (PodPriority preemptor) (PodPriority p)) as [Hle|Hlt].
  { intros Hrun. rewrite filter_cons_False by (intros [? _]; lia).
    exact (IH _ _ _ _ Hl' (ranging_skip _ _ _ _ _ Hr) Hrun). }
  destruct (ExemptedFromPreemption getPC p preemptor curTime) as [[|]|e] eqn:Ex; [| |done].
  { intros Hrun. rewrite filter_cons_False by (intros [_ ?]; congruence).
    exact (IH _ _ _ _ Hl' (ranging_skip _ _ _ _ _ Hr) Hrun). }
  rewrite filter_cons_True by done.
  destruct (ranging_remove _ _ _ _ _ _ Hkey Hl Hr) as (s' & Hs' & Hr'). unfold removePod. rewrite Hs'.
  destruct (IsSuccess _); [|done]. intros Hrun.
  destruct (IH _ _ _ _ Hl' Hr' Hrun) as [Hv H2].
  split; [by rewrite Hv, <- app_assoc|done].
Qed.

Lemma reprieve_tolerant_spec l s victims n s' victims' n' :
  keyed (slice_pods s ++ l) -> fits_with (slice_pods s) ->
  reprieve_all runFilter extRemovePod extAddPod l (s, victims) n = Ok (s', victims', n') ->
  fits_with (slice_pods s') /\
  exists kept vs, slice_pods s' = slice_pods s ++ kept /\ victims' = victims ++ vs /\
    kept ++ vs ≡ₚ l /\
    (forall v, v ∈ vs -> exists P, P `prefix_of` slice_pods s' /\ ~ fits_with (P ++ [v])).
Proof.
  revert s victims n. induction l as [|p l IH]; intros s victims n Hk Hf; cbn [reprieve_all].
  { intros [= <- <- <-]. split; [done|]. exists [], []. rewrite !app_nil_r. split_and!; try done.
    by intros v ?%not_elem_of_nil. }
  assert (keyed (slice_pods s ++ [p])) as Hk1.
  { eapply keyed_app_l. rewrite <- app_assoc. exact Hk. }
  assert (slice_pods (AddPodInfo p s) = slice_pods s ++ [p]) as Hadd by apply slice_of_pods.
  unfold reprievePod, addPod. destruct (IsSuccess (extAddPod _ _)); [|done]. rewrite Hadd.
  destruct (IsSuccess (runFilter (slice_pods s ++ [p]))) eqn:Hfit.
  - intros Hrun. destruct (IH _ _ _ ltac:(rewrite Hadd, <- app_assoc; exact Hk)
      ltac:(unfold fits_with; by rewrite Hadd) Hrun) as (Hf' & kept & vs & H1 & H2 & H3 & H4).
    split; [done|]. exists (p :: kept), vs. rewrite H1, Hadd, <- app_assoc. split_and!; try done.
    + cbn. by rewrite H3.
    + rewrite H1, Hadd, <- app_assoc in H4. done.
  - unfold removePod. destruct (remove_appended p s Hk1) as (s1 & -> & Hs1).
    destruct (IsSuccess (extRemovePod _ _)); [|done]. intros Hrun.
    destruct (IH _ _ _ ltac:(rewrite Hs1; eapply keyed_app_l; eapply keyed_perm; [|exact Hk];
        instantiate (1 := [p]); solve_Permutation) ltac:(by rewrite Hs1) Hrun)
      as (Hf' & kept & vs & H1 & H2 & H3 & H4).
    split; [done|]. exists kept, (p :: vs). rewrite H1, Hs1 in *. split_and!; try done.
    + by rewrite H2, <- app_assoc.
    + rewrite <- H3. by rewrite <- Permutation_middle.
    + intros v [->|Hv]%elem_of_cons; [|by apply H4]. exists (slice_pods s). split; [by eexists|].
      unfold fits_with. by rewrite Hfit.
Qed.

Lemma tolerant_victims_ok preemptor pods pdbs victims n s :
  (forall f l, sort_slice f l ≡ₚ l) -> keyed pods ->
  SelectVictimsOnNode getPC sort_slice now curTime selects runFilter extRemovePod extAddPod
    preemptor pods pdbs = (NewStatus Success, victims, n, Some s) ->
  slice_pods s ++ victims ≡ₚ pods /\
  (forall v, v ∈ victims -> intolerant preemptor v) /\
  fits_with (slice_pods s) /\
  ((forall l l', l ⊆+ l' -> fits_with l' -> fits_with l) ->
   forall v, v ∈ victims -> ~ fits_with (slice_pods s ++ [v])).
Proof.
  intros Hsort Hk. unfold SelectVictimsOnNode.
  destruct (remove_intolerant _ _ _ _ _ _ _ _) as [[s0 pv]|] eqn:R0; [|done].
  destruct (remove_intolerant_spec preemptor pods Hk pods [] _ _ _ eq_refl (ranging_start pods) R0)
    as [Hpv Hr]. cbn [fst snd] in Hpv, Hr. rewrite app_nil_l in Hpv.
  destruct pv as [|v0 pv0] eqn:Epv; [done|]. rewrite <- Epv in *. clear v0 pv0 Epv.
  destruct (IsSuccess (runFilter (slice_pods s0))) eqn:Hf0; cbn [negb]; [|by intros [=]].
  pose proof (filter_pdb_perm selects (sort_slice (MoreImportantPod now) pv) pdbs) as Hpdb.
  unfold filterPodsWithPDBViolation. destruct (Preemption.filterPodsWithPDBViolation _ _ _) as [viol nonviol].
  destruct Hpdb as (Hvn & _ & _).
  assert (keyed (slice_pods s0 ++ viol ++ nonviol)) as Hk0.
  { eapply keyed_perm; [|exact Hk]. rewrite Hvn, Hsort. symmetry. apply (rg_perm _ _ _ _ Hr). }
  destruct (reprieve_all _ _ _ viol _ _) as [[acc n1]|] eqn:R1; [|done].
  destruct acc as [s1 v1]. apply reprieve_tolerant_spec in R1 as (Hf1 & k1 & o1 & Hs1 & Hv1 & Hp1 & Hno1);
    [|eapply keyed_app_l; rewrite <- app_assoc; exact Hk0|done].
  destruct (reprieve_all _ _ _ nonviol _ _) as [[acc n2]|] eqn:R2; [|done].
  destruct acc as [s2 v2]. apply reprieve_tolerant_spec in R2 as (Hf2 & k2 & o2 & Hs2 & Hv2 & Hp2 & Hno2);
    [|rewrite Hs1; eapply keyed_app_l; eapply keyed_perm; [|exact Hk0]; rewrite <- Hp1;
      instantiate (1 := o1); solve_Permutation|done].
  intros [= <- <- <-]. subst v1 v2. cbn [app].
  assert (o1 ++ o2 ++ k1 ++ k2 ≡ₚ pv) as Hall.
  { rewrite <- (Hsort (MoreImportantPod now) pv), <- Hvn, <- Hp1, <- Hp2. solve_Permutation. }
  split_and!; [|..|].
  - rewrite Hs2, Hs1. rewrite <- (rg_perm _ _ _ _ Hr), <- Hall. solve_Permutation.
  - intros v Hv. assert (v ∈ pv) as Hvp.
    { rewrite <- Hall, app_assoc. apply elem_of_app. by left. }
    rewrite Hpv in Hvp. by apply list_elem_of_filter in Hvp as [? _].
  - exact Hf2.
  - intros Hmono v Hv Hfit.
    assert (exists P, P `prefix_of` slice_pods s2 /\ ~ fits_with (P ++ [v])) as (P & [Q HP] & Hno).
    { apply elem_of_app in Hv as [Hv|Hv]; [|by apply Hno2]. destruct (Hno1 v Hv) as (P & HP & Hno).
      exists P. split; [|done]. etransitivity; [exact HP|]. rewrite Hs2. by eexists. }
    apply Hno. eapply Hmono; [|exact Hfit]. rewrite HP.
    rewrite <- app_assoc, (Permutation_app_comm Q [v]), app_assoc. apply submseteq_inserts_r. done.
Qed.

(** C13. When [SelectVictimsOnNode] succeeds, the pods it leaves and the victims
    are together the node's pods, each once; every victim has a lower priority
    than the preemptor and is not exempted, so that a tolerating pod is never
    evicted; the preemptor fits with what is left; and if taking pods away never
    makes it unfit, no victim could have been spared. *)
Theorem tolerant_victims_sound_minimal preemptor pods pdbs victims n s :
  (forall f l, sort_slice f l ≡ₚ l) -> keyed pods ->
  SelectVictimsOnNode getPC sort_slice now curTime selects runFilter extRemovePod extAddPod
    preemptor pods pdbs = (NewStatus Success, victims, n, Some s) ->
  slice_pods s ++ victims ≡ₚ pods /\
  (forall v, v ∈ victims -> intolerant preemptor v) /\
  fits_with (slice_pods s) /\
  ((forall l l', l ⊆+ l' -> fits_with l' -> fits_with l) ->
   forall v, v ∈ victims -> ~ fits_with (slice_pods s ++ [v])).
Proof. apply tolerant_victims_ok. Qed.
End Victims.

Lemma tolerant_victims_sound_minimal_witness :
  exists s, SelectVictimsOnNode (TolDemo.classes "3600") (fun _ l => rev l) 0 Second (fun _ _ => false)
      TolDemo.fits TolDemo.accept TolDemo.accept (TolDemo.pod "p" 1000 "" []) TolDemo.node_pods []
    = (NewStatus Success, [TolDemo.pod "b" 300 "" []; TolDemo.pod "a" 100 "" []], 0, Some s) /\
  (* the tolerating pod stays; with "c" it fills the room *)
  slice_pods s = [TolDemo.pod "t" 200 "tolerant" (TolDemo.scheduled_at 0); TolDemo.pod "c" 50 "" []] /\
  forall v, v ∈ [TolDemo.pod "b" 300 "" []; TolDemo.pod "a" 100 "" []] ->
    ~ fits_with TolDemo.fits (slice_pods s ++ [v]).
Proof.
  destruct (SelectVictimsOnNode (TolDemo.classes "3600") (fun _ l => rev l) 0 Second (fun _ _ => false)
      TolDemo.fits TolDemo.accept TolDemo.accept (TolDemo.pod "p" 1000 "" []) TolDemo.node_pods [])
    as [[[st vs] n] s] eqn:E.
  pose proof E as E'. vm_compute in E'. injection E' as <- <- <- <-.
  eexists. split; [reflexivity|]. split; [by vm_compute|].
  apply (fun H1 H2 => proj2 (proj2 (proj2 (tolerant_victims_sound_minimal (TolDemo.classes "3600")
    (fun _ l => rev l) 0 Second (fun _ _ => false) TolDemo.fits TolDemo.accept TolDemo.accept
    (TolDemo.pod "p" 1000 "" []) TolDemo.node_pods [] _ _ _ H1 H2 E)))).
  - intros f l. symmetry. apply Permutation_rev.
  - split; [apply (bool_decide_unpack _); vm_compute; exact I|].
    intros p Hp. repeat (apply elem_of_cons in Hp as [->|Hp]; [by vm_compute|]).
    by apply not_elem_of_nil in Hp.
  - intros l l' Hl. unfold fits_with, TolDemo.fits. apply submseteq_length in Hl.
    destruct (Nat.leb_spec (length l') 2), (Nat.leb_spec (length l) 2); try done. lia.
Defined.

(** The number of candidates to look for never exceeds the number of nodes,
    whatever the arguments; with valid arguments and up to 21 million nodes it is
    the larger of the percentage and the absolute number, cut at the nodes. *)
Theorem num_candidates_bounds args numNodes :
  calculateNumCandidates args numNodes <= numNodes /\
  (0 <= MinCandidateNodesPercentage args <= 100 -> 0 <= numNodes <= 21474836 ->
   calculateNumCandidates args numNodes
   = Z.min numNodes (Z.max (MinCandidateNodesAbsolute args)
                       (numNodes * MinCandidateNodesPercentage args / 100))).
Proof.
  unfold calculateNumCandidates. split.
  - destruct (Z.ltb_spec (Z.quot (mul32 numNodes (MinCandidateNodesPercentage args)) 100)
      (MinCandidateNodesAbsolute args)); case_match eqn:E; lia.
  - intros Hp Hn. unfold mul32. rewrite int32_id by (unfold in_int32; nia).
    rewrite Z.quot_div_nonneg by nia. set (q := _ / 100).
    destruct (Z.ltb_spec q (MinCandidateNodesAbsolute args)); case_match eqn:E; lia.
Qed.

Lemma num_candidates_bounds_witness :
  calculateNumCandidates {| MinCandidateNodesPercentage := 10; MinCandidateNodesAbsolute := 100 |} 2000 = 200.
Proof.
  rewrite (proj2 (num_candidates_bounds
    {| MinCandidateNodesPercentage := 10; MinCandidateNodesAbsolute := 100 |} 2000)) by (cbn; lia).
  by vm_compute.
Defined.
