(* ===== verification/Evaluator.v ===== *)
(** * Preemption: the evaluator and the plugins' PostFilter

    [PostFilter] of CapacityScheduling and of PreemptionToleration hands the
    cycle to the framework's evaluator
    ([vendor/.../scheduler/framework/preemption/preemption.go]), which calls
    back the plugin through its [Interface]: here the class [Preemptor], with an
    instance per plugin.

    The evaluator looks at nodes and evicts pods in parallel and stops early:
    which nodes it looked at, in which order their results came, and which
    victims it got to are arguments. No extenders are configured. *)

From S2P Require Import Prelude.
From S2P Require Import KubeTypes.
From S2P Require Import Framework.
From S2P Require Import Resource.
From S2P Require Import ElasticQuota.
From S2P Require Import Capacity.
From S2P Require Import Preemption.
From S2P Require Toleration.

(** A node of the snapshot with its pods. *)
Record PreemptNode := { pn_name : string; pn_pods : list Pod }.

Record Victims := { vi_pods : list Pod; vi_violations : Z }.
Abbreviation Candidate := (string * Victims)%type.

(** [Interface]: a plugin with the cycle's state. [OrderedScoreFuncs] is nil in
    both plugins. *)
Class Preemptor (P : Type) := {
  GetOffsetAndNumCandidates : P -> Z -> Z * Z;
  EligibleToPreempt : P -> Pod -> FStatus -> bool;
  SelectVictims : P -> Pod -> PreemptNode -> list PodDisruptionBudget -> FStatus * list Pod * Z;
}.

(** ** Choosing a node *)

Section Pick.
Variable now : Z.
Variable nodesToVictims : gmap string Victims.

(** [util.GetEarliestPodStartTime]; [None] for no pods. *)
Definition earlier (acc : Z * Z) (p : Pod) : Z * Z :=
  let '(maxPriority, earliest) := acc in
  if bool_decide (PodPriority p = maxPriority)
  then (maxPriority, if start_time now p <? earliest then start_time now p else earliest)
  else if maxPriority <? PodPriority p then (PodPriority p, start_time now p)
  else acc.

Definition GetEarliestPodStartTime (v : Victims) : option Z :=
  match vi_pods v with
  | [] => None
  | p :: _ => Some (foldl earlier (PodPriority p, start_time now p) (vi_pods v)).2
  end.

(** The score functions, in order. [None] is the panic of indexing no pods. *)
Definition minNumPDBViolatingScoreFunc (v : Victims) : option Z := Some (0 -! vi_violations v).
Definition minHighestPriorityScoreFunc (v : Victims) : option Z :=
  match vi_pods v with [] => None | p :: _ => Some (0 -! PodPriority p) end.
Definition minSumPrioritiesScoreFunc (v : Victims) : option Z :=
  Some (0 -! foldl (fun sum p => sum +! (PodPriority p +! 2147483648)) 0 (vi_pods v)).
Definition minNumPodsScoreFunc (v : Victims) : option Z := Some (0 -! Z.of_nat (length (vi_pods v))).
Definition latestStartTimeScoreFunc (v : Victims) : option Z :=
  Some (default (-9223372036854775808) (GetEarliestPodStartTime v)).

Definition scoreFuncs : list (Victims -> option Z) :=
  [minNumPDBViolatingScoreFunc; minHighestPriorityScoreFunc; minSumPrioritiesScoreFunc;
   minNumPodsScoreFunc; latestStartTimeScoreFunc].

(** One node of the loop that keeps the nodes of the highest score. *)
Definition keep_best (acc : Z * list string) (scored : string * Z) : Z * list string :=
  let '(maxScore, selectedNodes) := acc in
  let '(maxScore, selectedNodes) :=
    if maxScore <? scored.2 then (scored.2, []) else (maxScore, selectedNodes) in
  if bool_decide (scored.2 = maxScore) then (maxScore, selectedNodes ++ [scored.1])
  else (maxScore, selectedNodes).

Definition score_node (f : Victims -> option Z) (node : string) : option (string * Z) :=
  score ← (nodesToVictims !! node ≫= f); Some (node, score).

Fixpoint pick_loop (fs : list (Victims -> option Z)) (allCandidates : list string) : option string :=
  match fs with
  | [] => head allCandidates
  | f :: fs =>
      scored ← mapM (score_node f) allCandidates;
      match (foldl keep_best (-9223372036854775808, []) scored).2 with
      | [node] => Some node
      | selectedNodes => pick_loop fs selectedNodes
      end
  end.
End Pick.

(** ** The evaluator *)

(** What the evaluator finds in the cluster. *)
Record Cluster := {
  cl_pod : result Pod;                          (* the preemptor, from the lister *)
  cl_nodes : result (list PreemptNode);
  cl_pdbs : result (list PodDisruptionBudget);
  cl_looked_at : list nat;                      (* the indices DryRunPreemption got to *)
  cl_range : gmap string Victims -> list string; (* the order of a range over a map *)
  cl_attempts : list Pod -> list Pod;           (* the victims prepareCandidate got to *)
  cl_waiting : Pod -> bool;                     (* a pod waiting for its permit *)
  cl_evict : Pod -> result unit;                (* the patch and the deletion of a victim *)
  cl_nominated : string -> list Pod;            (* NominatedPodsForNode *)
  cl_now : Z;
}.

(** A nil result, or the name to nominate; the status; the pods evicted; the pods
    of which it patches the nomination away. *)
Record Preempted := {
  pr_nominated : option string;
  pr_status : FStatus;
  pr_evicted : list Pod;
  pr_cleared : list Pod;
}.

Definition stopped (nominated : option string) (c : Code) (cleared : list Pod) : Preempted :=
  {| pr_nominated := nominated; pr_status := NewStatus c; pr_evicted := []; pr_cleared := cleared |}.

(** The pods that [util.ClearNominatedNodeName] patches; errors are logged. *)
Definition ClearNominatedNodeName (pods : list Pod) : list Pod :=
  List.filter (fun p => negb (bool_decide (pstatus_nominated (pod_status p) = ""))) pods.

Definition getLowerPriorityNominatedPods (nominated : list Pod) (pod : Pod) : list Pod :=
  List.filter (fun p => PodPriority p <? PodPriority pod) nominated.

Definition nodesWherePreemptionMightHelp (nodes : list PreemptNode) (m : gmap string FStatus)
    : list PreemptNode :=
  List.filter (fun n => bool_decide (st_code <$> m !! pn_name n = Some Unschedulable)) nodes.

Section Evaluator.
Context `{Preemptor P}.
Variables (plugin : P) (cl : Cluster).

(** [candidateList.add]. *)
Definition add_candidate (size : Z) (c : Candidate) (items : list Candidate) : list Candidate :=
  if Z.of_nat (length items) <? size then items ++ [c] else items.

(** The lists of candidates, with no violated budget and with some, and the
    number of errors. *)
Record DryRun := { dr_clean : list Candidate; dr_violating : list Candidate; dr_errors : nat }.

Definition checkNode (pod : Pod) (potentialNodes : list PreemptNode) (pdbs : list PodDisruptionBudget)
    (offset numCandidates : Z) (acc : DryRun) (i : nat) : DryRun :=
  match potentialNodes !! Z.to_nat ((offset + Z.of_nat i) mod Z.of_nat (length potentialNodes)) with
  | None => acc
  | Some node =>
      let '(status, pods, numPDBViolations) := SelectVictims plugin pod node pdbs in
      if IsSuccess status && negb (bool_decide (pods = [])) then
        let c := (pn_name node, {| vi_pods := pods; vi_violations := numPDBViolations |}) in
        if bool_decide (numPDBViolations = 0)
        then {| dr_clean := add_candidate numCandidates c (dr_clean acc);
                dr_violating := dr_violating acc; dr_errors := dr_errors acc |}
        else {| dr_clean := dr_clean acc;
                dr_violating := add_candidate numCandidates c (dr_violating acc);
                dr_errors := dr_errors acc |}
      else
        let status := if IsSuccess status then NewStatus CodeError else status in
        {| dr_clean := dr_clean acc; dr_violating := dr_violating acc;
           dr_errors := if bool_decide (st_code status = CodeError) then S (dr_errors acc)
                        else dr_errors acc |}
  end.

Definition dry_run (pod : Pod) (potentialNodes : list PreemptNode)
    (pdbs : list PodDisruptionBudget) (offset numCandidates : Z) : DryRun :=
  foldl (checkNode pod potentialNodes pdbs offset numCandidates)
    {| dr_clean := []; dr_violating := []; dr_errors := 0 |} (cl_looked_at cl).

Definition DryRunPreemption (pod : Pod) (potentialNodes : list PreemptNode)
    (pdbs : list PodDisruptionBudget) (offset numCandidates : Z) : list Candidate * nat :=
  let r := dry_run pod potentialNodes pdbs offset numCandidates in
  (dr_clean r ++ dr_violating r, dr_errors r).

(** The candidates, whether there was an error, and the pods of which the
    nomination is cleared. *)
Definition findCandidates (pod : Pod) (m : gmap string FStatus) : list Candidate * bool * list Pod :=
  match cl_nodes cl with
  | Err _ => ([], true, [])
  | Ok [] => ([], true, [])
  | Ok allNodes =>
      match nodesWherePreemptionMightHelp allNodes m with
      | [] => ([], false, ClearNominatedNodeName [pod])
      | potentialNodes =>
          match cl_pdbs cl with
          | Err _ => ([], true, [])
          | Ok pdbs =>
              let '(offset, numCandidates) :=
                GetOffsetAndNumCandidates plugin (Z.of_nat (length potentialNodes)) in
              let '(candidates, errors) :=
                DryRunPreemption pod potentialNodes pdbs offset numCandidates in
              (candidates, negb (errors =? 0)%nat, [])
          end
      end
  end.

(** [None] is nil, or a panic of the choice. *)
Definition SelectCandidate (candidates : list Candidate) : option Candidate :=
  match candidates with
  | [] => None
  | [c] => Some c
  | c :: _ =>
      let victimsMap := Toleration.CandidatesToVictimsMap candidates in
      match cl_range cl victimsMap with
      | [] => Some c
      | range =>
          candidateNode ← pick_loop victimsMap (scoreFuncs (cl_now cl)) range;
          match victimsMap !! candidateNode with
          | Some victims => Some (candidateNode, victims)
          | None => Some c
          end
      end
  end.

(** The status, the victims that were rejected or deleted, and the pods of which
    the nomination is cleared. *)
Definition prepareCandidate (pod : Pod) (c : Candidate) : FStatus * list Pod * list Pod :=
  let attempts := cl_attempts cl (vi_pods c.2) in
  let evicted := List.filter (fun v => cl_waiting cl v ||
    match cl_evict cl v with Ok _ => true | Err _ => false end) attempts in
  if forallb (fun v => cl_waiting cl v || match cl_evict cl v with Ok _ => true | Err _ => false end) attempts
  then (NewStatus Success, evicted,
        ClearNominatedNodeName (getLowerPriorityNominatedPods (cl_nominated cl c.1) pod))
  else (NewStatus CodeError, evicted, []).

Definition Preempt (m : gmap string FStatus) : Preempted :=
  match cl_pod cl with
  | Err _ => stopped None CodeError []
  | Ok pod =>
      if negb (EligibleToPreempt plugin pod
                 (default (NewStatus Success) (m !! pstatus_nominated (pod_status pod))))
      then stopped None Unschedulable []
      else
        match findCandidates pod m with
        | ([], true, cleared) => stopped None CodeError cleared
        | ([], false, cleared) => stopped (Some "") Unschedulable cleared
        | (candidates, _, cleared) =>
            match SelectCandidate candidates with
            | None => stopped None Unschedulable cleared
            | Some best =>
                if bool_decide (best.1 = "") then stopped None Unschedulable cleared
                else
                  let '(status, evicted, unnominated) := prepareCandidate pod best in
                  {| pr_nominated := if IsSuccess status then Some best.1 else None;
                     pr_status := status; pr_evicted := evicted;
                     pr_cleared := cleared ++ unnominated |}
            end
        end
  end.
End Evaluator.

(** ** The plugins

    [runFilter] is the framework's filter of a node by name, with the pods left
    on it; the times and the sort are those of the plugins' files. *)

Section Plugins.
Variable sort_slice : (Pod -> Pod -> bool) -> list Pod -> list Pod.
Variable now : Z.
Variable selects : PodDisruptionBudget -> Pod -> bool.
Variable runFilter : string -> list Pod -> FStatus.
(** The node lister of the snapshot. *)
Variable NodeInfos : string -> option (list Pod).

(** CapacityScheduling's preemptor has the cycle state; the evaluator clones the
    state for every node. *)
Section Capacity.
Variable isScalar : string -> bool.

Definition capacity_preemptor : Preemptor CycleData := {|
  GetOffsetAndNumCandidates _ n := (0, n);
  EligibleToPreempt state pod nominatedNodeStatus :=
    Preemption.PodEligibleToPreemptOthers state pod nominatedNodeStatus
      (NodeInfos (pstatus_nominated (pod_status pod)));
  SelectVictims state pod node pdbs :=
    let '(status, victims, numViolating, _) :=
      Preemption.SelectVictimsOnNode isScalar sort_slice now selects (runFilter (pn_name node))
        state pod (pn_pods node) pdbs in
    (status, victims, numViolating) |}.

Definition capacity_PostFilter (state : CycleData) (cl : Cluster) (m : gmap string FStatus) : Preempted :=
  Preempt (H := capacity_preemptor) state cl m.
End Capacity.

(** PreemptionToleration's preemptor: the arguments, what [rand.Int31n] gives,
    and the time [PostFilter] reads at its start. *)
Record TolerationPlugin := {
  tp_args : Toleration.PreemptionTolerationArgs;
  tp_Int31n : Z -> Z;
  tp_curTime : Z;
}.

Section Tolerating.
Variable getPriorityClass : string -> result Toleration.PriorityClass.
Variables extRemovePod extAddPod : Pod -> list Pod -> FStatus.

Definition toleration_preemptor : Preemptor TolerationPlugin := {|
  GetOffsetAndNumCandidates pl n := (tp_Int31n pl n, Toleration.calculateNumCandidates (tp_args pl) n);
  EligibleToPreempt _ pod nominatedNodeStatus :=
    Toleration.PodEligibleToPreemptOthers pod nominatedNodeStatus
      (NodeInfos (pstatus_nominated (pod_status pod)));
  SelectVictims pl pod node pdbs :=
    let '(status, victims, numViolating, _) :=
      Toleration.SelectVictimsOnNode getPriorityClass sort_slice now (tp_curTime pl) selects
        (runFilter (pn_name node)) extRemovePod extAddPod pod (pn_pods node) pdbs in
    (status, victims, numViolating) |}.

(** [clock] is what the plugin's clock reads. *)
Definition toleration_PostFilter (args : Toleration.PreemptionTolerationArgs) (Int31n : Z -> Z) (clock : Z)
    (cl : Cluster) (m : gmap string FStatus) : Preempted :=
  Preempt (H := toleration_preemptor) {| tp_args := args; tp_Int31n := Int31n; tp_curTime := clock |} cl m.
End Tolerating.
End Plugins.
