(* ===== verification/EvaluatorClaims.v ===== *)
(** * The properties of preemption as the plugins' PostFilter runs it

    First the lemmas: what the evaluator's choice among the candidates does, and
    what it makes of a plugin's [SelectVictims]; then the properties. *)

From S2P Require Import Prelude.
From S2P Require Import KubeTypes.
From S2P Require Import GoSort.
From S2P Require Import Framework.
From S2P Require Import Resource.
From S2P Require Import ElasticQuota.
From S2P Require Import Capacity.
From S2P Require Import Preemption.
From S2P Require Import PreemptionProofs.
From S2P Require Import CapacityClaims.
From S2P Require Toleration.
From S2P Require TolerationClaims.
From S2P Require Import Evaluator.

(** ** The nodes of the highest score *)

Lemma keep_best_fold (l : list (string * Z)) m sel :
  (forall x, x ∈ l -> -9223372036854775808 <= x.2) ->
  let r := foldl keep_best (m, sel) l in
  m <= r.1 /\ (forall x, x ∈ l -> x.2 <= r.1) /\
  (r.1 = m \/ exists x, x ∈ l /\ x.2 = r.1) /\
  r.2 = (if decide (r.1 = m) then sel else []) ++ (List.filter (fun x => bool_decide (x.2 = r.1)) l).*1.
Proof.
  revert m sel. induction l as [|x l IH]; intros m sel Hl; cbn [foldl]; cbv zeta.
  { cbn. rewrite decide_True, app_nil_r by done. split_and!; try done; [intros ? ?%not_elem_of_nil; done|by left]. }
  specialize (IH (if m <? x.2 then x.2 else m)
                 ((if m <? x.2 then [] else sel) ++ (if bool_decide (x.2 = if m <? x.2 then x.2 else m) then [x.1] else []))
                 ltac:(intros y Hy; apply Hl; by right)).
  assert (keep_best (m, sel) x = (if m <? x.2 then x.2 else m,
    (if m <? x.2 then [] else sel) ++ (if bool_decide (x.2 = if m <? x.2 then x.2 else m) then [x.1] else []))) as ->.
  { unfold keep_best. destruct (m <? x.2); cbn; case_bool_decide; rewrite ?app_nil_r; done. }
  destruct (foldl keep_best _ l) as [r1 r2]. cbn [fst snd] in IH |- *.
  destruct IH as (H1 & H2 & H3 & H4).
  destruct (Z.ltb_spec m x.2) as [Hlt|Hge].
  - split; [lia|]. split; [intros y [->|Hy]%elem_of_cons; [lia|by apply H2]|].
    split; [right; destruct H3 as [->|(y & Hy & Hs)]; [exists x|exists y]; split; try done; [by left|by right]|].
    rewrite (decide_False (P := r1 = m)) by lia. rewrite H4. cbn [List.filter app].
    rewrite bool_decide_eq_true_2 by done.
    destruct (decide (r1 = x.2)) as [->|Hne].
    + by rewrite bool_decide_eq_true_2.
    + by rewrite bool_decide_eq_false_2.
  - split; [done|]. split; [intros y [->|Hy]%elem_of_cons; [lia|by apply H2]|].
    split; [destruct H3 as [->|(y & Hy & Hs)]; [by left|right; exists y; split; [by right|done]]|].
    rewrite H4. cbn [List.filter].
    destruct (decide (r1 = m)) as [->|Hne].
    + case_bool_decide; cbn [fmap list_fmap app]; [by rewrite <- app_assoc|by rewrite app_nil_r].
    + rewrite (bool_decide_eq_false_2 (x.2 = r1)) by lia. done.
Qed.

Section Pick.
Variable nodesToVictims : gmap string Victims.

Definition score_of (f : Victims -> option Z) (n : string) : Z := default 0 (nodesToVictims !! n ≫= f).

(** [a] is no better than [b], score function by score function. *)
Fixpoint no_better (fs : list (Victims -> option Z)) (a b : string) : Prop :=
  match fs with
  | [] => True
  | f :: fs => score_of f a < score_of f b \/ score_of f a = score_of f b /\ no_better fs a b
  end.

Lemma no_better_refl fs a : no_better fs a a.
Proof. induction fs as [|f fs IH]; [done|right; by split]. Qed.

(** A score function gives an int64 for every one of the nodes. *)
Definition scores_all (f : Victims -> option Z) (l : list string) : Prop :=
  forall n, n ∈ l -> exists s, (nodesToVictims !! n ≫= f) = Some s /\ -9223372036854775808 <= s.

Lemma mapM_scores f l : scores_all f l ->
  mapM (score_node nodesToVictims f) l = Some ((fun n => (n, score_of f n)) <$> l).
Proof.
  intros Hl. apply mapM_Some, Forall2_fmap_r. induction l as [|n l IH]; constructor.
  - destruct (Hl n ltac:(by left)) as (s & Hs & _). cbn. unfold score_node, score_of. by rewrite Hs.
  - apply IH. intros k Hk. apply Hl. by right.
Qed.

Lemma best_names f l : l <> [] -> scores_all f l ->
  let S := (foldl keep_best (-9223372036854775808, []) ((fun n => (n, score_of f n)) <$> l)).2 in
  S <> [] /\ exists top, (forall n, n ∈ l -> score_of f n <= top) /\
    (forall n, n ∈ S <-> n ∈ l /\ score_of f n = top).
Proof.
  intros Hne Hl. cbv zeta. set (scored := _ <$> l).
  assert (forall n, n ∈ l -> -9223372036854775808 <= score_of f n) as Hge.
  { intros n Hn. destruct (Hl n Hn) as (s & Hs & H). unfold score_of. by rewrite Hs. }
  assert (forall x, x ∈ scored -> exists n, x = (n, score_of f n) /\ n ∈ l) as Hx
    by (intros x Hx; by apply list_elem_of_fmap in Hx).
  destruct (keep_best_fold scored (-9223372036854775808) []) as (H1 & H2 & H3 & H4).
  { intros x Hin. destruct (Hx x Hin) as (n & -> & Hn). by apply Hge. }
  set (r := foldl keep_best _ scored) in *.
  assert (forall n, n ∈ r.2 <-> n ∈ l /\ score_of f n = r.1) as HS.
  { intros n. rewrite H4. assert ((if decide (r.1 = -9223372036854775808) then [] else []) = ([] : list string)) as ->
      by (by destruct (decide _)). cbn [app]. rewrite list_elem_of_fmap. split.
    - intros (x & -> & Hin). apply list_elem_of_In, filter_In in Hin as [Hin Hb].
      apply bool_decide_eq_true in Hb. apply list_elem_of_In in Hin. destruct (Hx x Hin) as (n & -> & Hn). by split.
    - intros [Hn Hs]. exists (n, score_of f n). split; [done|]. apply list_elem_of_In, filter_In.
      rewrite bool_decide_eq_true. split; [|done]. apply list_elem_of_In, list_elem_of_fmap. by exists n. }
  assert (forall n, n ∈ l -> score_of f n <= r.1) as Htop.
  { intros n Hn. apply (H2 (n, score_of f n)). apply list_elem_of_fmap. by exists n. }
  split; [|by exists r.1]. intros Hnil.
  assert (exists n, n ∈ l /\ score_of f n = r.1) as (n & Hn & Hs).
  { destruct H3 as [H3|(x & Hin & Hs)].
    - destruct l as [|n l]; [done|]. exists n. split; [by left|].
      pose proof (Hge n ltac:(by left)). pose proof (Htop n ltac:(by left)). lia.
    - destruct (Hx x Hin) as (n & -> & Hn). by exists n. }
  assert (n ∈ r.2) as Hin by (by apply HS). rewrite Hnil in Hin. by apply not_elem_of_nil in Hin.
Qed.

Lemma pick_spec fs l : l <> [] -> (forall f, f ∈ fs -> scores_all f l) ->
  exists n, pick_loop nodesToVictims fs l = Some n /\ n ∈ l /\ forall c, c ∈ l -> no_better fs c n.
Proof.
  revert l. induction fs as [|f fs IH]; intros l Hne Hf; cbn [pick_loop].
  { destruct l as [|n l]; [done|]. exists n. split; [done|]. split; [by left|done]. }
  rewrite mapM_scores by (apply Hf; by left). cbn [mbind option_bind].
  destruct (best_names f l Hne (Hf f ltac:(by left))) as (HSne & top & Htop & HS).
  set (sel := (foldl keep_best _ _).2) in *.
  assert (forall n, n ∈ sel -> (forall c, c ∈ sel -> no_better fs c n) ->
    n ∈ l /\ forall c, c ∈ l -> no_better (f :: fs) c n) as Hlift.
  { intros n Hn Hb. apply HS in Hn as [Hn Hs]. split; [done|]. intros c Hc. cbn [no_better].
    destruct (Z_lt_le_dec (score_of f c) (score_of f n)); [by left|right].
    pose proof (Htop c Hc). assert (score_of f c = top) as He by lia.
    split; [lia|]. apply Hb, HS. by split. }
  assert (exists n, pick_loop nodesToVictims fs sel = Some n /\ n ∈ sel /\ forall c, c ∈ sel -> no_better fs c n)
    as (n & Hp & Hn & Hb).
  { apply IH; [done|]. intros g Hg n Hn. apply HS in Hn as [Hn _]. by apply (Hf g ltac:(by right)). }
  destruct sel as [|n0 [|n1 rest]] eqn:Es; [done| |].
  - exists n0. split; [done|]. apply Hlift; [by left|]. intros c Hc.
    apply list_elem_of_singleton in Hc as ->. apply no_better_refl.
  - exists n. split; [done|]. by apply Hlift.
Qed.
End Pick.

(** ** Candidates *)

(** What the framework and Go promise: a range over a map visits each key once,
    and the victims the preparation got to are victims, all of them when none
    of those it got to fails. *)
Record ClusterLaws (cl : Cluster) : Prop := {
  range_keys : forall m, cl_range cl m ≡ₚ (map_to_list m).*1;
  attempts_victims : forall l, cl_attempts cl l ⊆+ l;
  attempts_all : forall l,
    (forall v, v ∈ cl_attempts cl l -> cl_waiting cl v = true \/ exists u, cl_evict cl v = Ok u) ->
    cl_attempts cl l ≡ₚ l;
}.

Lemma success_is s : IsSuccess s = true -> s = NewStatus Success.
Proof. unfold IsSuccess. rewrite bool_decide_eq_true. destruct s as [c]. cbn. by intros ->. Qed.

Section Evaluator.
Context `{H : Preemptor P}.
Variables (plugin : P) (cl : Cluster).

(** A candidate: a node of the snapshot that the cycle found unschedulable, and
    what the plugin selected on it. *)
Definition selected_on (m : gmap string FStatus) (pod : Pod) (c : Candidate) : Prop :=
  exists nodes node pdbs, cl_nodes cl = Ok nodes /\ cl_pdbs cl = Ok pdbs /\
    node ∈ nodes /\ pn_name node = c.1 /\ st_code <$> m !! c.1 = Some Unschedulable /\
    SelectVictims plugin pod node pdbs = (NewStatus Success, vi_pods c.2, vi_violations c.2) /\
    vi_pods c.2 <> [].

Lemma potential_node nodes m node :
  node ∈ nodesWherePreemptionMightHelp nodes m <->
  node ∈ nodes /\ st_code <$> m !! pn_name node = Some Unschedulable.
Proof.
  unfold nodesWherePreemptionMightHelp.
  rewrite list_elem_of_In, filter_In, bool_decide_eq_true, <- list_elem_of_In. done.
Qed.

Lemma add_candidate_in size c items x : x ∈ add_candidate size c items -> x = c \/ x ∈ items.
Proof.
  unfold add_candidate. destruct (_ <? _); [|by right].
  intros [Hx|Hx%list_elem_of_singleton]%elem_of_app; [by right|by left].
Qed.

(** Every candidate of a dry run was selected on a node. *)
Lemma dry_run_sound pod nodes pdbs offset num (Q : Candidate -> Prop) :
  (forall node c, node ∈ nodes -> pn_name node = c.1 -> vi_pods c.2 <> [] ->
     SelectVictims plugin pod node pdbs = (NewStatus Success, vi_pods c.2, vi_violations c.2) -> Q c) ->
  forall c, c ∈ (DryRunPreemption plugin cl pod nodes pdbs offset num).1 -> Q c.
Proof.
  intros HQ. unfold DryRunPreemption, dry_run. cbn [fst].
  assert (forall l acc, (forall c, c ∈ dr_clean acc ++ dr_violating acc -> Q c) ->
    let r := foldl (checkNode plugin pod nodes pdbs offset num) acc l in
    forall c, c ∈ dr_clean r ++ dr_violating r -> Q c) as Hgen; [|apply Hgen; by intros c ?%not_elem_of_nil].
  induction l as [|i l IH]; intros acc Hacc; cbn [foldl]; [done|]. apply IH. clear IH.
  unfold checkNode. destruct (nodes !! _) as [node|] eqn:Hn; [|done].
  destruct (SelectVictims plugin pod node pdbs) as [[status pods] n] eqn:Hsel.
  destruct (IsSuccess status) eqn:Hok; [|done]. apply success_is in Hok as ->. cbn [andb].
  case_bool_decide as Hp; cbn [negb]; [done|].
  assert (Q (pn_name node, {| vi_pods := pods; vi_violations := n |})) as Hc
    by (apply (HQ node); [by eapply list_elem_of_lookup_2|done|done|exact Hsel]).
  case_bool_decide; cbn [dr_clean dr_violating]; intros c [Hx|Hx]%elem_of_app;
    try (apply Hacc, elem_of_app; by (left + right));
    (apply add_candidate_in in Hx as [->|Hx]; [done|apply Hacc, elem_of_app; by (left + right)]).
Qed.

Lemma find_sound m pod c : c ∈ (findCandidates plugin cl pod m).1.1 -> selected_on m pod c.
Proof.
  unfold findCandidates. destruct (cl_nodes cl) as [[|n0 ns]|e] eqn:Hnodes; try by intros ?%not_elem_of_nil.
  set (nodes := n0 :: ns) in *.
  destruct (nodesWherePreemptionMightHelp nodes m) as [|p0 ps] eqn:Hpot; [by intros ?%not_elem_of_nil|].
  destruct (cl_pdbs cl) as [pdbs|e] eqn:Hpdbs; [|by intros ?%not_elem_of_nil].
  destruct (GetOffsetAndNumCandidates plugin _) as [offset num].
  pose proof (dry_run_sound pod (p0 :: ps) pdbs offset num (selected_on m pod)) as Hs.
  destruct (DryRunPreemption plugin cl pod (p0 :: ps) pdbs offset num) as [cs errs]. apply Hs. clear Hs.
  intros node c' Hin Hname Hne Hsel. rewrite <- Hpot in Hin. apply potential_node in Hin as [Hin Hst].
  exists nodes, node, pdbs. rewrite <- Hname. by split_and!.
Qed.

(** ** The choice *)

Lemma victims_map_in {V} (l : list (string * V)) n v :
  Toleration.CandidatesToVictimsMap l !! n = Some v -> (n, v) ∈ l.
Proof.
  unfold Toleration.CandidatesToVictimsMap.
  assert (forall (l : list (string * V)) (m : gmap string V), foldl (fun m c => <[c.1 := c.2]> m) m l !! n = Some v ->
    (n, v) ∈ l \/ m !! n = Some v) as Hgen.
  { clear l. induction l as [|[k w] l IH]; intros m; cbn [foldl]; [by right|].
    intros [Hx|Hx]%IH; [left; by right|]. cbn in Hx.
    apply lookup_insert_Some in Hx as [[-> ->]|[_ Hx]]; [left; by left|by right]. }
  intros [Hx|Hx]%Hgen; [done|]. by rewrite lookup_empty in Hx.
Qed.

Lemma select_in cs c : SelectCandidate cl cs = Some c -> c ∈ cs.
Proof.
  destruct cs as [|c0 [|c1 cs]]; cbn [SelectCandidate]; [done|intros [= <-]; by left|].
  destruct (cl_range cl _) as [|n0 ns]; [intros [= <-]; by left|].
  destruct (pick_loop _ _ _) as [n|]; cbn [mbind option_bind]; [|done].
  destruct (Toleration.CandidatesToVictimsMap _ !! n) as [v|] eqn:Hv; intros [= <-]; [|by left].
  by apply victims_map_in.
Qed.

Lemma victims_map_keys {V} (l : list (string * V)) n :
  is_Some (Toleration.CandidatesToVictimsMap l !! n) <-> n ∈ l.*1.
Proof.
  unfold Toleration.CandidatesToVictimsMap.
  assert (forall (l : list (string * V)) (m : gmap string V), is_Some (foldl (fun m c => <[c.1 := c.2]> m) m l !! n) <->
    n ∈ l.*1 \/ is_Some (m !! n)) as Hgen.
  { clear l. induction l as [|[k w] l IH]; intros m; cbn [foldl].
    - split; [by right|]. intros [Hx|Hx]; [by apply not_elem_of_nil in Hx|done].
    - rewrite IH, fmap_cons, elem_of_cons. cbn [fst snd]. destruct (decide (n = k)) as [->|Hne].
      + rewrite lookup_insert_eq. split; [intros _; left; by left|intros _; right; eauto].
      + rewrite lookup_insert_ne by done. naive_solver. }
  rewrite Hgen, lookup_empty. split; [intros [?|[? ?]]; done|by left].
Qed.
(** Start times are int64 numbers of nanoseconds. *)
Definition timed (cs : list Candidate) : Prop :=
  forall c p, c ∈ cs -> p ∈ vi_pods c.2 -> -9223372036854775808 <= start_time (cl_now cl) p.

Lemma earlier_ge now l acc :
  (forall p, p ∈ l -> -9223372036854775808 <= start_time now p) -> -9223372036854775808 <= acc.2 ->
  -9223372036854775808 <= (foldl (earlier now) acc l).2.
Proof.
  revert acc. induction l as [|p l IH]; intros acc Hl Ha; [done|]. cbn [foldl].
  apply IH; [intros q Hq; apply Hl; by right|]. pose proof (Hl p ltac:(by left)).
  unfold earlier. destruct acc as [mp e]. cbn [snd] in Ha.
  case_bool_decide; [destruct (_ <? e); done|]. by destruct (mp <? _).
Qed.

Lemma scores_exist cs f :
  (forall c, c ∈ cs -> vi_pods c.2 <> []) -> timed cs -> f ∈ scoreFuncs (cl_now cl) ->
  scores_all (Toleration.CandidatesToVictimsMap cs) f cs.*1.
Proof.
  intros Hne Ht Hf n Hn. apply victims_map_keys in Hn as [v Hv]. rewrite Hv. cbn [mbind option_bind].
  apply victims_map_in in Hv. specialize (Hne _ Hv). cbn [snd] in Hne.
  assert (forall z, -9223372036854775808 <= 0 -! z) as Hsub.
  { intros z. unfold sub64. pose proof (int64_range (0 - z)) as [? _]. done. }
  unfold scoreFuncs in Hf. repeat (apply elem_of_cons in Hf as [->|Hf]); [..|by apply not_elem_of_nil in Hf].
  - eexists. split; [done|apply Hsub].
  - unfold minHighestPriorityScoreFunc. destruct (vi_pods v); [done|]. eexists. split; [done|apply Hsub].
  - eexists. split; [done|apply Hsub].
  - eexists. split; [done|apply Hsub].
  - eexists. split; [done|]. unfold GetEarliestPodStartTime.
    destruct (vi_pods v) as [|p l] eqn:Hp; [done|]. cbn [default].
    apply earlier_ge; cbn [snd].
    + intros q Hq. apply (Ht (n, v) q Hv). cbn [snd]. by rewrite Hp.
    + apply (Ht (n, v) p Hv). cbn [snd]. rewrite Hp. by left.
Qed.

(** One of the candidates is chosen, and none is better. *)
Lemma select_best cs :
  ClusterLaws cl -> cs <> [] -> (forall c, c ∈ cs -> vi_pods c.2 <> []) -> timed cs ->
  exists c, SelectCandidate cl cs = Some c /\ c ∈ cs /\
    forall c', c' ∈ cs ->
      no_better (Toleration.CandidatesToVictimsMap cs) (scoreFuncs (cl_now cl)) c'.1 c.1.
Proof.
  intros [Hrange _ _] Hcs Hne Ht. destruct cs as [|c0 [|c1 cs]]; [done| |].
  { exists c0. split; [done|]. split; [by left|]. intros c' ->%list_elem_of_singleton. apply no_better_refl. }
  set (l := c0 :: c1 :: cs) in *.
  assert (SelectCandidate cl l = match cl_range cl (Toleration.CandidatesToVictimsMap l) with
    | [] => Some c0
    | range =>
        candidateNode ← pick_loop (Toleration.CandidatesToVictimsMap l) (scoreFuncs (cl_now cl)) range;
        match Toleration.CandidatesToVictimsMap l !! candidateNode with
        | Some victims => Some (candidateNode, victims)
        | None => Some c0
        end
    end) as -> by done.
  assert (forall n, n ∈ cl_range cl (Toleration.CandidatesToVictimsMap l) <-> n ∈ l.*1) as Hkeys.
  { intros n. rewrite Hrange, <- (victims_map_keys l). rewrite list_elem_of_fmap. split.
    - intros ([k v] & -> & Hin%elem_of_map_to_list). eauto.
    - intros [v Hv]. exists (n, v). split; [done|]. by apply elem_of_map_to_list. }
  destruct (cl_range cl _) as [|n0 ns].
  { exfalso. apply (not_elem_of_nil c0.1). apply Hkeys. by left. }
  destruct (pick_spec (Toleration.CandidatesToVictimsMap l) (scoreFuncs (cl_now cl)) (n0 :: ns))
    as (n & Hpick & Hn & Hb); [done| |].
  { intros f Hf k Hk. apply Hkeys in Hk. by apply (scores_exist l f). }
  apply Hkeys in Hn as Hn'. apply victims_map_keys in Hn' as [v Hv]. rewrite Hpick. cbn [mbind option_bind]. rewrite Hv.
  exists (n, v). split; [done|]. split; [by apply victims_map_in|].
  intros c' Hc'. apply Hb, Hkeys. apply list_elem_of_fmap. by exists c'.
Qed.
(** ** Nothing is missed *)

Definition some_found (acc : DryRun) : Prop := dr_clean acc ++ dr_violating acc <> [].

Lemma add_candidate_grows size c items : items <> [] -> add_candidate size c items <> [].
Proof. unfold add_candidate. destruct (_ <? _); [|done]. intros _ Hx. by apply app_nil in Hx as [_ ?]. Qed.

Lemma add_candidate_first size c items : 0 < size -> add_candidate size c items <> [].
Proof.
  intros Hs. destruct items as [|x items]; [|by apply add_candidate_grows].
  unfold add_candidate. change (Z.of_nat (length [])) with 0. by rewrite (proj2 (Z.ltb_lt 0 size)).
Qed.

Lemma checkNode_keeps pod nodes pdbs offset num acc i :
  some_found acc -> some_found (checkNode plugin pod nodes pdbs offset num acc i).
Proof.
  unfold some_found, checkNode. intros Ha. destruct (nodes !! _); [|done].
  destruct (SelectVictims _ _ _ _) as [[status pods] n]. destruct (_ && _); [|done].
  case_bool_decide; cbn [dr_clean dr_violating]; intros [H1 H2]%app_nil; apply Ha.
  - destruct (decide (dr_clean acc = [])) as [->|Hne]; [done|].
    by apply (add_candidate_grows num (pn_name p, {| vi_pods := pods; vi_violations := n |})) in Hne.
  - rewrite H1. destruct (decide (dr_violating acc = [])) as [->|Hne]; [done|].
    by apply (add_candidate_grows num (pn_name p, {| vi_pods := pods; vi_violations := n |})) in Hne.
Qed.

Lemma checkNode_finds pod nodes pdbs offset num acc i node victims n :
  0 < num -> nodes !! Z.to_nat ((offset + Z.of_nat i) mod Z.of_nat (length nodes)) = Some node ->
  SelectVictims plugin pod node pdbs = (NewStatus Success, victims, n) -> victims <> [] ->
  some_found (checkNode plugin pod nodes pdbs offset num acc i).
Proof.
  intros Hnum Hn Hsel Hne. unfold some_found, checkNode. rewrite Hn, Hsel.
  rewrite (bool_decide_eq_false_2 (victims = [])) by done.
  change (IsSuccess (NewStatus Success)) with true. cbn [negb andb].
  case_bool_decide; cbn [dr_clean dr_violating]; intros [H1 H2]%app_nil;
    [by apply add_candidate_first in H1|by apply add_candidate_first in H2].
Qed.

(** All nodes were looked at, or the dry run was cancelled: it had a candidate
    that violates no budget, and as many candidates as it looks for. *)
Definition looked_enough (pod : Pod) (nodes : list PreemptNode) (pdbs : list PodDisruptionBudget)
    (offset num : Z) : Prop :=
  (forall i, (i < length nodes)%nat -> i ∈ cl_looked_at cl) \/
  let r := dry_run plugin cl pod nodes pdbs offset num in
  dr_clean r <> [] /\ num <= Z.of_nat (length (dr_clean r) + length (dr_violating r)).

Lemma dry_run_complete pod nodes pdbs offset num node victims n :
  looked_enough pod nodes pdbs offset num -> 0 < num -> node ∈ nodes ->
  SelectVictims plugin pod node pdbs = (NewStatus Success, victims, n) -> victims <> [] ->
  (DryRunPreemption plugin cl pod nodes pdbs offset num).1 <> [].
Proof.
  intros [Hex|[Hr _]] Hnum [j Hj]%list_elem_of_lookup Hsel Hne; unfold DryRunPreemption; cbn [fst];
    [|by intros [? _]%app_nil]. unfold dry_run.
  pose proof (lookup_lt_Some _ _ _ Hj) as Hlt.
  set (i := Z.to_nat ((Z.of_nat j - offset) mod Z.of_nat (length nodes))).
  pose proof (Z.mod_pos_bound (Z.of_nat j - offset) (Z.of_nat (length nodes)) ltac:(lia)) as Hb.
  assert (nodes !! Z.to_nat ((offset + Z.of_nat i) mod Z.of_nat (length nodes)) = Some node) as Hi.
  { unfold i. rewrite Z2Nat.id by lia. rewrite Zplus_mod_idemp_r.
    replace (offset + (Z.of_nat j - offset)) with (Z.of_nat j) by lia.
    rewrite Z.mod_small by lia. by rewrite Nat2Z.id. }
  assert (i ∈ cl_looked_at cl) as Hin by (apply Hex; unfold i; lia).
  assert (forall l acc, some_found acc -> some_found (foldl (checkNode plugin pod nodes pdbs offset num) acc l))
    as Hkeep.
  { induction l as [|k l IH]; intros acc Ha; [done|]. cbn [foldl]. apply IH. by apply checkNode_keeps. }
  apply list_elem_of_split in Hin as (l1 & l2 & ->). rewrite foldl_app. cbn [foldl].
  apply Hkeep. by eapply checkNode_finds.
Qed.

(** ** The evaluator *)

Lemma prepare_spec pod c : ClusterLaws cl ->
  let '(status, evicted, cleared) := prepareCandidate cl pod c in
  evicted ⊆+ vi_pods c.2 /\ (IsSuccess status = true -> evicted ≡ₚ vi_pods c.2) /\
  ((forall v, v ∈ vi_pods c.2 -> cl_waiting cl v = true \/ exists u, cl_evict cl v = Ok u) ->
   status = NewStatus Success /\
   cleared = ClearNominatedNodeName (getLowerPriorityNominatedPods (cl_nominated cl c.1) pod)).
Proof.
  intros [_ Hsub Hall]. unfold prepareCandidate. set (ok := fun v => _ || _).
  assert (forall v, ok v = true <-> cl_waiting cl v = true \/ exists u, cl_evict cl v = Ok u) as Hok.
  { intros v. unfold ok. rewrite orb_true_iff. destruct (cl_evict cl v); naive_solver. }
  assert (List.filter ok (cl_attempts cl (vi_pods c.2)) ⊆+ cl_attempts cl (vi_pods c.2)) as Hf.
  { generalize (cl_attempts cl (vi_pods c.2)). induction l as [|v l IH]; cbn; [done|].
    destruct (ok v); [by apply submseteq_skip|by apply submseteq_cons]. }
  destruct (forallb ok _) eqn:E.
  - rewrite forallb_forall in E.
    assert (List.filter ok (cl_attempts cl (vi_pods c.2)) = cl_attempts cl (vi_pods c.2)) as ->.
    { apply List.forallb_filter_id. by apply forallb_forall. }
    split; [apply Hsub|]. split; [|done]. intros _. apply Hall. intros v Hv. apply Hok, E. by apply list_elem_of_In.
  - split; [by etransitivity; [exact Hf|apply Hsub]|]. split; [done|]. intros Hv.
    exfalso. apply not_true_iff_false in E. apply E, forallb_forall. intros v Hin%list_elem_of_In. apply Hok, Hv.
    eapply elem_of_submseteq; [exact Hin|apply Hsub].
Qed.

(** What [Preempt] evicts was selected on one node. *)
Lemma preempt_sound m :
  ClusterLaws cl ->
  let r := Preempt plugin cl m in
  pr_evicted r <> [] \/ pr_status r = NewStatus Success ->
  exists pod c, cl_pod cl = Ok pod /\ selected_on m pod c /\ pr_evicted r ⊆+ vi_pods c.2 /\
    (pr_status r = NewStatus Success -> c.1 <> "" /\ pr_nominated r = Some c.1 /\ pr_evicted r ≡ₚ vi_pods c.2).
Proof.
  intros Hl r Hr. subst r. unfold Preempt in *. destruct (cl_pod cl) as [pod|e]; [|naive_solver].
  destruct (EligibleToPreempt _ _ _); cbn [negb] in *; [|naive_solver].
  pose proof (find_sound m pod) as Hs. destruct (findCandidates plugin cl pod m) as [[cs err] cl']. cbn [fst] in Hs.
  destruct cs as [|c0 cs]; [destruct err; naive_solver|].
  destruct (SelectCandidate cl (c0 :: cs)) as [best|] eqn:Hsel; [|naive_solver].
  apply select_in in Hsel. apply Hs in Hsel.
  case_bool_decide as Hb; [naive_solver|].
  pose proof (prepare_spec pod best Hl) as Hp. destruct (prepareCandidate cl pod best) as [[status evicted] cleared].
  destruct Hp as (Hsub & Hall & _). exists pod, best.
  destruct (IsSuccess status) eqn:Hst; cbn [pr_evicted pr_status pr_nominated] in *.
  - split_and!; try done. intros _. split_and!; try done. by apply Hall.
  - split_and!; try done. intros ->. done.
Qed.
End Evaluator.

(** ** A cluster of two nodes *)

Module EvalDemo.
(** The cluster of a preemptor: maps are ranged over in the order of their keys,
    both nodes were looked at, and every victim is evicted. *)
Definition cluster (pod : Pod) (nodes : list PreemptNode) : Cluster := {|
  cl_pod := Ok pod; cl_nodes := Ok nodes; cl_pdbs := Ok [];
  cl_looked_at := seq 0 (length nodes);
  cl_range m := (map_to_list m).*1; cl_attempts l := l;
  cl_waiting _ := false; cl_evict _ := Ok tt; cl_nominated _ := []; cl_now := 0 |}.

Lemma laws pod nodes : ClusterLaws (cluster pod nodes).
Proof. by split. Qed.

Definition p : Pod := cpu_pod "a" "p" 10 500.
Definition n1 : PreemptNode := {| pn_name := "n1"; pn_pods := crowded |}.
Definition n2 : PreemptNode := {| pn_name := "n2";
  pn_pods := [cpu_pod "a" "a4" 5 1000; cpu_pod "a" "a5" 20 1000; cpu_pod "a" "a6" 20 1000] |}.
Definition unschedulable : gmap string FStatus :=
  {[ "n1" := NewStatus Unschedulable; "n2" := NewStatus Unschedulable ]}.
Definition team : CycleData := cycle_of busy_team [] p.
Definition run : Preempted :=
  capacity_PostFilter sort_by 0 no_budget_counts (fun _ => room_for 2) (fun _ => None) no_scalars
    team (cluster p [n2; n1]) unschedulable.

(** Node "n1" has the victim of the lower priority. *)
Lemma run_evicts : run = {| pr_nominated := Some "n1"; pr_status := NewStatus Success;
                            pr_evicted := [cpu_pod "a" "a1" 0 1000]; pr_cleared := [] |}.
Proof. vm_compute. reflexivity. Qed.

Lemma pods_keyed nodes node : Ok [n2; n1] = (Ok nodes : result _) -> node ∈ nodes -> keyed (pn_pods node).
Proof.
  intros [= <-] Hn. apply elem_of_cons in Hn as [-> | ->%list_elem_of_singleton]; [|apply crowded_keyed].
  split; [by apply (bool_decide_unpack _); vm_compute|].
  intros q Hq. repeat apply elem_of_cons in Hq as [->|Hq]; [..|by apply not_elem_of_nil in Hq]; done.
Qed.
End EvalDemo.

(** ** The evaluator against the interface *)

(** C9. What the evaluator makes of a plugin: if the preemptor is eligible and
    the dry run looked at every node or at enough of them, and the plugin can
    free some unschedulable node by evicting pods, then a node is nominated,
    unless an eviction fails; the node is one on which the plugin selected
    victims, and no candidate is better: it has the fewest violated budgets, among those the lowest highest priority of
    a victim, then the smallest sum of priorities, the fewest victims, and the
    latest start. The less important pods nominated to it lose their nomination. *)
Theorem preempt_complete {P} {H : Preemptor P} (plugin : P) cl m pod nodes pdbs node victims n offset num :
  ClusterLaws cl -> cl_pod cl = Ok pod -> cl_nodes cl = Ok nodes -> cl_pdbs cl = Ok pdbs ->
  EligibleToPreempt plugin pod (default (NewStatus Success) (m !! pstatus_nominated (pod_status pod))) = true ->
  let potential := nodesWherePreemptionMightHelp nodes m in
  GetOffsetAndNumCandidates plugin (Z.of_nat (length potential)) = (offset, num) -> 0 < num ->
  looked_enough plugin cl pod potential pdbs offset num -> (forall k, k ∈ nodes -> pn_name k <> "") ->
  node ∈ potential -> SelectVictims plugin pod node pdbs = (NewStatus Success, victims, n) -> victims <> [] ->
  let candidates := (findCandidates plugin cl pod m).1.1 in
  timed cl candidates ->
  (forall v, cl_waiting cl v = true \/ exists u, cl_evict cl v = Ok u) ->
  exists best, best ∈ candidates /\ selected_on plugin cl m pod best /\
    (forall c, c ∈ candidates ->
       no_better (Toleration.CandidatesToVictimsMap candidates) (scoreFuncs (cl_now cl)) c.1 best.1) /\
    pr_status (Preempt plugin cl m) = NewStatus Success /\
    pr_nominated (Preempt plugin cl m) = Some best.1 /\
    pr_evicted (Preempt plugin cl m) ≡ₚ vi_pods best.2 /\
    pr_cleared (Preempt plugin cl m)
      = ClearNominatedNodeName (getLowerPriorityNominatedPods (cl_nominated cl best.1) pod).
Proof.
  intros Hl Hpod Hnodes Hpdbs Hel potential Hgo Hnum Hex Hnames Hin Hsel Hne candidates Htimed Hev.
  pose proof (find_sound plugin cl m pod) as Hs.
  assert (candidates <> []) as Hc.
  { unfold candidates, findCandidates. rewrite Hnodes.
    pose proof (dry_run_complete plugin cl pod potential pdbs offset num node victims n
      Hex Hnum Hin Hsel Hne) as Hd.
    destruct nodes as [|n0 ns]; [by apply not_elem_of_nil in Hin|].
    fold potential. destruct potential as [|p0 ps]; [by apply not_elem_of_nil in Hin|].
    rewrite Hpdbs, Hgo. by destruct (DryRunPreemption _ _ _ _ _ _ _). }
  destruct (select_best cl candidates Hl Hc) as (best & Hbest & Hbin & Hopt); [|done|].
  { intros c Hcin. by destruct (Hs c Hcin) as (? & ? & ? & ? & ? & ? & ? & ? & ? & ?). }
  exists best. split; [done|]. pose proof (Hs best Hbin) as Hon. split; [done|]. split; [done|].
  unfold Preempt. rewrite Hpod, Hel. cbn [negb].
  unfold candidates in *. clear candidates.
  assert (forall cs err cleared, findCandidates plugin cl pod m = (cs, err, cleared) -> cs <> [] -> cleared = [])
    as Hcl.
  { unfold findCandidates. intros cs err cleared. repeat (case_match; try by intros [= <- <- <-]). }
  destruct (findCandidates plugin cl pod m) as [[cs err] cl']. specialize (Hcl _ _ _ eq_refl Hc). subst cl'.
  cbn [fst] in *. destruct cs as [|c0 cs]; [done|]. rewrite Hbest.
  rewrite bool_decide_eq_false_2.
  2:{ destruct Hon as (ns & nd & ps & Hns & _ & Hnd & <- & _). rewrite Hnodes in Hns.
      injection Hns as <-. by apply Hnames. }
  pose proof (prepare_spec cl pod best Hl) as Hp. destruct (prepareCandidate cl pod best) as [[status evicted] cleared].
  destruct Hp as (_ & Hall & Hok). destruct Hok as [-> ->]; [intros v _; apply Hev|].
  split_and!; [done|done|by apply Hall|done].
Qed.

Lemma preempt_complete_witness :
  pr_status EvalDemo.run = NewStatus Success /\ pr_nominated EvalDemo.run = Some "n1".
Proof.
  destruct (preempt_complete (H := capacity_preemptor sort_by 0 no_budget_counts (fun _ => room_for 2)
      (fun _ => None) no_scalars) EvalDemo.team (EvalDemo.cluster EvalDemo.p [EvalDemo.n2; EvalDemo.n1])
      EvalDemo.unschedulable EvalDemo.p [EvalDemo.n2; EvalDemo.n1] [] EvalDemo.n2 [cpu_pod "a" "a4" 5 1000] 0 0 2)
    as (best & _ & _ & _ & Hs & _); try (vm_compute; reflexivity).
  - apply EvalDemo.laws.
  - left. intros i Hi. apply elem_of_seq. vm_compute in Hi. cbn. lia.
  - intros k Hk. by repeat (apply elem_of_cons in Hk as [->|Hk]; [done|]); apply not_elem_of_nil in Hk.
  - by left.
  - done.
  - intros c v Hc Hv. set (cs := findCandidates _ _ _ _) in Hc. vm_compute in cs. cbn [fst cs] in Hc.
    repeat (apply elem_of_cons in Hc as [->|Hc]; [apply list_elem_of_singleton in Hv as ->; cbn; lia|]).
    by apply not_elem_of_nil in Hc.
  - intros v. right. by exists tt.
  - split; [exact Hs|vm_compute; reflexivity].
Defined.

(** ** CapacityScheduling *)

(** C8. Preemption of CapacityScheduling from the cycle to the evictions: whatever
    the order in which nodes and victims are handled and whichever calls fail,
    all evicted pods run on one node that the cycle found unschedulable, and
    each was of the class the preemptor may evict when the removal loop came to
    it (pods of other quotas only while their quota is over its minimum); on
    success that node is nominated, and with the pods that remain on it the preemptor passes the
    filters. *)
Theorem capacity_postfilter_sound isScalar sort_slice now selects runFilter NodeInfos state infos s cl m :
  (forall f l, sort_slice f l ≡ₚ l) -> ClusterLaws cl ->
  (forall nodes node, cl_nodes cl = Ok nodes -> node ∈ nodes -> keyed (pn_pods node)) ->
  cd_snapshot state = Some infos -> cd_prefilter state = Some s ->
  let r := capacity_PostFilter sort_slice now selects runFilter NodeInfos isScalar state cl m in
  pr_evicted r <> [] \/ pr_status r = NewStatus Success ->
  exists pod nodes node left, cl_pod cl = Ok pod /\ cl_nodes cl = Ok nodes /\ node ∈ nodes /\
    st_code <$> m !! pn_name node = Some Unschedulable /\
    pr_evicted r ⊆+ pn_pods node /\
    (forall v, v ∈ pr_evicted r ->
       evictable_at_turn isScalar infos pod (over_min infos pod s)
         (removal_order sort_slice now (pn_pods node)) v) /\
    (pr_status r = NewStatus Success ->
       pr_nominated r = Some (pn_name node) /\ left ++ pr_evicted r ≡ₚ pn_pods node /\
       IsSuccess (runFilter (pn_name node) left) = true).
Proof.
  intros Hsort Hl Hk Hi Hp r Hr.
  destruct (preempt_sound (H := capacity_preemptor sort_slice now selects runFilter NodeInfos isScalar) state cl m Hl Hr)
    as (pod & c & Hpod & Hsel & Hsub & Hok). fold r in Hsub, Hok.
  destruct Hsel as (nodes & node & pdbs & Hnodes & Hpdbs & Hin & Hname & Hst & Hv & Hne). cbn [SelectVictims capacity_preemptor] in Hv.
  destruct (SelectVictimsOnNode _ _ _ _ _ _ _ _ _) as [[[status victims] n] st] eqn:Hrun.
  injection Hv as -> -> ->.
  assert (exists st', st = Some st') as [st' ->].
  { unfold SelectVictimsOnNode in Hrun. rewrite Hi, Hp in Hrun.
    repeat (case_match; simplify_eq/=; try done; eauto). }
  destruct (select_victims_ok isScalar sort_slice now selects (runFilter (pn_name node)) state pod (pn_pods node)
    pdbs infos s _ _ _ Hsort (Hk nodes node Hnodes Hin) Hi Hp Hrun) as (Hperm & Hfit & Hev).
  exists pod, nodes, node, (slice_pods (nst_pods st')). rewrite Hname in *. split_and!; try done.
  - etransitivity; [exact Hsub|]. rewrite <- Hperm. apply submseteq_inserts_l. done.
  - intros v Hvin. apply Hev. by eapply elem_of_submseteq.
  - intros Hs. destruct (Hok Hs) as (_ & Hnom & Hpe). change (pr_evicted r ≡ₚ vi_pods c.2) in Hpe.
    split; [exact Hnom|]. split; [by rewrite Hpe|done].
Qed.

Lemma capacity_postfilter_sound_witness :
  exists left, left ++ pr_evicted EvalDemo.run ≡ₚ crowded /\
    pr_evicted EvalDemo.run = [cpu_pod "a" "a1" 0 1000] /\ IsSuccess (room_for 2 left) = true.
Proof.
  destruct (capacity_postfilter_sound no_scalars sort_by 0 no_budget_counts (fun _ => room_for 2)
      (fun _ => None) EvalDemo.team busy_team
      (default {| nominatedPodsReqInEQWithPodReq := zero_resource; nominatedPodsReqWithPodReq := zero_resource;
                  podReq := zero_resource |} (cd_prefilter EvalDemo.team))
      (EvalDemo.cluster EvalDemo.p [EvalDemo.n2; EvalDemo.n1]) EvalDemo.unschedulable)
    as (pod & nodes & node & left & Hp & Hns & Hin & _ & _ & _ & Hok).
  - apply sort_by_perm.
  - apply EvalDemo.laws.
  - apply EvalDemo.pods_keyed.
  - vm_compute. reflexivity.
  - vm_compute. reflexivity.
  - right. vm_compute. reflexivity.
  - fold EvalDemo.run in Hok. rewrite EvalDemo.run_evicts in *. destruct (Hok eq_refl) as (Hnom & Hperm & Hfit).
    injection Hns as <-. apply elem_of_cons in Hin as [-> | ->%list_elem_of_singleton]; [done|].
    by exists left.
Defined.

(** ** PreemptionToleration *)

(** C14. Preemption of PreemptionToleration from the cycle to the evictions: all
    evicted pods run on one node that the cycle found unschedulable, have a
    lower priority than the preemptor and do not tolerate its preemption, so no
    tolerating pod is ever evicted; on success that node is nominated, and the
    preemptor fits with the pods that remain on it. *)
Theorem toleration_postfilter_sound sort_slice now selects runFilter NodeInfos getPriorityClass
    extRemovePod extAddPod args Int31n clock cl m :
  (forall f l, sort_slice f l ≡ₚ l) -> ClusterLaws cl ->
  (forall nodes node, cl_nodes cl = Ok nodes -> node ∈ nodes -> keyed (pn_pods node)) ->
  let r := toleration_PostFilter sort_slice now selects runFilter NodeInfos getPriorityClass
             extRemovePod extAddPod args Int31n clock cl m in
  pr_evicted r <> [] \/ pr_status r = NewStatus Success ->
  exists pod nodes node left, cl_pod cl = Ok pod /\ cl_nodes cl = Ok nodes /\ node ∈ nodes /\
    st_code <$> m !! pn_name node = Some Unschedulable /\
    pr_evicted r ⊆+ pn_pods node /\
    (forall v, v ∈ pr_evicted r -> PodPriority v < PodPriority pod /\
       Toleration.ExemptedFromPreemption getPriorityClass v pod clock = Ok false) /\
    (pr_status r = NewStatus Success ->
       pr_nominated r = Some (pn_name node) /\ left ++ pr_evicted r ≡ₚ pn_pods node /\
       IsSuccess (runFilter (pn_name node) left) = true).
Proof.
  intros Hsort Hl Hk r Hr.
  destruct (preempt_sound (H := toleration_preemptor sort_slice now selects runFilter NodeInfos getPriorityClass
    extRemovePod extAddPod) {| tp_args := args; tp_Int31n := Int31n; tp_curTime := clock |} cl m Hl Hr)
    as (pod & c & Hpod & Hsel & Hsub & Hok). fold r in Hsub, Hok.
  destruct Hsel as (nodes & node & pdbs & Hnodes & Hpdbs & Hin & Hname & Hst & Hv & Hne).
  cbn [SelectVictims toleration_preemptor tp_curTime] in Hv.
  destruct (Toleration.SelectVictimsOnNode _ _ _ _ _ _ _ _ _ _ _) as [[[status victims] n] st] eqn:Hrun.
  injection Hv as -> -> ->.
  assert (exists st', st = Some st') as [st' ->].
  { unfold Toleration.SelectVictimsOnNode in Hrun.
    repeat (case_match; simplify_eq/=; try done; eauto). }
  destruct (TolerationClaims.tolerant_victims_ok getPriorityClass sort_slice now clock selects
    (runFilter (pn_name node)) extRemovePod extAddPod pod (pn_pods node) pdbs _ _ _ Hsort
    (Hk nodes node Hnodes Hin) Hrun) as (Hperm & Hev & Hfit & _).
  exists pod, nodes, node, (slice_pods st'). rewrite Hname in *. split_and!; try done.
  - etransitivity; [exact Hsub|]. rewrite <- Hperm. apply submseteq_inserts_l. done.
  - intros v Hvin. apply Hev. by eapply elem_of_submseteq.
  - intros Hs. destruct (Hok Hs) as (_ & Hnom & Hpe). change (pr_evicted r ≡ₚ vi_pods c.2) in Hpe.
    split; [exact Hnom|]. split; [by rewrite Hpe|exact Hfit].
Qed.

Definition tolerating_run (args : Toleration.PreemptionTolerationArgs) : Preempted :=
  toleration_PostFilter (fun _ l => rev l) 0 (fun _ _ => false) (fun _ => TolerationClaims.TolDemo.fits)
    (fun _ => None) (TolerationClaims.TolDemo.classes "3600") TolerationClaims.TolDemo.accept
    TolerationClaims.TolDemo.accept args (fun _ => 0) Toleration.Second
    (EvalDemo.cluster (TolerationClaims.TolDemo.pod "p" 1000 "" [])
       [{| pn_name := "n1"; pn_pods := TolerationClaims.TolDemo.node_pods |}])
    {[ "n1" := NewStatus Unschedulable ]}.

Lemma toleration_postfilter_sound_witness :
  let r := tolerating_run {| Toleration.MinCandidateNodesPercentage := 10;
                             Toleration.MinCandidateNodesAbsolute := 100 |} in
  pr_nominated r = Some "n1" /\
  pr_evicted r = [TolerationClaims.TolDemo.pod "b" 300 "" []; TolerationClaims.TolDemo.pod "a" 100 "" []] /\
  exists left, left ++ pr_evicted r ≡ₚ TolerationClaims.TolDemo.node_pods /\
    IsSuccess (TolerationClaims.TolDemo.fits left) = true.
Proof.
  split; [vm_compute; reflexivity|]. split; [vm_compute; reflexivity|].
  destruct (toleration_postfilter_sound (fun _ l => rev l) 0 (fun _ _ => false)
      (fun _ => TolerationClaims.TolDemo.fits) (fun _ => None) (TolerationClaims.TolDemo.classes "3600")
      TolerationClaims.TolDemo.accept TolerationClaims.TolDemo.accept
      {| Toleration.MinCandidateNodesPercentage := 10; Toleration.MinCandidateNodesAbsolute := 100 |}
      (fun _ => 0) Toleration.Second
      (EvalDemo.cluster (TolerationClaims.TolDemo.pod "p" 1000 "" [])
         [{| pn_name := "n1"; pn_pods := TolerationClaims.TolDemo.node_pods |}])
      {[ "n1" := NewStatus Unschedulable ]})
    as (pod & nodes & node & left & Hp & Hns & Hin & _ & _ & _ & Hok).
  - intros f l. symmetry. apply Permutation_rev.
  - apply EvalDemo.laws.
  - intros nodes node [= <-] ->%list_elem_of_singleton.
    split; [apply (bool_decide_unpack _); vm_compute; exact I|].
    intros q Hq. repeat (apply elem_of_cons in Hq as [->|Hq]; [by vm_compute|]).
    by apply not_elem_of_nil in Hq.
  - right. vm_compute. reflexivity.
  - destruct Hok as (_ & Hperm & Hfit); [vm_compute; reflexivity|].
    injection Hns as <-. apply list_elem_of_singleton in Hin as ->. by exists left.
Defined.

(** With [MinCandidateNodesAbsolute] zero, which the validation allows beside a
    positive percentage, a cluster in which too few nodes are unschedulable for
    a percentage of them to make one node is never preempted in: the plugin
    asks for no candidates and finds none, whatever it could evict. *)
Theorem no_candidates_no_preemption sort_slice now selects runFilter NodeInfos getPriorityClass
    extRemovePod extAddPod args Int31n clock cl m nodes :
  cl_nodes cl = Ok nodes ->
  Toleration.MinCandidateNodesAbsolute args = 0 -> 0 <= Toleration.MinCandidateNodesPercentage args <= 100 ->
  let potential := Z.of_nat (length (nodesWherePreemptionMightHelp nodes m)) in
  potential * Toleration.MinCandidateNodesPercentage args < 100 -> potential <= 21474836 ->
  pr_status (toleration_PostFilter sort_slice now selects runFilter NodeInfos getPriorityClass
             extRemovePod extAddPod args Int31n clock cl m) <> NewStatus Success.
Proof.
  intros Hnodes Habs Hpct potential Hlt Hle. unfold toleration_PostFilter, Preempt.
  destruct (cl_pod cl) as [pod|]; [|done]. destruct (negb _); [done|].
  assert ((findCandidates (H := toleration_preemptor sort_slice now selects runFilter NodeInfos getPriorityClass
    extRemovePod extAddPod) {| tp_args := args; tp_Int31n := Int31n; tp_curTime := clock |} cl pod m).1.1 = []) as Hc.
  { unfold findCandidates. rewrite Hnodes. destruct nodes as [|n0 ns]; [done|].
    destruct (nodesWherePreemptionMightHelp (n0 :: ns) m) as [|p0 ps] eqn:Hpot; [done|].
    destruct (cl_pdbs cl) as [pdbs|]; [|done]. cbn [GetOffsetAndNumCandidates toleration_preemptor tp_args].
    assert (Toleration.calculateNumCandidates args (Z.of_nat (length (p0 :: ps))) = 0) as ->.
    { unfold Toleration.calculateNumCandidates, Toleration.mul32. unfold potential in *.
      rewrite int32_id by (unfold in_int32; nia). rewrite Habs.
      rewrite Z.quot_small by lia. cbn [Z.ltb Z.compare]. rewrite (proj2 (Z.ltb_ge _ _)) by lia. done. }
    unfold DryRunPreemption, dry_run. cbn [fst].
    match goal with |- context[foldl ?f ?a ?l] =>
      assert (forall acc, dr_clean acc = [] -> dr_violating acc = [] ->
        dr_clean (foldl f acc l) = [] /\ dr_violating (foldl f acc l) = []) as Hgen end.
    { induction (cl_looked_at cl) as [|i l IH]; intros acc H1 H2; [done|]. cbn [foldl]. apply IH.
      - unfold checkNode. destruct (_ !! _); [|done]. destruct (SelectVictims _ _ _ _) as [[? ?] ?].
        destruct (_ && _); [|done]. by case_bool_decide; cbn; rewrite ?H1.
      - unfold checkNode. destruct (_ !! _); [|done]. destruct (SelectVictims _ _ _ _) as [[? ?] ?].
        destruct (_ && _); [|done]. by case_bool_decide; cbn; rewrite ?H2. }
    destruct (Hgen {| dr_clean := []; dr_violating := []; dr_errors := 0 |} eq_refl eq_refl) as [-> ->]. done. }
  destruct (findCandidates _ _ _ _) as [[cs err] cleared]. cbn in Hc. subst cs. by destruct err.
Qed.

(** The same node, with half of the nodes and no fewer than none asked for. *)
Lemma no_candidates_no_preemption_witness :
  pr_status (tolerating_run {| Toleration.MinCandidateNodesPercentage := 50;
                               Toleration.MinCandidateNodesAbsolute := 0 |}) <> NewStatus Success.
Proof.
  eapply (no_candidates_no_preemption (fun _ l => rev l) 0 (fun _ _ => false)
      (fun _ => TolerationClaims.TolDemo.fits) (fun _ => None) (TolerationClaims.TolDemo.classes "3600")
      TolerationClaims.TolDemo.accept TolerationClaims.TolDemo.accept
      {| Toleration.MinCandidateNodesPercentage := 50; Toleration.MinCandidateNodesAbsolute := 0 |}
      (fun _ => 0) Toleration.Second
      (EvalDemo.cluster (TolerationClaims.TolDemo.pod "p" 1000 "" [])
         [{| pn_name := "n1"; pn_pods := TolerationClaims.TolDemo.node_pods |}]));
    first [reflexivity | cbn; lia | vm_compute; reflexivity | vm_compute; discriminate].
Defined.
