(* ===== verification/Scoring.v ===== *)
(** * Small plugins: allocatable scoring, pod-state scoring, QoS order

    [pkg/noderesources/allocatable.go] with [resource_allocation.go],
    [pkg/podstate/pod_state.go] and [pkg/qos/queue_sort.go] of
    [scheduler-plugins]. A node's allocatable and requested amounts are the
    framework's resource vectors; which names are scalar resources and the QoS
    class of a pod ([v1qos.GetPodQOS]) are parameters. *)

From S2P Require Import Prelude.
From S2P Require Import KubeTypes.
From S2P Require Import Framework.
From S2P Require Import Resource.
From S2P Require Import Capacity.

Definition MinInt64' : Z := -9223372036854775807.   (* -math.MaxInt64 *)
Definition MaxInt64 : Z := 9223372036854775807.

(** Both plugins normalise with the same code. *)
Definition lowest_highest (scores : NodeScoreList) : Z * Z :=
  foldl (fun lh n =>
    let '(lowest, highest) := lh in
    (if ns_score n <? lowest then ns_score n else lowest,
     if highest <? ns_score n then ns_score n else highest)) (MaxInt64, MinInt64') scores.

Definition rescale (lowest oldRange score : Z) : Z :=
  if bool_decide (oldRange = 0) then MinNodeScore
  else (score -! lowest) *! (MaxNodeScore -! MinNodeScore) /! oldRange +! MinNodeScore.

Definition NormalizeScore (scores : NodeScoreList) : NodeScoreList :=
  let '(lowest, highest) := lowest_highest scores in
  let oldRange := highest -! lowest in
  (fun n => with_score n (rescale lowest oldRange (ns_score n))) <$> scores.

(** ** NodeResourcesAllocatable *)

Inductive ModeType := Least | Most | OtherMode.

Definition resourceToWeightMap : Type := gmap string Z.

Definition defaultResourcesToWeightMap : resourceToWeightMap :=
  {[ ResourceMemory := 1; ResourceCPU := 1048576 ]}.

Definition DefaultMilliCPURequest : Z := 100.
Definition DefaultMemoryRequest : Z := 209715200.

(** [schedutil.GetRequestForResource] with nonZero. *)
Definition GetRequestForResource (resource : string) (requests : ResourceList) : Quantity :=
  match requests !! resource with
  | Some q => q
  | None =>
      if bool_decide (resource = ResourceCPU) then NewMilliQuantity DefaultMilliCPURequest
      else if bool_decide (resource = ResourceMemory) then NewQuantity DefaultMemoryRequest
      else 0
  end.

Definition calculatePodResourceRequest (pod : Pod) (resource : string) : Z :=
  let podRequest := foldl (fun s c => s +! Value (GetRequestForResource resource c)) 0
                      (spec_containers (pod_spec pod)) in
  let podRequest := foldl (fun s c =>
      let value := Value (GetRequestForResource resource c) in
      if s <? value then value else s) podRequest (spec_init_containers (pod_spec pod)) in
  match spec_overhead (pod_spec pod) with
  | Some overhead =>
      match overhead !! resource with
      | Some q => podRequest +! Value q
      | None => podRequest
      end
  | None => podRequest
  end.

(** The amounts of the framework's [NodeInfo] the scorers read. *)
Record NodeAmounts := {
  na_has_node : bool;
  na_allocatable : Resource;
  na_requested : Resource;
  na_nonzero : Resource;
}.

Section Allocatable.
Variable isScalar : string -> bool.

(** The allocatable amount of a resource and what is requested of it. *)
Definition calculateResourceAllocatableRequest (n : NodeAmounts) (pod : Pod) (resource : string) : Z * Z :=
  let podRequest := calculatePodResourceRequest pod resource in
  if bool_decide (resource = ResourceCPU) then
    (MilliCPU (na_allocatable n), MilliCPU (na_nonzero n) +! podRequest)
  else if bool_decide (resource = ResourceMemory) then
    (Memory (na_allocatable n), Memory (na_nonzero n) +! podRequest)
  else if bool_decide (resource = ResourceEphemeralStorage) then
    (EphemeralStorage (na_allocatable n), EphemeralStorage (na_requested n) +! podRequest)
  else if isScalar resource then
    (scalar (na_allocatable n) resource, scalar (na_requested n) resource +! podRequest)
  else (0, 0).

(** [score] of allocatable.go. *)
Definition mode_score (capacity : Z) (mode : ModeType) : Z :=
  match mode with Least => -1 *! capacity | Most => capacity | OtherMode => 0 end.

(** The loop over the weights: the weighted score and the sum of weights. The
    division panics when the weights sum to 0. *)
Definition resourceScorer (weights : resourceToWeightMap) (mode : ModeType) (allocatable : gmap string Z)
    : option Z :=
  let '(nodeScore, weightSum) := map_fold (fun resource weight acc =>
      let '(nodeScore, weightSum) := acc in
      (nodeScore +! mode_score (default 0 (allocatable !! resource)) mode *! weight, weightSum +! weight))
    (0, 0) weights in
  if bool_decide (weightSum = 0) then None else Some (nodeScore /! weightSum).

(** [score] of resource_allocation.go: the outer [None] is the panic. A nil map
    of weights is [None]. *)
Definition alloc_score (weights : option resourceToWeightMap) (mode : ModeType) (pod : Pod)
    (n : NodeAmounts) : option (Z * FStatus) :=
  if negb (na_has_node n) then Some (0, NewStatus CodeError)
  else
    match weights with
    | None => Some (0, NewStatus CodeError)
    | Some weights =>
        let allocatable := map_imap (fun r _ => Some (calculateResourceAllocatableRequest n pod r).1) weights in
        (fun s => (s, NewStatus Success)) <$> resourceScorer weights mode allocatable
    end.

(** [Score]: the snapshot's answer for the node is an argument. *)
Definition alloc_Score (weights : option resourceToWeightMap) (mode : ModeType) (pod : Pod)
    (node : result NodeAmounts) : option (Z * FStatus) :=
  match node with
  | Err _ => Some (0, NewStatus CodeError)
  | Ok n => alloc_score weights mode pod n
  end.
End Allocatable.

Record NodeResourcesAllocatableArgs := { ra_mode : option ModeType; ra_resources : list (string * Z) }.

Definition validateResources (resources : list (string * Z)) : bool :=
  forallb (fun rw => 0 <? rw.2) resources.

(** The mode and the weights [NewAllocatable] builds; [None] is an error. No
    arguments at all give the defaults. *)
Definition NewAllocatable (args : option NodeResourcesAllocatableArgs)
    : option (ModeType * resourceToWeightMap) :=
  match args with
  | None => Some (Least, defaultResourcesToWeightMap)
  | Some a =>
      match ra_mode a with
      | Some OtherMode => None
      | m =>
          let mode := default Least m in
          match ra_resources a with
          | [] => Some (mode, defaultResourcesToWeightMap)
          | rs =>
              if validateResources rs
              then Some (mode, foldl (fun m rw => <[rw.1 := rw.2]> m) ∅ rs)
              else None
          end
      end
  end.

(** ** PodState *)

(** The pods of the node and how many are nominated to it. *)
Definition state_score (nominated : nat) (pods : list Pod) : Z :=
  foldl (fun s p => if pod_terminating p then s +! 1 else s) 0 pods -! Z.of_nat nominated.

Definition state_Score (nominated : nat) (node : result (list Pod)) : Z * FStatus :=
  match node with
  | Err _ => (0, NewStatus CodeError)
  | Ok pods => (state_score nominated pods, NewStatus Success)
  end.

(** ** QOSSort *)

Inductive PodQOSClass := Guaranteed | Burstable | BestEffort.

#[export] Instance PodQOSClass_eq_dec : EqDecision PodQOSClass.
Proof. solve_decision. Defined.

Section QOS.
Variable GetPodQOS : Pod -> PodQOSClass.

Definition compQOS (p1 p2 : Pod) : bool :=
  let p1QOS := GetPodQOS p1 in
  let p2QOS := GetPodQOS p2 in
  if bool_decide (p1QOS = Guaranteed) then true
  else if bool_decide (p1QOS = Burstable) then bool_decide (p2QOS <> Guaranteed)
  else bool_decide (p2QOS = BestEffort).

Definition qos_less (p1 p2 : Pod) : bool :=
  (PodPriority p2 <? PodPriority p1) ||
  (bool_decide (PodPriority p1 = PodPriority p2) && compQOS p1 p2).
End QOS.
