(* ===== verification/ScoringClaims.v ===== *)
(** * Properties of the small scoring plugins and the QoS order *)

From S2P Require Import Prelude.
From S2P Require Import KubeTypes.
From S2P Require Import Framework.
From S2P Require Import Resource.
From S2P Require Import Capacity.
From S2P Require Import Scoring.

(** ** Normalisation *)

Lemma lowest_highest_spec scores lo : scores <> [] -> in_int64 (lo - 1) -> in_int64 (lo + 92233720368547758) ->
  (forall n, n ∈ scores -> lo <= ns_score n <= lo + 92233720368547758) ->
  let lh := lowest_highest scores in
  (forall n, n ∈ scores -> lh.1 <= ns_score n <= lh.2) /\
  (exists n, n ∈ scores /\ ns_score n = lh.1) /\ (exists n, n ∈ scores /\ ns_score n = lh.2).
Proof.
  intros Hne Hlo Hhi Hb lh. unfold in_int64 in Hlo, Hhi.
  destruct (minmax_fold scores MaxInt64 MinInt64') as (_ & Hall & Hmin & Hmax).
  fold (lowest_highest scores) in *. fold lh in Hall, Hmin, Hmax. split; [done|].
  destruct scores as [|n scores]; [done|]. pose proof (Hb n ltac:(left)). pose proof (Hall n ltac:(left)).
  unfold MaxInt64, MinInt64' in *.
  split; [destruct Hmin as [E|?]|destruct Hmax as [E|?]]; try done; exists n; (split; [left|lia]).
Qed.

(** When the raw scores lie within 2^63/100 of each other the normalised
    ones are exact: each node gets the integer part of its share of the range, in
    0 to 100, the lowest gets 0, the highest 100 when they differ, and the order
    of the nodes is kept; equal scores all become 0. *)
Theorem rescale_exact scores lo :
  scores <> [] -> in_int64 (lo - 1) -> in_int64 (lo + 92233720368547758) ->
  (forall n, n ∈ scores -> lo <= ns_score n <= lo + 92233720368547758) ->
  let '(lowest, highest) := lowest_highest scores in
  let f := fun x => if bool_decide (highest = lowest) then 0 else (x - lowest) * 100 / (highest - lowest) in
  NormalizeScore scores = (fun n => with_score n (f (ns_score n))) <$> scores /\
  (forall n, n ∈ scores -> 0 <= f (ns_score n) <= 100) /\
  f lowest = 0 /\ (lowest <> highest -> f highest = 100) /\
  (forall x y, x <= y -> f x <= f y).
Proof.
  intros Hne Hlo Hhi Hb. destruct (lowest_highest_spec scores lo Hne Hlo Hhi Hb) as (Hall & Hl & Hh).
  unfold NormalizeScore. destruct (lowest_highest scores) as [l h]. cbn [fst snd] in Hall, Hl, Hh.
  destruct Hl as (nl & Hnl & El), Hh as (nh & Hnh & Eh).
  pose proof (Hb nl Hnl). pose proof (Hb nh Hnh). pose proof (Hall nl Hnl). unfold in_int64 in *.
  assert (h -! l = h - l) as Hrange by (apply sub64_exact; unfold in_int64; lia).
  set (f := fun x => if bool_decide (h = l) then 0 else (x - l) * 100 / (h - l)). cbn zeta. fold f.
  assert (Hf : forall x, l <= x <= h -> 0 <= f x <= 100).
  { intros x Hx. unfold f. case_bool_decide; [lia|]. split; [apply Z.div_pos; lia|].
    apply Z.div_le_upper_bound; lia. }
  split_and!.
  - apply list_fmap_ext. intros i n Hi. f_equal. apply list_elem_of_lookup_2 in Hi.
    pose proof (Hall n Hi) as Hn. specialize (Hf _ Hn). rewrite Hrange. unfold rescale, f in *.
    destruct (decide (h = l)) as [->|Hd]; [by rewrite Z.sub_diag, !bool_decide_true|].
    rewrite !bool_decide_false in * by lia. unfold MinNodeScore, MaxNodeScore.
    rewrite (sub64_exact (ns_score n) l) by (unfold in_int64; lia).
    change (100 -! 0) with 100. unfold mul64, div64. rewrite (int64_id (_ * 100)) by (unfold in_int64; lia).
    rewrite Z.quot_div_nonneg by lia. rewrite (int64_id (_ / _)) by (unfold in_int64; lia).
    rewrite add64_exact by (unfold in_int64; lia). lia.
  - intros n Hn. by apply Hf, Hall.
  - unfold f. case_bool_decide; [done|]. by rewrite Z.sub_diag.
  - intros Hd. unfold f. rewrite bool_decide_false by congruence. rewrite Z.mul_comm, Z.div_mul by lia. done.
  - intros x y Hxy. unfold f. case_bool_decide; [lia|]. apply Z.div_le_mono; lia.
Qed.

Lemma rescale_exact_witness :
  ns_score <$> NormalizeScore
    [{| ns_name := "n1"; ns_score := -8 |}; {| ns_name := "n2"; ns_score := -2 |};
     {| ns_name := "n3"; ns_score := -4 |}] = [0; 100; 66].
Proof.
  destruct (rescale_exact
    [{| ns_name := "n1"; ns_score := -8 |}; {| ns_name := "n2"; ns_score := -2 |};
     {| ns_name := "n3"; ns_score := -4 |}] (-8)) as (H & _).
  - discriminate.
  - unfold in_int64. lia.
  - unfold in_int64. lia.
  - intros n Hn. repeat (apply elem_of_cons in Hn as [->|Hn]; [cbn; lia|]). by apply not_elem_of_nil in Hn.
  - rewrite H. by vm_compute.
Defined.

(** ** The weighted average *)

Definition weighted (mode : ModeType) (allocatable weights : gmap string Z) : Z :=
  sumZ (fun rw => mode_score (default 0 (allocatable !! rw.1)) mode * rw.2) (map_to_list weights).
Definition total_weight (weights : gmap string Z) : Z := sumZ snd (map_to_list weights).

Lemma resourceScorer_sums weights mode allocatable :
  resourceScorer weights mode allocatable =
  (if bool_decide (int64 (total_weight weights) = 0) then None
   else Some (int64 (weighted mode allocatable weights) /! int64 (total_weight weights))).
Proof.
  unfold resourceScorer, resourceToWeightMap in *. rewrite map_fold_foldr.
  assert (forall l : list (string * Z),
    foldr (fun rw acc => let '(nodeScore, weightSum) := acc in
      (nodeScore +! mode_score (default 0 (allocatable !! rw.1)) mode *! rw.2, weightSum +! rw.2)) (0, 0) l
    = (int64 (sumZ (fun rw => mode_score (default 0 (allocatable !! rw.1)) mode * rw.2) l),
       int64 (sumZ snd l))) as Hl.
  { induction l as [|[r w] l IH]; [done|]. cbn [foldr]. rewrite IH, !sumZ_cons. cbn [fst snd].
    unfold mul64. f_equal; int64_ring. }
  specialize (Hl (map_to_list weights)).
  replace (foldr (uncurry _) (0, 0) (map_to_list weights)) with
    (int64 (weighted mode allocatable weights), int64 (total_weight weights)); [done|].
  unfold weighted, total_weight. rewrite <- Hl. clear Hl.
  induction (map_to_list weights) as [|[r w] l IH]; [done|]. cbn [foldr uncurry]. rewrite IH. done.
Qed.

(** What the node has of a resource. *)
Definition allocatable_of (isScalar : string -> bool) (n : NodeAmounts) (r : string) : Z :=
  (calculateResourceAllocatableRequest isScalar n
     {| pod_meta := meta_named "" "" ""; pod_spec := {| spec_node_name := ""; spec_priority := None;
          spec_preempt_never := false; spec_priority_class := ""; spec_scheduler_name := ""; spec_containers := [];
          spec_init_containers := []; spec_overhead := None |};
        pod_status := {| pstatus_phase := PodPhaseUnset; pstatus_nominated := ""; pstatus_start_time := None;
          pstatus_conditions := [] |} |} r).1.

Lemma allocatable_of_pod isScalar n pod r :
  (calculateResourceAllocatableRequest isScalar n pod r).1 = allocatable_of isScalar n r.
Proof.
  unfold allocatable_of, calculateResourceAllocatableRequest. by repeat case_match.
Qed.

(** The sum over the weights, positive for [Most] and negative for [Least]. *)
Definition weighted_capacity (isScalar : string -> bool) (mode : ModeType) (n : NodeAmounts)
    (weights : gmap string Z) : Z :=
  sumZ (fun rw => mode_score (allocatable_of isScalar n rw.1) mode * rw.2) (map_to_list weights).

Lemma NewAllocatable_weights args mode weights : NewAllocatable args = Some (mode, weights) ->
  weights <> ∅ /\ forall r w, weights !! r = Some w -> 0 < w.
Proof.
  assert (Hdef : defaultResourcesToWeightMap <> ∅ /\
    forall r w, defaultResourcesToWeightMap !! r = Some w -> 0 < w).
  { split; [by apply insert_non_empty|]. intros r w Hl. unfold defaultResourcesToWeightMap in Hl.
    apply lookup_insert_Some in Hl as [[_ <-]|[_ Hl]]; [lia|].
    apply lookup_singleton_Some in Hl as [_ <-]. lia. }
  assert (Hfold : forall rs (m : gmap string Z), forallb (fun rw => 0 <? rw.2) rs = true ->
    (forall r w, m !! r = Some w -> 0 < w) -> forall r w,
    foldl (fun m rw => <[rw.1 := rw.2]> m) m rs !! r = Some w -> 0 < w).
  { induction rs as [|[a b] rs IH]; intros m; cbn; [auto|]. rewrite andb_true_iff.
    intros [Hb Hrs] Hm. apply IH; [done|]. intros r w [[_ <-]|[_ Hw]]%lookup_insert_Some; [lia|eauto]. }
  assert (Hne : forall rs (m : gmap string Z), m <> ∅ -> foldl (fun m rw => <[rw.1 := rw.2]> m) m rs <> ∅).
  { induction rs as [|[a b] rs IH]; intros m Hm; [done|]. cbn. apply IH, insert_non_empty. }
  unfold NewAllocatable, validateResources. intros H.
  destruct args as [[m rs]|]; [|injection H as <- <-; exact Hdef]. cbn [ra_mode ra_resources] in H.
  assert (match rs with
          | [] => Some (default Least m, defaultResourcesToWeightMap)
          | _ => if forallb (fun rw => 0 <? rw.2) rs
                 then Some (default Least m, foldl (fun m rw => <[rw.1 := rw.2]> m) ∅ rs) else None
          end = Some (mode, weights)) as H'.
  { destruct m as [[]|]; try done; destruct rs; exact H. }
  destruct rs as [|rw rs]; [injection H' as _ <-; exact Hdef|].
  destruct (forallb _ _) eqn:E; [|done]. injection H' as _ <-. split.
  2:{ apply (Hfold _ ∅ E). intros r w. by rewrite lookup_empty. }
  cbn. apply Hne, insert_non_empty.
Qed.

Lemma total_weight_pos weights : weights <> ∅ -> (forall r w, weights !! r = Some w -> 0 < w) ->
  0 < total_weight weights.
Proof.
  intros Hne Hpos. unfold total_weight.
  assert (forall rw, rw ∈ map_to_list weights -> 0 < rw.2) as Hall.
  { intros [r w] Hrw%elem_of_map_to_list. by eapply Hpos. }
  destruct (map_to_list weights) as [|rw l] eqn:E; [by apply map_to_list_empty_iff in E|].
  rewrite sumZ_cons. pose proof (Hall rw ltac:(left)).
  pose proof (sumZ_nonneg snd l ltac:(intros; apply Z.lt_le_incl, Hall; by right)). lia.
Qed.

(** With the weights of any accepted configuration, and as long as the sums
    fit in an int64, a node's score is the weighted average of its allocatable
    amounts, negated for mode Least; in particular it never divides by zero. *)
Theorem allocatable_score_exact isScalar args mode weights pod n :
  NewAllocatable args = Some (mode, weights) -> na_has_node n = true ->
  in_int64 (total_weight weights) -> in_int64 (weighted_capacity isScalar mode n weights) ->
  alloc_score isScalar (Some weights) mode pod n
  = Some (Z.quot (weighted_capacity isScalar mode n weights) (total_weight weights), NewStatus Success).
Proof.
  intros Hargs Hn Hw Hc. destruct (NewAllocatable_weights _ _ _ Hargs) as [Hne Hpos].
  pose proof (total_weight_pos _ Hne Hpos) as Htot.
  unfold alloc_score. rewrite Hn. cbn [negb]. rewrite resourceScorer_sums.
  rewrite (int64_id (total_weight weights)) by done. rewrite bool_decide_false by lia. cbn [fmap option_fmap option_map].
  assert (weighted mode (map_imap (fun r _ =>
      Some (calculateResourceAllocatableRequest isScalar n pod r).1) weights) weights
    = weighted_capacity isScalar mode n weights) as ->.
  { unfold weighted, weighted_capacity. apply sumZ_ext. intros [r w] Hrw%elem_of_map_to_list. cbn [fst snd].
    rewrite map_lookup_imap, Hrw. cbn. by rewrite allocatable_of_pod. }
  rewrite int64_id by done. f_equal. f_equal. unfold div64. apply int64_id.
  unfold in_int64 in *. set (c := weighted_capacity isScalar mode n weights) in *.
  set (t := total_weight weights) in *.
  assert (Hq : forall d, 0 <= d -> 0 <= Z.quot d t <= d).
  { intros d Hd. rewrite Z.quot_div_nonneg by lia. split; [by apply Z.div_pos|].
    apply Z.div_le_upper_bound; nia. }
  destruct (decide (0 <= c)); [specialize (Hq c); lia|].
  specialize (Hq (- c)). rewrite Z.quot_opp_l in Hq by lia. lia.
Qed.

Lemma allocatable_score_exact_witness :
  alloc_score (fun _ => false) (Some defaultResourcesToWeightMap) Least
    (Build_Pod (meta_named "" "" "")
       (Build_PodSpec "" None false "" "" [] [] None) (Build_PodStatus PodPending "" None []))
    {| na_has_node := true; na_allocatable := {| MilliCPU := 4000; Memory := 8589934592;
         EphemeralStorage := 0; AllowedPodNumber := 0; ScalarResources := ∅ |};
       na_requested := zero_resource; na_nonzero := zero_resource |}
  = Some (-12191, NewStatus Success).
Proof.
  rewrite (allocatable_score_exact (fun _ => false) None Least defaultResourcesToWeightMap).
  - by vm_compute.
  - done.
  - done.
  - apply (bool_decide_unpack _). vm_compute. exact I.
  - apply (bool_decide_unpack _). vm_compute. exact I.
Defined.

(** Weights have no upper bound: four resources of weight 2^62 pass the
    validation, their sum wraps to 0, and scoring any node divides by zero. *)
Theorem huge_weights_panic :
  let args := {| ra_mode := Some Most;
    ra_resources := [("cpu", 2 ^ 62); ("memory", 2 ^ 62); ("nvidia.com/gpu", 2 ^ 62); ("hugepages-1Gi", 2 ^ 62)] |} in
  exists weights, NewAllocatable (Some args) = Some (Most, weights) /\
  forall isScalar pod n, na_has_node n = true -> alloc_score isScalar (Some weights) Most pod n = None.
Proof.
  intros args. eexists. split; [reflexivity|]. intros isScalar pod n Hn. unfold alloc_score. rewrite Hn.
  cbn [negb]. rewrite resourceScorer_sums. by rewrite bool_decide_true by (by vm_compute).
Qed.

(** ** The QoS order *)

Definition qos_rank (q : PodQOSClass) : Z :=
  match q with Guaranteed => 2 | Burstable => 1 | BestEffort => 0 end.

(** The order ranks by priority and then by QoS class, and holds both ways
    between pods that agree on both: it is total and transitive, but a pod comes
    before itself, and the time of arrival plays no part. *)
Theorem qos_order_exact GetPodQOS p q r :
  let less := qos_less GetPodQOS in
  (less p q = true <-> PodPriority q < PodPriority p \/
     (PodPriority p = PodPriority q /\ qos_rank (GetPodQOS q) <= qos_rank (GetPodQOS p))) /\
  (less p q = true \/ less q p = true) /\
  (less p q = true -> less q r = true -> less p r = true) /\ less p p = true.
Proof.
  intros less.
  assert (Hless : forall p q, less p q = true <-> PodPriority q < PodPriority p \/
     (PodPriority p = PodPriority q /\ qos_rank (GetPodQOS q) <= qos_rank (GetPodQOS p))).
  { intros a b. unfold less, qos_less, compQOS. rewrite orb_true_iff, andb_true_iff, Z.ltb_lt.
    rewrite bool_decide_eq_true.
    destruct (GetPodQOS a), (GetPodQOS b); cbn; intuition (done || lia). }
  split; [apply Hless|]. rewrite !Hless. split_and!; lia.
Qed.

(** ** Pod states *)

(** A node's raw score is the number of its terminating pods less the number
    of pods nominated to it. *)
Theorem state_score_exact nominated pods :
  Z.of_nat (length pods) < 4611686018427387904 -> Z.of_nat nominated < 4611686018427387904 ->
  state_score nominated pods
  = Z.of_nat (length (filter (fun p => is_Some (meta_deletion (pod_meta p))) pods)) - Z.of_nat nominated.
Proof.
  intros Hp Hn. unfold state_score.
  assert (forall l s, 0 <= s -> s + Z.of_nat (length l) < 4611686018427387904 ->
    foldl (fun s p => if pod_terminating p then s +! 1 else s) s l
    = s + Z.of_nat (length (filter (fun p => is_Some (meta_deletion (pod_meta p))) l))) as Hl.
  { induction l as [|p l IH]; intros s Hs Hlen; [cbn; lia|]. cbn [foldl length] in *.
    unfold pod_terminating at 2. case_bool_decide as Hd.
    - rewrite filter_cons_True by done. rewrite add64_exact by (unfold in_int64; lia).
      rewrite IH by lia. cbn [length]. lia.
    - rewrite filter_cons_False by done. apply IH; lia. }
  rewrite Hl by lia. pose proof (length_filter (fun p => is_Some (meta_deletion (pod_meta p))) pods).
  rewrite sub64_exact by (unfold in_int64; lia). lia.
Qed.
