(* ===== verification/NumaTopology.v ===== *)
(** * NUMA-aware filtering: topology objects and the admission of pods

    [pkg/noderesourcetopology] of [scheduler-plugins]: [nodeconfig/
    topologymanager.go], [resourcerequests/exclusive.go], [numaresources.go],
    [pluginhelpers.go] and the handlers of [filter.go], with
    [GetPodEffectiveRequest] of [pkg/util/resource.go] and the bit mask the
    kubelet uses ([vendor/.../topologymanager/bitmask]).

    [NUMANode.Resources] is a map that each NUMA node of a list owns alone
    ([extractResources] makes one per zone), so writing to it in place is
    replacing the node in the list. An index out of range is a panic, [None].
    The QoS class of a pod and the classes of resource names are parameters. *)

From S2P Require Import Prelude.
From S2P Require Import KubeTypes.
From S2P Require Import Framework.
From S2P Require Import Resource.
From S2P Require Import Scoring.

(** ** The topology object ([noderesourcetopology-api]) *)

Record ResourceInfo := {
  ri_name : string; ri_capacity : Quantity; ri_allocatable : Quantity; ri_available : Quantity }.
Record CostInfo := { cost_name : string; cost_value : Z }.
Record Zone := {
  zone_name : string; zone_type : string;
  zone_costs : list CostInfo; zone_resources : list ResourceInfo }.
Record AttributeInfo := { attr_name : string; attr_value : string }.
Record NodeResourceTopology := {
  nrt_name : string;
  nrt_annotations : gmap string string;
  nrt_policies : list string;
  nrt_zones : list Zone;
  nrt_attributes : list AttributeInfo }.

Definition with_available (r : ResourceInfo) (q : Quantity) : ResourceInfo := {|
  ri_name := ri_name r; ri_capacity := ri_capacity r; ri_allocatable := ri_allocatable r;
  ri_available := q |}.
Definition with_resources (z : Zone) (rs : list ResourceInfo) : Zone := {|
  zone_name := zone_name z; zone_type := zone_type z; zone_costs := zone_costs z;
  zone_resources := rs |}.
Definition with_zones (n : NodeResourceTopology) (zs : list Zone) : NodeResourceTopology := {|
  nrt_name := nrt_name n; nrt_annotations := nrt_annotations n; nrt_policies := nrt_policies n;
  nrt_zones := zs; nrt_attributes := nrt_attributes n |}.

#[export] Instance ResourceInfo_eq_dec : EqDecision ResourceInfo.
Proof. solve_decision. Defined.
#[export] Instance CostInfo_eq_dec : EqDecision CostInfo.
Proof. solve_decision. Defined.
#[export] Instance Zone_eq_dec : EqDecision Zone.
Proof. solve_decision. Defined.
#[export] Instance AttributeInfo_eq_dec : EqDecision AttributeInfo.
Proof. solve_decision. Defined.
#[export] Instance NodeResourceTopology_eq_dec : EqDecision NodeResourceTopology.
Proof. solve_decision. Defined.

(** [numanode.NameToID]; [None] is the error. *)
Definition canonicalPrefix : string := "node-".

Definition CutPrefix (s p : string) : option string :=
  if String.prefix p s
  then Some (String.substring (String.length p) (String.length s - String.length p) s)
  else None.

Definition NameToID (node : string) : option Z :=
  numaIDStr ← CutPrefix node canonicalPrefix;
  numaID ← Atoi numaIDStr;
  if numaID <? 0 then None else Some numaID.

(** ** The configuration of the kubelet's topology manager *)

Module nodeconfig.

Definition ContainerTopologyManagerScope : string := "container".
Definition PodTopologyManagerScope : string := "pod".
Definition NoneTopologyManagerPolicy : string := "none".
Definition BestEffortTopologyManagerPolicy : string := "best-effort".
Definition RestrictedTopologyManagerPolicy : string := "restricted".
Definition SingleNumaNodeTopologyManagerPolicy : string := "single-numa-node".

Definition AttributeScope : string := "topologyManagerScope".
Definition AttributePolicy : string := "topologyManagerPolicy".

Definition IsValidScope (scope : string) : bool :=
  bool_decide (scope = ContainerTopologyManagerScope) || bool_decide (scope = PodTopologyManagerScope).

Definition IsValidPolicy (policy : string) : bool :=
  bool_decide (policy = NoneTopologyManagerPolicy) ||
  bool_decide (policy = BestEffortTopologyManagerPolicy) ||
  bool_decide (policy = RestrictedTopologyManagerPolicy) ||
  bool_decide (policy = SingleNumaNodeTopologyManagerPolicy).

Record TopologyManager := { Scope : string; Policy : string }.

#[export] Instance TopologyManager_eq_dec : EqDecision TopologyManager.
Proof. solve_decision. Defined.

Definition TopologyManagerDefaults : TopologyManager :=
  {| Scope := ContainerTopologyManagerScope; Policy := NoneTopologyManagerPolicy |}.

Definition Equal (conf other : TopologyManager) : bool :=
  if bool_decide (Scope conf <> Scope other) then false
  else if bool_decide (Policy conf <> Policy other) then false
  else true.

Definition update_attribute (conf : TopologyManager) (attr : AttributeInfo) : TopologyManager :=
  if bool_decide (attr_name attr = AttributeScope) && IsValidScope (attr_value attr) then
    {| Scope := attr_value attr; Policy := Policy conf |}
  else if bool_decide (attr_name attr = AttributePolicy) && IsValidPolicy (attr_value attr) then
    {| Scope := Scope conf; Policy := attr_value attr |}
  else conf.

Definition updateFromAttributes (conf : TopologyManager) (attrs : list AttributeInfo) : TopologyManager :=
  foldl update_attribute conf attrs.

(** The cases of the switch over the first policy. *)
Definition policy_table : list (string * TopologyManager) := [
  ("SingleNUMANodePodLevel",
    {| Policy := SingleNumaNodeTopologyManagerPolicy; Scope := PodTopologyManagerScope |});
  ("SingleNUMANodeContainerLevel",
    {| Policy := SingleNumaNodeTopologyManagerPolicy; Scope := ContainerTopologyManagerScope |});
  ("BestEffortPodLevel",
    {| Policy := BestEffortTopologyManagerPolicy; Scope := PodTopologyManagerScope |});
  ("BestEffortContainerLevel",
    {| Policy := BestEffortTopologyManagerPolicy; Scope := ContainerTopologyManagerScope |});
  ("RestrictedPodLevel",
    {| Policy := RestrictedTopologyManagerPolicy; Scope := PodTopologyManagerScope |});
  ("RestrictedContainerLevel",
    {| Policy := RestrictedTopologyManagerPolicy; Scope := ContainerTopologyManagerScope |})].

Definition switch (policyName : string) (conf : TopologyManager) : TopologyManager :=
  match filter (fun c => c.1 = policyName) policy_table with
  | c :: _ => c.2
  | [] => conf
  end.

Definition updateFromPolicies (conf : TopologyManager) (topologyPolicies : list string) : TopologyManager :=
  match topologyPolicies with
  | [] => conf
  | p :: _ => switch p conf
  end.

Definition TopologyManagerFromNodeResourceTopology (nrt : NodeResourceTopology) : TopologyManager :=
  updateFromAttributes (updateFromPolicies TopologyManagerDefaults (nrt_policies nrt)) (nrt_attributes nrt).

End nodeconfig.

(** ** Bit masks

    [bitMask] is a uint64. [Add] refuses a bit outside 0-63, and its callers
    drop the error. *)

Definition bm_empty : Z := 0.
Definition bm_fill : Z := 18446744073709551615.
Definition bm_add (mask i : Z) : Z :=
  if (i <? 0) || (64 <=? i) then mask else Z.lor mask (Z.shiftl 1 i).
Definition bm_and (a b : Z) : Z := Z.land a b.
Definition IsEmpty (mask : Z) : bool := bool_decide (mask = 0).
Definition GetBits (mask : Z) : list Z :=
  filter (fun i => 0 < Z.land mask (Z.shiftl 1 i)) (Z.of_nat <$> seq 0 64).
(** [bits.OnesCount64]. *)
Definition Count (mask : Z) : Z := Z.of_nat (length (GetBits mask)).

(** ** Requests of a pod *)

(** [GetPodEffectiveRequest]: the ranges over the maps of a container are
    folds; each name is written once per container. *)
Definition init_entry (name : string) (quantity : Quantity) (rs : ResourceList) : ResourceList :=
  match rs !! name with
  | Some q => if quantity <=? q then rs else <[name := quantity]> rs
  | None => <[name := quantity]> rs
  end.

Definition sum_entry (name : string) (quantity : Quantity) (rs : ResourceList) : ResourceList :=
  match rs !! name with
  | Some q => <[name := quantity + q]> rs
  | None => <[name := quantity]> rs
  end.

Definition GetPodEffectiveRequest (pod : Pod) : ResourceList :=
  let initResources := foldl (fun rs c => map_fold init_entry rs c) ∅ (spec_init_containers (pod_spec pod)) in
  let resources := foldl (fun rs c => map_fold sum_entry rs c) ∅ (spec_containers (pod_spec pod)) in
  map_fold init_entry resources initResources.

(** ** NUMA nodes *)

Record NUMANode := { NUMAID : Z; Resources : ResourceList; Costs : gmap Z Z }.

#[export] Instance NUMANode_eq_dec : EqDecision NUMANode.
Proof. solve_decision. Defined.

Abbreviation NUMANodeList := (list NUMANode).

Definition WithCosts (n : NUMANode) (costs : gmap Z Z) : NUMANode :=
  {| NUMAID := NUMAID n; Resources := Resources n; Costs := costs |}.
Definition WithResources (n : NUMANode) (rs : ResourceList) : NUMANode :=
  {| NUMAID := NUMAID n; Resources := rs; Costs := Costs n |}.

Definition highestNUMAID : Z := 8.
Definition maxNUMAId : Z := 64.

Definition extractCosts (costs : list CostInfo) : gmap Z Z :=
  foldl (fun m c =>
    match NameToID (cost_name c) with
    | Some numaID => if maxNUMAId <? numaID then m else <[numaID := cost_value c]> m
    | None => m
    end) ∅ costs.

Definition extractResources (zone : Zone) : ResourceList :=
  foldl (fun m r => <[ri_name r := ri_available r]> m) ∅ (zone_resources zone).

(** The first loop of [createNUMANodeList]: [ids] is [numaIDToZoneIDx], a slice
    of length 64, and writing to it at 64 panics. *)
Fixpoint collect_nodes (i : nat) (zones : list Zone) (ids : list nat) (nodes : NUMANodeList)
    : option (list nat * NUMANodeList) :=
  match zones with
  | [] => Some (ids, nodes)
  | zone :: rest =>
      if bool_decide (zone_type zone <> "Node") then collect_nodes (S i) rest ids nodes
      else
        match NameToID (zone_name zone) with
        | None => collect_nodes (S i) rest ids nodes
        | Some numaID =>
            if maxNUMAId <? numaID then collect_nodes (S i) rest ids nodes
            else if bool_decide (Z.of_nat (length ids) <= numaID) then None
            else collect_nodes (S i) rest (<[Z.to_nat numaID := i]> ids)
                   (nodes ++ [{| NUMAID := numaID; Resources := extractResources zone; Costs := ∅ |}])
        end
  end.

Definition createNUMANodeList (zones : list Zone) : option NUMANodeList :=
  '(ids, nodes) ← collect_nodes 0 zones (replicate 64 0%nat) [];
  mapM (fun n =>
    i ← ids !! Z.to_nat (NUMAID n);
    zone ← zones !! i;
    Some (WithCosts n (extractCosts (zone_costs zone)))) nodes.

Section Numa.
Variables IsNativeResource IsHugePageResourceName : string -> bool.

Definition isHostLevelResource (resource : string) : bool :=
  if bool_decide (resource = ResourceEphemeralStorage) then true
  else if bool_decide (resource = "storage") then true
  else negb (IsNativeResource resource).

Definition isNUMAAffineResource (resource : string) : bool :=
  if bool_decide (resource = ResourceCPU) then true
  else if bool_decide (resource = ResourceMemory) then true
  else IsHugePageResourceName resource.

Definition isResourceSetSuitable (qos : PodQOSClass) (resource : string)
    (quantity numaQuantity : Quantity) : bool :=
  if bool_decide (qos <> Guaranteed) && isNUMAAffineResource resource then true
  else quantity <=? numaQuantity.

(** *** [resourcerequests] *)

Definition requests_non_native (c : ResourceList) : bool :=
  bool_decide (Exists (fun nq => IsNativeResource nq.1 = false) (map_to_list c)).

Definition IncludeNonNative (pod : Pod) : bool :=
  existsb requests_non_native (spec_init_containers (pod_spec pod)) ||
  existsb requests_non_native (spec_containers (pod_spec pod)).

Definition IsExclusive (qos : PodQOSClass) (resource : string) (quantity : Quantity) : bool :=
  if negb (IsNativeResource resource) then true
  else if bool_decide (qos <> Guaranteed) then false
  else if bool_decide (resource = ResourceCPU) &&
          (bool_decide (Value quantity *! 1000 = MilliValue quantity) && (0 <? Value quantity)) then true
  else if (bool_decide (resource = ResourceMemory) || IsHugePageResourceName resource) &&
          (0 <? Value quantity) then true
  else false.

Definition areExclusiveForAnyContainer (qos : PodQOSClass) (containers : list ResourceList) : bool :=
  existsb (fun ctr => existsb (fun nq => IsExclusive qos nq.1 nq.2) (map_to_list ctr)) containers.

(** *** Where a request fits *)

(** The inner loop for one resource: whether some NUMA node reports it, and the
    mask of those with enough. *)
Definition resource_mask (qos : PodQOSClass) (numaNodes : NUMANodeList) (resource : string)
    (quantity : Quantity) : bool * Z :=
  foldl (fun acc numaNode =>
    match Resources numaNode !! resource with
    | None => acc
    | Some numaQuantity =>
        (true, if isResourceSetSuitable qos resource quantity numaQuantity
               then bm_add acc.2 (NUMAID numaNode) else acc.2)
    end) (false, bm_empty) numaNodes.

(** One turn of the range over the request; [None] is the early verdict. *)
Definition mask_turn (nodeResources : ResourceList) (qos : PodQOSClass) (numaNodes : NUMANodeList)
    (resource : string) (quantity : Quantity) (acc : option Z) : option Z :=
  bitmask ← acc;
  if bool_decide (quantity = 0) then Some bitmask
  else
    match nodeResources !! resource with
    | None => None
    | Some _ =>
        let '(hasNUMAAffinity, resourceBitmask) := resource_mask qos numaNodes resource quantity in
        if negb hasNUMAAffinity && isHostLevelResource resource then Some bitmask
        else
          let bitmask := bm_and bitmask resourceBitmask in
          if IsEmpty bitmask then None else Some bitmask
    end.

(** The outer [None] is the panic of [GetBits()[0]]. *)
Definition resourcesAvailableInAnyNUMANodes (numaNodes : NUMANodeList) (resources : ResourceList)
    (qos : PodQOSClass) (allocatable : Resource) : option (Z * bool) :=
  let nodeResources := ResourceListOf allocatable in
  match map_fold (mask_turn nodeResources qos numaNodes) (Some bm_fill) resources with
  | None => Some (highestNUMAID, false)
  | Some bitmask =>
      numaID ← head (GetBits bitmask);
      Some (numaID, negb (IsEmpty bitmask))
  end.

(** One turn of the subtraction; [None] is the returned error. *)
Definition subtract_entry (qos : PodQOSClass) (resName : string) (resQty : Quantity)
    (acc : option ResourceList) : option ResourceList :=
  rs ← acc;
  if bool_decide (qos <> Guaranteed) && isNUMAAffineResource resName then Some rs
  else if bool_decide (resQty = 0) then Some rs
  else
    match rs !! resName with
    | None => Some rs
    | Some nResQ => if nResQ - resQty <? 0 then None else Some (<[resName := nResQ - resQty]> rs)
    end.

Fixpoint subtractResourcesFromNUMANodeList (nodes : NUMANodeList) (numaID : Z) (qos : PodQOSClass)
    (containerRes : ResourceList) : option NUMANodeList :=
  match nodes with
  | [] => Some []
  | node :: rest =>
      if bool_decide (NUMAID node <> numaID)
      then cons node <$> subtractResourcesFromNUMANodeList rest numaID qos containerRes
      else
        rs ← map_fold (subtract_entry qos) (Some (Resources node)) containerRes;
        cons (WithResources node rs) <$> subtractResourcesFromNUMANodeList rest numaID qos containerRes
  end.

(** *** The handlers *)

Section Handlers.
Variable GetPodQOS : Pod -> PodQOSClass.

Fixpoint init_containers_loop (nodes : NUMANodeList) (qos : PodQOSClass) (allocatable : Resource)
    (cs : list ResourceList) : option FStatus :=
  match cs with
  | [] => Some (NewStatus Success)
  | c :: rest =>
      '(_, matches) ← resourcesAvailableInAnyNUMANodes nodes c qos allocatable;
      if negb matches then Some (NewStatus Unschedulable)
      else init_containers_loop nodes qos allocatable rest
  end.

Fixpoint containers_loop (nodes : NUMANodeList) (qos : PodQOSClass) (allocatable : Resource)
    (cs : list ResourceList) : option FStatus :=
  match cs with
  | [] => Some (NewStatus Success)
  | c :: rest =>
      '(numaID, matches) ← resourcesAvailableInAnyNUMANodes nodes c qos allocatable;
      if negb matches then Some (NewStatus Unschedulable)
      else
        match subtractResourcesFromNUMANodeList nodes numaID qos c with
        | None => Some (NewStatus CodeError)
        | Some nodes => containers_loop nodes qos allocatable rest
        end
  end.

Definition singleNUMAContainerLevelHandler (pod : Pod) (zones : list Zone) (allocatable : Resource)
    : option FStatus :=
  nodes ← createNUMANodeList zones;
  let qos := GetPodQOS pod in
  status ← init_containers_loop nodes qos allocatable (spec_init_containers (pod_spec pod));
  if negb (IsSuccess status) then Some status
  else containers_loop nodes qos allocatable (spec_containers (pod_spec pod)).

Definition singleNUMAPodLevelHandler (pod : Pod) (zones : list Zone) (allocatable : Resource)
    : option FStatus :=
  let resources := GetPodEffectiveRequest pod in
  nodes ← createNUMANodeList zones;
  '(_, matches) ← resourcesAvailableInAnyNUMANodes nodes resources (GetPodQOS pod) allocatable;
  if negb matches then Some (NewStatus Unschedulable) else Some (NewStatus Success).

(** [None] is a nil handler: the node is accepted. *)
Definition filterHandlerFromTopologyManager (conf : nodeconfig.TopologyManager)
    : option (Pod -> list Zone -> Resource -> option FStatus) :=
  if bool_decide (nodeconfig.Policy conf <> nodeconfig.SingleNumaNodeTopologyManagerPolicy) then None
  else if bool_decide (nodeconfig.Scope conf = nodeconfig.PodTopologyManagerScope)
  then Some singleNUMAPodLevelHandler
  else if bool_decide (nodeconfig.Scope conf = nodeconfig.ContainerTopologyManagerScope)
  then Some singleNUMAContainerLevelHandler
  else None.

Definition AreExclusiveForPod (pod : Pod) : bool :=
  areExclusiveForAnyContainer (GetPodQOS pod)
    (spec_init_containers (pod_spec pod) ++ spec_containers (pod_spec pod)).
End Handlers.
End Numa.
