(* ===== verification/NumaScore.v ===== *)
(** * NUMA-aware scoring

    [score.go], [least_allocated.go], [most_allocated.go],
    [balanced_allocation.go] and [least_numa.go] of
    [pkg/noderesourcetopology]. A score is an int64; [None] is a panic: a
    division by zero or an index out of range. The statistics of gonum
    ([stat.Mean], [stat.Variance], [combin.Combinations]) are parameters. *)

From Stdlib Require Import SpecFloat.
From S2P Require Import Prelude.
From S2P Require Import GoFloat.
From S2P Require Import KubeTypes.
From S2P Require Import Framework.
From S2P Require Import Resource.
From S2P Require Import Scoring.
From S2P Require Import NumaTopology.

Definition defaultWeight : Z := 1.

Definition weight (rw : resourceToWeightMap) (r : string) : Z :=
  match rw !! r with
  | None => defaultWeight
  | Some w => if w <? 1 then defaultWeight else w
  end.

(** Integer division panics on a zero divisor. *)
Definition quot64 (a b : Z) : option Z := if bool_decide (b = 0) then None else Some (a /! b).

(** An absent resource is the zero quantity. *)
Definition quantity_of (rs : ResourceList) (name : string) : Quantity := default 0 (rs !! name).

Definition scoreStrategyFn : Type := ResourceList -> ResourceList -> resourceToWeightMap -> option Z.

Definition leastAllocatedScore (requested numaCapacity : Quantity) : option Z :=
  if bool_decide (numaCapacity = 0) then Some 0
  else if numaCapacity <? requested then Some 0
  else quot64 ((Value numaCapacity -! Value requested) *! MaxNodeScore) (Value numaCapacity).

Definition mostAllocatedScore (requested numaCapacity : Quantity) : option Z :=
  if bool_decide (numaCapacity = 0) then Some 0
  else if numaCapacity <? requested then Some 0
  else quot64 (Value requested *! MaxNodeScore) (Value numaCapacity).

(** The loop both strategies share. *)
Definition weighted_turn (score : Quantity -> Quantity -> option Z) (allocatable : ResourceList)
    (rw : resourceToWeightMap) (resourceName : string) (requested : Quantity) (acc : option (Z * Z))
    : option (Z * Z) :=
  '(numaNodeScore, weightSum) ← acc;
  resourceScore ← score requested (quantity_of allocatable resourceName);
  let w := weight rw resourceName in
  Some (numaNodeScore +! resourceScore *! w, weightSum +! w).

Definition leastAllocatedScoreStrategy : scoreStrategyFn := fun requested allocatable rw =>
  '(numaNodeScore, weightSum) ←
    map_fold (weighted_turn leastAllocatedScore allocatable rw) (Some (0, 0)) requested;
  quot64 numaNodeScore weightSum.

Definition mostAllocatedScoreStrategy : scoreStrategyFn := fun requested allocatable rw =>
  '(numaNodeScore, weightSum) ←
    map_fold (weighted_turn mostAllocatedScore allocatable rw) (Some (0, 0)) requested;
  quot64 numaNodeScore weightSum.

Definition fractionOfCapacity (requested capacity : Quantity) : spec_float :=
  if bool_decide (Value capacity = 0) then float64 1
  else f64_div (float64 (Value requested)) (float64 (Value capacity)).

Section Statistics.
Variables mean variance : list spec_float -> spec_float.
(** The result of converting a float that is no int64. *)
Variable other : spec_float -> Z.

(** [None] among the fractions is the early return of 0. *)
Definition balancedAllocationScoreStrategy : scoreStrategyFn := fun requested allocatable _ =>
  let resourceFractions := map_fold (fun name q acc =>
    fs ← acc;
    let f := fractionOfCapacity q (quantity_of allocatable name) in
    if SFltb (float64 1) f then None else Some (fs ++ [f])) (Some []) requested in
  match resourceFractions with
  | None => Some 0
  | Some fs => Some (to_int64 other
      (f64_mul (SFsub 53 1024 (float64 1) (variance fs)) (float64 MaxNodeScore)))
  end.

(** The running minimum ignores zero scores; the scores are stored in a slice
    as long as the list, at the index the NUMA ID gives. *)
Definition scoreForEachNUMANode (requested : ResourceList) (numaList : NUMANodeList)
    (score : scoreStrategyFn) (rw : resourceToWeightMap) : option Z :=
  foldl (fun acc numa =>
    minScore ← acc;
    numaScore ← score requested (Resources numa) rw;
    if (NUMAID numa <? 0) || (Z.of_nat (length numaList) <=? NUMAID numa) then None
    else Some (if bool_decide (minScore = 0) ||
                  (negb (bool_decide (numaScore = 0)) && (numaScore <? minScore))
               then numaScore else minScore)) (Some 0) numaList.

Definition podScopeScore (pod : Pod) (zones : list Zone) (scorerFn : scoreStrategyFn)
    (rw : resourceToWeightMap) : option (Z * FStatus) :=
  let resources := GetPodEffectiveRequest pod in
  allocatablePerNUMA ← createNUMANodeList zones;
  finalScore ← scoreForEachNUMANode resources allocatablePerNUMA scorerFn rw;
  Some (finalScore, NewStatus Success).

Definition containerScopeScore (pod : Pod) (zones : list Zone) (scorerFn : scoreStrategyFn)
    (rw : resourceToWeightMap) : option (Z * FStatus) :=
  let containers := spec_init_containers (pod_spec pod) ++ spec_containers (pod_spec pod) in
  allocatablePerNUMA ← createNUMANodeList zones;
  contScore ← mapM (fun c => scoreForEachNUMANode c allocatablePerNUMA scorerFn rw) containers;
  Some (to_int64 other (mean (float64 <$> contScore)), NewStatus Success).
End Statistics.

(** ** The least-NUMA-nodes strategy *)

Definition maxDistanceValue : Z := 255.

Definition onlyNonNUMAResources (numaNodes : NUMANodeList) (resources : ResourceList) : bool :=
  bool_decide (Forall (fun nq => Forall (fun node => Resources node !! nq.1 = None) numaNodes)
    (map_to_list resources)).

Definition normalizeScore (numaNodesCount : Z) (isMinAvgDistance : bool) : Z :=
  let numaNodeScore := MaxNodeScore /! highestNUMAID in
  let score := MaxNodeScore -! numaNodesCount *! numaNodeScore in
  if isMinAvgDistance then score +! numaNodeScore /! 2 else score.

(** A missing cost counts as the largest distance. *)
Definition pair_cost (numaNodes : NUMANodeList) (ij : nat * nat) : option Z :=
  node1 ← numaNodes !! ij.1;
  node2 ← numaNodes !! ij.2;
  Some (default maxDistanceValue (Costs node1 !! NUMAID node2)).

Definition nodesAvgDistance (numaNodes : NUMANodeList) (nodes : list nat) : option spec_float :=
  if bool_decide (nodes = []) then Some (float32 maxDistanceValue)
  else
    costs ← mapM (pair_cost numaNodes) (list_prod nodes nodes);
    Some (f32_div (float32 (foldl add64 0 costs))
            (float32 (Z.of_nat (length nodes) *! Z.of_nat (length nodes)))).

Definition minAvgDistanceInCombinations (numaNodes : NUMANodeList) (combinations : list (list nat))
    : option spec_float :=
  foldl (fun acc combination =>
    minDistance ← acc;
    avgDistance ← nodesAvgDistance numaNodes combination;
    Some (if SFltb avgDistance minDistance then avgDistance else minDistance))
    (Some (float32 maxDistanceValue)) combinations.

Definition combine_entry (resource : string) (quantity : Quantity) (rs : ResourceList) : ResourceList :=
  match rs !! resource with
  | Some value => <[resource := value + quantity]> rs
  | None => <[resource := quantity]> rs
  end.

Definition combineResources (numaNodes : NUMANodeList) (combination : list nat) : option ResourceList :=
  foldl (fun acc nodeIndex =>
    resources ← acc;
    node ← numaNodes !! nodeIndex;
    Some (map_fold combine_entry resources (Resources node))) (Some ∅) combination.

Section LeastNUMA.
Variables IsNativeResource IsHugePageResourceName : string -> bool.
Variable Combinations : nat -> nat -> list (list nat).
Variable GetPodQOS : Pod -> PodQOSClass.

Definition checkResourcesFit (qos : PodQOSClass) (resources combinationResources : ResourceList) : bool :=
  forallb (fun nq => bool_decide (nq.2 = 0) ||
    isResourceSetSuitable IsHugePageResourceName qos nq.1 nq.2 (quantity_of combinationResources nq.1))
    (map_to_list resources).

Definition isValidCombineResources (numaNodes : NUMANodeList) (resources : ResourceList)
    (combination : list nat) : option bool :=
  foldr (fun nodeIndex rest =>
    node ← numaNodes !! nodeIndex;
    if bool_decide (Forall (fun nq => is_Some (Resources node !! nq.1)) (map_to_list resources))
    then rest else Some false) (Some true) combination.

(** The loop of [findSuitableCombination] from the best combination so far. *)
Fixpoint find_loop (qos : PodQOSClass) (numaNodes : NUMANodeList) (resources : ResourceList)
    (minAvgDistance : spec_float) (best : option (list nat)) (minDistance : spec_float)
    (combinations : list (list nat)) : option (option (list nat) * bool) :=
  match combinations with
  | [] => Some (best, false)
  | combination :: rest =>
      valid ← isValidCombineResources numaNodes resources combination;
      if negb valid then find_loop qos numaNodes resources minAvgDistance best minDistance rest
      else
        combinationResources ← combineResources numaNodes combination;
        if checkResourcesFit qos resources combinationResources then
          distance ← nodesAvgDistance numaNodes combination;
          if SFeqb distance minAvgDistance then Some (Some combination, true)
          else if SFltb distance minDistance
          then find_loop qos numaNodes resources minAvgDistance (Some combination) distance rest
          else find_loop qos numaNodes resources minAvgDistance best minDistance rest
        else find_loop qos numaNodes resources minAvgDistance best minDistance rest
  end.

Definition findSuitableCombination (qos : PodQOSClass) (numaNodes : NUMANodeList)
    (resources : ResourceList) (combinations : list (list nat)) : option (option (list nat) * bool) :=
  minAvgDistance ← minAvgDistanceInCombinations numaNodes combinations;
  find_loop qos numaNodes resources minAvgDistance None (float32 256) combinations.

(** The mask of a combination. *)
Definition combination_mask (numaNodes : NUMANodeList) (combination : list nat) : option Z :=
  foldl (fun acc nodeIdx => bm ← acc; node ← numaNodes !! nodeIdx; Some (bm_add bm (NUMAID node)))
    (Some bm_empty) combination.

(** The loop over the sizes of combinations, [todo] of them left. *)
Fixpoint required_loop (qos : PodQOSClass) (numaNodes : NUMANodeList) (resources : ResourceList)
    (bitmaskLen todo : nat) : option (option Z * bool) :=
  match todo with
  | O => Some (None, false)
  | S todo =>
      '(suitableCombination, isMinDistance) ←
        findSuitableCombination qos numaNodes resources (Combinations (length numaNodes) bitmaskLen);
      match suitableCombination with
      | Some c => bm ← combination_mask numaNodes c; Some (Some bm, isMinDistance)
      | None => required_loop qos numaNodes resources (S bitmaskLen) todo
      end
  end.

Definition numaNodesRequired (qos : PodQOSClass) (numaNodes : NUMANodeList) (resources : ResourceList)
    : option (option Z * bool) :=
  required_loop qos numaNodes resources 1 (length numaNodes).

(** One resource of [subtractFromNUMAs]: [nodes] are indices into the list. *)
Fixpoint subtract_over (resName : string) (quantity : Quantity) (numaNodes : NUMANodeList)
    (nodes : list Z) : option NUMANodeList :=
  match nodes with
  | [] => Some numaNodes
  | node :: rest =>
      if bool_decide (quantity = 0) then Some numaNodes
      else
        n ← numaNodes !! Z.to_nat node;
        match Resources n !! resName with
        | None => subtract_over resName quantity numaNodes rest
        | Some available =>
            let put q := <[Z.to_nat node := WithResources n (<[resName := q]> (Resources n))]> numaNodes in
            match Z.compare quantity available with
            | Eq | Gt => subtract_over resName (quantity - available) (put 0) rest
            | Lt => subtract_over resName 0 (put (available - quantity)) rest
            end
        end
  end.

Definition subtractFromNUMAs (resources : ResourceList) (numaNodes : NUMANodeList) (nodes : list Z)
    : option NUMANodeList :=
  map_fold (fun resName quantity acc => l ← acc; subtract_over resName quantity l nodes)
    (Some numaNodes) resources.

(** The loop of the container scope: the largest count and whether every
    container has the least distance. *)
Fixpoint least_loop (qos : PodQOSClass) (nodes : NUMANodeList) (maxNUMANodesCount : Z)
    (allContainersMinAvgDistance : bool) (cs : list ResourceList) : option Z :=
  match cs with
  | [] => Some (if bool_decide (maxNUMANodesCount = 0) then MaxNodeScore
                else normalizeScore maxNUMANodesCount allContainersMinAvgDistance)
  | c :: rest =>
      if onlyNonNUMAResources nodes c
      then least_loop qos nodes maxNUMANodesCount allContainersMinAvgDistance rest
      else
        '(numaNodes, isMinAvgDistance) ← numaNodesRequired qos nodes c;
        match numaNodes with
        | None => Some MinNodeScore
        | Some bm =>
            nodes ← subtractFromNUMAs c nodes (GetBits bm);
            least_loop qos nodes (if maxNUMANodesCount <? Count bm then Count bm else maxNUMANodesCount)
              (allContainersMinAvgDistance && isMinAvgDistance) rest
        end
  end.

Definition leastNUMAContainerScopeScore (pod : Pod) (zones : list Zone) : option (Z * FStatus) :=
  nodes ← createNUMANodeList zones;
  score ← least_loop (GetPodQOS pod) nodes 0 true
    (spec_init_containers (pod_spec pod) ++ spec_containers (pod_spec pod));
  Some (score, NewStatus Success).

Definition leastNUMAPodScopeScore (pod : Pod) (zones : list Zone) : option (Z * FStatus) :=
  nodes ← createNUMANodeList zones;
  let resources := GetPodEffectiveRequest pod in
  if onlyNonNUMAResources nodes resources then Some (MaxNodeScore, NewStatus Success)
  else
    '(numaNodes, isMinAvgDistance) ← numaNodesRequired (GetPodQOS pod) nodes resources;
    match numaNodes with
    | None => Some (MinNodeScore, NewStatus Success)
    | Some bm => Some (normalizeScore (Count bm) isMinAvgDistance, NewStatus Success)
    end.
End LeastNUMA.

(** ** Strategies and handlers *)

Inductive ScoringStrategyType :=
| MostAllocated | BalancedAllocation | LeastAllocated | LeastNUMANodes | OtherStrategy.

#[export] Instance ScoringStrategyType_eq_dec : EqDecision ScoringStrategyType.
Proof. solve_decision. Defined.

(** [validateScoringStrategyType]. *)
Definition validScoringStrategy (t : ScoringStrategyType) : bool := bool_decide (t <> OtherStrategy).
