(* ===== verification/NumaCache.v ===== *)
(** * NUMA-aware caches and the plugin

    [pkg/noderesourcetopology/cache]: what the plugin believes of a node's
    topology. [NRTCache] is the Go interface; [Passthrough], [DiscardReserved]
    and [OverReserve] implement it. Then the plugin itself: [Filter], [Score],
    [Reserve], [Unreserve] and [PostBind], written against the interface.

    A cache method runs under its lock and is one step. What the API server
    answers ([client.Get]) and what the lister holds are arguments. Comparing a
    fingerprint with a set of pods ([podfingerprint]) is a parameter. *)

From Stdlib Require Import SpecFloat.
From S2P Require Import Prelude.
From S2P Require Import GoFloat.
From S2P Require Import KubeTypes.
From S2P Require Import Framework.
From S2P Require Import Resource.
From S2P Require Import Scoring.
From S2P Require Import NumaTopology.
From S2P Require Import NumaScore.

Record CachedNRTInfo := { Generation : Z; Fresh : bool }.

(** The answers of [client.Get] for topology objects. *)
Definition NRTClient : Type := string -> result NodeResourceTopology.

(** [Interface] of [cache.go]. *)
Class NRTCache (S : Type) := {
  GetCachedNRTCopy : NRTClient -> S -> string -> Pod -> option NodeResourceTopology * CachedNRTInfo;
  NodeMaybeOverReserved : string -> Pod -> S -> S;
  NodeHasForeignPods : string -> Pod -> S -> S;
  ReserveNodeResources : string -> Pod -> S -> S;
  UnreserveNodeResources : string -> Pod -> S -> S;
  CachePostBind : string -> Pod -> S -> S;
}.

(** ** Passthrough *)

Inductive Passthrough := PassthroughCache.

#[export] Instance passthrough_cache : NRTCache Passthrough := {|
  GetCachedNRTCopy client _ nodeName _ :=
    match client nodeName with
    | Err _ => (None, {| Generation := 0; Fresh := true |})
    | Ok nrt => (Some nrt, {| Generation := 0; Fresh := true |})
    end;
  NodeMaybeOverReserved _ _ pt := pt;
  NodeHasForeignPods _ _ pt := pt;
  ReserveNodeResources _ _ pt := pt;
  UnreserveNodeResources _ _ pt := pt;
  CachePostBind _ _ pt := pt;
|}.

(** ** DiscardReserved

    [reservationMap]: the UIDs of the pods reserved on a node. The value of an
    entry is always true. *)

Record DiscardReserved := { reservationMap : gmap string (gset string) }.

Definition removeReservationForNode (nodeName : string) (pod : Pod) (pt : DiscardReserved)
    : DiscardReserved :=
  {| reservationMap := alter (fun t => t ∖ {[pod_uid pod]}) nodeName (reservationMap pt) |}.

#[export] Instance discard_reserved_cache : NRTCache DiscardReserved := {|
  GetCachedNRTCopy client pt nodeName _ :=
    if bool_decide (default ∅ (reservationMap pt !! nodeName) <> ∅)
    then (None, {| Generation := 0; Fresh := false |})
    else
      match client nodeName with
      | Err _ => (None, {| Generation := 0; Fresh := true |})
      | Ok nrt => (Some nrt, {| Generation := 0; Fresh := true |})
      end;
  NodeMaybeOverReserved _ _ pt := pt;
  NodeHasForeignPods _ _ pt := pt;
  ReserveNodeResources nodeName pod pt :=
    {| reservationMap :=
         <[nodeName := {[pod_uid pod]} ∪ default ∅ (reservationMap pt !! nodeName)]> (reservationMap pt) |};
  UnreserveNodeResources nodeName pod pt := removeReservationForNode nodeName pod pt;
  CachePostBind nodeName pod pt := removeReservationForNode nodeName pod pt;
|}.

(** ** The stores of [store.go] *)

Abbreviation nrtStore := (gmap string NodeResourceTopology).

Definition newNrtStore (nrts : list NodeResourceTopology) : nrtStore :=
  foldl (fun data nrt => <[nrt_name nrt := nrt]> data) ∅ nrts.
Definition Update (nrt : NodeResourceTopology) (nrs : nrtStore) : nrtStore := <[nrt_name nrt := nrt]> nrs.

Abbreviation resourceStore := (gmap string ResourceList).

Definition store_key (pod : Pod) : string := pod_namespace pod +:+ "/" +:+ pod_name pod.

Definition AddPod (pod : Pod) (rs : resourceStore) : bool * resourceStore :=
  (bool_decide (is_Some (rs !! store_key pod)), <[store_key pod := GetPodEffectiveRequest pod]> rs).
Definition DeletePod (pod : Pod) (rs : resourceStore) : bool * resourceStore :=
  (bool_decide (is_Some (rs !! store_key pod)), delete (store_key pod) rs).

(** What the request [res] of one pod takes from one resource of one zone. *)
Definition take_resource (res : ResourceList) (zr : ResourceInfo) : ResourceInfo :=
  match res !! ri_name zr with
  | None => zr
  | Some qty =>
      if ri_available zr <? qty then with_available zr 0
      else with_available zr (ri_available zr - qty)
  end.

Definition take_request (res : ResourceList) (nrt : NodeResourceTopology) : NodeResourceTopology :=
  with_zones nrt ((fun z => with_resources z (take_resource res <$> zone_resources z)) <$> nrt_zones nrt).

Definition UpdateNRT (rs : resourceStore) (nrt : NodeResourceTopology) : NodeResourceTopology :=
  map_fold (fun _ res nrt => take_request res nrt) nrt rs.

Abbreviation counter := (gmap string Z).
Definition Incr (key : string) (cnt : counter) : counter := <[key := default 0 (cnt !! key) +! 1]> cnt.
Definition IsSet (cnt : counter) (key : string) : bool := bool_decide (is_Some (cnt !! key)).
Definition Keys (cnt : counter) : list string := (map_to_list cnt).*1.

Definition Attribute : string := "nodeTopologyPodsFingerprint".
Definition AttributeMethod : string := "nodeTopologyPodsFingerprintMethod".
Definition Annotation : string := "topology.node.k8s.io/fingerprint".
Definition MethodWithExclusiveResources : string := "with-exclusive-resources".

Inductive CacheResyncMethod :=
| CacheResyncAutodetect | CacheResyncAll | CacheResyncOnlyExclusiveResources.

#[export] Instance CacheResyncMethod_eq_dec : EqDecision CacheResyncMethod.
Proof. solve_decision. Defined.

(** [attribute.Get]: the first attribute of a name. *)
Definition attr_get (attrs : list AttributeInfo) (name : string) : option string :=
  attr_value <$> head (filter (fun a => attr_name a = name) attrs).

(** The expected fingerprint and whether it covers only pods with exclusive
    resources. *)
Definition podFingerprintForNodeTopology (nrt : NodeResourceTopology) (method : CacheResyncMethod)
    : string * bool :=
  match attr_get (nrt_attributes nrt) Attribute with
  | Some v =>
      (v, match method with
          | CacheResyncOnlyExclusiveResources => true
          | CacheResyncAutodetect =>
              bool_decide (attr_get (nrt_attributes nrt) AttributeMethod = Some MethodWithExclusiveResources)
          | CacheResyncAll => false
          end)
  | None => (default "" (nrt_annotations nrt !! Annotation), false)
  end.

Record podData := { pd_namespace : string; pd_name : string; pd_exclusive : bool }.

(** ** OverReserve

    [resyncMethod], [isPodRelevant] and the exclusivity of a pod's requests do
    not change after construction and are section variables. *)

Record OverReserve := {
  generation : Z;
  nrts : nrtStore;
  assumedResources : gmap string resourceStore;
  nodesMaybeOverreserved : counter;
  nodesWithForeignPods : counter;
  nodesWithAttrUpdate : counter;
}.

Definition with_assumed (ov : OverReserve) (a : gmap string resourceStore) (over : counter) : OverReserve := {|
  generation := generation ov; nrts := nrts ov; assumedResources := a;
  nodesMaybeOverreserved := over; nodesWithForeignPods := nodesWithForeignPods ov;
  nodesWithAttrUpdate := nodesWithAttrUpdate ov |}.
Definition with_foreign (ov : OverReserve) (c : counter) : OverReserve := {|
  generation := generation ov; nrts := nrts ov; assumedResources := assumedResources ov;
  nodesMaybeOverreserved := nodesMaybeOverreserved ov; nodesWithForeignPods := c;
  nodesWithAttrUpdate := nodesWithAttrUpdate ov |}.
Definition with_attr_update (ov : OverReserve) (c : counter) : OverReserve := {|
  generation := generation ov; nrts := nrts ov; assumedResources := assumedResources ov;
  nodesMaybeOverreserved := nodesMaybeOverreserved ov; nodesWithForeignPods := nodesWithForeignPods ov;
  nodesWithAttrUpdate := c |}.

(** [NewOverReserve] from the listed objects. *)
Definition NewOverReserve (objs : list NodeResourceTopology) : OverReserve := {|
  generation := 0; nrts := newNrtStore objs; assumedResources := ∅;
  nodesMaybeOverreserved := ∅; nodesWithForeignPods := ∅; nodesWithAttrUpdate := ∅ |}.

#[export] Instance over_reserve_cache : NRTCache OverReserve := {|
  GetCachedNRTCopy _ ov nodeName _ :=
    if IsSet (nodesWithForeignPods ov) nodeName then (None, {| Generation := 0; Fresh := false |})
    else
      match nrts ov !! nodeName with
      | None => (None, {| Generation := 0; Fresh := true |})
      | Some nrt =>
          (Some (match assumedResources ov !! nodeName with
                 | None => nrt
                 | Some nodeAssumedResources => UpdateNRT nodeAssumedResources nrt
                 end), {| Generation := generation ov; Fresh := true |})
      end;
  NodeMaybeOverReserved nodeName _ ov :=
    with_assumed ov (assumedResources ov) (Incr nodeName (nodesMaybeOverreserved ov));
  NodeHasForeignPods nodeName _ ov :=
    if bool_decide (is_Some (nrts ov !! nodeName))
    then with_foreign ov (Incr nodeName (nodesWithForeignPods ov)) else ov;
  ReserveNodeResources nodeName pod ov :=
    with_assumed ov
      (<[nodeName := (AddPod pod (default ∅ (assumedResources ov !! nodeName))).2]> (assumedResources ov))
      (delete nodeName (nodesMaybeOverreserved ov));
  UnreserveNodeResources nodeName pod ov :=
    with_assumed ov (alter (fun rs => (DeletePod pod rs).2) nodeName (assumedResources ov))
      (nodesMaybeOverreserved ov);
  CachePostBind _ _ ov := ov;
|}.

(** [DesyncedNodes] without the generation, which only logs read. *)
Record DesyncedNodes := { MaybeOverReserved : list string; ConfigChanged : list string }.

Definition GetDesyncedNodes (ov : OverReserve) : DesyncedNodes :=
  let nodes := foldl (fun nodes node => Incr node nodes) (nodesWithForeignPods ov)
                 (Keys (nodesMaybeOverreserved ov)) in
  {| MaybeOverReserved := Keys nodes; ConfigChanged := Keys (nodesWithAttrUpdate ov) |}.

Definition flush_node (ov : OverReserve) (nrt : NodeResourceTopology) : OverReserve := {|
  generation := generation ov;
  nrts := Update nrt (nrts ov);
  assumedResources := delete (nrt_name nrt) (assumedResources ov);
  nodesMaybeOverreserved := delete (nrt_name nrt) (nodesMaybeOverreserved ov);
  nodesWithForeignPods := delete (nrt_name nrt) (nodesWithForeignPods ov);
  nodesWithAttrUpdate := delete (nrt_name nrt) (nodesWithAttrUpdate ov) |}.

(** The generation is a uint64. *)
Definition FlushNodes (updates : list NodeResourceTopology) (ov : OverReserve) : OverReserve :=
  let flushed := foldl flush_node ov updates in
  match updates with
  | [] => flushed
  | _ => {| generation := (generation flushed + 1) mod 18446744073709551616;
            nrts := nrts flushed; assumedResources := assumedResources flushed;
            nodesMaybeOverreserved := nodesMaybeOverreserved flushed;
            nodesWithForeignPods := nodesWithForeignPods flushed;
            nodesWithAttrUpdate := nodesWithAttrUpdate flushed |}
  end.

Section Resync.
Variable resyncMethod : CacheResyncMethod.
Variable isPodRelevant : Pod -> bool.
Variable AreExclusive : Pod -> bool.
(** Whether the fingerprint of a list of pods is the expected one. *)
Variable Check : list (string * string) -> string -> bool.

Definition pod_data (pod : Pod) : podData := {|
  pd_namespace := pod_namespace pod; pd_name := pod_name pod; pd_exclusive := AreExclusive pod |}.

Definition makeNodeToPodDataMap (pods : list Pod) : gmap string (list podData) :=
  foldl (fun m pod =>
    if isPodRelevant pod
    then <[pod_node pod := default [] (m !! pod_node pod) ++ [pod_data pod]]> m else m) ∅ pods.

Definition checkPodFingerprintForNode (objs : list podData) (pfpExpected : string) (onlyExclRes : bool)
    : bool :=
  Check ((fun o => (pd_namespace o, pd_name o)) <$>
         filter (fun o => negb (onlyExclRes && negb (pd_exclusive o)) = true) objs) pfpExpected.

(** The body of the loop over the dirty nodes: the object to flush, if any. *)
Definition dirty_update (client : NRTClient) (nodeToObjsMap : gmap string (list podData)) (nodeName : string)
    : option NodeResourceTopology :=
  match client nodeName with
  | Err _ => None
  | Ok nrtCandidate =>
      match nodeToObjsMap !! nodeName with
      | None => None
      | Some objs =>
          let '(pfpExpected, onlyExclRes) := podFingerprintForNodeTopology nrtCandidate resyncMethod in
          if bool_decide (pfpExpected = "") then None
          else if checkPodFingerprintForNode objs pfpExpected onlyExclRes then Some nrtCandidate
          else None
      end
  end.

Definition config_update (client : NRTClient) (nodeName : string) : option NodeResourceTopology :=
  match client nodeName with Err _ => None | Ok nrtCandidate => Some nrtCandidate end.

(** What [Resync] reads between its two locked steps. *)
Definition resync_updates (client : NRTClient) (pods : list Pod) (nodes : DesyncedNodes)
    : list NodeResourceTopology :=
  omap (dirty_update client (makeNodeToPodDataMap pods)) (MaybeOverReserved nodes) ++
  omap (config_update client) (ConfigChanged nodes).

Definition Resync (client : NRTClient) (podLister : result (list Pod)) (ov : OverReserve) : OverReserve :=
  let nodes := GetDesyncedNodes ov in
  if bool_decide (length (MaybeOverReserved nodes) + length (ConfigChanged nodes) = 0)%nat then ov
  else
    match podLister with
    | Err _ => ov
    | Ok pods => FlushNodes (resync_updates client pods nodes) ov
    end.
End Resync.

(** [getCacheResyncMethod]. *)
Definition getCacheResyncMethod (cfg : option (option CacheResyncMethod)) : CacheResyncMethod :=
  match cfg with Some (Some m) => m | _ => CacheResyncAutodetect end.

(** *** The watcher of attributes and the detector of foreign pods *)

Definition areAttrsChanged (oldNrt newNrt : NodeResourceTopology) : bool :=
  negb (nodeconfig.Equal (nodeconfig.TopologyManagerFromNodeResourceTopology oldNrt)
                         (nodeconfig.TopologyManagerFromNodeResourceTopology newNrt)).

(** [ProcessEvent] on a modification; [None] is an object of another kind. *)
Definition ProcessEvent (modified : bool) (obj : option NodeResourceTopology) (ov : OverReserve)
    : bool * OverReserve :=
  if negb modified then (false, ov)
  else
    match obj with
    | None => (false, ov)
    | Some nrtObj =>
        match nrts ov !! nrt_name nrtObj with
        | None => (false, ov)
        | Some nrtCur =>
            if negb (areAttrsChanged nrtCur nrtObj) then (false, ov)
            else (true, with_attr_update ov (Incr (nrt_name nrtObj) (nodesWithAttrUpdate ov)))
        end
    end.

Section ForeignPods.
Variable schedProfileNames : gset string.
Variable onlyExclusiveResources : bool.
Variable AreExclusive : Pod -> bool.

Definition IsForeignPod (pod : Pod) : bool :=
  if bool_decide (pod_node pod = "") then false
  else if bool_decide (spec_scheduler_name (pod_spec pod) ∈ schedProfileNames) then false
  else if negb onlyExclusiveResources then true
  else AreExclusive pod.

(** The handler of every pod event. *)
Definition foreignCache `{NRTCache C} (pod : Pod) (cc : C) : C :=
  if IsForeignPod pod then NodeHasForeignPods (pod_node pod) pod cc else cc.
End ForeignPods.

(** *** [podprovider] *)

Definition IsPodRelevantShared (pod : Pod) : bool := bool_decide (pod_phase pod = PodRunning).
Definition IsPodRelevantDedicated (pod : Pod) : bool :=
  if bool_decide (pod_phase pod = PodPending) then false
  else if bool_decide (pod_node pod = "") then false
  else true.
Definition wantsDedicatedInformer (cacheConf : option (option bool)) : bool :=
  match cacheConf with Some (Some dedicated) => dedicated | _ => false end.

(** ** The plugin *)

Section TopologyMatch.
Context `{NRTCache C}.
Variables IsNativeResource IsHugePageResourceName : string -> bool.
Variable GetPodQOS : Pod -> PodQOSClass.
Variables mean variance : list spec_float -> spec_float.
Variable other : spec_float -> Z.
Variable Combinations : nat -> nat -> list (list nat).
Variable client : NRTClient.

(** [node] is the node of the [NodeInfo] with its allocatable amounts. *)
Definition Filter (pod : Pod) (node : option (string * Resource)) (cache : C) : option FStatus * C :=
  match node with
  | None => (Some (NewStatus CodeError), cache)
  | Some (nodeName, allocatable) =>
      if bool_decide (GetPodQOS pod = BestEffort) && negb (IncludeNonNative IsNativeResource pod)
      then (Some (NewStatus Success), cache)
      else
        let '(nodeTopology, info) := GetCachedNRTCopy client cache nodeName pod in
        if negb (Fresh info) then (Some (NewStatus Unschedulable), cache)
        else
          match nodeTopology with
          | None => (Some (NewStatus Success), cache)
          | Some nodeTopology =>
              let conf := nodeconfig.TopologyManagerFromNodeResourceTopology nodeTopology in
              match filterHandlerFromTopologyManager IsNativeResource IsHugePageResourceName GetPodQOS conf with
              | None => (Some (NewStatus Success), cache)
              | Some handler =>
                  match handler pod (nrt_zones nodeTopology) allocatable with
                  | None => (None, cache)
                  | Some status =>
                      (Some status,
                       if IsSuccess status then cache else NodeMaybeOverReserved nodeName pod cache)
                  end
              end
          end
  end.

(** [getScoringStrategyFunction]; [None] is the error, [Some None] the special
    case of least NUMA nodes. *)
Definition getScoringStrategyFunction (t : ScoringStrategyType) : option (option scoreStrategyFn) :=
  match t with
  | MostAllocated => Some (Some mostAllocatedScoreStrategy)
  | LeastAllocated => Some (Some leastAllocatedScoreStrategy)
  | BalancedAllocation => Some (Some (balancedAllocationScoreStrategy variance other))
  | LeastNUMANodes => Some None
  | OtherStrategy => None
  end.

(** [None] is a nil handler. *)
Definition scoringHandlerFromTopologyManagerConfig (strategy : ScoringStrategyType)
    (scorerFn : scoreStrategyFn) (rw : resourceToWeightMap) (conf : nodeconfig.TopologyManager)
    : option (Pod -> list Zone -> option (Z * FStatus)) :=
  let pod_scope := bool_decide (nodeconfig.Scope conf = nodeconfig.PodTopologyManagerScope) in
  let container_scope := bool_decide (nodeconfig.Scope conf = nodeconfig.ContainerTopologyManagerScope) in
  if bool_decide (strategy = LeastNUMANodes) then
    if pod_scope then Some (leastNUMAPodScopeScore IsHugePageResourceName Combinations GetPodQOS)
    else if container_scope
    then Some (leastNUMAContainerScopeScore IsHugePageResourceName Combinations GetPodQOS)
    else None
  else if bool_decide (nodeconfig.Policy conf <> nodeconfig.SingleNumaNodeTopologyManagerPolicy) then None
  else if pod_scope then Some (fun pod zones => podScopeScore pod zones scorerFn rw)
  else if container_scope then Some (fun pod zones => containerScopeScore mean other pod zones scorerFn rw)
  else None.

Definition Score (strategy : ScoringStrategyType) (scorerFn : scoreStrategyFn) (rw : resourceToWeightMap)
    (pod : Pod) (nodeName : string) (cache : C) : option (Z * FStatus) :=
  if bool_decide (GetPodQOS pod <> Guaranteed) then Some (MaxNodeScore, NewStatus Success)
  else
    let '(nodeTopology, info) := GetCachedNRTCopy client cache nodeName pod in
    if negb (Fresh info) then Some (0, NewStatus Success)
    else
      match nodeTopology with
      | None => Some (0, NewStatus Success)
      | Some nodeTopology =>
          match scoringHandlerFromTopologyManagerConfig strategy scorerFn rw
                  (nodeconfig.TopologyManagerFromNodeResourceTopology nodeTopology) with
          | None => Some (0, NewStatus Success)
          | Some handler => handler pod (nrt_zones nodeTopology)
          end
      end.

Definition Reserve (pod : Pod) (nodeName : string) (cache : C) : FStatus * C :=
  (NewStatus Success, ReserveNodeResources nodeName pod cache).
Definition Unreserve (pod : Pod) (nodeName : string) (cache : C) : C :=
  UnreserveNodeResources nodeName pod cache.
Definition PostBind (pod : Pod) (nodeName : string) (cache : C) : C := CachePostBind nodeName pod cache.
End TopologyMatch.

(** The weights [New] builds from the arguments. *)
Definition resToWeightMap (resources : list (string * Z)) : resourceToWeightMap :=
  foldl (fun m rw => <[rw.1 := rw.2]> m) ∅ resources.
