(* ===== verification/NumaProofs.v ===== *)
(** * Lemmas on NUMA-aware scheduling

    Bit masks, where a request fits, the subtraction of a request, the list of
    NUMA nodes, the effective request of a pod, the combinations of NUMA nodes
    and the caches. *)

From Stdlib Require Import SpecFloat.
From S2P Require Import Prelude.
From S2P Require Import GoFloat.
From S2P Require Import KubeTypes.
From S2P Require Import Framework.
From S2P Require Import Resource.
From S2P Require Import Scoring.
From S2P Require Import NumaTopology.
From S2P Require Import NumaScore.
From S2P Require Import NumaCache.

(** ** Bit masks *)

(** A uint64. *)
Definition is_mask (m : Z) : Prop := 0 <= m /\ forall i, 64 <= i -> Z.testbit m i = false.

Lemma land_bit m i : 0 <= i -> Z.land m (Z.shiftl 1 i) = if Z.testbit m i then 2 ^ i else 0.
Proof.
  intros Hi. rewrite Z.shiftl_1_l. apply Z.bits_inj'. intros j Hj.
  rewrite Z.land_spec, (Z.pow2_bits_eqb i j) by done.
  destruct (Z.eqb_spec i j) as [<-|Hn]; destruct (Z.testbit m i) eqn:E;
    rewrite ?Z.bits_0, ?Z.pow2_bits_eqb, ?Z.eqb_refl, ?E by done; try done.
  all: rewrite ?andb_false_r; try done. symmetry. by apply Z.eqb_neq.
Qed.

Lemma elem_of_GetBits m i : i ∈ GetBits m <-> 0 <= i < 64 /\ Z.testbit m i = true.
Proof.
  unfold GetBits. rewrite list_elem_of_filter, list_elem_of_fmap. split.
  - intros [Hb (k & -> & Hk%elem_of_seq)]. rewrite land_bit in Hb by lia.
    destruct (Z.testbit m _); [split; [lia|done]|lia].
  - intros [Hi Hb]. split; [rewrite land_bit, Hb by lia; pose proof (Z.pow_pos_nonneg 2 i); lia|].
    exists (Z.to_nat i). split; [lia|]. apply elem_of_seq. lia.
Qed.

Lemma mask_zero m : is_mask m -> (m = 0 <-> forall i, 0 <= i < 64 -> Z.testbit m i = false).
Proof.
  intros [_ Hm]. split; [intros -> i _; apply Z.bits_0|].
  intros Hb. apply Z.bits_inj'. intros j Hj. rewrite Z.bits_0.
  destruct (decide (j < 64)); [by apply Hb|apply Hm; lia].
Qed.

(** The first element of a filtered increasing range is the least that passes. *)
Lemma head_filter_range (P : Z -> Prop) `{!forall x, Decision (P x)} a n :
  match head (filter P (Z.of_nat <$> seq a n)) with
  | Some k => (Z.of_nat a <= k < Z.of_nat (a + n) /\ P k) /\ forall j, Z.of_nat a <= j < k -> ~ P j
  | None => forall j, Z.of_nat a <= j < Z.of_nat (a + n) -> ~ P j
  end.
Proof.
  revert a. induction n as [|n IH]; intros a; cbn [seq fmap list_fmap]; [intros j Hj; lia|].
  rewrite filter_cons. destruct (decide (P (Z.of_nat a))) as [Ha|Ha]; cbn [head].
  - split; [split; [lia|done]|]. intros; lia.
  - specialize (IH (S a)). destruct (head _) as [k|].
    + destruct IH as ([??]&Hj). split; [split; [lia|done]|]. intros j ?.
      destruct (decide (j = Z.of_nat a)) as [->|]; [done|apply Hj; lia].
    + intros j ?. destruct (decide (j = Z.of_nat a)) as [->|]; [done|apply IH; lia].
Qed.

Lemma head_GetBits m :
  match head (GetBits m) with
  | Some k => (0 <= k < 64 /\ Z.testbit m k = true) /\ forall j, 0 <= j < k -> Z.testbit m j = false
  | None => forall j, 0 <= j < 64 -> Z.testbit m j = false
  end.
Proof.
  unfold GetBits.
  pose proof (head_filter_range (fun i => 0 < Z.land m (Z.shiftl 1 i)) 0 64) as Hh.
  assert (forall j, 0 <= j -> 0 < Z.land m (Z.shiftl 1 j) <-> Z.testbit m j = true) as Hp.
  { intros j Hj. rewrite land_bit by done. pose proof (Z.pow_pos_nonneg 2 j).
    destruct (Z.testbit m j); split; done || lia. }
  destruct (head _) as [k|].
  - destruct Hh as ([Hk Hb] & Hj). split; [split; [lia|apply Hp; [lia|done]]|].
    intros j Hlt. apply not_true_is_false. intros E. apply (Hj j); [lia|]. apply Hp; [lia|done].
  - intros j Hlt. apply not_true_is_false. intros E. apply (Hh j); [lia|]. apply Hp; [lia|done].
Qed.

Lemma testbit_add m k i : 0 <= i ->
  Z.testbit (bm_add m k) i = Z.testbit m i || (bool_decide (k = i) && bool_decide (k < 64)).
Proof.
  intros Hi. unfold bm_add. destruct (Z.ltb_spec k 0), (Z.leb_spec 64 k); cbn [orb].
  1-3: rewrite ?(bool_decide_eq_false_2 (k < 64)), ?(bool_decide_eq_false_2 (k = i)) by lia;
    by rewrite ?andb_false_r, orb_false_r.
  rewrite Z.lor_spec, Z.shiftl_1_l, Z.pow2_bits_eqb by done. f_equal.
  rewrite (bool_decide_eq_true_2 (k < 64)), andb_true_r by lia.
  destruct (Z.eqb_spec k i); [by rewrite bool_decide_eq_true_2|by rewrite bool_decide_eq_false_2].
Qed.

Lemma mask_empty : is_mask bm_empty.
Proof. split; [done|]. intros. apply Z.bits_0. Qed.

Lemma mask_fill : is_mask bm_fill.
Proof.
  split; [done|]. intros i Hi. change bm_fill with (Z.ones 64). rewrite Z.ones_spec_high; [done|lia].
Qed.

Lemma testbit_fill i : 0 <= i < 64 -> Z.testbit bm_fill i = true.
Proof. intros Hi. change bm_fill with (Z.ones 64). apply Z.ones_spec_low. lia. Qed.

Lemma mask_and a b : is_mask a -> is_mask (bm_and a b).
Proof.
  intros [Ha Hb]. unfold bm_and. split; [apply Z.land_nonneg; by left|].
  intros i Hi. by rewrite Z.land_spec, Hb.
Qed.

(** ** Where a request fits *)

Section Fit.
Variables IsNativeResource IsHugePageResourceName : string -> bool.

Abbreviation suitable := (isResourceSetSuitable IsHugePageResourceName).

(** NUMA node [i] reports the resource and has enough of it. *)
Definition holds (qos : PodQOSClass) (nodes : NUMANodeList) (i : Z) (name : string) (q : Quantity) : Prop :=
  exists n a, n ∈ nodes /\ NUMAID n = i /\ Resources n !! name = Some a /\ suitable qos name q a = true.

Definition unaligned (nodes : NUMANodeList) (name : string) : Prop :=
  forall n, n ∈ nodes -> Resources n !! name = None.

(** What one entry of a request asks of NUMA node [i]. *)
Definition entry_fits (allocatable : Resource) (qos : PodQOSClass) (nodes : NUMANodeList)
    (name : string) (q : Quantity) (i : Z) : Prop :=
  q = 0 \/
  (is_Some (ResourceListOf allocatable !! name) /\
   (holds qos nodes i name q \/ (isHostLevelResource IsNativeResource name = true /\ unaligned nodes name))).

Definition numa_fits (allocatable : Resource) (qos : PodQOSClass) (nodes : NUMANodeList)
    (request : ResourceList) (i : Z) : Prop :=
  forall name q, request !! name = Some q -> entry_fits allocatable qos nodes name q i.

Lemma resource_mask_spec qos nodes name q :
  (resource_mask IsHugePageResourceName qos nodes name q).1 = false <-> unaligned nodes name.
Proof.
  unfold unaligned. induction nodes as [|n nodes IH] using rev_ind; [split; [by intros _ ? ?%not_elem_of_nil|done]|].
  unfold resource_mask in *. rewrite foldl_snoc. destruct (Resources n !! name) eqn:E; cbn.
  - split; [done|]. intros Hn. specialize (Hn n). rewrite Hn in E; [done|set_solver].
  - rewrite IH. split; [|intros Hn m Hm; apply Hn; set_solver].
    intros Hn m [Hm|Hm%list_elem_of_singleton]%elem_of_app; [by apply Hn|by subst].
Qed.

Lemma resource_mask_bits qos nodes name q i : 0 <= i < 64 ->
  Z.testbit (resource_mask IsHugePageResourceName qos nodes name q).2 i = true <-> holds qos nodes i name q.
Proof.
  intros Hi. unfold holds. induction nodes as [|n nodes IH] using rev_ind.
  { cbn. rewrite Z.bits_0. split; [done|]. by intros (?&?&?%not_elem_of_nil&_). }
  unfold resource_mask in *. rewrite foldl_snoc. set (acc := foldl _ _ nodes) in *.
  setoid_rewrite elem_of_app. setoid_rewrite list_elem_of_singleton.
  assert (Z.testbit acc.2 i = true <-> exists m a, m ∈ nodes /\ NUMAID m = i /\ Resources m !! name = Some a /\
    suitable qos name q a = true) as IH' by exact IH.
  destruct (Resources n !! name) as [a|] eqn:E; [destruct (suitable qos name q a) eqn:Es|]; cbn [snd].
  - rewrite testbit_add, orb_true_iff, andb_true_iff, !bool_decide_eq_true, IH' by lia. split.
    + intros [(m&b&Hm&?)|[Hn _]]; [exists m, b; split; [by left|done]|exists n, a; by split; [right|]].
    + intros (m&b&[Hm| ->]&He&?); [left; by exists m, b|right; lia].
  - rewrite IH'. split; intros (m&b&Hm&He&Hl&Hs); exists m, b; split_and!; try done; [by left|].
    destruct Hm as [?| ->]; [done|congruence].
  - rewrite IH'. split; intros (m&b&Hm&He&Hl&Hs); exists m, b; split_and!; try done; [by left|].
    destruct Hm as [?| ->]; [done|congruence].
Qed.

(** The turns of the range over a request compute where all its entries fit. *)
Definition mask_inv (allocatable : Resource) (qos : PodQOSClass) (nodes : NUMANodeList)
    (acc : option Z) (request : ResourceList) : Prop :=
  match acc with
  | None => forall i, 0 <= i < 64 -> ~ numa_fits allocatable qos nodes request i
  | Some m => is_mask m /\ m <> 0 /\
      forall i, 0 <= i < 64 -> Z.testbit m i = true <-> numa_fits allocatable qos nodes request i
  end.

Lemma numa_fits_insert allocatable qos nodes request name q i : request !! name = None ->
  numa_fits allocatable qos nodes (<[name := q]> request) i <->
  entry_fits allocatable qos nodes name q i /\ numa_fits allocatable qos nodes request i.
Proof.
  intros Hn. unfold numa_fits. split.
  - intros Hf. split; [apply Hf, lookup_insert_eq|]. intros n p Hp. apply Hf.
    rewrite lookup_insert_ne; [done|congruence].
  - intros [Hq Hf] n p [[<- <-]|[_ Hp]]%lookup_insert_Some; [done|by apply Hf].
Qed.

Lemma mask_turn_inv allocatable qos nodes request name q acc : request !! name = None ->
  mask_inv allocatable qos nodes acc request ->
  mask_inv allocatable qos nodes
    (mask_turn IsNativeResource IsHugePageResourceName (ResourceListOf allocatable) qos nodes name q acc)
    (<[name := q]> request).
Proof.
  intros Hn. destruct acc as [m|]; cbn; [|intros Hf i Hi [_ ?]%numa_fits_insert; [by eapply Hf|done]].
  intros (Hm & Hz & Hb). case_bool_decide as Hq.
  { split; [done|]. split; [done|]. intros i Hi. rewrite Hb, numa_fits_insert by done.
    unfold entry_fits. tauto. }
  destruct (ResourceListOf allocatable !! name) as [a|] eqn:Ea; cbn.
  2:{ intros i Hi [[?|[[? ?] _]] _]%numa_fits_insert; congruence. }
  pose proof (resource_mask_spec qos nodes name q) as Hu.
  pose proof (fun i => resource_mask_bits qos nodes name q i) as Hr.
  destruct (resource_mask _ qos nodes name q) as [has rm]. cbn in Hu, Hr.
  assert (forall i, 0 <= i < 64 -> has = false -> ~ holds qos nodes i name q) as Hh.
  { intros i Hi ->. intros (n & b & Hin & _ & Hs & _). assert (unaligned nodes name) as Hun by by apply Hu.
    by rewrite Hun in Hs. }
  destruct (negb has && _) eqn:Eh.
  - apply andb_true_iff in Eh as [->%negb_true_iff Eh]. split; [done|]. split; [done|]. intros i Hi.
    rewrite Hb, numa_fits_insert by done. split; [intros Hf; split; [|done]|tauto].
    right. split; [by eexists|]. right. split; [done|]. by apply Hu.
  - assert (forall i, 0 <= i < 64 -> Z.testbit (bm_and m rm) i = true <->
      numa_fits allocatable qos nodes (<[name := q]> request) i) as Hand.
    { intros i Hi. unfold bm_and. rewrite Z.land_spec, andb_true_iff, Hb, Hr, numa_fits_insert by done.
      unfold entry_fits. rewrite Ea. split; [intros [? ?]; split; [right; split; [by eexists|by left]|done]|].
      intros [[?|[_ [?|[Hl Hun]]]] ?]; [done|done|]. exfalso. apply Hu in Hun as ->. by rewrite Hl in Eh. }
    pose proof (mask_and m rm Hm) as Hma. unfold IsEmpty. case_bool_decide as Hempty.
    + intros i Hi Hf%Hand; [|done]. by rewrite Hempty, Z.bits_0 in Hf.
    + by split.
Qed.

Lemma mask_fold allocatable qos nodes request :
  mask_inv allocatable qos nodes
    (map_fold (mask_turn IsNativeResource IsHugePageResourceName (ResourceListOf allocatable) qos nodes)
       (Some bm_fill) request) request.
Proof.
  apply (map_fold_weak_ind (fun acc m => mask_inv allocatable qos nodes acc m)).
  - split; [exact mask_fill|]. split; [done|]. intros i Hi. rewrite testbit_fill by done.
    split; [|done]. intros _ n q. by rewrite lookup_empty.
  - intros name q m acc Hn Hacc. by apply mask_turn_inv.
Qed.

Abbreviation available := (resourcesAvailableInAnyNUMANodes IsNativeResource IsHugePageResourceName).

(** The least NUMA node where everything fits, whatever the order of the maps;
    there is no panic. *)
Lemma available_spec nodes request qos allocatable :
  match available nodes request qos allocatable with
  | Some (id, true) => (0 <= id < 64 /\ numa_fits allocatable qos nodes request id) /\
      forall j, 0 <= j < id -> ~ numa_fits allocatable qos nodes request j
  | Some (id, false) => id = highestNUMAID /\
      forall j, 0 <= j < 64 -> ~ numa_fits allocatable qos nodes request j
  | None => False
  end.
Proof.
  unfold resourcesAvailableInAnyNUMANodes.
  pose proof (mask_fold allocatable qos nodes request) as Hm.
  destruct (map_fold _ _ request) as [m|]; cbn [mask_inv] in Hm; [|done].
  destruct Hm as (Hm & Hz & Hb). pose proof (head_GetBits m) as Hh.
  destruct (head (GetBits m)) as [id|].
  - cbn. unfold IsEmpty. rewrite bool_decide_eq_false_2 by done. cbn.
    destruct Hh as [[Hi Hid] Hj]. split; [split; [done|by apply Hb]|].
    intros j Hlt Hf%Hb; [|lia]. by rewrite Hj in Hf.
  - apply Hz. by apply (mask_zero m Hm).
Qed.

(** ** The subtraction of a request *)

(** Whether an entry of a request is taken from the NUMA node. *)
Definition charged (qos : PodQOSClass) (name : string) (q : Quantity) : bool :=
  negb (bool_decide (qos <> Guaranteed) && isNUMAAffineResource IsHugePageResourceName name) &&
  negb (bool_decide (q = 0)).

Definition charge (qos : PodQOSClass) (request : ResourceList) (name : string) : Z :=
  match request !! name with
  | Some q => if charged qos name q then q else 0
  | None => 0
  end.

Lemma subtract_entry_eq qos name q rs :
  subtract_entry IsHugePageResourceName qos name q (Some rs)
  = if charged qos name q then
      match rs !! name with
      | None => Some rs
      | Some a => if a - q <? 0 then None else Some (<[name := a - q]> rs)
      end
    else Some rs.
Proof. unfold subtract_entry, charged. cbn. destruct (_ && _); [done|]. by case_bool_decide. Qed.

(** Every resource loses its charge, and none is overdrawn; or one would be. *)
Lemma subtract_fold qos request rs :
  match map_fold (subtract_entry IsHugePageResourceName qos) (Some rs) request with
  | Some rs' => (forall name, rs' !! name = (fun a : Quantity => a - charge qos request name) <$> rs !! name) /\
      forall name (a q : Quantity), rs !! name = Some a -> request !! name = Some q -> charged qos name q = true -> q <= a
  | None => exists name (a q : Quantity), rs !! name = Some a /\ request !! name = Some q /\
      charged qos name q = true /\ a < q
  end.
Proof.
  apply (map_fold_weak_ind (fun acc (request : ResourceList) =>
    match acc with
    | Some rs' => (forall name, rs' !! name = (fun a : Quantity => a - charge qos request name) <$> rs !! name) /\
        forall name (a q : Quantity), rs !! name = Some a -> request !! name = Some q -> charged qos name q = true -> q <= a
    | None => exists name (a q : Quantity), rs !! name = Some a /\ request !! name = Some q /\
        charged qos name q = true /\ a < q
    end)).
  - split; [|intros ? ? ?; by rewrite lookup_empty]. intros name. unfold charge. rewrite lookup_empty.
    destruct (rs !! name); cbn; [f_equal; lia|done].
  - intros name q request' acc Hn. destruct acc as [rs'|].
    2:{ intros (m & a & p & Ha & Hp & Hc & Hlt). exists m, a, p. rewrite lookup_insert_ne by congruence. done. }
    intros [Hl Hle]. rewrite subtract_entry_eq.
    assert (forall m, m <> name -> charge qos (<[name := q]> request') m = charge qos request' m) as Hne.
    { intros m Hm. unfold charge. by rewrite lookup_insert_ne. }
    assert (charge qos request' name = 0) as H0 by (unfold charge; by rewrite Hn).
    assert (charge qos (<[name := q]> request') name = if charged qos name q then q else 0) as Hc
      by (unfold charge; by rewrite lookup_insert_eq).
    pose proof (Hl name) as Hln. rewrite H0 in Hln.
    destruct (charged qos name q) eqn:Ec.
    + destruct (rs !! name) as [a|] eqn:Ea; cbn in Hln; rewrite Hln.
      * rewrite Z.sub_0_r. destruct (Z.ltb_spec (a - q) 0).
        { exists name, a, q. rewrite lookup_insert_eq. split_and!; try done. lia. }
        split.
        -- intros m. destruct (decide (m = name)) as [->|Hm].
           { rewrite lookup_insert_eq, Ea, Hc. done. }
           by rewrite lookup_insert_ne, Hne, Hl by done.
        -- intros m b p Hb [[<- <-]|[_ Hp]]%lookup_insert_Some Hcp; [|by eapply Hle].
           rewrite Ea in Hb. injection Hb as <-. lia.
      * split.
        -- intros m. destruct (decide (m = name)) as [->|Hm]; [by rewrite Ea, Hln|by rewrite Hne, Hl].
        -- intros m b p Hb [[<- <-]|[_ Hp]]%lookup_insert_Some Hcp; [congruence|by eapply Hle].
    + split.
      * intros m. destruct (decide (m = name)) as [->|Hm]; [by rewrite Hc, Hl, H0|by rewrite Hne, Hl].
      * intros m b p Hb [[<- <-]|[_ Hp]]%lookup_insert_Some Hcp; [congruence|by eapply Hle].
Qed.

Lemma subtract_list nodes id qos request :
  match subtractResourcesFromNUMANodeList IsHugePageResourceName nodes id qos request with
  | Some nodes' => Forall2 (fun n' n => NUMAID n' = NUMAID n /\
      (forall name, Resources n' !! name
         = (fun a : Quantity => a - if bool_decide (NUMAID n = id) then charge qos request name else 0) <$> Resources n !! name) /\
      (NUMAID n = id -> forall name (a q : Quantity), Resources n !! name = Some a -> request !! name = Some q ->
         charged qos name q = true -> q <= a)) nodes' nodes
  | None => exists n name (a q : Quantity), n ∈ nodes /\ NUMAID n = id /\ Resources n !! name = Some a /\
      request !! name = Some q /\ charged qos name q = true /\ a < q
  end.
Proof.
  induction nodes as [|n nodes IH]; cbn [subtractResourcesFromNUMANodeList]; [constructor|].
  case_bool_decide as Hn.
  - destruct (subtractResourcesFromNUMANodeList _ nodes _ _ _) as [nodes'|]; cbn.
    + constructor; [|done]. split; [done|]. split; [|by intros ?].
      intros name. rewrite bool_decide_eq_false_2 by done. destruct (Resources n !! name); cbn; [f_equal; lia|done].
    + destruct IH as (m&name&a&q&?&?). exists m, name, a, q. split; [by right|done].
  - pose proof (subtract_fold qos request (Resources n)) as Hs.
    destruct (map_fold _ _ request) as [rs|]; cbn.
    + destruct (subtractResourcesFromNUMANodeList _ nodes _ _ _) as [nodes'|]; cbn.
      * constructor; [|done]. split; [done|]. destruct Hs as [Hl Hle]. split; [|by intros _].
        intros name. rewrite bool_decide_eq_true_2 by done. apply Hl.
      * destruct IH as (m&name&a&q&?&?). exists m, name, a, q. split; [by right|done].
    + destruct Hs as (name&a&q&?&?&?). exists n, name, a, q. split; [by left|done].
Qed.

(** *** Availability, compared node by node *)

Definition node_le (n' n : NUMANode) : Prop :=
  NUMAID n' = NUMAID n /\ forall name, option_Forall2 Z.le (Resources n' !! name) (Resources n !! name).

#[export] Instance node_le_preorder : PreOrder node_le.
Proof.
  split; [intros n; split; [done|intros name; destruct (_ !! name); constructor; lia]|].
  intros a b c [Hi H1] [Hj H2]. split; [congruence|]. intros name. specialize (H1 name). specialize (H2 name).
  destruct H1; inversion H2; subst; constructor. lia.
Qed.

Lemma suitable_mono qos name q a b : a <= b -> suitable qos name q a = true -> suitable qos name q b = true.
Proof. unfold isResourceSetSuitable. destruct (_ && _); [done|]. intros ? ?%Z.leb_le. apply Z.leb_le. lia. Qed.

Lemma fits_mono allocatable qos nodes' nodes request i : Forall2 node_le nodes' nodes ->
  numa_fits allocatable qos nodes' request i -> numa_fits allocatable qos nodes request i.
Proof.
  intros Hle Hf name q Hq. destruct (Hf name q Hq) as [?|[Ha [(n'&a&Hin&Hid&Hl&Hs)|[Hh Hu]]]]; [by left|right; split; [done|]..].
  - left. apply list_elem_of_lookup in Hin as [k Hk].
    destruct (Forall2_lookup_l _ _ _ _ _ Hle Hk) as (n & Hkn & He & Hres).
    specialize (Hres name). rewrite Hl in Hres. inversion Hres as [? b Hab Ha' Hb|]; subst.
    exists n, b. split; [by eapply list_elem_of_lookup_2|]. split; [congruence|]. split; [done|].
    by eapply suitable_mono.
  - right. split; [done|]. intros n Hin. apply list_elem_of_lookup in Hin as [k Hk].
    destruct (Forall2_lookup_r _ _ _ _ _ Hle Hk) as (n' & Hkn & He & Hres).
    specialize (Hres name). rewrite (Hu n') in Hres by (by eapply list_elem_of_lookup_2).
    by inversion Hres.
Qed.

(** *** The loop over the containers *)

(** What the containers assigned to NUMA node [i] take of a resource. *)
Fixpoint load (qos : PodQOSClass) (cs : list ResourceList) (ids : list Z) (i : Z) (name : string) : Z :=
  match cs, ids with
  | c :: cs, id :: ids =>
      (if bool_decide (i = id) then charge qos c name else 0) + load qos cs ids i name
  | _, _ => 0
  end.

Definition nonneg_list (c : ResourceList) : Prop := forall name q, c !! name = Some q -> 0 <= q.

Lemma charge_nonneg qos c name : nonneg_list c -> 0 <= charge qos c name.
Proof.
  intros Hc. unfold charge. destruct (c !! name) as [q|] eqn:E; [|done].
  destruct (charged qos name q); [by eapply Hc|done].
Qed.

(** A request that fits NUMA node [id] can be taken from it. *)
Lemma fits_no_error allocatable qos nodes request id n name (a q : Quantity) :
  NoDup (NUMAID <$> nodes) -> numa_fits allocatable qos nodes request id ->
  n ∈ nodes -> NUMAID n = id -> Resources n !! name = Some a -> request !! name = Some q ->
  charged qos name q = true -> q <= a.
Proof.
  intros Hnd Hf Hin Hid Ha Hq Hc. unfold charged in Hc. apply andb_true_iff in Hc as [Hc Hz].
  apply negb_true_iff, bool_decide_eq_false in Hz. apply negb_true_iff in Hc.
  destruct (Hf name q Hq) as [?|[_ [(m&b&Hm&Hmid&Hb&Hs)|[_ Hu]]]]; [done| |by rewrite (Hu n Hin) in Ha].
  assert (m = n) as ->.
  { apply list_elem_of_lookup in Hin as [j Hj]. apply list_elem_of_lookup in Hm as [k Hk].
    assert (j = k) as ->; [|congruence].
    eapply (NoDup_lookup _ j k id Hnd); rewrite list_lookup_fmap; [rewrite Hj|rewrite Hk]; cbn; congruence. }
  unfold isResourceSetSuitable in Hs. rewrite Hc in Hs. rewrite Hb in Ha. injection Ha as <-. by apply Z.leb_le.
Qed.

Lemma containers_loop_spec allocatable qos nodes cs :
  NoDup (NUMAID <$> nodes) -> Forall nonneg_list cs ->
  match containers_loop IsNativeResource IsHugePageResourceName nodes qos allocatable cs with
  | Some s => s = NewStatus Unschedulable \/
      (s = NewStatus Success /\ exists ids,
         Forall2 (fun c id => 0 <= id < 64 /\ numa_fits allocatable qos nodes c id) cs ids /\
         forall n name (a : Quantity), n ∈ nodes -> Resources n !! name = Some a ->
           load qos cs ids (NUMAID n) name = 0 \/ load qos cs ids (NUMAID n) name <= a)
  | None => False
  end.
Proof.
  revert nodes. induction cs as [|c cs IH]; intros nodes Hnd Hcs; cbn [containers_loop].
  { right. split; [done|]. exists []. split; [constructor|]. intros. by left. }
  apply Forall_cons in Hcs as [Hc Hcs]. pose proof (available_spec nodes c qos allocatable) as Ha.
  destruct (available nodes c qos allocatable) as [[id [|]]|]; [|by left|done].
  cbn. destruct Ha as [[Hid Hf] _]. pose proof (subtract_list nodes id qos c) as Hs.
  destruct (subtractResourcesFromNUMANodeList _ nodes id qos c) as [nodes'|].
  2:{ destruct Hs as (n&name&a&q&Hin&Hnid&Hna&Hq&Hch&Hlt).
      pose proof (fits_no_error _ _ _ _ _ _ _ _ _ Hnd Hf Hin Hnid Hna Hq Hch). lia. }
  assert (NUMAID <$> nodes' = NUMAID <$> nodes) as Hids.
  { clear -Hs. induction Hs as [|? ? ? ? [Hx _]]; cbn; [done|]. by f_equal. }
  assert (Forall2 node_le nodes' nodes) as Hle.
  { eapply Forall2_impl; [exact Hs|]. intros n' n (He & Hl & _). split; [done|]. intros name. rewrite Hl.
    destruct (Resources n !! name); cbn; constructor. pose proof (charge_nonneg qos c name Hc).
    case_bool_decide; lia. }
  specialize (IH nodes'). rewrite Hids in IH. specialize (IH Hnd Hcs).
  destruct (containers_loop _ _ nodes' _ _ cs) as [s|]; [|done].
  destruct IH as [->|(-> & ids & Hfit & Hload)]; [by left|right]. split; [done|]. exists (id :: ids). split.
  - constructor; [done|]. eapply Forall2_impl; [exact Hfit|]. intros d i [Hi Hd]. split; [done|].
    by eapply fits_mono.
  - intros n name a Hin Hna. cbn [load]. apply list_elem_of_lookup in Hin as [k Hk].
    destruct (Forall2_lookup_r _ _ _ _ _ Hs Hk) as (n' & Hk' & He & Hl & Hq).
    specialize (Hl name). rewrite Hna in Hl. cbn in Hl.
    specialize (Hload n' name _ (list_elem_of_lookup_2 _ _ _ Hk') Hl). rewrite He in Hload.
    case_bool_decide as Hn; [|lia]. unfold charge in *.
    destruct (c !! name) as [q|] eqn:Eq; [|lia]. destruct (charged qos name q) eqn:Ech; [|lia].
    specialize (Hq Hn name a q Hna Eq Ech). lia.
Qed.

Lemma init_loop_spec allocatable qos nodes cs :
  match init_containers_loop IsNativeResource IsHugePageResourceName nodes qos allocatable cs with
  | Some s => (s = NewStatus Unschedulable /\
        exists c, c ∈ cs /\ forall i, 0 <= i < 64 -> ~ numa_fits allocatable qos nodes c i) \/
      (s = NewStatus Success /\
        Forall (fun c => exists i, 0 <= i < 64 /\ numa_fits allocatable qos nodes c i) cs)
  | None => False
  end.
Proof.
  induction cs as [|c cs IH]; cbn [init_containers_loop]; [right; by split|].
  pose proof (available_spec nodes c qos allocatable) as Ha.
  destruct (available nodes c qos allocatable) as [[id [|]]|]; cbn; [|left|done].
  - destruct (init_containers_loop _ _ _ _ _ cs) as [s|]; [|done].
    destruct IH as [[-> (d & Hd & Hn)]|[-> Hall]]; [left|right]; (split; [done|]).
    + exists d. split; [by right|done].
    + constructor; [|done]. exists id. tauto.
  - split; [done|]. exists c. split; [by left|tauto].
Qed.
End Fit.

(** ** The list of NUMA nodes *)

(** The NUMA ID and the resources a zone contributes. *)
Definition zone_node (z : Zone) : option (Z * ResourceList) :=
  if bool_decide (zone_type z = "Node") then
    match NameToID (zone_name z) with
    | Some id => if maxNUMAId <? id then None else Some (id, extractResources z)
    | None => None
    end
  else None.

(** A zone whose ID is one past the table. *)
Definition past_table (z : Zone) : Prop :=
  zone_type z = "Node" /\ NameToID (zone_name z) = Some maxNUMAId.

Lemma NameToID_nonneg s id : NameToID s = Some id -> 0 <= id.
Proof.
  unfold NameToID. destruct (CutPrefix s _); [|done]. cbn. destruct (Atoi _) as [z|]; [|done]. cbn.
  destruct (Z.ltb_spec z 0); [done|]. intros [= <-]. done.
Qed.

Lemma collect_spec zones : forall i ids nodes,
  length ids = 64%nat -> Forall (fun n => 0 <= NUMAID n < 64) nodes ->
  match collect_nodes i zones ids nodes with
  | Some (ids', nodes') => ~ Exists past_table zones /\ length ids' = 64%nat /\
      (forall j, j ∈ ids' -> j ∈ ids \/ (j < i + length zones)%nat) /\
      Forall (fun n => 0 <= NUMAID n < 64) nodes' /\
      (fun n => (NUMAID n, Resources n)) <$> nodes'
        = ((fun n => (NUMAID n, Resources n)) <$> nodes) ++ omap zone_node zones
  | None => Exists past_table zones
  end.
Proof.
  induction zones as [|z zones IH]; intros i ids nodes Hids Hn; cbn [collect_nodes].
  { split; [by intros ?%Exists_nil|]. split; [done|]. split; [by left|]. split; [done|]. cbn. by rewrite app_nil_r. }
  assert (zone_node z = None -> ~ past_table z ->
    match collect_nodes (S i) zones ids nodes with
    | Some (ids', nodes') => ~ Exists past_table (z :: zones) /\ length ids' = 64%nat /\
        (forall j, j ∈ ids' -> j ∈ ids \/ (j < i + length (z :: zones))%nat) /\
        Forall (fun n => 0 <= NUMAID n < 64) nodes' /\
        (fun n => (NUMAID n, Resources n)) <$> nodes'
          = ((fun n => (NUMAID n, Resources n)) <$> nodes) ++ omap zone_node (z :: zones)
    | None => Exists past_table (z :: zones)
    end) as Hskip.
  { intros Hz Hp. specialize (IH (S i) ids nodes Hids Hn). destruct (collect_nodes _ _ _ _) as [[ids' nodes']|];
      [|by right]. destruct IH as (He & Hl & Hj & Hall & Heq). cbn [omap list_omap length]. rewrite Hz.
    split; [by intros [?|?]%Exists_cons|]. split; [done|]. split; [|done].
    intros j [?|?]%Hj; [by left|right; lia]. }
  destruct (decide (zone_type z = "Node")) as [Ht|Ht].
  2:{ rewrite bool_decide_eq_true_2 by done. apply Hskip; [unfold zone_node; by rewrite bool_decide_eq_false_2|].
      by intros [? _]. }
  rewrite bool_decide_eq_false_2 by tauto. assert (zone_node z = match NameToID (zone_name z) with
    | Some id => if maxNUMAId <? id then None else Some (id, extractResources z) | None => None end) as Ez
    by (unfold zone_node; by rewrite bool_decide_eq_true_2).
  destruct (NameToID (zone_name z)) as [id|] eqn:Eid; [|apply Hskip; [done|by intros [_ ?]; congruence]].
  destruct (Z.ltb_spec maxNUMAId id) as [Hlt|Hge].
  { apply Hskip; [done|]. intros [_ Hp]. rewrite Eid in Hp. injection Hp as ->. lia. }
  clear Hskip. case_bool_decide as Hlen.
  { left. split; [done|]. rewrite Eid. f_equal. unfold maxNUMAId in *. lia. }
  pose proof (NameToID_nonneg _ _ Eid).
  specialize (IH (S i) (<[Z.to_nat id := i]> ids)
    (nodes ++ [{| NUMAID := id; Resources := extractResources z; Costs := ∅ |}])).
  rewrite length_insert in IH. specialize (IH Hids).
  assert (Forall (fun n => 0 <= NUMAID n < 64) (nodes ++ [{| NUMAID := id; Resources := extractResources z; Costs := ∅ |}])) as Hn'.
  { apply Forall_app. split; [done|]. constructor; [cbn; lia|done]. }
  specialize (IH Hn'). destruct (collect_nodes _ _ _ _) as [[ids' nodes']|]; [|by right].
  destruct IH as (He & Hl & Hj & Hall & Heq). split.
  { intros [[_ Hp]|?]%Exists_cons; [|done]. rewrite Eid in Hp. injection Hp as ->. unfold maxNUMAId in *. lia. }
  split; [done|]. split.
  { intros j [Hin|?]%Hj; [|right; cbn; lia]. cbn [length]. apply list_elem_of_lookup in Hin as [k Hk].
    apply list_lookup_insert_Some in Hk as [(_ & -> & _)|[_ Hk]]; [right; lia|left; by eapply list_elem_of_lookup_2]. }
  split; [done|]. rewrite Heq, fmap_app, <- app_assoc. f_equal. cbn [omap list_omap].
  by rewrite Ez.
Qed.

(** The list is built, one node per usable zone in order, unless a zone has the
    ID 64. *)
Lemma create_spec zones :
  match createNUMANodeList zones with
  | Some nodes => ~ Exists past_table zones /\
      (fun n => (NUMAID n, Resources n)) <$> nodes = omap zone_node zones /\
      Forall (fun n => 0 <= NUMAID n < 64) nodes
  | None => Exists past_table zones
  end.
Proof.
  unfold createNUMANodeList.
  pose proof (collect_spec zones 0 (replicate 64 0%nat) [] eq_refl (Forall_nil_2 _)) as Hc.
  destruct (collect_nodes _ _ _ _) as [[ids nodes]|]; [|done]. cbn [mbind option_bind].
  destruct Hc as (He & Hl & Hj & Hall & Heq). cbn in Heq.
  assert (nodes = [] \/ (0 < length zones)%nat) as Hne.
  { destruct zones; [left|right; cbn; lia]. by apply fmap_nil_inv in Heq. }
  assert (exists nodes', mapM (fun n => ids !! Z.to_nat (NUMAID n) ≫= fun i => zones !! i ≫= fun zone =>
    Some (WithCosts n (extractCosts (zone_costs zone)))) nodes = Some nodes' /\
    Forall2 (fun n n' => NUMAID n' = NUMAID n /\ Resources n' = Resources n) nodes nodes') as (nodes' & -> & Hsame).
  { clear Heq. destruct Hne as [->|Hz]; [by exists []|].
    induction Hall as [|n nodes Hn Hall IH]; [by exists []|]. destruct IH as (nodes' & Hm & Hf).
    destruct (lookup_lt_is_Some_2 ids (Z.to_nat (NUMAID n))) as [j Ej]; [lia|].
    assert (j < length zones)%nat as Hlt.
    { destruct (Hj j) as [Hr|?]; [by eapply list_elem_of_lookup_2| |done].
      apply elem_of_replicate in Hr as [-> _]. done. }
    destruct (lookup_lt_is_Some_2 zones j Hlt) as [z Ez].
    exists (WithCosts n (extractCosts (zone_costs z)) :: nodes'). split; [|constructor; [done|done]].
    cbn [mapM]. rewrite Ej. cbn [mbind option_bind]. rewrite Ez. cbn [mbind option_bind]. by rewrite Hm. }
  split; [done|]. rewrite <- Heq. split.
  - clear -Hsame. induction Hsame as [|? ? ? ? [H1 H2]]; cbn; [done|]. by rewrite H1, H2, IHHsame.
  - clear -Hsame Hall. induction Hsame as [|? ? ? ? [H1 H2]]; [constructor|].
    apply Forall_cons in Hall as [? ?]. constructor; [lia|by apply IHHsame].
Qed.

(** ** The topology manager's configuration *)

Definition config_valid (conf : nodeconfig.TopologyManager) : Prop :=
  nodeconfig.IsValidScope (nodeconfig.Scope conf) = true /\
  nodeconfig.IsValidPolicy (nodeconfig.Policy conf) = true.

(** The last attribute of a name with a valid value. *)
Definition last_valid (name : string) (valid : string -> bool) (attrs : list AttributeInfo) : option string :=
  attr_value <$> last (filter (fun a => attr_name a = name /\ valid (attr_value a) = true) attrs).

Lemma last_valid_snoc name valid attrs a :
  last_valid name valid (attrs ++ [a])
  = if decide (attr_name a = name /\ valid (attr_value a) = true) then Some (attr_value a)
    else last_valid name valid attrs.
Proof.
  unfold last_valid. rewrite filter_app, filter_cons, filter_nil.
  destruct (decide _) as [Ha|Ha]; [by rewrite last_snoc|by rewrite app_nil_r].
Qed.

Lemma attributes_spec conf attrs :
  nodeconfig.updateFromAttributes conf attrs =
  {| nodeconfig.Scope := default (nodeconfig.Scope conf)
       (last_valid nodeconfig.AttributeScope nodeconfig.IsValidScope attrs);
     nodeconfig.Policy := default (nodeconfig.Policy conf)
       (last_valid nodeconfig.AttributePolicy nodeconfig.IsValidPolicy attrs) |}.
Proof.
  unfold nodeconfig.updateFromAttributes. induction attrs as [|a attrs IH] using rev_ind; [by destruct conf|].
  rewrite foldl_snoc, !last_valid_snoc, IH. clear IH. unfold nodeconfig.update_attribute. cbn [nodeconfig.Scope nodeconfig.Policy].
  assert (nodeconfig.AttributeScope <> nodeconfig.AttributePolicy) by done.
  destruct (decide (attr_name a = nodeconfig.AttributeScope)) as [Hs|Hs].
  - rewrite (bool_decide_eq_true_2 (_ = nodeconfig.AttributeScope)), (bool_decide_eq_false_2 (_ = nodeconfig.AttributePolicy)) by congruence.
    rewrite (decide_False (P := _ = nodeconfig.AttributePolicy /\ _)) by (intros [? _]; congruence).
    cbn [andb]. destruct (nodeconfig.IsValidScope (attr_value a)) eqn:Ev.
    + by rewrite decide_True.
    + by rewrite decide_False by (by intros []).
  - rewrite (bool_decide_eq_false_2 (_ = nodeconfig.AttributeScope)) by done.
    rewrite (decide_False (P := _ = nodeconfig.AttributeScope /\ _)) by tauto. cbn [andb].
    case_bool_decide as Hp; cbn [andb].
    + destruct (nodeconfig.IsValidPolicy (attr_value a)) eqn:Ev.
      * by rewrite decide_True.
      * by rewrite decide_False by (by intros []).
    + by rewrite decide_False by tauto.
Qed.

Lemma last_valid_valid name valid attrs v : last_valid name valid attrs = Some v -> valid v = true.
Proof.
  unfold last_valid. destruct (last _) as [a|] eqn:E; [|done]. intros [= <-].
  apply last_Some_elem_of, list_elem_of_filter in E. tauto.
Qed.

Lemma policies_valid conf ps : config_valid conf -> config_valid (nodeconfig.updateFromPolicies conf ps).
Proof.
  intros Hc. destruct ps as [|p ps]; [done|]. cbn. unfold nodeconfig.switch.
  destruct (filter _ _) as [|c cs] eqn:E; [done|].
  assert (c ∈ nodeconfig.policy_table) as Hin.
  { eapply list_elem_of_filter. rewrite E. by left. }
  assert (Forall (fun c => config_valid c.2) nodeconfig.policy_table) as Hall by (repeat constructor).
  rewrite Forall_forall in Hall. by apply Hall.
Qed.

(** ** The effective request *)

(** The sum, and the largest, of the amounts the containers name. *)
Definition sum_named (name : string) (cs : list ResourceList) : option Quantity :=
  match omap (fun c : ResourceList => c !! name) cs with
  | [] => None
  | qs => Some (sumZ id qs)
  end.

Definition max_named (name : string) (cs : list ResourceList) : option Quantity :=
  match omap (fun c : ResourceList => c !! name) cs with
  | [] => None
  | q :: qs => Some (foldl Z.max q qs)
  end.

(** Two optional amounts merged. *)
Definition merged (f : Z -> Z -> Z) (x y : option Quantity) : option Quantity :=
  match x, y with
  | Some a, Some q => Some (f a q)
  | Some a, None => Some a
  | None, o => o
  end.

Lemma init_fold_lookup (c rs : ResourceList) name :
  map_fold init_entry rs c !! name = merged Z.max (rs !! name) (c !! name).
Proof.
  apply (map_fold_weak_ind (fun (acc c : ResourceList) => acc !! name = merged Z.max (rs !! name) (c !! name))).
  - rewrite lookup_empty. by destruct (rs !! name).
  - intros n q c' acc Hn IH. destruct (decide (n = name)) as [->|Hne].
    + rewrite lookup_insert_eq. rewrite Hn in IH. unfold init_entry.
      destruct (rs !! name) as [a|]; cbn in *; rewrite IH; [|by rewrite lookup_insert_eq].
      destruct (Z.leb_spec q a); [rewrite IH; f_equal; lia|rewrite lookup_insert_eq; f_equal; lia].
    + rewrite (lookup_insert_ne c') by done. rewrite <- IH. unfold init_entry.
      destruct (acc !! n) as [a|]; [destruct (q <=? a)|]; by rewrite ?lookup_insert_ne by done.
Qed.

Lemma sum_fold_lookup (c rs : ResourceList) name :
  map_fold sum_entry rs c !! name = merged Z.add (rs !! name) (c !! name).
Proof.
  apply (map_fold_weak_ind (fun (acc c : ResourceList) => acc !! name = merged Z.add (rs !! name) (c !! name))).
  - rewrite lookup_empty. by destruct (rs !! name).
  - intros n q c' acc Hn IH. destruct (decide (n = name)) as [->|Hne].
    + rewrite lookup_insert_eq. rewrite Hn in IH. unfold sum_entry.
      destruct (rs !! name) as [a|]; cbn in *; rewrite IH, lookup_insert_eq; [f_equal; lia|done].
    + rewrite (lookup_insert_ne c') by done. rewrite <- IH. unfold sum_entry.
      destruct (acc !! n); by rewrite lookup_insert_ne by done.
Qed.

Lemma max_named_snoc name cs c :
  max_named name (cs ++ [c]) = merged Z.max (max_named name cs) (c !! name).
Proof.
  unfold max_named. rewrite omap_app. cbn [omap list_omap].
  destruct (omap _ cs) as [|q qs], (c !! name); cbn; rewrite ?foldl_app, ?app_nil_r; done.
Qed.

Lemma sum_named_snoc name cs c :
  sum_named name (cs ++ [c]) = merged Z.add (sum_named name cs) (c !! name).
Proof.
  unfold sum_named. rewrite omap_app. cbn [omap list_omap].
  destruct (omap _ cs) as [|q qs], (c !! name) as [v|]; cbn [app merged];
    rewrite ?app_nil_r, ?sumZ_cons, ?sumZ_app, ?sumZ_cons, ?sumZ_nil; unfold id; try done; f_equal; lia.
Qed.

Lemma max_fold_lookup cs name :
  foldl (fun rs c => map_fold init_entry rs c) ∅ cs !! name = max_named name cs.
Proof.
  induction cs as [|c cs IH] using rev_ind; [done|].
  by rewrite foldl_snoc, init_fold_lookup, IH, max_named_snoc.
Qed.

Lemma sums_fold_lookup cs name :
  foldl (fun rs c => map_fold sum_entry rs c) ∅ cs !! name = sum_named name cs.
Proof.
  induction cs as [|c cs IH] using rev_ind; [done|].
  by rewrite foldl_snoc, sum_fold_lookup, IH, sum_named_snoc.
Qed.

(** ** Topology objects that offer less *)

Definition info_le (r' r : ResourceInfo) : Prop :=
  ri_name r' = ri_name r /\ ri_available r' <= ri_available r.
Definition zone_le (z' z : Zone) : Prop :=
  zone_name z' = zone_name z /\ zone_type z' = zone_type z /\ zone_costs z' = zone_costs z /\
  Forall2 info_le (zone_resources z') (zone_resources z).
Definition nrt_le (n' n : NodeResourceTopology) : Prop :=
  nrt_policies n' = nrt_policies n /\ nrt_attributes n' = nrt_attributes n /\
  Forall2 zone_le (nrt_zones n') (nrt_zones n).

#[export] Instance info_le_preorder : PreOrder info_le.
Proof. split; [by intros r|]. intros a b c [? ?] [? ?]. split; [congruence|lia]. Qed.
#[export] Instance zone_le_preorder : PreOrder zone_le.
Proof.
  split; [intros z; by split_and!|]. intros a b c (?&?&?&?) (?&?&?&?). split_and!; try congruence. by etrans.
Qed.
#[export] Instance nrt_le_preorder : PreOrder nrt_le.
Proof.
  split; [intros n; by split_and!|]. intros a b c (?&?&?) (?&?&?). split_and!; try congruence. by etrans.
Qed.

Lemma extract_le z' z name : Forall2 info_le (zone_resources z') (zone_resources z) ->
  option_Forall2 Z.le (extractResources z' !! name) (extractResources z !! name).
Proof.
  intros Hz. unfold extractResources.
  assert (forall m' m : ResourceList,
    (forall n, option_Forall2 Z.le (m' !! n) (m !! n)) ->
    option_Forall2 Z.le
      (foldl (fun m r => <[ri_name r := ri_available r]> m) m' (zone_resources z') !! name)
      (foldl (fun m r => <[ri_name r := ri_available r]> m) m (zone_resources z) !! name)) as Hg.
  { induction Hz as [|r' r rs' rs [Hn Ha] Hrs IH]; intros m' m Hm; cbn [foldl]; [apply Hm|].
    apply IH. intros n. rewrite Hn. destruct (decide (ri_name r = n)) as [->|Hne].
    - rewrite !lookup_insert_eq. by constructor.
    - by rewrite !lookup_insert_ne. }
  apply Hg. intros n. rewrite lookup_empty. constructor.
Qed.

Lemma zone_node_le z' z : zone_le z' z ->
  option_Forall2 (fun p' p : Z * ResourceList => p'.1 = p.1 /\
    forall name, option_Forall2 Z.le (p'.2 !! name) (p.2 !! name)) (zone_node z') (zone_node z).
Proof.
  intros (Hn & Ht & _ & Hr). unfold zone_node. rewrite Hn, Ht. case_bool_decide; [|constructor].
  destruct (NameToID _) as [id|]; [|constructor]. destruct (maxNUMAId <? id); constructor.
  split; [done|]. intros name. by apply extract_le.
Qed.

Lemma create_le zones' zones : Forall2 zone_le zones' zones ->
  match createNUMANodeList zones', createNUMANodeList zones with
  | Some nodes', Some nodes => Forall2 node_le nodes' nodes
  | None, None => True
  | _, _ => False
  end.
Proof.
  intros Hz. pose proof (create_spec zones') as H'. pose proof (create_spec zones) as H.
  assert (Exists past_table zones' <-> Exists past_table zones) as He.
  { clear -Hz. induction Hz as [|z' z zs' zs (Hn & Ht & _) _ IH]; [done|].
    rewrite !Exists_cons, IH. unfold past_table. by rewrite Hn, Ht. }
  destruct (createNUMANodeList zones') as [nodes'|], (createNUMANodeList zones) as [nodes|]; [|tauto..|done].
  destruct H' as (_ & H' & _), H as (_ & H & _).
  assert (Forall2 (fun p' p : Z * ResourceList => p'.1 = p.1 /\
    forall name, option_Forall2 Z.le (p'.2 !! name) (p.2 !! name))
    (omap zone_node zones') (omap zone_node zones)) as Hf.
  { clear -Hz. induction Hz as [|z' z zs' zs Hzz _ IH]; [constructor|]. cbn [omap list_omap].
    apply zone_node_le in Hzz. inversion Hzz; subst; [by constructor|done]. }
  rewrite <- H, <- H' in Hf. apply Forall2_fmap in Hf. exact Hf.
Qed.

(** A node that offers more still fits a request as a whole. *)
Lemma pod_handler_mono isNative isHuge qos pod zones' zones allocatable : Forall2 zone_le zones' zones ->
  singleNUMAPodLevelHandler isNative isHuge qos pod zones' allocatable = Some (NewStatus Success) ->
  singleNUMAPodLevelHandler isNative isHuge qos pod zones allocatable = Some (NewStatus Success).
Proof.
  intros Hz. pose proof (create_le _ _ Hz) as Hc. unfold singleNUMAPodLevelHandler.
  destruct (createNUMANodeList zones') as [nodes'|], (createNUMANodeList zones) as [nodes|]; try done.
  cbn [mbind option_bind].
  pose proof (available_spec isNative isHuge nodes' (GetPodEffectiveRequest pod) (qos pod) allocatable) as Ha'.
  pose proof (available_spec isNative isHuge nodes (GetPodEffectiveRequest pod) (qos pod) allocatable) as Ha.
  destruct (resourcesAvailableInAnyNUMANodes _ _ nodes' _ _ _) as [[i' [|]]|]; [|done..].
  destruct (resourcesAvailableInAnyNUMANodes _ _ nodes _ _ _) as [[i [|]]|]; [done| |done].
  intros _. destruct Ha' as [[Hi' Hf] _], Ha as [_ Ha]. exfalso. apply (Ha i' Hi'). by eapply fits_mono.
Qed.
