(* ===== verification/NumaCacheProofs.v ===== *)
(** * Lemmas on the NUMA caches

    The copy a cache hands out against the object it stores, the interface's
    laws and their instances, the state of [OverReserve] against the history of
    its events, and what a resynchronisation flushes. *)

From Stdlib Require Import SpecFloat.
From S2P Require Import Prelude.
From S2P Require Import GoFloat.
From S2P Require Import KubeTypes.
From S2P Require Import Framework.
From S2P Require Import Resource.
From S2P Require Import Scoring.
From S2P Require Import NumaTopology.
From S2P Require Import NumaScore.
From S2P Require Import NumaCache.
From S2P Require Import NumaProofs.

(** ** Pessimistic accounting *)

(** The assumed requests for a resource, over all pods of the store. *)
Definition total (rs : resourceStore) (name : string) : Z :=
  map_fold (fun _ (res : ResourceList) s => default 0 (res !! name) + s) 0 rs.

Definition set_available (f : ResourceInfo -> Quantity) (nrt : NodeResourceTopology) : NodeResourceTopology :=
  with_zones nrt ((fun z => with_resources z ((fun r => with_available r (f r)) <$> zone_resources z))
    <$> nrt_zones nrt).

(** Every zone loses every assumed request, down to nothing. *)
Definition charged_nrt (rs : resourceStore) : NodeResourceTopology -> NodeResourceTopology :=
  set_available (fun r => Z.max 0 (ri_available r - total rs (ri_name r))).

Definition nrt_nonneg (nrt : NodeResourceTopology) : Prop :=
  forall z r, z ∈ nrt_zones nrt -> r ∈ zone_resources z -> 0 <= ri_available r.
Definition store_nonneg (rs : resourceStore) : Prop :=
  forall key res, rs !! key = Some res -> nonneg_list res.

Lemma assumed_total_insert rs key res name : rs !! key = None ->
  total (<[key := res]> rs) name = default 0 (res !! name) + total rs name.
Proof. intros Hk. unfold total. rewrite map_fold_insert_L; [done|intros; lia|done]. Qed.

Lemma total_nonneg rs name : store_nonneg rs -> 0 <= total rs name.
Proof.
  apply (map_fold_weak_ind (fun s rs => store_nonneg rs -> 0 <= s)); [done|].
  intros key res m s Hk IH Hn. assert (0 <= s).
  { apply IH. intros k r Hr. apply (Hn k). rewrite lookup_insert_ne; [done|congruence]. }
  specialize (Hn key res (lookup_insert_eq _ _ _)). destruct (res !! name) as [q|] eqn:E; cbn; [|lia].
  specialize (Hn name q E). lia.
Qed.

Lemma zone_eta z : with_resources z (zone_resources z) = z.
Proof. by destruct z. Qed.
Lemma nrt_eta n : with_zones n (nrt_zones n) = n.
Proof. by destruct n. Qed.

Lemma set_available_ext f g nrt :
  (forall z r, z ∈ nrt_zones nrt -> r ∈ zone_resources z -> f r = g r) ->
  set_available f nrt = set_available g nrt.
Proof.
  intros Hfg. unfold set_available. f_equal. apply list_fmap_ext. intros i z Hz. f_equal.
  apply list_fmap_ext. intros j r Hr. f_equal. eapply Hfg; by eapply list_elem_of_lookup_2.
Qed.

Lemma set_available_id nrt : set_available ri_available nrt = nrt.
Proof.
  etrans; [|apply nrt_eta]. unfold set_available. f_equal. etrans; [|apply list_fmap_id].
  apply list_fmap_ext. intros i z _. etrans; [|apply zone_eta]. unfold id. f_equal.
  etrans; [|apply list_fmap_id]. apply list_fmap_ext. intros j r _. by destruct r.
Qed.

Lemma take_set_available res f nrt :
  take_request res (set_available f nrt)
  = set_available (fun r => ri_available (take_resource res (with_available r (f r)))) nrt.
Proof.
  unfold take_request, set_available. cbn. f_equal. rewrite <- list_fmap_compose. apply list_fmap_ext.
  intros i z _. unfold compose. cbn. unfold with_resources. cbn. f_equal. rewrite <- list_fmap_compose.
  apply list_fmap_ext. intros j r _. unfold compose, take_resource. cbn.
  destruct (res !! ri_name r); [|done]. by destruct (_ <? _).
Qed.

(** The accounting does not depend on the order of the pods. *)
Lemma update_exact rs nrt : nrt_nonneg nrt -> store_nonneg rs -> UpdateNRT rs nrt = charged_nrt rs nrt.
Proof.
  intros Hnrt. unfold UpdateNRT.
  apply (map_fold_weak_ind (fun acc rs => store_nonneg rs -> acc = charged_nrt rs nrt)).
  - intros _. unfold charged_nrt. rewrite <- set_available_id at 1. apply set_available_ext. intros z r Hz Hr.
    specialize (Hnrt z r Hz Hr). unfold total. rewrite map_fold_empty. lia.
  - intros key res m acc Hk IH Hs. rewrite IH.
    2:{ intros k x Hx. apply (Hs k). rewrite lookup_insert_ne; [done|congruence]. }
    unfold charged_nrt. rewrite take_set_available. apply set_available_ext. intros z r Hz Hr.
    rewrite assumed_total_insert by done. unfold take_resource. cbn.
    specialize (Hs key res (lookup_insert_eq _ _ _)). destruct (res !! ri_name r) as [q|] eqn:E; cbn; [|lia].
    specialize (Hs _ _ E). destruct (Z.ltb_spec (ri_available r `max` 0) 0); [lia|].
    destruct (Z.ltb_spec (0 `max` (ri_available r - total m (ri_name r))) q); cbn; lia.
Qed.

(** ** The interface's laws

    [cache_base] is the object a cache answers from; the copy never offers
    more. *)
Class NRTCacheLaws {C : Type} (cache : NRTCache C) := {
  cache_ok : C -> Prop;
  cache_base : NRTClient -> C -> string -> option NodeResourceTopology;
  copy_le_base client c node pod nrt info :
    cache_ok c -> GetCachedNRTCopy client c node pod = (Some nrt, info) ->
    exists base, cache_base client c node = Some base /\ nrt_le nrt base;
}.

#[export] Instance passthrough_laws : NRTCacheLaws passthrough_cache.
Proof.
  refine {| cache_ok _ := True;
    cache_base client _ node := match client node with Ok n => Some n | Err _ => None end |}.
  intros client c node pod nrt info _. cbn. destruct (client node) as [n|]; [|done].
  intros [= -> _]. by exists nrt.
Defined.

#[export] Instance discard_reserved_laws : NRTCacheLaws discard_reserved_cache.
Proof.
  refine {| cache_ok _ := True;
    cache_base client _ node := match client node with Ok n => Some n | Err _ => None end |}.
  intros client c node pod nrt info _. cbn. case_bool_decide; [done|].
  destruct (client node) as [n|]; [|done]. intros [= -> _]. by exists nrt.
Defined.

(** Quantities are not negative. *)
Definition over_reserve_ok (ov : OverReserve) : Prop :=
  (forall node nrt, nrts ov !! node = Some nrt -> nrt_nonneg nrt) /\
  (forall node rs, assumedResources ov !! node = Some rs -> store_nonneg rs).

Lemma set_available_le f g nrt :
  (forall z r, z ∈ nrt_zones nrt -> r ∈ zone_resources z -> f r <= g r) ->
  nrt_le (set_available f nrt) (set_available g nrt).
Proof.
  intros Hfg. split; [done|]. split; [done|]. unfold set_available. cbn.
  apply Forall2_fmap, Forall_Forall2_diag, Forall_forall. intros z Hz. split_and!; try done. cbn.
  apply Forall2_fmap, Forall_Forall2_diag, Forall_forall. intros r Hr. split; [done|]. cbn. by eapply Hfg.
Qed.

Lemma charged_le rs nrt : nrt_nonneg nrt -> store_nonneg rs -> nrt_le (charged_nrt rs nrt) nrt.
Proof.
  intros Hn Hs. rewrite <- (set_available_id nrt) at 2. apply set_available_le. intros z r Hz Hr.
  specialize (Hn z r Hz Hr). pose proof (total_nonneg rs (ri_name r) Hs). lia.
Qed.

#[export] Instance over_reserve_laws : NRTCacheLaws over_reserve_cache.
Proof.
  refine {| cache_ok := over_reserve_ok; cache_base _ ov node := nrts ov !! node |}.
  intros client ov node pod nrt info [Hn Ha]. cbn. destruct (IsSet _ _); [done|].
  destruct (nrts ov !! node) as [base|] eqn:En; [|done]. intros [= <- _]. exists base. split; [done|].
  destruct (assumedResources ov !! node) as [rs|] eqn:Er; [|reflexivity].
  specialize (Hn _ _ En). specialize (Ha _ _ Er). rewrite update_exact by done. by apply charged_le.
Defined.

(** ** The request of a pod is not negative *)

Definition pod_nonneg (pod : Pod) : Prop :=
  Forall nonneg_list (spec_containers (pod_spec pod)) /\ Forall nonneg_list (spec_init_containers (pod_spec pod)).

Lemma merged_nonneg f x y (q : Z) : (forall a b, 0 <= a -> 0 <= b -> 0 <= f a b) ->
  (forall a, x = Some a -> 0 <= a) -> (forall a, y = Some a -> 0 <= a) -> merged f x y = Some q -> 0 <= q.
Proof.
  intros Hf Hx Hy. destruct x as [a|], y as [b|]; cbn; intros Hq; inversion Hq; subst; auto.
Qed.

Lemma max_named_nonneg cs name q : Forall nonneg_list cs -> max_named name cs = Some q -> 0 <= q.
Proof.
  revert q. induction cs as [|c cs IH] using rev_ind; intros q; [done|].
  intros [Hcs [Hc _]%Forall_cons]%Forall_app. rewrite max_named_snoc.
  apply merged_nonneg; [lia|intros a; by apply IH|exact (Hc name)].
Qed.

Lemma sum_named_nonneg cs name q : Forall nonneg_list cs -> sum_named name cs = Some q -> 0 <= q.
Proof.
  revert q. induction cs as [|c cs IH] using rev_ind; intros q; [done|].
  intros [Hcs [Hc _]%Forall_cons]%Forall_app. rewrite sum_named_snoc.
  apply merged_nonneg; [lia|intros a; by apply IH|exact (Hc name)].
Qed.

Lemma effective_lookup pod name :
  GetPodEffectiveRequest pod !! name
  = merged Z.max (sum_named name (spec_containers (pod_spec pod)))
      (max_named name (spec_init_containers (pod_spec pod))).
Proof.
  unfold GetPodEffectiveRequest. cbv zeta. by rewrite init_fold_lookup, sums_fold_lookup, max_fold_lookup.
Qed.

Lemma effective_nonneg pod : pod_nonneg pod -> nonneg_list (GetPodEffectiveRequest pod).
Proof.
  intros [Hc Hi] name q. rewrite effective_lookup.
  apply merged_nonneg; [lia|intros a; by apply sum_named_nonneg|intros a; by apply max_named_nonneg].
Qed.

(** ** Flushing *)

Definition last_named (node : string) (updates : list NodeResourceTopology) : option NodeResourceTopology :=
  last (filter (fun u => nrt_name u = node) updates).

Lemma last_named_snoc node us u :
  last_named node (us ++ [u]) = if decide (nrt_name u = node) then Some u else last_named node us.
Proof.
  unfold last_named. rewrite filter_app, filter_cons, filter_nil.
  destruct (decide _); [by rewrite last_snoc|by rewrite app_nil_r].
Qed.

(** What the cache knows of one node. *)
Record node_view := {
  view_nrt : option NodeResourceTopology; view_assumed : option resourceStore;
  view_over : option Z; view_foreign : option Z; view_attr : option Z }.

Definition view (ov : OverReserve) (node : string) : node_view := {|
  view_nrt := nrts ov !! node; view_assumed := assumedResources ov !! node;
  view_over := nodesMaybeOverreserved ov !! node; view_foreign := nodesWithForeignPods ov !! node;
  view_attr := nodesWithAttrUpdate ov !! node |}.

(** A clean node. *)
Definition fresh_view (nrt : NodeResourceTopology) : node_view := {|
  view_nrt := Some nrt; view_assumed := None; view_over := None; view_foreign := None; view_attr := None |}.

Lemma flush_fold_view updates ov node :
  view (foldl flush_node ov updates) node
  = match last_named node updates with Some u => fresh_view u | None => view ov node end.
Proof.
  induction updates as [|u us IH] using rev_ind; [done|]. rewrite foldl_snoc, last_named_snoc.
  unfold view in *. cbn. unfold Update. destruct (decide (nrt_name u = node)) as [->|Hn].
  - by rewrite lookup_insert_eq, !lookup_delete_eq.
  - by rewrite lookup_insert_ne, !lookup_delete_ne.
Qed.

Lemma flush_view updates ov node :
  view (FlushNodes updates ov) node
  = match last_named node updates with Some u => fresh_view u | None => view ov node end.
Proof.
  rewrite <- flush_fold_view. unfold FlushNodes. by destruct updates.
Qed.

(** ** The cache against the history of its events *)

Inductive cache_event :=
| EvReserve (node : string) (pod : Pod)
| EvUnreserve (node : string) (pod : Pod)
| EvFilteredOut (node : string) (pod : Pod)
| EvForeign (node : string) (pod : Pod)
| EvWatch (modified : bool) (obj : option NodeResourceTopology)
| EvFlush (updates : list NodeResourceTopology).

Definition cache_step (ov : OverReserve) (e : cache_event) : OverReserve :=
  match e with
  | EvReserve node pod => ReserveNodeResources node pod ov
  | EvUnreserve node pod => UnreserveNodeResources node pod ov
  | EvFilteredOut node pod => NodeMaybeOverReserved node pod ov
  | EvForeign node pod => NodeHasForeignPods node pod ov
  | EvWatch modified obj => (ProcessEvent modified obj ov).2
  | EvFlush updates => FlushNodes updates ov
  end.

Definition cache_run (objs : list NodeResourceTopology) (h : list cache_event) : OverReserve :=
  foldl cache_step (NewOverReserve objs) h.

(** The object of a node after a history, given latest event first: that of the
    latest flush, or of the start. *)
Fixpoint known (objs : list NodeResourceTopology) (node : string) (h : list cache_event)
    : option NodeResourceTopology :=
  match h with
  | [] => last_named node objs
  | EvFlush us :: h => match last_named node us with Some n => Some n | None => known objs node h end
  | _ :: h => known objs node h
  end.

(** The request held for a pod: of its latest reservation since the latest
    flush, unless it was taken back. *)
Fixpoint held (node key : string) (h : list cache_event) : option ResourceList :=
  match h with
  | [] => None
  | EvReserve n p :: h =>
      if bool_decide (n = node) && bool_decide (store_key p = key)
      then Some (GetPodEffectiveRequest p) else held node key h
  | EvUnreserve n p :: h =>
      if bool_decide (n = node) && bool_decide (store_key p = key) then None else held node key h
  | EvFlush us :: h => match last_named node us with Some _ => None | None => held node key h end
  | _ :: h => held node key h
  end.

(** A foreign pod was seen on the node, once known, since the latest flush. *)
Fixpoint foreign_seen (objs : list NodeResourceTopology) (node : string) (h : list cache_event) : bool :=
  match h with
  | [] => false
  | EvForeign n _ :: h =>
      bool_decide (n = node) && bool_decide (is_Some (known objs node h)) || foreign_seen objs node h
  | EvFlush us :: h => match last_named node us with Some _ => false | None => foreign_seen objs node h end
  | _ :: h => foreign_seen objs node h
  end.

Lemma new_store_lookup objs node : newNrtStore objs !! node = last_named node objs.
Proof.
  unfold newNrtStore. induction objs as [|o objs IH] using rev_ind; [done|].
  rewrite foldl_snoc, last_named_snoc. destruct (decide (nrt_name o = node)) as [->|Hn];
    [by rewrite lookup_insert_eq|by rewrite lookup_insert_ne].
Qed.

Lemma process_event_view modified obj ov node :
  view_nrt (view (ProcessEvent modified obj ov).2 node) = view_nrt (view ov node) /\
  view_assumed (view (ProcessEvent modified obj ov).2 node) = view_assumed (view ov node) /\
  view_foreign (view (ProcessEvent modified obj ov).2 node) = view_foreign (view ov node).
Proof.
  unfold ProcessEvent. destruct modified; cbn; [|done]. destruct obj as [o|]; cbn; [|done].
  destruct (nrts ov !! nrt_name o); cbn; [|done]. by destruct (areAttrsChanged _ _).
Qed.

Lemma run_snoc objs h e : cache_run objs (h ++ [e]) = cache_step (cache_run objs h) e.
Proof. unfold cache_run. by rewrite foldl_snoc. Qed.

Lemma run_view objs h node :
  let v := view (cache_run objs h) node in
  view_nrt v = known objs node (reverse h) /\
  (forall key, default ∅ (view_assumed v) !! key = held node key (reverse h)) /\
  (is_Some (view_foreign v) <-> foreign_seen objs node (reverse h) = true).
Proof.
  cbv zeta. induction h as [|e h IH] using rev_ind.
  { cbn. split; [apply new_store_lookup|]. split; [intros; by rewrite lookup_empty|].
    rewrite lookup_empty. split; [by intros []|done]. }
  rewrite run_snoc, reverse_snoc. destruct IH as (Hk & Hh & Hf). set (ov := cache_run objs h) in *.
  destruct e as [n p|n p|n p|n p|m o|us]; cbn [cache_step known held foreign_seen].
  - split; [done|]. split; [|done]. intros key. cbn. specialize (Hh key). cbn in Hh.
    destruct (decide (n = node)) as [->|Hn].
    + rewrite lookup_insert_eq, (bool_decide_eq_true_2 (node = node)) by done. cbn.
      destruct (decide (store_key p = key)) as [<-|Hs].
      * by rewrite lookup_insert_eq, bool_decide_eq_true_2.
      * by rewrite lookup_insert_ne, bool_decide_eq_false_2.
    + by rewrite lookup_insert_ne, (bool_decide_eq_false_2 (n = node)).
  - split; [done|]. split; [|done]. intros key. cbn. specialize (Hh key). cbn in Hh.
    destruct (decide (n = node)) as [->|Hn].
    + rewrite lookup_alter_eq, (bool_decide_eq_true_2 (node = node)) by done. cbn [andb].
      destruct (assumedResources ov !! node) as [rs|]; cbn in *.
      * destruct (decide (store_key p = key)) as [<-|Hs].
        -- by rewrite lookup_delete_eq, bool_decide_eq_true_2.
        -- by rewrite lookup_delete_ne, bool_decide_eq_false_2.
      * case_bool_decide; [by rewrite lookup_empty|done].
    + by rewrite lookup_alter_ne, (bool_decide_eq_false_2 (n = node)).
  - done.
  - cbn [NodeHasForeignPods over_reserve_cache]. case_bool_decide as Hkn.
    + split; [done|]. split; [done|]. cbn. unfold Incr. destruct (decide (n = node)) as [->|Hn].
      * cbn in Hk. rewrite Hk in Hkn. rewrite lookup_insert_eq, !bool_decide_eq_true_2 by done. by split; [|eauto].
      * rewrite lookup_insert_ne, (bool_decide_eq_false_2 (n = node)) by done. cbn. exact Hf.
    + split; [done|]. split; [done|]. rewrite Hf. destruct (decide (n = node)) as [->|Hn].
      * cbn in Hk. rewrite Hk in Hkn. by rewrite (bool_decide_eq_false_2 (is_Some _)), andb_false_r.
      * by rewrite (bool_decide_eq_false_2 (n = node)).
  - destruct (process_event_view m o ov node) as (-> & -> & ->). done.
  - rewrite flush_view. destruct (last_named node us) as [u|]; [|done].
    cbn. split; [done|]. split; [intros; by rewrite lookup_empty|]. split; [by intros []|done].
Qed.

(** ** What a resynchronisation flushes *)

Lemma elem_of_Keys node (cnt : counter) : node ∈ Keys cnt <-> is_Some (cnt !! node).
Proof.
  unfold Keys. rewrite list_elem_of_fmap. split.
  - intros ([k v] & -> & Hin%elem_of_map_to_list). by eexists.
  - intros [v Hv]. exists (node, v). split; [done|]. by apply elem_of_map_to_list.
Qed.

Lemma incr_fold l cnt node :
  is_Some (foldl (fun nodes node => Incr node nodes) cnt l !! node) <-> is_Some (cnt !! node) \/ node ∈ l.
Proof.
  revert cnt. induction l as [|k l IH]; intros cnt; cbn [foldl]; [set_solver|].
  rewrite IH. unfold Incr. destruct (decide (k = node)) as [->|Hk].
  - rewrite lookup_insert_eq. split; [set_solver|eauto].
  - rewrite lookup_insert_ne by done. set_solver.
Qed.

Lemma elem_of_dirty ov node : node ∈ MaybeOverReserved (GetDesyncedNodes ov) <->
  is_Some (nodesWithForeignPods ov !! node) \/ is_Some (nodesMaybeOverreserved ov !! node).
Proof. cbn. by rewrite elem_of_Keys, incr_fold, elem_of_Keys. Qed.

Lemma last_named_app node us vs :
  last_named node (us ++ vs) = match last_named node vs with Some v => Some v | None => last_named node us end.
Proof.
  induction vs as [|v vs IH] using rev_ind; [by rewrite app_nil_r|].
  rewrite app_assoc, !last_named_snoc, IH. by destruct (decide _).
Qed.

Lemma last_named_omap (f : string -> option NodeResourceTopology) node l :
  (forall n o, f n = Some o -> nrt_name o = n) ->
  last_named node (omap f l) = if decide (node ∈ l) then f node else None.
Proof.
  intros Hf. induction l as [|n l IH] using rev_ind; [done|].
  rewrite omap_app, last_named_app, IH. cbn [omap list_omap].
  destruct (decide (n = node)) as [->|Hn].
  - rewrite (decide_True (P := node ∈ l ++ [node])) by set_solver. destruct (f node) as [o|] eqn:E.
    + unfold last_named. rewrite filter_cons, decide_True by by apply Hf. by rewrite filter_nil.
    + cbn. by destruct (decide (node ∈ l)).
  - assert (last_named node match f n with Some y => [y] | None => [] end = None) as ->.
    { destruct (f n) as [o|] eqn:E; [|done]. unfold last_named. apply Hf in E.
      rewrite filter_cons, decide_False by congruence. done. }
    destruct (decide (node ∈ l)) as [?|?]; [rewrite decide_True by set_solver; done|].
    rewrite decide_False by set_solver. done.
Qed.

Section ResyncProofs.
Variable resyncMethod : CacheResyncMethod.
Variable isPodRelevant : Pod -> bool.
Variable AreExclusive : Pod -> bool.
Variable Check : list (string * string) -> string -> bool.

(** The pods of a node the cache compares. *)
Definition relevant_on (node : string) (pods : list Pod) : list Pod :=
  filter (fun p => isPodRelevant p = true /\ pod_node p = node) pods.

Lemma pod_data_map node pods :
  makeNodeToPodDataMap isPodRelevant AreExclusive pods !! node
  = match relevant_on node pods with
    | [] => None
    | ps => Some (pod_data AreExclusive <$> ps)
    end.
Proof.
  unfold makeNodeToPodDataMap, relevant_on. induction pods as [|p pods IH] using rev_ind; [done|].
  rewrite foldl_snoc, filter_app, filter_cons, filter_nil. destruct (isPodRelevant p) eqn:Ep.
  - destruct (decide (pod_node p = node)) as [->|Hn].
    + rewrite decide_True by done. rewrite lookup_insert_eq, IH. destruct (filter _ pods) as [|q qs]; [done|].
      cbn. by rewrite fmap_app.
    + rewrite decide_False by tauto. rewrite lookup_insert_ne, IH, app_nil_r by done. done.
  - rewrite decide_False by (intros [? _]; congruence). by rewrite IH, app_nil_r.
Qed.

(** Whether the API server's object agrees with the pods the lister shows. *)
Definition fingerprint_ok (nrt : NodeResourceTopology) (ps : list Pod) : bool :=
  let '(expected, onlyExclRes) := podFingerprintForNodeTopology nrt resyncMethod in
  negb (bool_decide (expected = "")) &&
  Check (pod_key <$> filter (fun p => negb (onlyExclRes && negb (AreExclusive p)) = true) ps) expected.

(** The object that replaces what the cache holds of a node. *)
Definition resynced (client : NRTClient) (pods : list Pod) (ov : OverReserve) (node : string)
    : option NodeResourceTopology :=
  match client node with
  | Err _ => None
  | Ok nrt =>
      if bool_decide (is_Some (nodesWithAttrUpdate ov !! node)) ||
         (bool_decide (is_Some (nodesWithForeignPods ov !! node) \/ is_Some (nodesMaybeOverreserved ov !! node)) &&
          negb (bool_decide (relevant_on node pods = [])) && fingerprint_ok nrt (relevant_on node pods))
      then Some nrt else None
  end.

Lemma check_pods ps expected onlyExclRes :
  checkPodFingerprintForNode Check (pod_data AreExclusive <$> ps) expected onlyExclRes
  = Check (pod_key <$> filter (fun p => negb (onlyExclRes && negb (AreExclusive p)) = true) ps) expected.
Proof.
  unfold checkPodFingerprintForNode. f_equal. induction ps as [|p ps IH]; [done|].
  cbn [fmap list_fmap]. rewrite !filter_cons. cbn. destruct (decide _); cbn [fmap list_fmap]; by rewrite IH.
Qed.

Lemma dirty_update_eq client pods node :
  dirty_update resyncMethod Check client (makeNodeToPodDataMap isPodRelevant AreExclusive pods) node
  = match client node with
    | Err _ => None
    | Ok nrt => if negb (bool_decide (relevant_on node pods = [])) && fingerprint_ok nrt (relevant_on node pods)
                then Some nrt else None
    end.
Proof.
  unfold dirty_update, fingerprint_ok. destruct (client node) as [nrt|]; [|done].
  rewrite pod_data_map. destruct (relevant_on node pods) as [|p ps]; [done|].
  rewrite bool_decide_eq_false_2 by done. cbn [negb andb].
  destruct (podFingerprintForNodeTopology _ _) as [expected only]. rewrite check_pods.
  by case_bool_decide.
Qed.

Lemma resync_view client pods ov node :
  (forall n o, client n = Ok o -> nrt_name o = n) ->
  view (Resync resyncMethod isPodRelevant AreExclusive Check client (Ok pods) ov) node
  = match resynced client pods ov node with Some nrt => fresh_view nrt | None => view ov node end.
Proof.
  intros Hc. unfold Resync. cbv zeta. pose proof (elem_of_dirty ov) as Hd.
  assert (forall n, n ∈ ConfigChanged (GetDesyncedNodes ov) <-> is_Some (nodesWithAttrUpdate ov !! n)) as Hcfg
    by (intros n; apply elem_of_Keys).
  assert (last_named node (resync_updates resyncMethod isPodRelevant AreExclusive Check client pods (GetDesyncedNodes ov))
    = resynced client pods ov node) as Hl.
  { unfold resync_updates. rewrite last_named_app, !last_named_omap.
    - unfold resynced, config_update. rewrite dirty_update_eq. destruct (client node) as [nrt|].
      2:{ by destruct (decide _), (decide _). }
      rewrite <- (bool_decide_ext _ _ (Hcfg node)), <- (bool_decide_ext _ _ (Hd node)).
      destruct (decide (node ∈ ConfigChanged _)); [by rewrite bool_decide_eq_true_2|].
      rewrite (bool_decide_eq_false_2 (node ∈ ConfigChanged _)) by done. cbn [orb].
      destruct (decide (node ∈ MaybeOverReserved _)); [by rewrite (bool_decide_eq_true_2 (node ∈ _))|].
      by rewrite (bool_decide_eq_false_2 (node ∈ _)).
    - intros n o. rewrite dirty_update_eq. destruct (client n) as [x|] eqn:E; [|done].
      destruct (_ && _); [|done]. intros [= <-]. by apply Hc.
    - intros n o. unfold config_update. destruct (client n) as [x|] eqn:E; [|done]. intros [= <-]. by apply Hc. }
  case_bool_decide as Hlen; [|by rewrite flush_view, Hl].
  rewrite <- Hl. unfold resync_updates.
  destruct (MaybeOverReserved (GetDesyncedNodes ov)), (ConfigChanged (GetDesyncedNodes ov)); done.
Qed.
End ResyncProofs.

(** ** The plugin on a cache *)

(** A node that aligns pods as a whole to one NUMA node. *)
Definition pod_scope (nrt : NodeResourceTopology) : Prop :=
  nodeconfig.TopologyManagerFromNodeResourceTopology nrt =
  {| nodeconfig.Scope := nodeconfig.PodTopologyManagerScope;
     nodeconfig.Policy := nodeconfig.SingleNumaNodeTopologyManagerPolicy |}.

Lemma config_le n' n : nrt_le n' n ->
  nodeconfig.TopologyManagerFromNodeResourceTopology n' = nodeconfig.TopologyManagerFromNodeResourceTopology n.
Proof. intros (Hp & Ha & _). unfold nodeconfig.TopologyManagerFromNodeResourceTopology. by rewrite Hp, Ha. Qed.

(** An accepted pod passed the pod-scope handler on the copy. *)
Lemma filter_pod_scope {C} (cache : NRTCache C) isNative isHuge qos client pod node allocatable (c c' : C) nrt info :
  qos pod <> BestEffort -> GetCachedNRTCopy client c node pod = (Some nrt, info) -> pod_scope nrt ->
  Filter isNative isHuge qos client pod (Some (node, allocatable)) c = (Some (NewStatus Success), c') ->
  singleNUMAPodLevelHandler isNative isHuge qos pod (nrt_zones nrt) allocatable = Some (NewStatus Success) /\ c' = c.
Proof.
  intros Hq Hcopy Hs. unfold Filter. rewrite (bool_decide_eq_false_2 (qos pod = BestEffort)) by done. cbn [andb].
  rewrite Hcopy. destruct (Fresh info); cbn [negb]; [|done]. rewrite Hs. cbn [filterHandlerFromTopologyManager].
  unfold filterHandlerFromTopologyManager. rewrite (bool_decide_eq_false_2 (_ <> _)) by (cbn; tauto).
  rewrite (bool_decide_eq_true_2 (_ = _)) by done.
  destruct (singleNUMAPodLevelHandler _ _ _ _ _ _) as [s|]; [|done]. destruct (IsSuccess s) eqn:E; intros [= -> <-]; done.
Qed.

(** What is left of an object when each zone gave [taken]. *)
Definition placed (taken : nat -> string -> Z) (nrt : NodeResourceTopology) : NodeResourceTopology :=
  with_zones nrt (imap (fun zi z => with_resources z
    ((fun r => with_available r (ri_available r - taken zi (ri_name r))) <$> zone_resources z)) (nrt_zones nrt)).

(** [taken] is no more than the assumed requests, and no more than there is. *)
Definition placement (rs : resourceStore) (nrt : NodeResourceTopology) (taken : nat -> string -> Z) : Prop :=
  forall zi z r, nrt_zones nrt !! zi = Some z -> r ∈ zone_resources z ->
    taken zi (ri_name r) <= total rs (ri_name r) /\ taken zi (ri_name r) <= ri_available r.

Lemma charged_placed rs nrt taken : placement rs nrt taken ->
  Forall2 zone_le (nrt_zones (charged_nrt rs nrt)) (nrt_zones (placed taken nrt)).
Proof.
  intros Ht. apply Forall2_same_length_lookup. cbn. rewrite length_imap, length_fmap. split; [done|].
  intros zi x y. rewrite list_lookup_fmap, list_lookup_imap. destruct (nrt_zones nrt !! zi) as [z|] eqn:Ez; [|done].
  cbn. intros [= <-] [= <-]. split_and!; try done. cbn. apply Forall2_fmap, Forall_Forall2_diag, Forall_forall.
  intros r Hr. split; [done|]. cbn. specialize (Ht zi z r Ez Hr). lia.
Qed.
