(* ===== verification/NumaScoreProofs.v ===== *)
(** * Lemmas on NUMA-aware scores

    The bounds of the weighted strategies, the least score over the NUMA nodes,
    and the search for the fewest NUMA nodes that fit a request. *)

From Stdlib Require Import SpecFloat Sorted.
From S2P Require Import Prelude.
From S2P Require Import GoFloat.
From S2P Require Import KubeTypes.
From S2P Require Import Framework.
From S2P Require Import Resource.
From S2P Require Import Scoring.
From S2P Require Import NumaTopology.
From S2P Require Import NumaScore.
From S2P Require Import NumaProofs.

(** ** The weighted strategies *)

(** Amounts whose percentages do not overflow. *)
Definition small_quantity (q : Quantity) : Prop := 0 <= q <= 92233720368547758 * 1000000000.

Lemma Value_small q : small_quantity q -> 0 <= Value q <= 92233720368547758 /\ Value q = (q + 999999999) / 1000000000.
Proof.
  intros [H0 H1]. unfold Value, round_up. destruct (Z.leb_spec 0 q); [|lia].
  replace (q + 1000000000 - 1) with (q + 999999999) by lia.
  assert (0 <= (q + 999999999) / 1000000000 <= 92233720368547758).
  { split; [apply Z.div_pos; lia|]. apply Z.lt_succ_r, Z.div_lt_upper_bound; lia. }
  rewrite int64_id; [done|]. unfold in_int64. lia.
Qed.

Lemma Value_small_pos q : small_quantity q -> q <> 0 -> 0 < Value q.
Proof.
  intros Hq Hz. destruct (Value_small q Hq) as [_ ->]. destruct Hq. apply Z.div_str_pos. lia.
Qed.

Lemma Value_small_le p q : small_quantity p -> small_quantity q -> p <= q -> Value p <= Value q.
Proof.
  intros Hp Hq Hle. destruct (Value_small p Hp) as [_ ->], (Value_small q Hq) as [_ ->].
  apply Z.div_le_mono; lia.
Qed.

Lemma percent v c : 0 <= v <= c -> 0 < c <= 92233720368547758 ->
  exists s, quot64 (v *! MaxNodeScore) c = Some s /\ 0 <= s <= 100 /\ s = v * 100 / c.
Proof.
  intros Hv Hc. unfold quot64. rewrite bool_decide_eq_false_2 by lia. eexists. split; [done|].
  unfold mul64, div64, MaxNodeScore. rewrite (int64_id (v * 100)) by (unfold in_int64; lia).
  rewrite Z.quot_div_nonneg by lia.
  assert (0 <= v * 100 / c <= 100) by (split; [apply Z.div_pos; lia|apply Z.div_le_upper_bound; lia]).
  rewrite int64_id by (unfold in_int64; lia). done.
Qed.

(** A score function that gives percentages for small amounts. *)
Definition percentage (score : Quantity -> Quantity -> option Z) : Prop :=
  forall requested capacity, small_quantity requested -> small_quantity capacity ->
    exists s, score requested capacity = Some s /\ 0 <= s <= 100.

Lemma least_percentage : percentage leastAllocatedScore.
Proof.
  intros r c Hr Hc. unfold leastAllocatedScore. case_bool_decide as Hz; [by exists 0|].
  destruct (Z.ltb_spec c r); [by exists 0|].
  pose proof (Value_small r Hr) as [Hvr _]. pose proof (Value_small c Hc) as [Hvc _].
  pose proof (Value_small_pos c Hc Hz). pose proof (Value_small_le r c Hr Hc).
  rewrite sub64_exact by (unfold in_int64; lia).
  destruct (percent (Value c - Value r) (Value c)) as (s & -> & Hs & _); [lia..|]. by exists s.
Qed.

Lemma most_percentage : percentage mostAllocatedScore.
Proof.
  intros r c Hr Hc. unfold mostAllocatedScore. case_bool_decide as Hz; [by exists 0|].
  destruct (Z.ltb_spec c r); [by exists 0|].
  pose proof (Value_small r Hr) as [Hvr _]. pose proof (Value_small c Hc) as [Hvc _].
  pose proof (Value_small_pos c Hc Hz). pose proof (Value_small_le r c Hr Hc).
  destruct (percent (Value r) (Value c)) as (s & -> & Hs & _); [lia..|]. by exists s.
Qed.

Lemma weight_pos rw r : 1 <= weight rw r.
Proof. unfold weight, defaultWeight. destruct (rw !! r) as [w|]; [|done]. destruct (Z.ltb_spec w 1); lia. Qed.

(** The sum of the weights of a request. *)
Definition weights (rw : resourceToWeightMap) (requested : ResourceList) : Z :=
  map_fold (fun name _ s => weight rw name + s) 0 requested.

Definition small_list (rs : ResourceList) : Prop := forall name q, rs !! name = Some q -> small_quantity q.

Lemma small_of rs name : small_list rs -> small_quantity (quantity_of rs name).
Proof.
  intros Hr. unfold quantity_of. destruct (rs !! name) as [q|] eqn:E; [by eapply Hr|by split].
Qed.

Lemma weights_insert rw requested name q : requested !! name = None ->
  weights rw (<[name := q]> requested) = weight rw name + weights rw requested.
Proof. intros Hn. unfold weights. rewrite map_fold_insert_L; [done|intros; lia|done]. Qed.

Lemma weights_nonneg rw requested : 0 <= weights rw requested /\ (requested <> ∅ -> 0 < weights rw requested).
Proof.
  induction requested as [|name q m Hn IH] using map_ind; [by split|].
  rewrite weights_insert by done. pose proof (weight_pos rw name). lia.
Qed.

Lemma weighted_fold score allocatable rw requested : percentage score -> small_list allocatable ->
  small_list requested -> weights rw requested * 100 <= MaxInt64 ->
  exists n, map_fold (weighted_turn score allocatable rw) (Some (0, 0)) requested = Some (n, weights rw requested) /\
    0 <= n <= 100 * weights rw requested.
Proof.
  intros Hs Ha.
  apply (map_fold_weak_ind (fun (acc : option (Z * Z)) (requested : ResourceList) => small_list requested ->
    weights rw requested * 100 <= MaxInt64 -> exists n, acc = Some (n, weights rw requested) /\
    0 <= n <= 100 * weights rw requested)).
  { intros _ _. by exists 0. }
  intros name q m acc Hn IH Hsm. rewrite weights_insert by done. intros Hmax.
  pose proof (weight_pos rw name) as Hw. pose proof (weights_nonneg rw m) as [Hwm _].
  destruct IH as (n & -> & Hb).
  { intros k x Hx. apply (Hsm k). rewrite lookup_insert_ne; [done|congruence]. }
  { lia. }
  unfold MaxInt64 in Hmax.
  destruct (Hs q (quantity_of allocatable name)) as (s & Es & Hsb);
    [apply (Hsm name), lookup_insert_eq|by apply small_of|].
  unfold weighted_turn. cbn [mbind option_bind]. rewrite Es. cbn [mbind option_bind].
  exists (n + s * weight rw name). unfold mul64, add64.
  rewrite (int64_id (s * weight rw name)) by (unfold in_int64; nia).
  rewrite !int64_id by (unfold in_int64; nia). split; [f_equal; f_equal; lia|nia].
Qed.

(** Both strategies give a percentage, and panic for an empty request. *)
Lemma strategy_bounds (score : Quantity -> Quantity -> option Z) requested allocatable rw :
  percentage score -> small_list allocatable -> small_list requested ->
  weights rw requested * 100 <= MaxInt64 ->
  match ('(n, w) ← map_fold (weighted_turn score allocatable rw) (Some (0, 0)) requested; quot64 n w) with
  | Some s => requested <> ∅ /\ 0 <= s <= 100
  | None => requested = ∅
  end.
Proof.
  intros Hs Ha Hr Hw. destruct (weighted_fold score allocatable rw requested Hs Ha Hr Hw) as (n & -> & Hn).
  cbn. pose proof (weights_nonneg rw requested) as [_ Hpos]. unfold quot64. case_bool_decide as Hz.
  - destruct (decide (requested = ∅)) as [->|Hne]; [done|]. specialize (Hpos Hne). lia.
  - assert (requested <> ∅) as Hne by (intros ->; by apply Hz). specialize (Hpos Hne). split; [done|].
    unfold div64. rewrite Z.quot_div_nonneg by lia.
    assert (0 <= n / weights rw requested <= 100)
      by (split; [apply Z.div_pos; lia|apply Z.div_le_upper_bound; lia]).
    rewrite int64_id; [done|]. unfold in_int64. lia.
Qed.

(** ** The least score over the NUMA nodes *)

(** The least of the scores that are not 0, or 0. *)
Definition least_nonzero (m : Z) (scores : list Z) : Prop :=
  (m = 0 /\ Forall (eq 0) scores) \/ (m <> 0 /\ m ∈ scores /\ forall s, s ∈ scores -> s <> 0 -> m <= s).

Lemma least_nonzero_snoc m scores s : least_nonzero m scores ->
  least_nonzero (if bool_decide (m = 0) || (negb (bool_decide (s = 0)) && (s <? m)) then s else m) (scores ++ [s]).
Proof.
  intros [[-> H0]|(Hz & Hin & Hle)].
  - rewrite bool_decide_eq_true_2 by done. cbn. destruct (decide (s = 0)) as [->|Hs].
    + left. split; [done|]. apply Forall_app. by repeat constructor.
    + right. split; [done|]. split; [set_solver|]. intros t [Ht|Ht%list_elem_of_singleton]%elem_of_app Htz; [|lia].
      rewrite Forall_forall in H0. specialize (H0 t Ht). congruence.
  - rewrite bool_decide_eq_false_2 by done. cbn. right.
    destruct (negb (bool_decide (s = 0)) && (s <? m)) eqn:E.
    + apply andb_true_iff in E as [E1%negb_true_iff%bool_decide_eq_false E2%Z.ltb_lt]. split; [done|].
      split; [set_solver|]. intros t [Ht|Ht%list_elem_of_singleton]%elem_of_app Htz; [|lia].
      specialize (Hle t Ht Htz). lia.
    + split; [done|]. split; [set_solver|]. intros t [Ht|Ht%list_elem_of_singleton]%elem_of_app Htz; [by apply Hle|].
      subst t. rewrite bool_decide_eq_false_2 in E by done. cbn in E. apply Z.ltb_ge in E. lia.
Qed.

Lemma foldl_none {A B} (f : option B -> A -> option B) l : (forall a, f None a = None) -> foldl f None l = None.
Proof. intros Hf. induction l as [|a l IH]; cbn; [done|]. by rewrite Hf. Qed.

Lemma numa_min_spec requested numaList score rw (s : NUMANode -> Z) :
  (forall n, n ∈ numaList -> score requested (Resources n) rw = Some (s n)) ->
  match scoreForEachNUMANode requested numaList score rw with
  | Some m => (forall n, n ∈ numaList -> 0 <= NUMAID n < Z.of_nat (length numaList)) /\
      least_nonzero m (s <$> numaList)
  | None => exists n, n ∈ numaList /\ ~ 0 <= NUMAID n < Z.of_nat (length numaList)
  end.
Proof.
  unfold scoreForEachNUMANode. generalize (length numaList) as len. intros len.
  induction numaList as [|n l IH] using rev_ind; intros Hs.
  { cbn. split; [by intros ? ?%not_elem_of_nil|]. left. by split. }
  rewrite foldl_snoc. specialize (IH ltac:(intros m Hm; apply Hs; set_solver)).
  destruct (foldl _ (Some 0) l) as [m|]; cbn [mbind option_bind].
  - destruct IH as [Hids Hm]. rewrite (Hs n) by set_solver. cbn [mbind option_bind].
    destruct (Z.ltb_spec (NUMAID n) 0), (Z.leb_spec (Z.of_nat len) (NUMAID n)); cbn [orb].
    1-3: exists n; split; [set_solver|lia].
    split; [|rewrite fmap_app; by apply least_nonzero_snoc].
    intros k [Hk|Hk%list_elem_of_singleton]%elem_of_app; [by apply Hids|subst; lia].
  - destruct IH as (k & Hk & Hne). exists k. split; [set_solver|done].
Qed.

(** ** The fewest NUMA nodes *)

Lemma normalize_exact n b : 0 <= n <= 100000 ->
  normalizeScore n b = 100 - 12 * n + (if b then 6 else 0).
Proof.
  intros Hn. unfold normalizeScore. change (MaxNodeScore /! highestNUMAID) with 12. change (12 /! 2) with 6.
  unfold MaxNodeScore, mul64. rewrite (int64_id (n * 12)) by (unfold in_int64; lia).
  unfold sub64, add64. rewrite (int64_id (100 - n * 12)) by (unfold in_int64; lia).
  destruct b; [rewrite int64_id by (unfold in_int64; lia)|]; lia.
Qed.

Section LeastNUMAProofs.
Variable IsHugePageResourceName : string -> bool.
Variable Combinations : nat -> nat -> list (list nat).
Variables (qos : PodQOSClass) (numaNodes : NUMANodeList) (resources : ResourceList).

(** A choice of [k] positions below [n], in order. *)
Definition is_choice (n k : nat) (c : list nat) : Prop :=
  length c = k /\ StronglySorted lt c /\ Forall (fun i => (i < n)%nat) c.

(** [Combinations n k] lists all choices. *)
Definition combinations_law : Prop :=
  forall n k c, (1 <= k <= n)%nat -> c ∈ Combinations n k <-> is_choice n k c.

(** The request is spread over NUMA nodes that all report it and together have
    enough. *)
Definition choice_fits (c : list nat) : Prop :=
  isValidCombineResources numaNodes resources c = Some true /\
  exists rs, combineResources numaNodes c = Some rs /\
    checkResourcesFit IsHugePageResourceName qos resources rs = true.

(** The average distance in a choice is one the search accepts. *)
Definition near_enough (c : list nat) : Prop :=
  exists d, nodesAvgDistance numaNodes c = Some d /\ SFltb d (float32 256) = true.

Definition distances_small : Prop :=
  forall k, (1 <= k <= length numaNodes)%nat -> Forall near_enough (Combinations (length numaNodes) k).

Lemma valid_total c : Forall (fun i => (i < length numaNodes)%nat) c ->
  exists b, isValidCombineResources numaNodes resources c = Some b.
Proof.
  unfold isValidCombineResources. induction 1 as [|i c Hi _ [b IH]]; cbn [foldr]; [by exists true|].
  destruct (lookup_lt_is_Some_2 numaNodes i Hi) as [n Hn]. rewrite Hn. cbn [mbind option_bind].
  case_bool_decide; [by exists b|by exists false].
Qed.

Lemma combine_total c : Forall (fun i => (i < length numaNodes)%nat) c ->
  exists rs, combineResources numaNodes c = Some rs.
Proof.
  unfold combineResources. generalize (∅ : ResourceList) as acc. induction c as [|i c IH]; intros acc Hc; cbn [foldl]; [by eexists|].
  apply Forall_cons in Hc as [Hi Hc]. destruct (lookup_lt_is_Some_2 numaNodes i Hi) as [n Hn].
  cbn [mbind option_bind]. rewrite Hn. cbn [mbind option_bind]. by apply IH.
Qed.

(** The loop finds a combination that fits iff there is one. *)
Lemma find_loop_spec minAvg combos :
  Forall (fun c => Forall (fun i => (i < length numaNodes)%nat) c /\ near_enough c) combos ->
  forall best minD,
  (best = None -> minD = float32 256) ->
  exists best' b, find_loop IsHugePageResourceName qos numaNodes resources minAvg best minD combos = Some (best', b) /\
    match best' with
    | None => best = None /\ b = false /\ forall c, c ∈ combos -> ~ choice_fits c
    | Some c => best = Some c \/ (c ∈ combos /\ choice_fits c)
    end.
Proof.
  intros Hall. induction Hall as [|c combos (Hin & d & Ed & Hlt) _ IH]; intros best minD Hb; cbn [find_loop].
  { exists best, false. split; [done|]. destruct best; [by left|]. split; [done|]. split; [done|]. by intros ? ?%not_elem_of_nil. }
  destruct (valid_total c Hin) as [v Ev]. rewrite Ev. cbn [mbind option_bind].
  destruct (combine_total c Hin) as [rs Ers].
  assert (~ choice_fits c -> exists best' b,
    find_loop IsHugePageResourceName qos numaNodes resources minAvg best minD combos = Some (best', b) /\
    match best' with
    | None => best = None /\ b = false /\ forall c', c' ∈ c :: combos -> ~ choice_fits c'
    | Some c' => best = Some c' \/ (c' ∈ c :: combos /\ choice_fits c')
    end) as Hskip.
  { intros Hnf. destruct (IH best minD Hb) as (best' & b & Hl & Hr). exists best', b. split; [done|].
    destruct best' as [c'|]; [destruct Hr as [?|[? ?]]; [by left|right; split; [by right|done]]|].
    destruct Hr as (? & ? & Hn). split; [done|]. split; [done|].
    intros c' [->|Hc']%elem_of_cons; [done|by apply Hn]. }
  destruct v; cbn [negb]; [|apply Hskip; intros [? _]; congruence].
  rewrite Ers. cbn [mbind option_bind].
  destruct (checkResourcesFit _ _ _ rs) eqn:Ef.
  2:{ apply Hskip. intros [_ (rs' & Hrs' & ?)]. congruence. }
  assert (choice_fits c) as Hfit by (split; [done|by exists rs]).
  rewrite Ed. cbn [mbind option_bind]. destruct (SFeqb d minAvg).
  { exists (Some c), true. split; [done|]. right. split; [by left|done]. }
  destruct (SFltb d minD) eqn:El.
  - destruct (IH (Some c) d) as (best' & b & Hl & Hr); [done|]. exists best', b. split; [done|].
    destruct best' as [c'|]; [|by destruct Hr].
    destruct Hr as [[= <-]|[? ?]]; right; (split; [|done]); [by left|by right].
  - destruct best as [c0|]; [|rewrite Hb in El by done; congruence].
    destruct (IH (Some c0) minD) as (best' & b & Hl & Hr); [done|]. exists best', b. split; [done|].
    destruct best' as [c'|]; [|by destruct Hr].
    destruct Hr as [?|[? ?]]; [by left|right; split; [by right|done]].
Qed.

Lemma min_distance_total combos :
  Forall (fun c => Forall (fun i => (i < length numaNodes)%nat) c /\ near_enough c) combos ->
  exists d, minAvgDistanceInCombinations numaNodes combos = Some d.
Proof.
  intros Hall. unfold minAvgDistanceInCombinations. generalize (float32 maxDistanceValue) as acc.
  induction Hall as [|c combos (_ & d & Ed & _) _ IH]; intros acc; cbn [foldl]; [by eexists|].
  cbn [mbind option_bind]. rewrite Ed. cbn [mbind option_bind]. apply IH.
Qed.

Lemma mask_total c : Forall (fun i => (i < length numaNodes)%nat) c ->
  exists bm, combination_mask numaNodes c = Some bm.
Proof.
  unfold combination_mask. generalize bm_empty as acc. induction c as [|i c IH]; intros acc Hc; cbn [foldl]; [by eexists|].
  apply Forall_cons in Hc as [Hi Hc]. destruct (lookup_lt_is_Some_2 numaNodes i Hi) as [n Hn].
  cbn [mbind option_bind]. rewrite Hn. cbn [mbind option_bind]. by apply IH.
Qed.

(** Sizes are tried from the smallest. *)
Lemma required_spec : combinations_law -> distances_small -> forall todo len,
  (1 <= len)%nat -> (len + todo = S (length numaNodes))%nat ->
  exists r b, required_loop IsHugePageResourceName Combinations qos numaNodes resources len todo = Some (r, b) /\
    match r with
    | None => b = false /\ forall k c, (len <= k <= length numaNodes)%nat -> is_choice (length numaNodes) k c -> ~ choice_fits c
    | Some bm => exists k c, (len <= k <= length numaNodes)%nat /\ is_choice (length numaNodes) k c /\ choice_fits c /\
        combination_mask numaNodes c = Some bm /\
        forall j c', (len <= j < k)%nat -> is_choice (length numaNodes) j c' -> ~ choice_fits c'
    end.
Proof.
  intros Hlaw Hd. induction todo as [|todo IH]; intros len Hlen Hsum; cbn [required_loop].
  { exists None, false. split; [done|]. split; [done|]. intros; lia. }
  assert (Forall (fun c => Forall (fun i => (i < length numaNodes)%nat) c /\ near_enough c)
    (Combinations (length numaNodes) len)) as Hall.
  { specialize (Hd len ltac:(lia)). rewrite Forall_forall in *. intros c Hc. split; [|by apply Hd].
    apply Hlaw in Hc as (_ & _ & Hb); [done|lia]. }
  unfold findSuitableCombination. destruct (min_distance_total _ Hall) as [m Em]. rewrite Em. cbn [mbind option_bind].
  destruct (find_loop_spec m _ Hall None (float32 256) (fun _ => eq_refl)) as (best & b & -> & Hr).
  cbn [mbind option_bind]. destruct best as [c|].
  - destruct Hr as [?|[Hc Hf]]; [done|]. apply Hlaw in Hc; [|lia]. pose proof Hc as (_ & _ & Hb).
    destruct (mask_total c Hb) as [bm Ebm]. rewrite Ebm. cbn. exists (Some bm), b. split; [done|].
    exists len, c. split; [lia|]. split; [done|]. split; [done|]. split; [done|]. intros; lia.
  - destruct Hr as (_ & _ & Hn). destruct (IH (S len)) as (r & b' & Hl & Hr'); [lia..|]. exists r, b'. split; [done|].
    destruct r as [bm|].
    + destruct Hr' as (k & c & Hk & Hc & Hf & Hm & Hmin). exists k, c. split; [lia|]. split; [done|]. split; [done|].
      split; [done|]. intros j c' Hj Hc'. destruct (decide (j = len)) as [->|]; [apply Hn; apply Hlaw; [lia|done]|].
      eapply Hmin; [|exact Hc']. lia.
    + destruct Hr' as [-> Hno]. split; [done|]. intros k c Hk Hc.
      destruct (decide (k = len)) as [->|]; [apply Hn; apply Hlaw; [lia|done]|]. eapply Hno; [|exact Hc]. lia.
Qed.
End LeastNUMAProofs.

(** ** The number of NUMA nodes of a choice *)

Lemma mask_bits numaNodes c bm : Forall (fun n => 0 <= NUMAID n < 64) numaNodes ->
  combination_mask numaNodes c = Some bm ->
  forall i, i ∈ GetBits bm <-> exists k n, k ∈ c /\ numaNodes !! k = Some n /\ NUMAID n = i.
Proof.
  intros Hids. unfold combination_mask. revert bm. induction c as [|k c IH] using rev_ind; intros bm.
  { intros [= <-] i. rewrite elem_of_GetBits, Z.bits_0. split; [by intros []|by intros (?&?&?%not_elem_of_nil&_)]. }
  rewrite foldl_snoc. destruct (foldl _ _ c) as [m|]; [|done]. cbn [mbind option_bind].
  destruct (numaNodes !! k) as [n|] eqn:En; [|done]. cbn [mbind option_bind]. intros [= <-] i.
  specialize (IH m eq_refl i). rewrite elem_of_GetBits in *.
  assert (0 <= NUMAID n < 64) as Hn by (rewrite Forall_forall in Hids; apply Hids; by eapply list_elem_of_lookup_2).
  split.
  - intros [Hi Hb]. rewrite testbit_add, orb_true_iff, andb_true_iff, !bool_decide_eq_true in Hb by lia.
    destruct Hb as [Hb|[He _]]; [|exists k, n; split; [set_solver|done]].
    destruct (proj1 IH (conj Hi Hb)) as (j & p & Hj & Hp). exists j, p. split; [set_solver|done].
  - intros (j & p & [Hj|Hj%list_elem_of_singleton]%elem_of_app & Hp & Hi).
    + destruct (proj2 IH) as [Hir Hb]; [by exists j, p|]. split; [done|]. rewrite testbit_add by lia. by rewrite Hb.
    + subst j. rewrite En in Hp. injection Hp as <-. split; [lia|]. rewrite testbit_add by lia.
      rewrite !bool_decide_eq_true_2 by lia. apply orb_true_r.
Qed.

Lemma NoDup_GetBits m : NoDup (GetBits m).
Proof. unfold GetBits. apply NoDup_filter, NoDup_fmap_2; [by intros ? ? ?%Nat2Z.inj|apply NoDup_seq]. Qed.

Lemma sorted_nodup (c : list nat) : StronglySorted lt c -> NoDup c.
Proof.
  induction 1 as [|k c _ IH Hk]; constructor; [|done]. intros Hin. rewrite Forall_forall in Hk.
  specialize (Hk k Hin). lia.
Qed.

(** Distinct NUMA nodes set distinct bits. *)
Lemma count_choice numaNodes n k c bm : Forall (fun n => 0 <= NUMAID n < 64) numaNodes ->
  NoDup (NUMAID <$> numaNodes) -> is_choice n k c -> combination_mask numaNodes c = Some bm ->
  Forall (fun i => (i < length numaNodes)%nat) c -> Count bm = Z.of_nat k.
Proof.
  intros Hids Hnd (<- & Hs & _) Hbm Hin. unfold Count. f_equal.
  pose proof (mask_bits numaNodes c bm Hids Hbm) as Hb.
  assert (exists ids, Forall2 (fun i id => exists p, numaNodes !! i = Some p /\ NUMAID p = id) c ids) as [ids Hf].
  { clear -Hin. induction Hin as [|i c Hi _ [ids IH]]; [by exists []|].
    destruct (lookup_lt_is_Some_2 numaNodes i Hi) as [p Hp]. exists (NUMAID p :: ids). constructor; [by exists p|done]. }
  rewrite (Forall2_length _ _ _ Hf). apply Permutation_length, NoDup_Permutation; [apply NoDup_GetBits|..].
  - apply NoDup_alt. intros i j id Hi Hj.
    destruct (Forall2_lookup_r _ _ _ _ _ Hf Hi) as (x & Hx & p & Hp & Ep).
    destruct (Forall2_lookup_r _ _ _ _ _ Hf Hj) as (y & Hy & q & Hq & Eq).
    assert (x = y) as ->.
    { eapply (NoDup_lookup _ x y id Hnd); rewrite list_lookup_fmap; [rewrite Hp|rewrite Hq]; cbn; congruence. }
    eapply NoDup_lookup; [by apply sorted_nodup|exact Hx|exact Hy].
  - intros id. rewrite Hb. split.
    + intros (x & p & Hx & Hp & He). apply list_elem_of_lookup in Hx as [i Hi].
      destruct (Forall2_lookup_l _ _ _ _ _ Hf Hi) as (id' & Hid & q & Hq & Eq).
      eapply list_elem_of_lookup_2. rewrite Hid. congruence.
    + intros Hid. apply list_elem_of_lookup in Hid as [i Hi].
      destruct (Forall2_lookup_r _ _ _ _ _ Hf Hi) as (x & Hx & p & Hp & Ep).
      exists x, p. split; [by eapply list_elem_of_lookup_2|done].
Qed.

(** ** A list of combinations *)

Ltac range_impl :=
  eapply Forall_impl; [eassumption|]; let i := fresh in let Hi := fresh in intros i Hi; cbv beta in *; lia.

Fixpoint choices (k : nat) (l : list nat) : list (list nat) :=
  match k, l with
  | O, _ => [[]]
  | S _, [] => []
  | S k', x :: l' => (cons x <$> choices k' l') ++ choices k l'
  end.

Definition combinations (n k : nat) : list (list nat) := choices k (seq 0 n).

Lemma choices_spec m : forall k a c, c ∈ choices k (seq a m) <->
  length c = k /\ StronglySorted lt c /\ Forall (fun i => (a <= i < a + m)%nat) c.
Proof.
  induction m as [|m IH]; intros k a c; cbn [seq].
  { destruct k as [|k]; cbn [choices].
    - rewrite list_elem_of_singleton. split; [intros ->; by repeat constructor|]. by intros (?%nil_length_inv&_).
    - split; [by intros ?%not_elem_of_nil|]. intros (Hl & _ & Hf). destruct c; [done|]. by apply Forall_cons in Hf as [? _]; lia. }
  destruct k as [|k]; cbn [choices].
  { rewrite list_elem_of_singleton. split; [intros ->; by repeat constructor|]. by intros (?%nil_length_inv&_). }
  rewrite elem_of_app, list_elem_of_fmap, IH. split.
  - intros [(d & -> & Hd)|(Hl & Hs & Hf)].
    + apply IH in Hd as (Hl & Hs & Hf). cbn. split; [lia|]. split.
      * constructor; [done|]. by range_impl.
      * constructor; [lia|]. by range_impl.
    + split; [done|]. split; [done|]. by range_impl.
  - intros (Hl & Hs & Hf). destruct c as [|x c]; [done|]. apply Forall_cons in Hf as [Hx Hf].
    apply StronglySorted_inv in Hs as [Hs Hlt].
    assert (Forall (fun i => (S a <= i < S a + m)%nat) c) as Hc.
    { rewrite Forall_forall in *. intros i Hi. specialize (Hf i Hi). specialize (Hlt i Hi). lia. }
    destruct (decide (x = a)) as [->|Hne].
    + left. exists c. split; [done|]. apply IH. split; [cbn in Hl; lia|done].
    + right. split; [done|]. split; [by constructor|]. constructor; [lia|done].
Qed.

Lemma combinations_lawful : combinations_law combinations.
Proof.
  intros n k c _. unfold combinations, is_choice. rewrite choices_spec. split; intros (? & ? & Hf); split_and!; try done;
    by range_impl.
Qed.
