(* ===== verification/NumaClaims.v ===== *)
(** * Properties of NUMA-aware scheduling

    Where a request fits and what a pod's containers take; the pessimistic
    cache against the truth and against its history; the scores. Each property
    with a hypothesis has a witness on a node with two NUMA zones. *)

From Stdlib Require Import SpecFloat Sorted.
From S2P Require Import Prelude.
From S2P Require Import GoFloat.
From S2P Require Import KubeTypes.
From S2P Require Import Framework.
From S2P Require Import Resource.
From S2P Require Import Scoring.
From S2P Require Import NumaTopology.
From S2P Require Import NumaScore.
From S2P Require Import NumaCache.
From S2P Require Import NumaProofs.
From S2P Require Import NumaCacheProofs.
From S2P Require Import NumaScoreProofs.

(** ** A node with two NUMA zones *)

Definition example_native (name : string) : bool :=
  negb (bool_decide (name = "example.com/gpu")).
Definition example_huge (_ : string) : bool := false.
Definition example_qos (_ : Pod) : PodQOSClass := Guaranteed.
Definition example_pod (name : string) (containers : list ResourceList) : Pod := {|
  pod_meta := meta_named "default" name name;
  pod_spec := {| spec_node_name := "n1"; spec_priority := None; spec_preempt_never := false;
                 spec_priority_class := ""; spec_scheduler_name := "";
                 spec_containers := containers; spec_init_containers := []; spec_overhead := None |};
  pod_status := {| pstatus_phase := PodPending; pstatus_nominated := ""; pstatus_start_time := None;
                   pstatus_conditions := [] |} |}.
Definition example_info (nq : string * Z) : ResourceInfo := {|
  ri_name := nq.1; ri_capacity := nq.2; ri_allocatable := nq.2; ri_available := nq.2 |}.
Definition example_zone (name : string) (rs : list (string * Z)) : Zone := {|
  zone_name := name; zone_type := "Node"; zone_costs := []; zone_resources := example_info <$> rs |}.
Definition cpus (n : Z) : Quantity := n * 1000000000.
Definition example_nrt (policy : string) (zones : list Zone) : NodeResourceTopology := {|
  nrt_name := "n1"; nrt_annotations := ∅; nrt_policies := [policy]; nrt_zones := zones;
  nrt_attributes := [] |}.
Definition example_allocatable : Resource := {|
  MilliCPU := 16000; Memory := 64; EphemeralStorage := 0; AllowedPodNumber := 110;
  ScalarResources := {[ "example.com/gpu" := 1 ]} |}.

(** ** Where a request fits *)

(** C21. [resourcesAvailableInAnyNUMANodes] returns the lowest NUMA node where
    every non-zero entry of the request fits, whatever the order of the maps:
    the resource is known at node level, and that NUMA node reports enough of it
    or no NUMA node reports a host-level resource. It answers no exactly when
    there is none, and never panics. *)
Theorem numa_choice_exact isNative isHuge nodes request qos allocatable :
  match resourcesAvailableInAnyNUMANodes isNative isHuge nodes request qos allocatable with
  | Some (id, true) => 0 <= id < 64 /\ numa_fits isNative isHuge allocatable qos nodes request id /\
      forall j, 0 <= j < id -> ~ numa_fits isNative isHuge allocatable qos nodes request j
  | Some (id, false) => id = highestNUMAID /\
      forall j, 0 <= j < 64 -> ~ numa_fits isNative isHuge allocatable qos nodes request j
  | None => False
  end.
Proof.
  pose proof (available_spec isNative isHuge nodes request qos allocatable) as Ha.
  destruct (resourcesAvailableInAnyNUMANodes _ _ _ _ _ _) as [[id [|]]|]; tauto.
Qed.

(** An answer of the container-scope handler that its arguments justify. *)
Definition verdict_sound (isNative isHuge : string -> bool) (qos : PodQOSClass) (allocatable : Resource)
    (nodes : NUMANodeList) (inits containers : list ResourceList) (verdict : option FStatus) : Prop :=
  verdict = Some (NewStatus Unschedulable) \/
  (verdict = Some (NewStatus Success) /\
   Forall (fun c => exists i, 0 <= i < 64 /\ numa_fits isNative isHuge allocatable qos nodes c i) inits /\
   exists ids,
     Forall2 (fun c id => 0 <= id < 64 /\ numa_fits isNative isHuge allocatable qos nodes c id) containers ids /\
     forall n name a, n ∈ nodes -> Resources n !! name = Some a ->
       load isHuge qos containers ids (NUMAID n) name = 0 \/
       load isHuge qos containers ids (NUMAID n) name <= a).

(** C19. When the container-scope handler accepts a pod, every init container
    fits some NUMA node, and there is an assignment of the containers to NUMA
    nodes such that each fits the one it is assigned to and no resource of a
    NUMA node is taken beyond what is available. For distinct NUMA IDs the only
    other answer is Unschedulable: the accounting error the code calls internal
    cannot occur, nor a panic. *)
Theorem container_alignment_sound isNative isHuge qos pod zones nodes allocatable
    (Hnodes : createNUMANodeList zones = Some nodes)
    (Hids : NoDup (NUMAID <$> nodes))
    (Hpod : pod_nonneg pod) :
  verdict_sound isNative isHuge (qos pod) allocatable nodes
    (spec_init_containers (pod_spec pod)) (spec_containers (pod_spec pod))
    (singleNUMAContainerLevelHandler isNative isHuge qos pod zones allocatable).
Proof.
  destruct Hpod as [Hc _]. unfold singleNUMAContainerLevelHandler. rewrite Hnodes. cbn [mbind option_bind].
  pose proof (init_loop_spec isNative isHuge allocatable (qos pod) nodes (spec_init_containers (pod_spec pod))) as Hi.
  destruct (init_containers_loop _ _ _ _ _ _) as [s|]; [|done]. cbn [mbind option_bind].
  destruct Hi as [[-> _]|[-> Hinit]]; [by left|]. cbn -[containers_loop].
  pose proof (containers_loop_spec isNative isHuge allocatable (qos pod) nodes _ Hids Hc) as Hl.
  destruct (containers_loop _ _ _ _ _ _) as [s|]; [|done].
  destruct Hl as [->|[-> Hl]]; [by left|by right].
Qed.

Definition example_zones : list Zone := [
  example_zone "node-0" [(ResourceCPU, cpus 4); ("example.com/gpu", cpus 1)];
  example_zone "node-1" [(ResourceCPU, cpus 8)]].
Definition example_nodes (zones : list Zone) : NUMANodeList := default [] (createNUMANodeList zones).
Definition three_containers : Pod :=
  example_pod "p" [{[ ResourceCPU := cpus 2 ]}; {[ ResourceCPU := cpus 2 ]}; {[ ResourceCPU := cpus 2 ]}].

Lemma container_alignment_sound_witness :
  singleNUMAContainerLevelHandler example_native example_huge example_qos three_containers example_zones
    example_allocatable = Some (NewStatus Success) /\
  verdict_sound example_native example_huge (example_qos three_containers) example_allocatable
    (example_nodes example_zones) (spec_init_containers (pod_spec three_containers))
    (spec_containers (pod_spec three_containers))
    (singleNUMAContainerLevelHandler example_native example_huge example_qos three_containers example_zones
       example_allocatable).
Proof.
  split; [by vm_compute|]. apply container_alignment_sound.
  - by vm_compute.
  - apply (bool_decide_unpack _). vm_compute. exact I.
  - split; [|constructor]. repeat constructor; intros name q; intros [<- <-]%lookup_singleton_Some; by vm_compute.
Defined.

(** [createNUMANodeList] gives one NUMA node per zone of type Node with a
    well-formed name and an ID below 64, in order, with the zone's available
    amounts; it panics exactly when some such zone has the ID 64, which the
    guard lets through to a table of 64 entries. *)
Theorem numa_list_exact zones :
  match createNUMANodeList zones with
  | Some nodes => (fun n => (NUMAID n, Resources n)) <$> nodes = omap zone_node zones /\
      Forall (fun n => 0 <= NUMAID n < 64) nodes
  | None => True
  end /\
  (createNUMANodeList zones = None <->
   exists z, z ∈ zones /\ zone_type z = "Node" /\ NameToID (zone_name z) = Some 64).
Proof.
  pose proof (create_spec zones) as Hc. pose proof (Exists_exists past_table zones) as He.
  destruct (createNUMANodeList zones) as [nodes|].
  - split; [tauto|]. split; [done|]. intros Hz. exfalso. apply (proj1 Hc). by apply He.
  - split; [done|]. split; [intros _; by apply He|done].
Qed.

(** C40. The configuration read from a topology object is always a valid scope
    and a valid policy: the last valid attribute of each name decides, then the
    first of the deprecated policies, then the defaults. *)
Theorem topology_config_valid nrt :
  let conf := nodeconfig.TopologyManagerFromNodeResourceTopology nrt in
  let legacy := nodeconfig.updateFromPolicies nodeconfig.TopologyManagerDefaults (nrt_policies nrt) in
  nodeconfig.IsValidScope (nodeconfig.Scope conf) = true /\
  nodeconfig.IsValidPolicy (nodeconfig.Policy conf) = true /\
  nodeconfig.Scope conf = default (nodeconfig.Scope legacy)
    (last_valid nodeconfig.AttributeScope nodeconfig.IsValidScope (nrt_attributes nrt)) /\
  nodeconfig.Policy conf = default (nodeconfig.Policy legacy)
    (last_valid nodeconfig.AttributePolicy nodeconfig.IsValidPolicy (nrt_attributes nrt)).
Proof.
  intros conf legacy. assert (config_valid legacy) as [Hs Hp] by (apply policies_valid; by split).
  unfold conf, nodeconfig.TopologyManagerFromNodeResourceTopology. fold legacy. rewrite attributes_spec. cbn.
  split_and!; [..|done|done].
  - destruct (last_valid nodeconfig.AttributeScope _ _) eqn:E; [by eapply last_valid_valid|done].
  - destruct (last_valid nodeconfig.AttributePolicy _ _) eqn:E; [by eapply last_valid_valid|done].
Qed.

(** The effective request of a pod for a resource is the larger of the sum
    over its containers and the largest init container; a resource no container
    names is absent. *)
Theorem effective_request_exact pod name :
  GetPodEffectiveRequest pod !! name
  = match sum_named name (spec_containers (pod_spec pod)), max_named name (spec_init_containers (pod_spec pod)) with
    | Some s, Some m => Some (Z.max s m)
    | Some s, None => Some s
    | None, o => o
    end.
Proof. apply effective_lookup. Qed.

(** ** The pessimistic cache *)

(** The copy [OverReserve] hands out has, in every zone and for every
    resource, what the stored object offers less the total of the assumed
    requests, or nothing when that is less: the map order of the pods does not
    matter. *)
Theorem assumed_exact rs nrt (Hnrt : nrt_nonneg nrt) (Hrs : store_nonneg rs) :
  UpdateNRT rs nrt
  = with_zones nrt ((fun z => with_resources z ((fun r =>
      with_available r (Z.max 0 (ri_available r - total rs (ri_name r)))) <$> zone_resources z)) <$> nrt_zones nrt).
Proof. by apply update_exact. Qed.

Definition example_store : resourceStore :=
  {[ "default/a" := {[ ResourceCPU := cpus 3 ]}; "default/b" := {[ ResourceCPU := cpus 2; "example.com/gpu" := cpus 1 ]} ]}.

Lemma zones_nonneg nrt :
  forallb (fun z => forallb (fun r => 0 <=? ri_available r) (zone_resources z)) (nrt_zones nrt) = true -> nrt_nonneg nrt.
Proof.
  intros Hf z r Hz Hr. rewrite forallb_forall in Hf. specialize (Hf z). rewrite <- list_elem_of_In in Hf.
  specialize (Hf Hz). rewrite forallb_forall in Hf. apply Z.leb_le, Hf. by apply list_elem_of_In.
Qed.

Lemma store_nonneg_check (rs : resourceStore) :
  forallb (fun kr => forallb (fun nq => 0 <=? nq.2) (map_to_list kr.2)) (map_to_list rs) = true -> store_nonneg rs.
Proof.
  intros Hf key res Hk name q Hq. rewrite forallb_forall in Hf.
  specialize (Hf (key, res)). rewrite <- list_elem_of_In, elem_of_map_to_list in Hf. specialize (Hf Hk).
  rewrite forallb_forall in Hf. specialize (Hf (name, q)). rewrite <- list_elem_of_In, elem_of_map_to_list in Hf.
  by apply Z.leb_le, Hf.
Qed.

Lemma assumed_exact_witness :
  UpdateNRT example_store (example_nrt "SingleNUMANodePodLevel" example_zones)
  = with_zones (example_nrt "SingleNUMANodePodLevel" example_zones)
      ((fun z => with_resources z ((fun r =>
         with_available r (Z.max 0 (ri_available r - total example_store (ri_name r)))) <$> zone_resources z))
       <$> example_zones).
Proof. apply assumed_exact; [by apply zones_nonneg|by apply store_nonneg_check]. Defined.

(** For every cache that keeps the interface's law - it offers no more than
    the object it answers from - a pod that [Filter] accepts at pod scope fits
    that object, and the cache is unchanged. *)
Theorem accepted_fits_base {C} (cache : NRTCache C) (laws : NRTCacheLaws cache)
    isNative isHuge qos client pod node allocatable (c c' : C) nrt info
    (Hok : cache_ok c) (Hq : qos pod <> BestEffort)
    (Hcopy : GetCachedNRTCopy client c node pod = (Some nrt, info)) (Hscope : pod_scope nrt)
    (Hfilter : Filter isNative isHuge qos client pod (Some (node, allocatable)) c = (Some (NewStatus Success), c')) :
  c' = c /\ exists base, cache_base client c node = Some base /\
    singleNUMAPodLevelHandler isNative isHuge qos pod (nrt_zones base) allocatable = Some (NewStatus Success).
Proof.
  destruct (filter_pod_scope _ _ _ _ _ _ _ _ _ _ _ _ Hq Hcopy Hscope Hfilter) as [Hh ->].
  destruct (copy_le_base client c node pod nrt info Hok Hcopy) as (base & Hb & (_ & _ & Hz)).
  split; [done|]. exists base. split; [done|]. by eapply pod_handler_mono.
Qed.

(** C10. At pod scope pessimistic accounting has no false positives: a pod
    [Filter] accepts on the copy fits one NUMA node of the true topology,
    wherever the kubelet placed the assumed pods. *)
Theorem pod_scope_never_false_positive isNative isHuge qos client ov ov' node base pod allocatable taken
    (Hok : over_reserve_ok ov) (Hbase : nrts ov !! node = Some base)
    (Hforeign : nodesWithForeignPods ov !! node = None)
    (Hscope : pod_scope base) (Hq : qos pod <> BestEffort)
    (Htaken : placement (default ∅ (assumedResources ov !! node)) base taken)
    (Hfilter : Filter isNative isHuge qos client pod (Some (node, allocatable)) ov = (Some (NewStatus Success), ov')) :
  singleNUMAPodLevelHandler isNative isHuge qos pod (nrt_zones (placed taken base)) allocatable
  = Some (NewStatus Success).
Proof.
  destruct Hok as [Hn Ha]. specialize (Hn _ _ Hbase).
  assert (GetCachedNRTCopy client ov node pod
    = (Some (charged_nrt (default ∅ (assumedResources ov !! node)) base), {| Generation := generation ov; Fresh := true |})) as Hcopy.
  { cbn. unfold IsSet. rewrite bool_decide_eq_false_2 by (rewrite Hforeign; by intros [? ?]). rewrite Hbase.
    destruct (assumedResources ov !! node) as [rs|] eqn:Er; cbn.
    - rewrite update_exact; [done..|by eapply Ha].
    - do 3 f_equal. symmetry. change base with (UpdateNRT ∅ base) at 2. symmetry. by rewrite update_exact. }
  assert (pod_scope (charged_nrt (default ∅ (assumedResources ov !! node)) base)) as Hs.
  { unfold pod_scope. rewrite <- Hscope. apply config_le. apply charged_le; [done|].
    destruct (assumedResources ov !! node) eqn:Er; cbn; [by eapply Ha|by intros ? ? ?%lookup_empty_Some]. }
  destruct (filter_pod_scope _ _ _ _ _ _ _ _ _ _ _ _ Hq Hcopy Hs Hfilter) as [Hh _].
  eapply pod_handler_mono; [|exact Hh]. by apply charged_placed.
Qed.

(** A node whose pods are aligned as a whole, with one pod assumed on it. *)
Definition pod_scope_nrt : NodeResourceTopology := example_nrt "SingleNUMANodePodLevel" example_zones.
Definition assumed_pod : Pod := example_pod "a" [{[ ResourceCPU := cpus 3 ]}].
Definition one_assumed (nrt : NodeResourceTopology) : OverReserve :=
  ReserveNodeResources "n1" assumed_pod (NewOverReserve [nrt]).
Definition small_pod : Pod := example_pod "q" [{[ ResourceCPU := cpus 4 ]}].
(** The kubelet placed the assumed pod on the first NUMA node. *)
Definition taken_first (zi : nat) (name : string) : Z :=
  if bool_decide (zi = 0%nat) && bool_decide (name = ResourceCPU) then cpus 3 else 0.

Lemma one_assumed_ok nrt : nrt_name nrt = "n1" -> nrt_nonneg nrt -> over_reserve_ok (one_assumed nrt).
Proof.
  intros Hname Hn. split.
  - intros node x. cbn. unfold newNrtStore. cbn. rewrite Hname.
    intros [<- <-]%lookup_singleton_Some. done.
  - intros node rs. cbn. rewrite lookup_empty. intros [<- <-]%lookup_singleton_Some.
    by apply store_nonneg_check.
Qed.

Lemma accepted_fits_base_witness :
  one_assumed pod_scope_nrt = one_assumed pod_scope_nrt /\
  exists base, cache_base (fun _ => Err NotFound) (one_assumed pod_scope_nrt) "n1" = Some base /\
    singleNUMAPodLevelHandler example_native example_huge example_qos small_pod (nrt_zones base) example_allocatable
      = Some (NewStatus Success).
Proof.
  eapply (accepted_fits_base over_reserve_cache over_reserve_laws example_native example_huge example_qos
    (fun _ => Err NotFound) small_pod "n1" example_allocatable (one_assumed pod_scope_nrt) (one_assumed pod_scope_nrt)
    (charged_nrt {[ "default/a" := {[ ResourceCPU := cpus 3 ]} ]} pod_scope_nrt) {| Generation := 0; Fresh := true |}).
  - apply one_assumed_ok; [done|by apply zones_nonneg].
  - done.
  - by vm_compute.
  - by vm_compute.
  - by vm_compute.
Defined.

Lemma pod_scope_never_false_positive_witness :
  singleNUMAPodLevelHandler example_native example_huge example_qos small_pod
    (nrt_zones (placed taken_first pod_scope_nrt)) example_allocatable = Some (NewStatus Success).
Proof.
  apply (pod_scope_never_false_positive example_native example_huge example_qos (fun _ => Err NotFound)
    (one_assumed pod_scope_nrt) (one_assumed pod_scope_nrt) "n1").
  - apply one_assumed_ok; [done|by apply zones_nonneg].
  - by vm_compute.
  - by vm_compute.
  - by vm_compute.
  - done.
  - intros zi z r Hz Hr. cbn in Hz. destruct zi as [|[|zi]]; cbn in Hz; inversion Hz; subst z; clear Hz; cbn in Hr;
      repeat (apply elem_of_cons in Hr as [->|Hr]; [by vm_compute|]); by apply not_elem_of_nil in Hr.
  - by vm_compute.
Defined.

(** Two NUMA nodes aligned by container; the first one has the device. *)
Definition container_scope_nrt : NodeResourceTopology :=
  example_nrt "SingleNUMANodeContainerLevel" [
    example_zone "node-0" [(ResourceCPU, cpus 10); (ResourceMemory, cpus 10); ("example.com/gpu", cpus 1)];
    example_zone "node-1" [(ResourceCPU, cpus 10); (ResourceMemory, cpus 20)]].
Definition memory_pod : Pod := example_pod "a" [{[ ResourceMemory := cpus 5 ]}].
Definition taken_second (zi : nat) (name : string) : Z :=
  if bool_decide (zi = 1%nat) && bool_decide (name = ResourceMemory) then cpus 5 else 0.
Definition picky_pod : Pod := example_pod "q" [
  {[ ResourceCPU := cpus 6; ResourceMemory := cpus 8 ]};
  {[ ResourceCPU := cpus 6; "example.com/gpu" := cpus 1 ]}].

(** At container scope pessimistic accounting does have false positives:
    charging an assumed pod to both NUMA nodes sends the first container to the
    second NUMA node, so the second container, which needs the device, fits the
    first; on the true topology the first container takes the first NUMA node
    and the second is left without CPUs. *)
Theorem container_scope_false_positive :
  let ov := ReserveNodeResources "n1" memory_pod (NewOverReserve [container_scope_nrt]) in
  let truth := placed taken_second container_scope_nrt in
  placement (default ∅ (assumedResources ov !! "n1")) container_scope_nrt taken_second /\
  (Filter example_native example_huge example_qos (fun _ => Err NotFound) picky_pod
     (Some ("n1", example_allocatable)) ov).1 = Some (NewStatus Success) /\
  singleNUMAContainerLevelHandler example_native example_huge example_qos picky_pod (nrt_zones truth)
    example_allocatable = Some (NewStatus Unschedulable).
Proof.
  cbv zeta. split; [|split; by vm_compute].
  intros zi z r Hz Hr. cbn in Hz. destruct zi as [|[|zi]]; cbn in Hz; inversion Hz; subst z; clear Hz; cbn in Hr;
    repeat (apply elem_of_cons in Hr as [->|Hr]; [by vm_compute|]); by apply not_elem_of_nil in Hr.
Qed.

(** C11. The state of [OverReserve] refines the history of its events: whatever
    reservations, withdrawals, rejections, foreign pods, attribute changes and
    flushes happened, a node's copy is stale exactly when a foreign pod was seen
    since the node's latest flush, and otherwise is the object of that flush (or
    of the start) less the requests of the pods reserved since and not taken
    back. *)
Theorem cache_refines_history objs h client node pod :
  let ov := cache_run objs h in
  let '(copy, info) := GetCachedNRTCopy client ov node pod in
  exists rs : resourceStore, (forall key, rs !! key = held node key (reverse h)) /\
    Fresh info = negb (foreign_seen objs node (reverse h)) /\
    copy = if foreign_seen objs node (reverse h) then None else UpdateNRT rs <$> known objs node (reverse h).
Proof.
  cbv zeta. pose proof (run_view objs h node) as Hv. cbv zeta in Hv. destruct Hv as (Hk & Hh & Hf).
  set (ov := cache_run objs h) in *. cbn in Hk, Hh, Hf. cbn. unfold IsSet.
  destruct (foreign_seen objs node (reverse h)).
  - rewrite bool_decide_eq_true_2 by by apply Hf. by exists (default ∅ (assumedResources ov !! node)).
  - rewrite bool_decide_eq_false_2 by (intros Hs; by apply Hf in Hs). rewrite <- Hk.
    destruct (nrts ov !! node) as [nrt|] eqn:En; cbn;
      exists (default ∅ (assumedResources ov !! node)); split; try done; split; try done.
    by destruct (assumedResources ov !! node).
Qed.

(** ** Resynchronisation *)

(** C30. [Resync] makes a node clean, with the API server's current object,
    exactly when the node's configuration changed, or it is dirty, the lister
    shows relevant pods on it and the object's fingerprint is that of those
    pods; everything held about any other node is unchanged. *)
Theorem resync_exact method relevant exclusive check client pods ov node
    (Hclient : forall n o, client n = Ok o -> nrt_name o = n) :
  view (Resync method relevant exclusive check client (Ok pods) ov) node
  = match resynced method relevant exclusive check client pods ov node with
    | Some nrt => fresh_view nrt
    | None => view ov node
    end.
Proof. by apply resync_view. Qed.

(** The API server's object with the fingerprint of the pods running there. *)
Definition with_fingerprint (v : string) (nrt : NodeResourceTopology) : NodeResourceTopology := {|
  nrt_name := nrt_name nrt; nrt_annotations := nrt_annotations nrt; nrt_policies := nrt_policies nrt;
  nrt_zones := nrt_zones nrt; nrt_attributes := [{| attr_name := Attribute; attr_value := v |}] |}.
Definition joined (pods : list (string * string)) : string :=
  foldr (fun p s => p.1 +:+ "/" +:+ p.2 +:+ ";" +:+ s) "" pods.
Definition joined_check (pods : list (string * string)) (expected : string) : bool :=
  bool_decide (joined pods = expected).
Definition n1_client (nrt : NodeResourceTopology) : NRTClient := fun n =>
  if bool_decide (n = "n1") then Ok nrt else Err NotFound.
Definition running (name : string) : Pod :=
  {| pod_meta := meta_named "default" name name; pod_spec := pod_spec (example_pod name []);
     pod_status := {| pstatus_phase := PodRunning; pstatus_nominated := ""; pstatus_start_time := None;
                      pstatus_conditions := [] |} |}.
Definition filtered_out (nrt : NodeResourceTopology) : OverReserve :=
  NodeMaybeOverReserved "n1" small_pod (one_assumed nrt).
Definition agent_nrt : NodeResourceTopology := with_fingerprint "default/old;" pod_scope_nrt.

Lemma resync_exact_witness :
  view (Resync CacheResyncAutodetect IsPodRelevantShared (fun _ => false) joined_check (n1_client agent_nrt)
    (Ok [running "old"]) (filtered_out pod_scope_nrt)) "n1" = fresh_view agent_nrt.
Proof.
  rewrite (resync_exact _ _ _ _ _ _ _ "n1").
  - by vm_compute.
  - intros n o. unfold n1_client. case_bool_decide as Hn; [|done]. intros [= <-]. by rewrite Hn.
Defined.

(** A dirty node on which the lister shows no relevant pod is never made
    clean by a resynchronisation unless its configuration changes: what the
    cache assumed of pods long gone stays charged to it. The code takes the case
    for impossible. *)
Theorem empty_node_never_resyncs method relevant exclusive check client pods ov node
    (Hclient : forall n o, client n = Ok o -> nrt_name o = n)
    (Hempty : forall p, p ∈ pods -> relevant p = true -> pod_node p <> node)
    (Hattr : nodesWithAttrUpdate ov !! node = None) :
  view (Resync method relevant exclusive check client (Ok pods) ov) node = view ov node.
Proof.
  rewrite resync_view by done. unfold resynced. destruct (client node) as [nrt|]; [|done].
  assert (relevant_on relevant node pods = []) as ->.
  { destruct (relevant_on relevant node pods) as [|p ps] eqn:E; [done|]. exfalso.
    assert (p ∈ relevant_on relevant node pods) as Hp by (rewrite E; by left).
    apply list_elem_of_filter in Hp as [[Hr Hn] Hp]. by apply (Hempty p). }
  rewrite bool_decide_eq_false_2 by (rewrite Hattr; by intros [? ?]).
  by rewrite (bool_decide_eq_true_2 ([] = [])), andb_false_r by done.
Qed.

Lemma empty_node_never_resyncs_witness :
  view (Resync CacheResyncAutodetect IsPodRelevantShared (fun _ => false) joined_check (n1_client agent_nrt)
    (Ok []) (filtered_out pod_scope_nrt)) "n1" = view (filtered_out pod_scope_nrt) "n1" /\
  bool_decide (is_Some (assumedResources (filtered_out pod_scope_nrt) !! "n1")) = true.
Proof.
  split; [|by vm_compute]. apply empty_node_never_resyncs.
  - intros n o. unfold n1_client. case_bool_decide as Hn; [|done]. intros [= <-]. by rewrite Hn.
  - by intros p ?%not_elem_of_nil.
  - by vm_compute.
Defined.

(** A pod only the second NUMA node can hold. *)
Definition large_pod : Pod := example_pod "b" [{[ ResourceCPU := cpus 6 ]}].

(** A resynchronisation forgets a reservation whose pod is bound but not yet
    running: the fingerprint compares the object with the pods the lister shows
    running, not with the pods the cache counts, so the object from before the
    pod matches, the assumed request is dropped, and [Filter] accepts a pod of 8
    CPUs although the pod of 6 can only be where those 8 are. *)
Theorem resync_forgets_reservation :
  let before := NodeMaybeOverReserved "n1" small_pod
    (ReserveNodeResources "n1" large_pod (NewOverReserve [pod_scope_nrt])) in
  let after := Resync CacheResyncAutodetect IsPodRelevantShared (fun _ => false) joined_check
    (n1_client agent_nrt) (Ok [running "old"; large_pod]) before in
  let greedy := example_pod "g" [{[ ResourceCPU := cpus 8 ]}] in
  let accept ov := (Filter example_native example_huge example_qos (n1_client agent_nrt) greedy
    (Some ("n1", example_allocatable)) ov).1 in
  accept before = Some (NewStatus Unschedulable) /\ accept after = Some (NewStatus Success) /\
  assumedResources after !! "n1" = None.
Proof. vm_compute. done. Qed.

(** ** Scores *)

(** The least- and most-allocated strategies score a NUMA node between 0
    and 100 for amounts below 2^63 / 100 and weights whose sum does not
    overflow, and panic exactly for an empty request, where the weights sum to
    0. *)
Theorem numa_strategy_bounds requested allocatable rw
    (Hallocatable : small_list allocatable) (Hrequested : small_list requested)
    (Hweights : weights rw requested * 100 <= MaxInt64) :
  Forall (fun strategy : scoreStrategyFn =>
      match strategy requested allocatable rw with
      | Some s => requested <> ∅ /\ 0 <= s <= 100
      | None => requested = ∅
      end)
    [leastAllocatedScoreStrategy; mostAllocatedScoreStrategy].
Proof.
  repeat constructor; apply strategy_bounds; auto using least_percentage, most_percentage.
Qed.

Lemma small_list_check (rs : ResourceList) :
  forallb (fun nq => (0 <=? nq.2) && (nq.2 <=? 92233720368547758 * 1000000000)) (map_to_list rs) = true -> small_list rs.
Proof.
  intros Hf name q Hq. rewrite forallb_forall in Hf. specialize (Hf (name, q)).
  rewrite <- list_elem_of_In, elem_of_map_to_list in Hf. specialize (Hf Hq).
  apply andb_true_iff in Hf as [?%Z.leb_le ?%Z.leb_le]. by split.
Qed.

Lemma numa_strategy_bounds_witness :
  let requested : ResourceList := {[ ResourceCPU := cpus 2; ResourceMemory := cpus 1 ]} in
  let allocatable : ResourceList := {[ ResourceCPU := cpus 8; ResourceMemory := cpus 2 ]} in
  Forall (fun strategy : scoreStrategyFn =>
      match strategy requested allocatable {[ ResourceCPU := 3 ]} with
      | Some s => requested <> ∅ /\ 0 <= s <= 100
      | None => requested = ∅
      end) [leastAllocatedScoreStrategy; mostAllocatedScoreStrategy] /\
  leastAllocatedScoreStrategy requested allocatable {[ ResourceCPU := 3 ]} = Some 68.
Proof.
  cbv zeta. split; [|by vm_compute]. apply numa_strategy_bounds;
    [by apply small_list_check|by apply small_list_check|by vm_compute].
Defined.

(** The score of a node is the least of its NUMA nodes' scores that are not
    0, or 0. It panics exactly when some NUMA ID is not below the number of NUMA
    nodes, because the scores are also stored in a slice of that length. *)
Theorem numa_min_score_exact requested numaList score rw (s : NUMANode -> Z)
    (Hscore : forall n, n ∈ numaList -> score requested (Resources n) rw = Some (s n)) :
  match scoreForEachNUMANode requested numaList score rw with
  | Some m => (forall n, n ∈ numaList -> 0 <= NUMAID n < Z.of_nat (length numaList)) /\
      least_nonzero m (s <$> numaList)
  | None => exists n, n ∈ numaList /\ ~ 0 <= NUMAID n < Z.of_nat (length numaList)
  end.
Proof. by apply numa_min_spec. Qed.

Definition numa_node (id : Z) (rs : ResourceList) : NUMANode := {| NUMAID := id; Resources := rs; Costs := ∅ |}.
(** The only other NUMA node has the ID 2. *)
Definition sparse_nodes : NUMANodeList := [
  numa_node 0 {[ ResourceCPU := cpus 4 ]}; numa_node 2 {[ ResourceCPU := cpus 8 ]}].

Lemma numa_min_score_exact_witness :
  scoreForEachNUMANode {[ ResourceCPU := cpus 2 ]} sparse_nodes leastAllocatedScoreStrategy ∅ = None /\
  match scoreForEachNUMANode {[ ResourceCPU := cpus 2 ]} sparse_nodes leastAllocatedScoreStrategy ∅ with
  | Some m => (forall n, n ∈ sparse_nodes -> 0 <= NUMAID n < Z.of_nat (length sparse_nodes)) /\
      least_nonzero m ((fun n => if bool_decide (NUMAID n = 0) then 50 else 75) <$> sparse_nodes)
  | None => exists n, n ∈ sparse_nodes /\ ~ 0 <= NUMAID n < Z.of_nat (length sparse_nodes)
  end.
Proof.
  split; [by vm_compute|]. apply numa_min_score_exact.
  intros n [->|[->|?%not_elem_of_nil]%elem_of_cons]%elem_of_cons; [by vm_compute..|done].
Defined.

(** C33. The search for the fewest NUMA nodes ends without a panic. It answers
    with the mask of NUMA nodes that all report every requested resource and
    together have enough, no smaller choice of NUMA nodes does, and the mask
    counts them; it answers no exactly when no choice does. *)
Theorem least_numa_minimal isHuge Combinations qos numaNodes request
    (Hcombinations : combinations_law Combinations)
    (Hdistances : distances_small Combinations numaNodes)
    (Hids : Forall (fun n => 0 <= NUMAID n < 64) numaNodes) (Hdistinct : NoDup (NUMAID <$> numaNodes)) :
  match numaNodesRequired isHuge Combinations qos numaNodes request with
  | Some (Some bm, _) => exists k c, (1 <= k <= length numaNodes)%nat /\ Count bm = Z.of_nat k /\
      is_choice (length numaNodes) k c /\ choice_fits isHuge qos numaNodes request c /\
      combination_mask numaNodes c = Some bm /\
      forall j c', (1 <= j < k)%nat -> is_choice (length numaNodes) j c' -> ~ choice_fits isHuge qos numaNodes request c'
  | Some (None, b) => b = false /\ forall k c, (1 <= k <= length numaNodes)%nat ->
      is_choice (length numaNodes) k c -> ~ choice_fits isHuge qos numaNodes request c
  | None => False
  end.
Proof.
  unfold numaNodesRequired.
  destruct (required_spec isHuge Combinations qos numaNodes request Hcombinations Hdistances (length numaNodes) 1)
    as (r & b & -> & Hr); [done|lia|].
  destruct r as [bm|]; [|done]. destruct Hr as (k & c & Hk & Hc & Hf & Hm & Hmin).
  exists k, c. split; [done|]. split; [|done]. pose proof Hc as (_ & _ & Hb). by eapply count_choice.
Qed.

Definition two_nodes : NUMANodeList := [
  numa_node 0 {[ ResourceCPU := cpus 4 ]}; numa_node 1 {[ ResourceCPU := cpus 8 ]}].

Lemma least_numa_minimal_witness :
  numaNodesRequired example_huge combinations Guaranteed two_nodes {[ ResourceCPU := cpus 10 ]} = Some (Some 3, true) /\
  match numaNodesRequired example_huge combinations Guaranteed two_nodes {[ ResourceCPU := cpus 10 ]} with
  | Some (Some bm, _) => exists k c, (1 <= k <= length two_nodes)%nat /\ Count bm = Z.of_nat k /\
      is_choice (length two_nodes) k c /\ choice_fits example_huge Guaranteed two_nodes {[ ResourceCPU := cpus 10 ]} c /\
      combination_mask two_nodes c = Some bm /\
      forall j c', (1 <= j < k)%nat -> is_choice (length two_nodes) j c' ->
        ~ choice_fits example_huge Guaranteed two_nodes {[ ResourceCPU := cpus 10 ]} c'
  | Some (None, b) => b = false /\ forall k c, (1 <= k <= length two_nodes)%nat ->
      is_choice (length two_nodes) k c -> ~ choice_fits example_huge Guaranteed two_nodes {[ ResourceCPU := cpus 10 ]} c
  | None => False
  end.
Proof.
  split; [by vm_compute|]. apply least_numa_minimal.
  - exact combinations_lawful.
  - intros k Hk. cbn in Hk. assert (k = 1 \/ k = 2)%nat as [-> | ->] by lia; cbn -[near_enough];
      repeat constructor; (eexists; split; [by vm_compute|by vm_compute]).
  - repeat constructor; by vm_compute.
  - apply (bool_decide_unpack _). vm_compute. exact I.
Defined.

(** Up to eight NUMA nodes, the score stays within 0 and 100 and a pod that
    needs fewer NUMA nodes scores strictly higher, whatever the distances; among
    equal counts the least distance adds 6. From nine NUMA nodes on the score
    without that bonus is negative. *)
Theorem fewer_numa_nodes_score_higher m n b b'
    (Hm : 1 <= m < n) (Hn : n <= 8) :
  MinNodeScore <= normalizeScore n b < normalizeScore m b' /\ normalizeScore m b' <= MaxNodeScore /\
  normalizeScore m true = normalizeScore m false + 6 /\ normalizeScore 9 false < MinNodeScore.
Proof.
  rewrite !normalize_exact by lia. unfold MinNodeScore, MaxNodeScore. destruct b, b'; lia.
Qed.

Lemma fewer_numa_nodes_score_higher_witness :
  MinNodeScore <= normalizeScore 2 true < normalizeScore 1 false /\ normalizeScore 1 false <= MaxNodeScore /\
  normalizeScore 1 true = normalizeScore 1 false + 6 /\ normalizeScore 9 false < MinNodeScore.
Proof. apply (fewer_numa_nodes_score_higher 1 2 true false); lia. Defined.

(** Zones listed from the higher NUMA ID down. *)
Definition reversed_nrt : list Zone := [
  example_zone "node-1" [(ResourceCPU, cpus 4)]; example_zone "node-0" [(ResourceCPU, cpus 8)]].
Definition two_large : Pod := example_pod "l" [{[ ResourceCPU := cpus 8 ]}; {[ ResourceCPU := cpus 8 ]}].

(** The least-NUMA strategy takes a container's request from the zone at the
    position its NUMA ID gives, not from the zone with that ID. With the zones
    listed in ID order a pod of two 8-CPU containers does not fit the node and
    scores 0; with the same zones in the other order it scores as if it fitted
    one NUMA node; and where an ID is past the end of the list the strategy
    panics. *)
Theorem least_numa_charges_wrong_zone :
  let score zones := leastNUMAContainerScopeScore example_huge combinations example_qos two_large zones in
  score (reverse reversed_nrt) = Some (MinNodeScore, NewStatus Success) /\
  score reversed_nrt = Some (94, NewStatus Success) /\
  score [example_zone "node-0" [(ResourceCPU, cpus 4)]; example_zone "node-2" [(ResourceCPU, cpus 8)]] = None.
Proof. vm_compute. done. Qed.
