(* ===== verification/SySched.v ===== *)
(** * System-call aware scoring ([pkg/sysched/sysched.go])

    The plugin prefers nodes whose pods need the same system calls as the
    incoming pod. It keeps, per node, the pods it saw and the union of their
    system calls, and scores a node by the calls that each of its pods, and the
    incoming one, would have at hand without needing them.

    What an operation reads from the API server is an argument of it: the
    seccomp profiles ([Env], with the order in which it meets the annotations of
    a pod, which Go leaves open) and the node. *)

From S2P Require Import Prelude.
From S2P Require Import GoFloat.
From S2P Require Import GoStrings.
From S2P Require Import KubeTypes.
From S2P Require Import Framework.
From Stdlib Require Import SpecFloat.

(** ** Pods with their security contexts *)

Record SeccompProfile := { sp_type : string; sp_localhost : option string }.

(** A pod, the profile of its security context, those of its containers, and
    its [Status.HostIP]. A nil context and a nil profile are both [None]. *)
Record SecuredPod := {
  sec_pod : Pod;
  pod_seccomp : option SeccompProfile;
  container_seccomp : list (option SeccompProfile);
  host_ip : string;
}.

Definition sec_name (p : SecuredPod) : string := pod_name (sec_pod p).
Definition sec_node (p : SecuredPod) : string := pod_node (sec_pod p).

(** A rule of the security profiles operator's [SeccompProfile]. *)
Record Syscall := { sc_names : list string; sc_action : string }.

Definition ActAllow : string := "SCMP_ACT_ALLOW".
Definition ActLog : string := "SCMP_ACT_LOG".

(** What an operation reads: the rules of the profile with a name in a
    namespace, and the annotations of a pod in the order a loop meets them. *)
Record Env := {
  get_profile : string -> string -> result (list Syscall);
  range_annotations : SecuredPod -> list (string * string);
}.

(** ** System calls of a pod *)

Definition SPO_ANNOTATION : string := "seccomp.security.alpha.kubernetes.io".

(** The namespace and the name in a path of a profile. *)
Definition parseNameNS (profilePath : string) : string * string :=
  if bool_decide (profilePath = "") then ("", "")
  else
    match reverse (Split "/" profilePath) with
    | last :: ns :: _ => (ns, TrimSuffix last (Ext last))
    | _ => ("", "")
    end.

Definition readSPOProfileCR (env : Env) (name namespace : string) : result (gset string) :=
  if bool_decide (name = "") || bool_decide (namespace = "") then Ok ∅
  else
    match get_profile env namespace name with
    | Err e => Err e
    | Ok syscallCategories =>
        Ok (foldl (fun syscalls element =>
              if bool_decide (sc_action element = ActAllow) || bool_decide (sc_action element = ActLog)
              then syscalls ∪ list_to_set (sc_names element) else syscalls) ∅ syscallCategories)
    end.

(** The calls of a read that failed are none. *)
Definition read_calls (r : result (gset string)) : gset string :=
  match r with Ok syscalls => syscalls | Err _ => ∅ end.

(** A profile of a security context. *)
Definition context_calls (env : Env) (profile : option SeccompProfile) : gset string :=
  match profile with
  | Some p =>
      if bool_decide (sp_type p = "Localhost") then
        match sp_localhost p with
        | Some profilePath =>
            let '(ns, name) := parseNameNS profilePath in
            if bool_decide (ns <> "") && bool_decide (name <> "")
            then read_calls (readSPOProfileCR env name ns) else ∅
        | None => ∅
        end
      else ∅
  | None => ∅
  end.

(** The loop over the annotations: it leaves at the first annotation of the
    operator, unless reading its profile fails. *)
Fixpoint annotation_loop (env : Env) (r : gset string) (annotations : list (string * string)) : gset string :=
  match annotations with
  | [] => r
  | (k, v) :: rest =>
      if Contains k SPO_ANNOTATION then
        let '(ns, name) := parseNameNS v in
        if bool_decide (ns <> "") && bool_decide (name <> "") then
          match readSPOProfileCR env name ns with
          | Err _ => annotation_loop env r rest
          | Ok syscalls => r ∪ syscalls
          end
        else r
      else annotation_loop env r rest
  end.

(** ** The plugin *)

Record SySched := {
  HostToPods : gmap string (list SecuredPod);
  HostSyscalls : gmap string (gset string);
  ExSAvg : spec_float;
  ExSAvgCount : Z;
  DefaultProfileNamespace : string;
  DefaultProfileName : string;
}.

(** [New] with the names of the default profile. *)
Definition New (defaultNamespace defaultName : string) : SySched := {|
  HostToPods := ∅; HostSyscalls := ∅; ExSAvg := float64 0; ExSAvgCount := 1;
  DefaultProfileNamespace := defaultNamespace; DefaultProfileName := defaultName |}.

Definition set_host (pods : gmap string (list SecuredPod)) (calls : gmap string (gset string)) (sc : SySched)
    : SySched := {|
  HostToPods := pods; HostSyscalls := calls; ExSAvg := ExSAvg sc; ExSAvgCount := ExSAvgCount sc;
  DefaultProfileNamespace := DefaultProfileNamespace sc; DefaultProfileName := DefaultProfileName sc |}.

Definition set_average (avg : spec_float) (count : Z) (sc : SySched) : SySched := {|
  HostToPods := HostToPods sc; HostSyscalls := HostSyscalls sc; ExSAvg := avg; ExSAvgCount := count;
  DefaultProfileNamespace := DefaultProfileNamespace sc; DefaultProfileName := DefaultProfileName sc |}.

(** The calls of a pod: its contexts', its annotation's, or else those of the
    default profile. *)
Definition getSyscalls (env : Env) (sc : SySched) (pod : SecuredPod) : gset string :=
  let r := context_calls env (pod_seccomp pod) in
  let r := foldl (fun r c => r ∪ context_calls env c) r (container_seccomp pod) in
  let r := annotation_loop env r (range_annotations env pod) in
  if bool_decide (r = ∅)
  then read_calls (readSPOProfileCR env (DefaultProfileName sc) (DefaultProfileNamespace sc))
  else r.

Definition calcScore (syscalls : gset string) : Z :=
  let totCrit := 0 in
  let W := 1 in
  let score := Z.of_nat (size syscalls) -! totCrit in
  score +! W *! totCrit.

Definition MaxInt64 : Z := 9223372036854775807.

(** [getHostSyscalls]: a node without an entry has a nil set ([None]). *)
Definition getHostSyscalls (nodeName : string) (sc : SySched) : option (gset string) :=
  HostSyscalls sc !! nodeName.

(** The loop of [Score] over the pods of the node. *)
Definition existing_diffs (env : Env) (sc : SySched) (newHostSyscalls : gset string) (totalDiffs : Z)
    (pods : list SecuredPod) : Z :=
  foldl (fun totalDiffs p => totalDiffs +! calcScore (newHostSyscalls ∖ getSyscalls env sc p))
    totalDiffs pods.

(** The running average of the scores. *)
Definition record_score (totalDiffs : Z) (sc : SySched) : SySched :=
  set_average
    (f64_add (ExSAvg sc) (f64_div (f64_sub (float64 totalDiffs) (ExSAvg sc)) (float64 (ExSAvgCount sc))))
    (ExSAvgCount sc +! 1) sc.

(** [Score]: [node] is the API server's answer for the node. *)
Definition Score (env : Env) (pod : SecuredPod) (node : result Node) (sc : SySched)
    : Z * FStatus * SySched :=
  match node with
  | Err _ => (0, NewStatus Success, sc)
  | Ok node =>
      let podSyscalls := getSyscalls env sc pod in
      if bool_decide (podSyscalls = ∅) then (MaxInt64, NewStatus Success, sc)
      else
        match getHostSyscalls (meta_name (node_meta node)) sc with
        | None => (0, NewStatus Success, sc)
        | Some hostSyscalls =>
            let totalDiffs := calcScore (hostSyscalls ∖ podSyscalls) in
            let newHostSyscalls := hostSyscalls ∪ podSyscalls in
            let totalDiffs := existing_diffs env sc newHostSyscalls totalDiffs
                                (default [] (HostToPods sc !! meta_name (node_meta node))) in
            (totalDiffs, NewStatus Success, record_score totalDiffs sc)
        end
  end.

Definition NormalizeScore (scores : NodeScoreList) : NodeScoreList :=
  DefaultNormalizeScore MaxNodeScore true scores.

(** ** The pods on each node *)

Definition updateHostSyscalls (env : Env) (pod : SecuredPod) (sc : SySched) : SySched :=
  set_host (HostToPods sc)
    (<[sec_node pod := default ∅ (HostSyscalls sc !! sec_node pod) ∪ getSyscalls env sc pod]> (HostSyscalls sc)) sc.

Definition addPod (env : Env) (pod : SecuredPod) (sc : SySched) : SySched :=
  let nodeName := sec_node pod in
  match HostToPods sc !! nodeName with
  | None =>
      updateHostSyscalls env pod
        (set_host (<[nodeName := [pod]]> (HostToPods sc)) (<[nodeName := ∅]> (HostSyscalls sc)) sc)
  | Some pods =>
      if existsb (fun p => bool_decide (sec_name p = sec_name pod)) pods then sc
      else updateHostSyscalls env pod
             (set_host (<[nodeName := pods ++ [pod]]> (HostToPods sc)) (HostSyscalls sc) sc)
  end.

(** [remove]: the last element takes the place of the removed one. *)
Definition remove (s : list SecuredPod) (i : nat) : list SecuredPod :=
  match last s with
  | None => []
  | Some l => take (length s - 1) (<[i := l]> s)
  end.

Definition recomputeHostSyscalls (env : Env) (sc : SySched) (pods : list SecuredPod) : gset string :=
  foldl (fun syscalls p => syscalls ∪ getSyscalls env sc p) ∅ pods.

Definition removePod (env : Env) (pod : SecuredPod) (sc : SySched) : SySched :=
  let nodeName := sec_node pod in
  match HostToPods sc !! nodeName with
  | None => sc
  | Some pods =>
      match list_find (fun p => sec_name p = sec_name pod) pods with
      | Some (i, _) =>
          let pods' := remove pods i in
          set_host (<[nodeName := pods']> (HostToPods sc))
            (<[nodeName := recomputeHostSyscalls env sc pods']> (HostSyscalls sc)) sc
      | None => sc
      end
  end.

(** ** The informer's handlers *)

Definition podAdded (env : Env) (pod : SecuredPod) (sc : SySched) : SySched :=
  if bool_decide (pod_phase (sec_pod pod) = PodRunning) then addPod env pod sc else sc.

(** The handler looks at the old pod. *)
Definition podUpdated (env : Env) (old new : SecuredPod) (sc : SySched) : SySched :=
  if bool_decide (pod_phase (sec_pod old) = PodPending) && bool_decide (host_ip old <> "")
  then addPod env old sc else sc.

(** The type assertion panics on a tombstone. *)
Definition podDeleted (env : Env) (obj : Deleted_ SecuredPod) (sc : SySched) : option SySched :=
  match obj with
  | Gone _ pod => Some (removePod env pod sc)
  | DeletedFinalStateUnknown _ _ => None
  end.

(** ** Runs: the handlers of the informer and the scores of the scheduler in any
    order, each with answers of the API server that satisfy [ok] *)

Section Runs.
Variable ok : Env -> Prop.

Inductive step (sc : SySched) : SySched -> Prop :=
| step_added env pod : ok env -> step sc (podAdded env pod sc)
| step_updated env old new : ok env -> step sc (podUpdated env old new sc)
| step_deleted env obj sc' : ok env -> podDeleted env obj sc = Some sc' -> step sc sc'
| step_score env pod node : ok env -> step sc (Score env pod node sc).2.

Inductive reachable (defaultNamespace defaultName : string) : SySched -> Prop :=
| reach_new : reachable defaultNamespace defaultName (New defaultNamespace defaultName)
| reach_step sc sc' : reachable defaultNamespace defaultName sc -> step sc sc' ->
    reachable defaultNamespace defaultName sc'.
End Runs.
