(* ===== verification/SySchedProofs.v ===== *)
(** * Lemmas on system-call aware scoring *)

From S2P Require Import Prelude.
From S2P Require Import GoFloat.
From S2P Require Import GoStrings.
From S2P Require Import KubeTypes.
From S2P Require Import Framework.
From S2P Require Import SySched.

(** The pods a node is known to run. *)
Definition tracked (sc : SySched) (n : string) : list SecuredPod := default [] (HostToPods sc !! n).

(** Pods are kept under their node, once per name, and the two maps have the
    same nodes. *)
Record tracked_ok (sc : SySched) : Prop := {
  at_node : forall n p, p ∈ tracked sc n -> sec_node p = n;
  one_per_name : forall n, NoDup (sec_name <$> tracked sc n);
  same_nodes : forall n, is_Some (HostToPods sc !! n) <-> is_Some (HostSyscalls sc !! n);
}.

Definition named (p : SecuredPod) (q : SecuredPod) : Prop := sec_name q = sec_name p.

#[export] Instance named_dec p q : Decision (named p q).
Proof. unfold named. apply _. Defined.

(** ** The slice operations *)

Lemma remove_perm s i x : s !! i = Some x -> remove s i ≡ₚ delete i s.
Proof.
  intros Hi. unfold remove.
  destruct (last s) as [l|] eqn:El; [|apply last_None in El as ->; done].
  apply last_Some in El as [s' ->]. rewrite length_app. cbn [length].
  replace (length s' + 1 - 1)%nat with (length s') by lia.
  destruct (decide (i < length s')%nat) as [Hlt|Hge].
  - rewrite insert_app_l, take_app_le, take_ge by (rewrite ?length_insert; lia).
    rewrite lookup_app_l in Hi by done. rewrite delete_take_drop, take_app_le, drop_app_le by lia.
    rewrite insert_take_drop by done. rewrite app_assoc, (Permutation_app_comm _ [l]). cbn.
    by rewrite Permutation_middle.
  - assert (i = length s') as ->.
    { apply lookup_lt_Some in Hi. rewrite length_app in Hi. cbn in Hi. lia. }
    rewrite insert_app_r_alt, Nat.sub_diag by done. cbn.
    rewrite take_app_le, take_ge by lia.
    rewrite delete_take_drop, take_app_le, take_ge by lia.
    rewrite drop_ge by (rewrite length_app; cbn; lia). by rewrite app_nil_r.
Qed.

(** With distinct names the first pod with a name is the only one. *)
Lemma remove_named pods pod i q : NoDup (sec_name <$> pods) ->
  list_find (named pod) pods = Some (i, q) ->
  remove pods i ≡ₚ filter (fun p => ~ named pod p) pods.
Proof.
  intros Hnd (Hi & Hq & Hfirst)%list_find_Some. rewrite (remove_perm _ _ _ Hi).
  rewrite <- (take_drop_middle _ _ _ Hi) at 2. rewrite delete_take_drop.
  rewrite filter_app, filter_cons, decide_False by naive_solver.
  assert (forall l : list SecuredPod, (forall p, p ∈ l -> ~ named pod p) -> filter (fun p => ~ named pod p) l = l) as Hall.
  { induction l as [|p l IH]; intros Hl; [done|]. rewrite filter_cons, decide_True by (apply Hl; left).
    rewrite IH; [done|]. intros; apply Hl; by right. }
  rewrite <- (take_drop_middle _ _ _ Hi), fmap_app, fmap_cons in Hnd.
  apply NoDup_app in Hnd as (_ & Hd1 & Hd2). apply NoDup_cons in Hd2 as [Hd2 _].
  unfold named in Hq. rewrite !Hall; [done| |].
  - intros p Hp Hn. apply Hd2, list_elem_of_fmap. exists p. unfold named in Hn. by rewrite Hq, Hn.
  - intros p Hp Hn. apply (Hd1 (sec_name q)); [|left].
    apply list_elem_of_fmap. exists p. unfold named in Hn. by rewrite Hq, Hn.
Qed.

(** ** The tracked pods after each operation *)

Definition add_tracked (pod : SecuredPod) (pods : list SecuredPod) : list SecuredPod :=
  if decide (Exists (named pod) pods) then pods else pods ++ [pod].

Lemma existsb_named {A} pod pods (x y : A) :
  (if existsb (fun p => bool_decide (sec_name p = sec_name pod)) pods then x else y) =
  (if decide (Exists (named pod) pods) then x else y).
Proof.
  case_decide as H; [rewrite (proj2 (existsb_exists _ _)); [done|]|].
  - apply Exists_exists in H as (p & Hp & Hn). exists p.
    by rewrite <- list_elem_of_In, bool_decide_eq_true.
  - destruct (existsb _ pods) eqn:E; [|done]. apply existsb_exists in E as (p & Hp & Hn).
    destruct H. apply Exists_exists. exists p. rewrite list_elem_of_In. by rewrite bool_decide_eq_true in Hn.
Qed.

Lemma addPod_tracked env pod sc n :
  tracked (addPod env pod sc) n =
    if decide (sec_node pod = n) then add_tracked pod (tracked sc n) else tracked sc n.
Proof.
  unfold addPod, tracked, add_tracked, updateHostSyscalls.
  destruct (HostToPods sc !! sec_node pod) as [pods|] eqn:E.
  - rewrite existsb_named. destruct (decide (sec_node pod = n)) as [Hn|Hn]; [subst n; rewrite E; cbn [default from_option id]|].
    + case_decide; [by rewrite E|]. cbn. by rewrite lookup_insert_eq.
    + case_decide; [done|]. cbn. by rewrite lookup_insert_ne.
  - cbn. destruct (decide (sec_node pod = n)) as [Hn|Hn]; [subst n; rewrite E, lookup_insert_eq|by rewrite lookup_insert_ne].
    cbn. rewrite decide_False; [done|]. by intros ?%Exists_nil.
Qed.

Lemma removePod_tracked env pod sc n : tracked_ok sc ->
  tracked (removePod env pod sc) n ≡ₚ
    if decide (sec_node pod = n) then filter (fun p => ~ named pod p) (tracked sc n) else tracked sc n.
Proof.
  intros Hok. unfold removePod. pose proof (one_per_name _ Hok (sec_node pod)) as Hnd. revert Hnd.
  unfold tracked. destruct (HostToPods sc !! sec_node pod) as [pods|] eqn:E; cbn [default from_option id]; intros Hnd.
  - fold (named pod). destruct (list_find _ pods) as [[i q]|] eqn:Ef; cbn [HostToPods set_host].
    + destruct (decide (sec_node pod = n)) as [Hn|Hn]; [subst n|by rewrite lookup_insert_ne].
      rewrite lookup_insert_eq, E. by apply (remove_named pods pod i q).
    + destruct (decide (sec_node pod = n)) as [Hn|Hn]; [subst n|done]. rewrite E. cbn. apply list_find_None in Ef.
      clear -Ef. induction Ef as [|p l Hp _ IH]; [done|]. rewrite filter_cons, decide_True by done.
      by rewrite <- IH at 1.
  - destruct (decide (sec_node pod = n)) as [Hn|Hn]; [subst n|done]. by rewrite E.
Qed.

(** ** The nodes of the two maps *)

Lemma addPod_nodes env pod sc : tracked_ok sc -> forall n,
  is_Some (HostToPods (addPod env pod sc) !! n) <-> is_Some (HostSyscalls (addPod env pod sc) !! n).
Proof.
  intros Hok n. pose proof (same_nodes _ Hok n) as Hs. unfold addPod, updateHostSyscalls.
  destruct (HostToPods sc !! sec_node pod) as [pods|] eqn:E; [case_match; [done|]|]; cbn;
    destruct (decide (sec_node pod = n)) as [<-|?];
    rewrite ?lookup_insert_eq, ?lookup_insert_ne by done; done || (split; eauto).
Qed.

Lemma removePod_nodes env pod sc : tracked_ok sc -> forall n,
  is_Some (HostToPods (removePod env pod sc) !! n) <-> is_Some (HostSyscalls (removePod env pod sc) !! n).
Proof.
  intros Hok n. pose proof (same_nodes _ Hok n) as Hs. unfold removePod.
  destruct (HostToPods sc !! sec_node pod) as [pods|] eqn:E; [|done].
  destruct (list_find _ pods) as [[i q]|]; [|done]. cbn.
  destruct (decide (sec_node pod = n)) as [<-|?];
    rewrite ?lookup_insert_eq, ?lookup_insert_ne by done; done || (split; eauto).
Qed.

(** ** The invariant of the tracked pods *)

Lemma tracked_ok_empty sc : HostToPods sc = ∅ -> HostSyscalls sc = ∅ -> tracked_ok sc.
Proof.
  intros H1 H2. split; unfold tracked; rewrite ?H1, ?H2; intros n; rewrite ?lookup_empty; cbn.
  - by intros p ?%not_elem_of_nil.
  - constructor.
  - done.
Qed.

Lemma addPod_ok env pod sc : tracked_ok sc -> tracked_ok (addPod env pod sc).
Proof.
  intros Hok. split; [intros n p|intros n|by apply addPod_nodes]; rewrite addPod_tracked.
  - case_decide as Hn; [|by apply at_node]. unfold add_tracked. case_decide; [by apply at_node|].
    intros [Hp| ->%list_elem_of_singleton]%elem_of_app; [by apply (at_node _ Hok)|done].
  - pose proof (one_per_name _ Hok n) as Hnd. case_decide; [|done]. unfold add_tracked.
    case_decide as He; [done|]. rewrite fmap_app. apply NoDup_app. split; [done|].
    split; [|apply NoDup_singleton]. intros m (p & -> & Hp)%list_elem_of_fmap Hin.
    cbn in Hin. apply list_elem_of_singleton in Hin. apply He, Exists_exists. by exists p.
Qed.

Lemma removePod_ok env pod sc : tracked_ok sc -> tracked_ok (removePod env pod sc).
Proof.
  intros Hok. split; [intros n p|intros n|by apply removePod_nodes]; rewrite removePod_tracked by done.
  - intros Hp. apply (at_node _ Hok). case_decide; [|done]. by apply list_elem_of_filter in Hp as [_ Hp].
  - pose proof (one_per_name _ Hok n) as Hnd. case_decide; [|done].
    eapply sublist_NoDup; [exact Hnd|]. apply fmap_sublist, sublist_filter.
Qed.

Lemma score_tables env pod node sc :
  HostToPods (Score env pod node sc).2 = HostToPods sc /\
  HostSyscalls (Score env pod node sc).2 = HostSyscalls sc.
Proof. unfold Score. go_cases; done. Qed.

Lemma same_tables_ok sc sc' : HostToPods sc' = HostToPods sc -> HostSyscalls sc' = HostSyscalls sc ->
  tracked_ok sc -> tracked_ok sc'.
Proof.
  intros H1 H2 [Hn Hd Hs]. split; unfold tracked in *; rewrite ?H1, ?H2; done.
Qed.

(** A property of states that adding and removing pods keep, and that depends
    on the tables only, holds along every run. *)
Lemma run_ind ok (P : SySched -> Prop) dns dn :
  P (New dns dn) ->
  (forall sc sc', HostToPods sc' = HostToPods sc -> HostSyscalls sc' = HostSyscalls sc ->
    DefaultProfileNamespace sc' = DefaultProfileNamespace sc ->
    DefaultProfileName sc' = DefaultProfileName sc -> P sc -> P sc') ->
  (forall env pod sc, ok env -> P sc -> P (addPod env pod sc)) ->
  (forall env pod sc, ok env -> P sc -> P (removePod env pod sc)) ->
  forall sc, reachable ok dns dn sc -> P sc.
Proof.
  intros H0 Heq Hadd Hrem sc. induction 1 as [|sc sc' _ IH Hstep]; [done|].
  destruct Hstep as [env pod Hok|env old new Hok|env [pod|pod] sc' Hok Hd|env pod node Hok].
  - unfold podAdded. case_bool_decide; auto.
  - unfold podUpdated. destruct (_ && _); auto.
  - injection Hd as <-. auto.
  - done.
  - eapply Heq; [apply score_tables..| | |exact IH]; unfold Score; go_cases; done.
Qed.

Lemma reachable_tracked ok dns dn sc : reachable ok dns dn sc -> tracked_ok sc.
Proof.
  apply run_ind; intros; [by apply tracked_ok_empty|by eapply same_tables_ok|by apply addPod_ok|by apply removePod_ok].
Qed.

(** ** The system calls of a node *)

(** The calls of every pod, with the default profile of the plugin. *)
Definition reads (sys : SecuredPod -> gset string) (dns dn : string) (env : Env) : Prop :=
  forall p, getSyscalls env (New dns dn) p = sys p.

Definition calls_on (sys : SecuredPod -> gset string) (pods : list SecuredPod) : gset string :=
  ⋃ (sys <$> pods).

#[export] Instance calls_on_perm sys : Proper (Permutation ==> eq) (calls_on sys).
Proof.
  intros l1 l2 Hl. apply set_eq. intros c. unfold calls_on. rewrite !elem_of_union_list.
  setoid_rewrite list_elem_of_fmap. by setoid_rewrite Hl.
Qed.

Lemma calls_on_app sys l1 l2 : calls_on sys (l1 ++ l2) = calls_on sys l1 ∪ calls_on sys l2.
Proof. unfold calls_on. rewrite fmap_app. apply union_list_app_L. Qed.

Lemma calls_on_singleton sys p : calls_on sys [p] = sys p.
Proof. unfold calls_on. cbn. set_solver. Qed.

Lemma elem_of_calls_on sys pods c : c ∈ calls_on sys pods <-> exists p, p ∈ pods /\ c ∈ sys p.
Proof. unfold calls_on. rewrite elem_of_union_list. setoid_rewrite list_elem_of_fmap. naive_solver. Qed.

(** Nothing but the names of the default profile matters to a pod's calls. *)
Lemma getSyscalls_defaults env sc dns dn p :
  DefaultProfileNamespace sc = dns -> DefaultProfileName sc = dn ->
  getSyscalls env sc p = getSyscalls env (New dns dn) p.
Proof. by intros <- <-. Qed.

Lemma foldl_calls env sc pods r :
  foldl (fun syscalls p => syscalls ∪ getSyscalls env sc p) r pods = r ∪ calls_on (getSyscalls env sc) pods.
Proof.
  revert r. induction pods as [|p pods IH]; intros r; cbn [foldl].
  - unfold calls_on. cbn. set_solver.
  - rewrite IH. change (p :: pods) with ([p] ++ pods). rewrite calls_on_app, calls_on_singleton. set_solver.
Qed.

Lemma calls_on_ext f g pods : (forall p, f p = g p) -> calls_on f pods = calls_on g pods.
Proof. intros H. unfold calls_on. f_equal. by apply list_fmap_ext. Qed.

(** The cached calls of a node are those of its pods. *)
Record summarised (sys : SecuredPod -> gset string) (dns dn : string) (sc : SySched) : Prop := {
  sum_ok : tracked_ok sc;
  sum_ns : DefaultProfileNamespace sc = dns;
  sum_name : DefaultProfileName sc = dn;
  sum_calls : forall n s, HostSyscalls sc !! n = Some s -> s = calls_on sys (tracked sc n);
}.

Lemma summarised_reads sys dns dn sc env p : summarised sys dns dn sc -> reads sys dns dn env ->
  getSyscalls env sc p = sys p.
Proof. intros [_ H1 H2 _] Hr. rewrite (getSyscalls_defaults env sc dns dn) by done. apply Hr. Qed.

Lemma tracked_none sc n : HostToPods sc !! n = None -> tracked sc n = [].
Proof. unfold tracked. by intros ->. Qed.

Lemma untracked_calls sc n : tracked_ok sc -> HostToPods sc !! n = None -> HostSyscalls sc !! n = None.
Proof. intros Hok Hn. apply eq_None_not_Some. rewrite <- (same_nodes _ Hok), Hn. by intros [? ?]. Qed.

Lemma addPod_summarised sys dns dn env pod sc : reads sys dns dn env ->
  summarised sys dns dn sc -> summarised sys dns dn (addPod env pod sc).
Proof.
  intros Hr Hs. pose proof (fun p => summarised_reads _ _ _ _ _ p Hs Hr) as Hp.
  destruct Hs as [Hok H1 H2 H3]. split; [by apply addPod_ok|unfold addPod; go_cases; done..|].
  intros n s. rewrite addPod_tracked. unfold addPod, updateHostSyscalls, add_tracked.
  destruct (HostToPods sc !! sec_node pod) as [pods|] eqn:E.
  - assert (tracked sc (sec_node pod) = pods) as Ht by (unfold tracked; by rewrite E).
    rewrite existsb_named. destruct (decide (sec_node pod = n)) as [<-|Hn]; rewrite ?Ht.
    + case_decide; [intros Hc; rewrite <- Ht; by apply H3|]. cbn. rewrite lookup_insert_eq. intros [= <-].
      rewrite (getSyscalls_defaults env _ dns dn), (Hr pod) by done.
      destruct (proj1 (same_nodes _ Hok (sec_node pod))) as [c Hc]; [by rewrite E|].
      rewrite Hc. cbn. rewrite (H3 _ _ Hc), Ht, calls_on_app, calls_on_singleton. done.
    + case_decide; [apply H3|]. cbn. rewrite lookup_insert_ne by done. apply H3.
  - cbn. destruct (decide (sec_node pod = n)) as [<-|Hn].
    + rewrite !lookup_insert_eq. intros [= <-]. rewrite (tracked_none _ _ E), decide_False by by intros ?%Exists_nil.
      rewrite (getSyscalls_defaults env _ dns dn), (Hr pod) by done. rewrite app_nil_l, calls_on_singleton. cbn. set_solver.
    + rewrite !lookup_insert_ne by done. apply H3.
Qed.

Lemma removePod_summarised sys dns dn env pod sc : reads sys dns dn env ->
  summarised sys dns dn sc -> summarised sys dns dn (removePod env pod sc).
Proof.
  intros Hr Hs. pose proof (fun p => summarised_reads _ _ _ _ _ p Hs Hr) as Hp.
  destruct Hs as [Hok H1 H2 H3]. split; [by apply removePod_ok|unfold removePod; go_cases; done..|].
  intros n s. unfold removePod, tracked.
  destruct (HostToPods sc !! sec_node pod) as [pods|] eqn:E; [|apply H3].
  destruct (list_find _ pods) as [[i q]|]; [|apply H3]. cbn.
  destruct (decide (sec_node pod = n)) as [<-|Hn].
  - rewrite !lookup_insert_eq. intros [= <-]. cbn. unfold recomputeHostSyscalls.
    rewrite foldl_calls, (calls_on_ext _ sys) by done. set_solver.
  - rewrite !lookup_insert_ne by done. apply H3.
Qed.

Lemma reachable_summarised sys dns dn sc : reachable (reads sys dns dn) dns dn sc -> summarised sys dns dn sc.
Proof.
  apply run_ind.
  - split; [by apply tracked_ok_empty|done..|]. intros n s. cbn. by rewrite lookup_empty.
  - intros sc1 sc2 E1 E2 E3 E4 [Hok H1 H2 H3]. split; [by eapply same_tables_ok|congruence..|].
    intros n s. rewrite E2. unfold tracked. rewrite E1. apply H3.
  - intros env pod sc'. apply addPod_summarised.
  - intros env pod sc'. apply removePod_summarised.
Qed.

(** ** The score *)

(** What the pods of a node and the incoming one could call without needing it. *)
Definition excess (sys : SecuredPod -> gset string) (pods : list SecuredPod) (pod : SecuredPod) : Z :=
  Z.of_nat (size (calls_on sys pods ∖ sys pod)) +
  sumZ (fun q => Z.of_nat (size ((calls_on sys pods ∪ sys pod) ∖ sys q))) pods.

Lemma calcScore_eq s : calcScore s = int64 (Z.of_nat (size s)).
Proof. unfold calcScore, mul64. int64_ring. Qed.

Lemma existing_diffs_eq env sc new sys t pods : (forall p, getSyscalls env sc p = sys p) ->
  existing_diffs env sc new (int64 t) pods =
    int64 (t + sumZ (fun q => Z.of_nat (size (new ∖ sys q))) pods).
Proof.
  intros Hs. unfold existing_diffs. revert t. induction pods as [|p pods IH]; intros t; cbn [foldl].
  - by rewrite sumZ_nil, Z.add_0_r.
  - rewrite calcScore_eq, Hs. unfold add64. autorewrite with int64. rewrite IH, sumZ_cons. f_equal. lia.
Qed.

Lemma size_nat_zero (s : gset string) : Z.of_nat (size s) = 0 <-> s = ∅.
Proof.
  split; [|intros ->; by rewrite size_empty].
  intros H. apply leibniz_equiv, size_empty_inv. lia.
Qed.

Lemma sumZ_zero {A} (f : A -> Z) l : (forall x, 0 <= f x) -> sumZ f l = 0 <-> Forall (fun x => f x = 0) l.
Proof.
  intros Hf. induction l as [|x l IH]; [by split|]. rewrite sumZ_cons, Forall_cons, <- IH.
  pose proof (Hf x). pose proof (sumZ_nonneg f l (fun y _ => Hf y)). lia.
Qed.

Lemma no_excess (a p q : gset string) : (a ∪ p) ∖ q = ∅ -> a ∖ p = ∅ -> q ⊆ a -> q = p.
Proof.
  intros H1%empty_difference_subseteq_L H2%empty_difference_subseteq_L H3.
  apply (anti_symm (⊆)); [by transitivity a|]. transitivity (a ∪ p); [apply union_subseteq_r|done].
Qed.

Lemma excess_nonneg sys pods pod : 0 <= excess sys pods pod.
Proof. unfold excess. apply Z.add_nonneg_nonneg; [lia|]. apply sumZ_nonneg. lia. Qed.

Lemma excess_zero sys pods pod : excess sys pods pod = 0 <-> Forall (fun q => sys q = sys pod) pods.
Proof.
  unfold excess. set (f := fun q => Z.of_nat (size ((calls_on sys pods ∪ sys pod) ∖ sys q))).
  pose proof (sumZ_nonneg f pods ltac:(intros; unfold f; lia)).
  pose proof (sumZ_zero f pods ltac:(intros; unfold f; lia)) as Hz. unfold f in Hz at 2.
  setoid_rewrite size_nat_zero in Hz. rewrite !Forall_forall in *. split.
  - intros He. assert (sumZ f pods = 0) as Hf by lia. assert (Z.of_nat (size (calls_on sys pods ∖ sys pod)) = 0) as Hd by lia.
    apply size_nat_zero in Hd. pose proof (proj1 Hz Hf) as Hq. intros q Hin. specialize (Hq q Hin). cbn in Hq.
    assert (sys q ⊆ calls_on sys pods) as Hsub by (intros c Hc; apply elem_of_calls_on; eauto).
    by eapply no_excess.
  - intros Hq. assert (calls_on sys pods ⊆ sys pod) as Hsub.
    { intros c (p & Hp & Hc)%elem_of_calls_on. by rewrite <- (Hq p). }
    assert (size (calls_on sys pods ∖ sys pod) = 0%nat) as ->.
    { apply size_empty_iff. clear -Hsub. set_solver. }
    rewrite (proj2 Hz); [done|]. intros q Hin. cbn. rewrite (Hq q Hin). clear -Hsub. set_solver.
Qed.

Lemma Score_eq sys dns dn env pod node sc : summarised sys dns dn sc -> reads sys dns dn env ->
  sys pod <> ∅ ->
  (Score env pod (Ok node) sc).1 =
    (int64 (excess sys (tracked sc (meta_name (node_meta node))) pod), NewStatus Success).
Proof.
  intros Hs Hr Hne. pose proof (fun p => summarised_reads _ _ _ _ _ p Hs Hr) as Hp.
  destruct Hs as [Hok _ _ Hc]. set (n := meta_name (node_meta node)). unfold Score, getHostSyscalls. fold n.
  rewrite Hp, bool_decide_false by done. destruct (HostSyscalls sc !! n) as [s|] eqn:E.
  - rewrite (Hc _ _ E), calcScore_eq. fold (tracked sc n). by rewrite (existing_diffs_eq _ _ _ sys).
  - assert (tracked sc n = []) as ->; [|by rewrite (proj2 (excess_zero sys [] pod)) by constructor]. apply tracked_none, eq_None_not_Some.
    rewrite (same_nodes _ Hok), E. by intros [? ?].
Qed.
