(* ===== verification/SySchedClaims.v ===== *)
(** * The properties of system-call aware scoring *)

From S2P Require Import Prelude.
From S2P Require Import GoFloat.
From S2P Require Import GoStrings.
From S2P Require Import KubeTypes.
From S2P Require Import Framework.
From S2P Require Import SySched.
From S2P Require Import SySchedProofs.

(** ** Concrete pods and profiles *)

Definition sys_pod (ns name node : string) (phase : PodPhase) (profile : string) : SecuredPod := {|
  sec_pod := {| pod_meta := meta_named ns name (ns +:+ "/" +:+ name);
    pod_spec := {| spec_node_name := node; spec_priority := None; spec_preempt_never := false;
      spec_priority_class := ""; spec_scheduler_name := ""; spec_containers := []; spec_init_containers := [];
      spec_overhead := None |};
    pod_status := {| pstatus_phase := phase; pstatus_nominated := ""; pstatus_start_time := None;
      pstatus_conditions := [] |} |};
  pod_seccomp := if bool_decide (profile = "") then None
    else Some {| sp_type := "Localhost"; sp_localhost := Some ("operator/demo/" +:+ profile +:+ ".json") |};
  container_seccomp := []; host_ip := "10.0.0.1" |}.

(** Two profiles of the namespace "demo". *)
Definition demo_profile (ns name : string) : result (list Syscall) :=
  if bool_decide (ns = "demo") then
    if bool_decide (name = "web") then Ok [{| sc_names := ["read"; "write"; "accept"]; sc_action := ActAllow |}]
    else if bool_decide (name = "batch") then
      Ok [{| sc_names := ["read"; "write"]; sc_action := ActAllow |};
          {| sc_names := ["fork"]; sc_action := ActLog |};
          {| sc_names := ["reboot"]; sc_action := "SCMP_ACT_ERRNO" |}]
    else Err NotFound
  else Err NotFound.

Definition demo_env : Env := {|
  get_profile := demo_profile;
  range_annotations := fun p => map_to_list (pod_annotations (sec_pod p)) |}.

Definition demo_sys (p : SecuredPod) : gset string := getSyscalls demo_env (New "default" "all-syscalls") p.

Definition node_named (n : string) : Node := {| node_meta := meta_named "" n n; node_allocatable := ∅ |}.

Definition web := sys_pod "a" "web-1" "n1" PodRunning "web".
Definition batch := sys_pod "a" "batch-1" "n1" PodRunning "batch".
Definition incoming := sys_pod "a" "web-2" "" PodPending "web".

Definition demo_run : SySched := podAdded demo_env batch (podAdded demo_env web (New "default" "all-syscalls")).

Lemma demo_reads : reads demo_sys "default" "all-syscalls" demo_env.
Proof. done. Qed.

Lemma demo_reachable : reachable (reads demo_sys "default" "all-syscalls") "default" "all-syscalls" demo_run.
Proof. do 2 (eapply reach_step; [|by apply step_added]). constructor. Qed.

(** ** The state *)

(** As long as the profiles do not change, the calls cached for a node are the
    union of the calls of the pods tracked on it, in every state the handlers
    and the scores lead to; pods are tracked under their own node and once per
    name. *)
Theorem node_calls_summarised sys dns dn sc n :
  reachable (reads sys dns dn) dns dn sc ->
  default ∅ (HostSyscalls sc !! n) = calls_on sys (tracked sc n) /\
  (forall p, p ∈ tracked sc n -> sec_node p = n) /\ NoDup (sec_name <$> tracked sc n).
Proof.
  intros Hr. destruct (reachable_summarised _ _ _ _ Hr) as [Hok _ _ Hs].
  split; [|split; [by apply at_node|by apply one_per_name]].
  destruct (HostSyscalls sc !! n) as [s|] eqn:E; [by apply Hs|].
  assert (HostToPods sc !! n = None) as Hn.
  { apply eq_None_not_Some. rewrite (same_nodes _ Hok), E. by intros [? ?]. }
  by rewrite (tracked_none _ _ Hn).
Qed.

Lemma node_calls_summarised_witness :
  default ∅ (HostSyscalls demo_run !! "n1") = calls_on demo_sys (tracked demo_run "n1") /\
  default ∅ (HostSyscalls demo_run !! "n1") = {["read"; "write"; "accept"; "fork"]}.
Proof.
  split; [apply (node_calls_summarised demo_sys "default" "all-syscalls"); apply demo_reachable|].
  vm_compute. reflexivity.
Defined.

(** What the handlers do to the pods of each node, in every reachable state: an
    added pod joins its node unless a pod of its name is there, an update adds
    the old pod when it was pending with an address, a deletion removes the pods
    of that name from the node of the deleted pod and panics on a tombstone. *)
Theorem handlers_exact ok dns dn sc n env pod old new :
  reachable ok dns dn sc ->
  tracked (podAdded env pod sc) n =
    (if bool_decide (pod_phase (sec_pod pod) = PodRunning) && bool_decide (sec_node pod = n)
     then add_tracked pod (tracked sc n) else tracked sc n) /\
  tracked (podUpdated env old new sc) n =
    (if bool_decide (pod_phase (sec_pod old) = PodPending) && bool_decide (host_ip old <> "") &&
        bool_decide (sec_node old = n)
     then add_tracked old (tracked sc n) else tracked sc n) /\
  (exists sc', podDeleted env (Gone _ pod) sc = Some sc' /\
     tracked sc' n ≡ₚ (if decide (sec_node pod = n) then filter (fun p => ~ named pod p) (tracked sc n)
                        else tracked sc n)) /\
  podDeleted env (DeletedFinalStateUnknown _ pod) sc = None.
Proof.
  intros Hr. apply reachable_tracked in Hr. split; [|split; [|split; [|done]]].
  - unfold podAdded. case_bool_decide; cbn; [|done]. rewrite addPod_tracked. by repeat case_decide || case_bool_decide.
  - unfold podUpdated. destruct (_ && bool_decide (host_ip old <> "")); cbn; [|done].
    rewrite addPod_tracked. by repeat case_decide || case_bool_decide.
  - eexists. split; [done|]. by apply removePod_tracked.
Qed.

Lemma handlers_exact_witness :
  tracked (podAdded demo_env web demo_run) "n1" = [web; batch] /\
  exists sc', podDeleted demo_env (Gone _ web) demo_run = Some sc' /\ tracked sc' "n1" ≡ₚ [batch].
Proof.
  destruct (handlers_exact _ _ _ _ "n1" demo_env web web web demo_reachable) as (-> & _ & H & _).
  split; [vm_compute; reflexivity|]. destruct H as (sc' & H1 & H2). exists sc'. split; [exact H1|].
  rewrite H2. vm_compute. reflexivity.
Defined.

(** ** The score *)

(** C25. The score of a node, in every reachable state and for fixed profiles. A
    pod that reads any calls, its own profiles' or the default profile's, has as
    score the calls the node's pods bring that it does not need, and for each of
    the node's pods the calls of all of them, the incoming one included, that it
    does not need, as an int64; a node nothing is known of scores 0. A pod
    without any calls has the largest int64 on every node. A node that cannot be
    read scores 0. *)
Theorem excess_score_exact sys dns dn env sc pod :
  reachable (reads sys dns dn) dns dn sc -> reads sys dns dn env ->
  (forall node, (Score env pod (Ok node) sc).1 =
     (if bool_decide (sys pod = ∅) then 9223372036854775807
      else int64 (excess sys (tracked sc (meta_name (node_meta node))) pod), NewStatus Success)) /\
  forall e, (Score env pod (Err e) sc).1 = (0, NewStatus Success).
Proof.
  intros Hr He. split; [|done]. intros node. apply reachable_summarised in Hr. case_bool_decide as Hne.
  - unfold Score. by rewrite (summarised_reads _ _ _ _ _ pod Hr He), bool_decide_true.
  - by apply (Score_eq sys dns dn).
Qed.

(** The scores of the demonstration. *)
Definition demo_score (pod : SecuredPod) (n : string) : Z * FStatus := (Score demo_env pod (Ok (node_named n)) demo_run).1.

Lemma excess_score_exact_witness : demo_score incoming "n1" = (3, NewStatus Success) /\
  demo_score incoming "n2" = (0, NewStatus Success) /\
  demo_score (sys_pod "a" "c" "" PodPending "") "n1" = (9223372036854775807, NewStatus Success).
Proof.
  unfold demo_score.
  split_and!; (rewrite (proj1 (excess_score_exact demo_sys "default" "all-syscalls" _ _ _ demo_reachable demo_reads));
     vm_compute; reflexivity).
Defined.

(** The score is 0 exactly when every pod on the node has the same calls as the
    incoming one. *)
Theorem zero_score_iff sys dns dn env sc pod node :
  reachable (reads sys dns dn) dns dn sc -> reads sys dns dn env -> sys pod <> ∅ ->
  let pods := tracked sc (meta_name (node_meta node)) in
  excess sys pods pod < 9223372036854775808 ->
  (Score env pod (Ok node) sc).1.1 = 0 <-> Forall (fun q => sys q = sys pod) pods.
Proof.
  intros Hr He Hne pods Hlt. rewrite (Score_eq sys dns dn); [|by apply reachable_summarised|done..].
  cbn [fst]. fold pods. pose proof (excess_nonneg sys pods pod).
  rewrite int64_id by (unfold in_int64; lia). apply excess_zero.
Qed.

Lemma zero_score_iff_witness : (demo_score incoming "n1").1 <> 0.
Proof.
  unfold demo_score. intros H.
  apply (zero_score_iff demo_sys "default" "all-syscalls" demo_env demo_run incoming (node_named "n1")
    demo_reachable demo_reads) in H.
  - rewrite Forall_forall in H. specialize (H batch ltac:(vm_compute; right; left)).
    apply (f_equal (fun s : gset string => bool_decide ("fork" ∈ s))) in H. vm_compute in H. congruence.
  - intros H'%(f_equal size). vm_compute in H'. lia.
  - vm_compute. reflexivity.
Defined.

(** Normalised scores are within 0 and 100 and in the opposite order of the
    original ones, as long as a hundred times a score is an [int64]. *)
Theorem sysched_normalize_exact scores :
  (forall n, n ∈ scores -> 0 <= ns_score n /\ in_int64 (100 * ns_score n)) ->
  exists f, NormalizeScore scores = (fun n => with_score n (f (ns_score n))) <$> scores /\
    (forall n, n ∈ scores -> 0 <= f (ns_score n) <= 100) /\
    (forall s t, s <= t -> f t <= f s) /\
    (forall n, n ∈ scores -> 0 < ns_score n -> (forall m, m ∈ scores -> ns_score m <= ns_score n) ->
       f (ns_score n) = 0) /\ f 0 = 100.
Proof.
  intros Hs. set (m := running_max (ns_score <$> scores)).
  assert (0 <= m) by apply running_max_nonneg.
  assert (forall n, n ∈ scores -> ns_score n <= m) as Hm.
  { intros n Hn. apply running_max_ge, list_elem_of_fmap. eauto. }
  exists (reversed_score MaxNodeScore m). split; [|split; [|split; [|split]]].
  - unfold NormalizeScore. rewrite normalize_reversed; [done|done|exact Hs|done].
  - intros n Hn. apply reversed_score_bounds; [done|]. split; [by apply Hs|by apply Hm].
  - intros s t. by apply reversed_score_mono.
  - intros n Hn Hpos Hmax. assert (m = ns_score n) as Heq.
    { destruct (running_max_attained (ns_score <$> scores)) as [Hz|Hz]; fold m in Hz.
      - specialize (Hm n Hn). lia.
      - apply list_elem_of_fmap in Hz as (k & -> & Hk). specialize (Hm n Hn). specialize (Hmax k Hk). lia. }
    unfold reversed_score, MaxNodeScore. rewrite Heq, bool_decide_false, Z.div_mul by lia. lia.
  - unfold reversed_score. case_bool_decide; [done|]. by rewrite Z.mul_0_r, Zdiv_0_l.
Qed.

Definition two_scores : NodeScoreList := [{| ns_name := "n1"; ns_score := 7 |}; {| ns_name := "n2"; ns_score := 0 |}].

Lemma sysched_normalize_exact_witness : ns_score <$> NormalizeScore two_scores = [0; 100].
Proof.
  destruct (sysched_normalize_exact two_scores) as (f & -> & _ & _ & H1 & H2).
  { intros n Hn. repeat (apply elem_of_cons in Hn as [->|Hn]; [split; [cbn; lia|by vm_compute]|]). by apply not_elem_of_nil in Hn. }
  cbn. pose proof (H1 {| ns_name := "n1"; ns_score := 7 |} ltac:(left)) as H. cbn in H.
  rewrite H, H2; [reflexivity|lia|].
  intros m Hm. repeat (apply elem_of_cons in Hm as [->|Hm]; [cbn; lia|]). by apply not_elem_of_nil in Hm.
Defined.

(** A pod without any known call gets the largest [int64] on every node, which
    the code calls a large number; after normalisation that is the best score,
    because a hundred times it wraps around. *)
Theorem no_calls_best_score env sc pod nodes :
  getSyscalls env sc pod = ∅ ->
  ns_score <$> NormalizeScore
    ((fun node => {| ns_name := meta_name (node_meta node); ns_score := (Score env pod (Ok node) sc).1.1 |}) <$> nodes)
  = (fun _ => 100) <$> nodes.
Proof.
  intros Hp. assert (forall node, (Score env pod (Ok node) sc).1.1 = MaxInt64) as Hs.
  { intros node. unfold Score. by rewrite Hp, bool_decide_true. }
  rewrite (list_fmap_ext _ (fun node => {| ns_name := meta_name (node_meta node); ns_score := MaxInt64 |}) nodes)
    by (intros i nd _; by rewrite Hs).
  unfold NormalizeScore, DefaultNormalizeScore. destruct nodes as [|node nodes]; [done|].
  assert (running_max (ns_score <$> ((fun node => {| ns_name := meta_name (node_meta node); ns_score := MaxInt64 |})
    <$> node :: nodes)) = MaxInt64) as ->.
  { rewrite <- list_fmap_compose. set (l := _ <$> node :: nodes).
    assert (forall x, x ∈ l -> x = MaxInt64) as Hl by by intros x (nd & -> & _)%list_elem_of_fmap.
    assert (MaxInt64 <= running_max l) by (apply running_max_ge; left).
    destruct (running_max_attained l) as [Hz|Hz]; [unfold MaxInt64 in *; lia|by apply Hl]. }
  rewrite bool_decide_false by done. rewrite <- !list_fmap_compose. by apply list_fmap_ext.
Qed.

Lemma no_calls_best_score_witness :
  ns_score <$> NormalizeScore ((fun node => {| ns_name := meta_name (node_meta node);
    ns_score := (Score demo_env (sys_pod "a" "c" "" PodPending "") (Ok node) demo_run).1.1 |})
      <$> [node_named "n1"; node_named "n2"]) = [100; 100].
Proof. rewrite no_calls_best_score; [reflexivity|vm_compute; reflexivity]. Defined.

(** ** Profiles *)

(** A path that ends in a namespace and a file name with an extension names that
    profile, whatever comes first: the two forms the code documents are such
    paths. *)
Theorem profile_path_roundtrip prefix ns name ext :
  occurs "/" ns = false -> occurs "/" name = false -> occurs "/" ext = false -> occurs "." ext = false ->
  parseNameNS (prefix +:+ "/" +:+ ns +:+ "/" +:+ name +:+ "." +:+ ext) = (ns, name).
Proof.
  intros Hns Hn Hes Hed. unfold parseNameNS.
  set (file := name +:+ "." +:+ ext).
  change (prefix +:+ "/" +:+ ns +:+ "/" +:+ file) with (prefix +:+ String "/" (ns +:+ String "/" file)).
  assert (occurs "/" file = false) as Hf by (unfold file; rewrite !occurs_app, Hn, Hes; done).
  destruct (Split_last_two "/" prefix ns file Hns Hf) as (w & l & ->).
  rewrite bool_decide_false.
  - rewrite app_comm_cons, reverse_app. cbn. f_equal. change (name +:+ "." +:+ ext) with (name +:+ String "." ext) in file.
    unfold file. by rewrite Ext_app, TrimSuffix_app.
  - intros Heq%(f_equal (occurs "/")). rewrite occurs_app in Heq. cbn in Heq. by rewrite orb_true_r in Heq.
Qed.

Lemma profile_path_roundtrip_witness :
  parseNameNS "localhost/operator/demo/nginx-1.2.json" = ("demo", "nginx-1.2").
Proof. apply (profile_path_roundtrip "localhost/operator" "demo" "nginx-1.2" "json"); reflexivity. Defined.

(** ** What the code gets wrong *)

(** A pod is known by its name alone: of two pods with one name in different
    namespaces the second is not tracked, and when it is deleted the first one's
    calls are forgotten while it is still running. *)
Theorem namesake_shadows :
  exists sc other, reachable (reads demo_sys "default" "all-syscalls") "default" "all-syscalls" sc /\
    pod_namespace (sec_pod other) <> pod_namespace (sec_pod web) /\
    tracked sc "n1" = [web] /\
    podAdded demo_env other sc = sc /\
    (forall sc', podDeleted demo_env (Gone _ other) sc = Some sc' -> tracked sc' "n1" = []).
Proof.
  exists (podAdded demo_env web (New "default" "all-syscalls")), (sys_pod "b" "web-1" "n1" PodRunning "batch").
  split; [eapply reach_step; [constructor|by apply step_added]|]. split; [done|].
  split; [vm_compute; reflexivity|]. split; [reflexivity|].
  intros sc' [= <-]. vm_compute. reflexivity.
Qed.

(** A pod with two annotations of the operator has the calls of the profile the
    loop meets first, so the order of a Go map decides between two sets. *)
Theorem annotation_order_matters : exists anns,
  let env l := {| get_profile := demo_profile; range_annotations := fun _ => l |} in
  let pod := sys_pod "a" "p" "n1" PodRunning "" in
  "accept" ∈ getSyscalls (env anns) (New "default" "all-syscalls") pod /\
  "accept" ∉ getSyscalls (env (reverse anns)) (New "default" "all-syscalls") pod.
Proof.
  exists [("c1." +:+ SPO_ANNOTATION, "demo/web.json"); ("c2." +:+ SPO_ANNOTATION, "demo/batch.json")].
  split; [apply (bool_decide_eq_true _)|apply (bool_decide_eq_false _)]; vm_compute; reflexivity.
Qed.
