(* ===== verification/ArgsTypes.v ===== *)
(** * The arguments of the plugins, as the plugins read them ([apis/config/types.go])

    The internal types, in which every field has a value. The arguments of
    VaclabScheduling, PreemptionToleration and NetworkOverhead are declared with
    their plugins; kinds and versions of the objects are not kept. Go's string
    types are strings, with the constants the package declares. *)

From S2P Require Import Prelude.
From S2P Require Import KubeTypes.
From Stdlib Require Import SpecFloat.

Record CoschedulingArgs := { cs_PermitWaitingTimeSeconds : Z; cs_PodGroupBackoffSeconds : Z }.

(** ** Modes, strategies and metric providers *)

Definition ModeType : Type := string.
Definition Least : ModeType := "Least".
Definition Most : ModeType := "Most".

(** A resource of the scheduler's configuration with its weight. *)
Record ResourceSpec := { rs_Name : string; rs_Weight : Z }.

Record NodeResourcesAllocatableArgs := { ra_Resources : list ResourceSpec; ra_Mode : ModeType }.

Definition MetricProviderType : Type := string.
Definition KubernetesMetricsServer : MetricProviderType := "KubernetesMetricsServer".
Definition Prometheus : MetricProviderType := "Prometheus".
Definition SignalFx : MetricProviderType := "SignalFx".

Record MetricProviderSpec := {
  mp_Type : MetricProviderType;
  mp_Address : string;
  mp_Token : string;
  mp_InsecureSkipVerify : bool;
}.

Record TrimaranSpec := { MetricProvider : MetricProviderSpec; WatcherAddress : string }.

(** ** The load-aware plugins *)

(** [DefaultRequests] may be nil. *)
Record TargetLoadPackingArgs := {
  tlp_TrimaranSpec : TrimaranSpec;
  DefaultRequests : option ResourceList;
  DefaultRequestsMultiplier : string;
  TargetUtilization : Z;
}.

Record LoadVariationRiskBalancingArgs := {
  lv_TrimaranSpec : TrimaranSpec;
  SafeVarianceMargin : spec_float;
  SafeVarianceSensitivity : spec_float;
}.

(** [RiskLimitWeights] may be nil. *)
Record LowRiskOverCommitmentArgs := {
  lr_TrimaranSpec : TrimaranSpec;
  SmoothingWindowSize : Z;
  RiskLimitWeights : option (gmap string spec_float);
}.

(** ** NUMA-aware scheduling *)

Definition ScoringStrategyType : Type := string.
Definition MostAllocated : ScoringStrategyType := "MostAllocated".
Definition BalancedAllocation : ScoringStrategyType := "BalancedAllocation".
Definition LeastAllocated : ScoringStrategyType := "LeastAllocated".
Definition LeastNUMANodes : ScoringStrategyType := "LeastNUMANodes".

Record ScoringStrategy := { ss_Type : ScoringStrategyType; ss_Resources : list ResourceSpec }.

Definition ForeignPodsDetectMode : Type := string.
Definition ForeignPodsDetectAll : ForeignPodsDetectMode := "All".
Definition CacheResyncMethod : Type := string.
Definition CacheResyncAutodetect : CacheResyncMethod := "Autodetect".
Definition CacheInformerMode : Type := string.
Definition CacheInformerDedicated : CacheInformerMode := "Dedicated".
Definition CacheResyncScope : Type := string.

Record NodeResourceTopologyCache := {
  ForeignPodsDetect : option ForeignPodsDetectMode;
  ResyncMethod : option CacheResyncMethod;
  InformerMode : option CacheInformerMode;
  ResyncScope : option CacheResyncScope;
}.

Record NodeResourceTopologyMatchArgs := {
  nrt_ScoringStrategy : ScoringStrategy;
  CacheResyncPeriodSeconds : Z;
  DiscardReservedNodes : bool;
  nrt_Cache : option NodeResourceTopologyCache;
}.

(** ** The other plugins *)

Record TopologicalSortArgs := { ts_Namespaces : list string }.

Record SySchedArgs := { sy_DefaultProfileNamespace : string; sy_DefaultProfileName : string }.
