(* ===== verification/Trimaran.v ===== *)
(** * The shared state of the load-aware plugins ([pkg/trimaran])

    [Collector] ([collector.go]) holds the latest metrics of the load watcher,
    [PodAssignEventHandler] ([handler.go]) the pods bound to each node with the
    time they were seen, for as long as the watcher's metrics may not count
    them. The client of the load watcher that the collector makes is the library's
    ([vendor/github.com/paypal/load-watcher]). Times are nanoseconds since the
    epoch; the clock and the watcher's answers are arguments. The background loops of both are the operations
    [updateMetrics] and [cleanupCache], run at any time. *)

From stdpp Require Import sorting.
From S2P Require Import Prelude.
From S2P Require Import GoSort.
From S2P Require Import GoFloat.
From S2P Require Import KubeTypes.
From S2P Require Import Framework.
From S2P Require Import ArgsTypes.
From Stdlib Require Import SpecFloat.

(** ** Pods, with requests and limits by container *)

Record Container := { c_requests : ResourceList; c_limits : ResourceList }.

Record LoadPod := {
  lp_meta : ObjectMeta;
  lp_node : string;
  lp_containers : list Container;
  lp_init_containers : list Container;
  lp_overhead : option ResourceList;
}.

Definition lp_uid (p : LoadPod) : string := meta_uid (lp_meta p).

(** ** The collector *)

(** [watcher.Metric] and [watcher.WatcherMetrics]: the end of the window in
    seconds, and per node a slice of metrics. Nil maps and slices are [None]. *)
Record Metric := { metric_type : string; metric_operator : string; metric_value : spec_float }.
Record WatcherMetrics := { window_end : Z; NodeMetricsMap : option (gmap string (option (list Metric))) }.

Record Collector := { col_metrics : WatcherMetrics }.

Definition checkSpecs (spec : TrimaranSpec) : bool :=
  if bool_decide (WatcherAddress spec = "") then
    bool_decide (mp_Type (MetricProvider spec) = KubernetesMetricsServer) ||
    bool_decide (mp_Type (MetricProvider spec) = Prometheus) ||
    bool_decide (mp_Type (MetricProvider spec) = SignalFx)
  else true.

(** A failed call leaves the metrics as they are. *)
Definition updateMetrics (answer : result WatcherMetrics) (c : Collector) : Collector :=
  match answer with Err _ => c | Ok m => {| col_metrics := m |} end.

(** *** The client of the load watcher *)

(** How a call that makes something ends: with it, with an error, or with the
    end of the process, by a panic or [log.Fatalf]. *)
Inductive Outcome (A : Type) := Made (a : A) | Refused | Crashed.
Arguments Made {A} a.
Arguments Refused {A}.
Arguments Crashed {A}.

(** What the clients find around them: whether a load watcher of the process
    serves already, whether the configuration and the clients of the metrics
    server can be made, whether [ENABLE_OPENSHIFT_AUTH] is set and then the CA
    file loads, and what [url.Parse] accepts. *)
Record Surroundings := {
  sr_serving : bool;
  sr_kube_clients : bool;
  sr_openshift : option bool;
  sr_parses : string -> bool;
}.

Definition DefaultPromAddress : string := "http://prometheus-k8s:9090".

(** With OpenShift's authentication the host of the written address is read even
    if it does not parse. *)
Definition NewPromClient (env : Surroundings) (opts : MetricProviderSpec) : Outcome unit :=
  let promAddress := if bool_decide (mp_Address opts = "") then DefaultPromAddress else mp_Address opts in
  let client := if sr_parses env promAddress then Made tt else Refused in
  match sr_openshift env with
  | None => client
  | Some false => Refused
  | Some true => if sr_parses env (mp_Address opts) then client else Crashed
  end.

Definition NewSignalFxClient (opts : MetricProviderSpec) : Outcome unit :=
  if bool_decide (mp_Token opts = "") then Crashed else Made tt.

Definition NewMetricsServerClient (env : Surroundings) : Outcome unit :=
  if sr_kube_clients env then Made tt else Refused.

(** [StartWatching] registers the handlers of the watcher with the process's
    server, which panics on a second registration. An error comes with a client
    that has no watcher. *)
Definition NewLibraryClient (env : Surroundings) (opts : MetricProviderSpec) : Outcome unit :=
  match
    (if bool_decide (mp_Type opts = Prometheus) then NewPromClient env opts
     else if bool_decide (mp_Type opts = SignalFx) then NewSignalFxClient opts
     else NewMetricsServerClient env)
  with
  | Made _ => if sr_serving env then Crashed else Made tt
  | Refused => Refused
  | Crashed => Crashed
  end.

(** The error of the client is ignored, so a client without a watcher panics in
    the first [updateMetrics]. The client of a service is always made. *)
Definition NewCollector (env : Surroundings) (spec : TrimaranSpec) (answer : result WatcherMetrics)
    : Outcome Collector :=
  if checkSpecs spec then
    match (if bool_decide (WatcherAddress spec <> "") then Made tt
           else NewLibraryClient env (MetricProvider spec)) with
    | Made _ => Made (updateMetrics answer {| col_metrics := {| window_end := 0; NodeMetricsMap := None |} |})
    | Refused | Crashed => Crashed
    end
  else Refused.

Definition GetNodeMetrics (c : Collector) (nodeName : string) : option (list Metric) * option WatcherMetrics :=
  let allMetrics := col_metrics c in
  match NodeMetricsMap allMetrics with
  | None => (None, None)
  | Some m =>
      match m !! nodeName with
      | None => (None, Some allMetrics)
      | Some metrics => (metrics, Some allMetrics)
      end
  end.

(** ** The handler of pod assignments *)

Definition Second : Z := 1000000000.
Definition metricsAgentReportingIntervalSeconds : Z := 60.

Record podInfo := { Timestamp : Z; info_pod : LoadPod }.

Abbreviation ScheduledPodsCache := (gmap string (list podInfo)).

Definition isAssigned (pod : LoadPod) : bool := bool_decide (lp_node pod <> "").

Definition updateCache (now : Z) (pod : LoadPod) (cache : ScheduledPodsCache) : ScheduledPodsCache :=
  if bool_decide (lp_node pod = "") then cache
  else <[lp_node pod := default [] (cache !! lp_node pod) ++ [{| Timestamp := now; info_pod := pod |}]]> cache.

Definition OnAdd (now : Z) (pod : LoadPod) (cache : ScheduledPodsCache) : ScheduledPodsCache :=
  updateCache now pod cache.

Definition OnUpdate (now : Z) (oldPod newPod : LoadPod) (cache : ScheduledPodsCache) : ScheduledPodsCache :=
  if bool_decide (lp_node oldPod <> lp_node newPod) then updateCache now newPod cache else cache.

(** The type assertion panics on a tombstone. *)
Definition OnDelete (obj : Deleted_ LoadPod) (cache : ScheduledPodsCache) : option ScheduledPodsCache :=
  match obj with
  | DeletedFinalStateUnknown _ _ => None
  | Gone _ pod =>
      Some match cache !! lp_node pod with
           | None => cache
           | Some infos =>
               match list_find (fun v => lp_uid (info_pod v) = lp_uid pod) infos with
               | Some (i, _) => <[lp_node pod := delete i infos]> cache
               | None => cache
               end
           end
  end.

(** [Timestamp.Add(60s).After(curTime)]. *)
Definition is_young (curTime : Z) (v : podInfo) : bool :=
  curTime <? Timestamp v + metricsAgentReportingIntervalSeconds * Second.

(** [cleanupCache] for one node: [None] deletes the entry. *)
Definition cleanup_node (curTime : Z) (cache : list podInfo) : option (list podInfo) :=
  let idx := Search (length cache) (fun i =>
    match cache !! i with Some v => is_young curTime v | None => false end) in
  if bool_decide (idx = length cache) then Some cache
  else
    let cache := drop idx cache in
    if bool_decide (cache = []) then None else Some cache.

(** The clock is read once per node. *)
Definition cleanupCache (curTime : string -> Z) (cache : ScheduledPodsCache) : ScheduledPodsCache :=
  map_imap (fun nodeName infos => cleanup_node (curTime nodeName) infos) cache.

(** ** The informer in front of the handler: [FilteringResourceEventHandler] with
    the filter of [AddToHandle] *)

Definition FilterFunc (obj : Deleted_ LoadPod) : bool :=
  match obj with Gone _ pod => isAssigned pod | DeletedFinalStateUnknown _ pod => isAssigned pod end.

Definition filtered_add (now : Z) (pod : LoadPod) (cache : ScheduledPodsCache) : ScheduledPodsCache :=
  if FilterFunc (Gone _ pod) then OnAdd now pod cache else cache.

Definition filtered_update (now : Z) (oldPod newPod : LoadPod) (cache : ScheduledPodsCache)
    : option ScheduledPodsCache :=
  match FilterFunc (Gone _ newPod), FilterFunc (Gone _ oldPod) with
  | true, true => Some (OnUpdate now oldPod newPod cache)
  | true, false => Some (OnAdd now newPod cache)
  | false, true => OnDelete (Gone _ oldPod) cache
  | false, false => Some cache
  end.

Definition filtered_delete (obj : Deleted_ LoadPod) (cache : ScheduledPodsCache) : option ScheduledPodsCache :=
  if FilterFunc obj then OnDelete obj cache else Some cache.

(** Runs, with the time of the latest event: the clock does not go back. *)
Inductive event (now : Z) (cache : ScheduledPodsCache) : ScheduledPodsCache -> Prop :=
| ev_add pod : event now cache (filtered_add now pod cache)
| ev_update old new cache' : filtered_update now old new cache = Some cache' -> event now cache cache'
| ev_delete obj cache' : filtered_delete obj cache = Some cache' -> event now cache cache'
| ev_cleanup curTime : event now cache (cleanupCache curTime cache).

Inductive history : Z -> ScheduledPodsCache -> Prop :=
| hist_start t : history t ∅
| hist_event t t' cache cache' : history t cache -> t <= t' -> event t' cache cache' -> history t' cache'.
