(* ===== verification/TrimaranProofs.v ===== *)
(** * Lemmas on the shared state of the load-aware plugins *)

From stdpp Require Import sorting.
From S2P Require Import Prelude.
From S2P Require Import GoSort.
From S2P Require Import KubeTypes.
From S2P Require Import Framework.
From S2P Require Import Trimaran.

(** ** Entries by age *)

Definition young (now : Z) (v : podInfo) : Prop := is_young now v = true.

#[export] Instance young_dec now v : Decision (young now v).
Proof. unfold young. apply _. Defined.

Definition by_time : list podInfo -> Prop := StronglySorted (fun a b => Timestamp a <= Timestamp b).

Lemma by_time_lookup l i j a b : by_time l -> (i <= j)%nat -> l !! i = Some a -> l !! j = Some b ->
  Timestamp a <= Timestamp b.
Proof.
  intros Hs. revert i j. induction Hs as [|x l Hs IH Hx]; intros i j Hij Ha Hb; [done|].
  destruct i as [|i], j as [|j]; cbn in Ha, Hb; simplify_eq; [lia| |lia|eapply IH; [|done..]; lia].
  rewrite Forall_forall in Hx. apply Hx. by eapply list_elem_of_lookup_2.
Qed.

(** What the search of [cleanupCache] finds. *)
Lemma cleanup_index now l : by_time l -> exists k, (k <= length l)%nat /\
  Search (length l) (fun i => match l !! i with Some v => is_young now v | None => false end) = k /\
  filter (young now) l = drop k l /\ (k = length l <-> Forall (fun v => ~ young now v) l).
Proof.
  intros Hs. set (f := fun i => match l !! i with
    | Some v => is_young now v | None => false end).
  destruct (Search_spec (length l) f) as (Hk & Hlo & Hhi).
  { intros a b Hab. unfold f. destruct (lookup_lt_is_Some_2 l a) as [x Hx]; [lia|].
    destruct (lookup_lt_is_Some_2 l b) as [y Hy]; [lia|]. rewrite Hx, Hy. unfold is_young. rewrite !Z.ltb_lt.
    pose proof (by_time_lookup l a b x y Hs ltac:(lia) Hx Hy). lia. }
  set (k := Search (length l) f) in *. exists k. split; [done|]. split; [done|].
  assert (Forall (fun v => ~ young now v) (take k l)) as Hold.
  { apply Forall_lookup. intros i v Hv. apply lookup_take_Some in Hv as [Hv Hi].
    specialize (Hlo i Hi). unfold f in Hlo. rewrite Hv in Hlo. unfold young. congruence. }
  assert (Forall (young now) (drop k l)) as Hyoung.
  { apply Forall_lookup. intros i v Hv. rewrite lookup_drop in Hv.
    assert (k < length l)%nat as Hlt by (apply lookup_lt_Some in Hv; lia).
    specialize (Hhi Hlt). unfold f in Hhi. destruct (l !! k) as [w|] eqn:Ew; [|done].
    pose proof (by_time_lookup l k (k + i) w v Hs ltac:(lia) Ew Hv).
    unfold young, is_young in *. rewrite Z.ltb_lt in *. lia. }
  split.
  - rewrite <- (take_drop k l) at 1. rewrite filter_app.
    assert (filter (young now) (take k l) = []) as ->.
    { induction Hold as [|v l' Hv _ IH]; [done|]. by rewrite filter_cons, decide_False. }
    induction Hyoung as [|v l' Hv _ IH]; [done|]. rewrite filter_cons, decide_True by done. cbn in *. by rewrite IH.
  - split; [intros Heq; by rewrite <- (take_ge l k) by lia|]. intros Hall.
    destruct (decide (k = length l)) as [|Hne]; [done|]. assert (k < length l)%nat as Hlt by lia.
    specialize (Hhi Hlt). unfold f in Hhi. destruct (l !! k) as [w|] eqn:Ew; [|done].
    rewrite Forall_lookup in Hall. by destruct (Hall k w Ew).
Qed.

Lemma cleanup_node_eq now l : by_time l ->
  cleanup_node now l = Some (if decide (Forall (fun v => ~ young now v) l) then l else filter (young now) l).
Proof.
  intros Hs. destruct (cleanup_index now l Hs) as (k & Hk & Ek & Hf & Hiff). unfold cleanup_node. rewrite Ek.
  case_bool_decide as Hb; case_decide as Ha; [done|by apply Hiff in Hb|by apply Hiff in Ha|].
  rewrite Hf, bool_decide_false; [done|]. intros Hd%(f_equal length). rewrite length_drop in Hd. cbn in Hd. lia.
Qed.

(** ** The invariant of the cache *)

Record cache_ok (now : Z) (cache : ScheduledPodsCache) : Prop := {
  entries_sorted : forall n l, cache !! n = Some l -> by_time l;
  entries_past : forall n l v, cache !! n = Some l -> v ∈ l -> Timestamp v <= now;
  entries_home : forall n l v, cache !! n = Some l -> v ∈ l -> lp_node (info_pod v) = n;
}.

Lemma sorted_snoc now l v : by_time l -> (forall w, w ∈ l -> Timestamp w <= now) -> Timestamp v = now ->
  by_time (l ++ [v]).
Proof.
  intros Hs Hl Hv. induction Hs as [|x l Hs IH Hx]; cbn; [by repeat constructor|]. constructor.
  - apply IH. intros w Hw. apply Hl. by right.
  - apply Forall_app. split; [done|]. constructor; [|done]. rewrite Hv. apply Hl. left.
Qed.

Lemma updateCache_ok now pod cache : cache_ok now cache -> cache_ok now (updateCache now pod cache).
Proof.
  intros [H1 H2 H3]. unfold updateCache. case_bool_decide as Hn; [done|].
  set (v := {| Timestamp := now; info_pod := pod |}).
  assert (forall w, w ∈ default [] (cache !! lp_node pod) -> Timestamp w <= now /\ lp_node (info_pod w) = lp_node pod) as Hd.
  { intros w. destruct (cache !! lp_node pod) as [l|] eqn:E; cbn; [|by intros ?%not_elem_of_nil]. eauto. }
  split; intros n l; destruct (decide (lp_node pod = n)) as [<-|Hne];
    rewrite ?lookup_insert_eq, ?lookup_insert_ne by done; eauto.
  - intros [= <-]. apply (sorted_snoc now); [|apply Hd|done].
    destruct (cache !! lp_node pod) as [l|] eqn:E; cbn; [by eapply H1|constructor].
  - intros w [= <-] [Hw| ->%list_elem_of_singleton]%elem_of_app; [by apply Hd|done].
  - intros w [= <-] [Hw| ->%list_elem_of_singleton]%elem_of_app; [by apply Hd|done].
Qed.

(** Replacing the entries of a node by some of them, in order. *)
Lemma sublist_by_time l l' : l `sublist_of` l' -> by_time l' -> by_time l.
Proof.
  intros Hsub Hs. revert l Hsub. induction Hs as [|x l' Hs IH Hx]; intros l Hsub.
  - apply sublist_nil_r in Hsub as ->. constructor.
  - apply sublist_cons_r in Hsub as [Hsub|(l2 & -> & Hsub)]; [by apply IH|].
    constructor; [by apply IH|]. rewrite Forall_forall in *. intros y Hy. apply Hx.
    eapply elem_of_submseteq; [done|by apply sublist_submseteq].
Qed.

Lemma subset_ok now cache cache' : cache_ok now cache ->
  (forall n l', cache' !! n = Some l' -> exists l, cache !! n = Some l /\ l' `sublist_of` l) ->
  cache_ok now cache'.
Proof.
  intros [H1 H2 H3] Hsub. split; intros n l' ; [intros Hl'|intros v Hl' Hv..];
    destruct (Hsub n l' Hl') as (l & Hl & Hs).
  - eapply sublist_by_time; eauto.
  - eapply H2; [done|]. eapply elem_of_submseteq; [done|by apply sublist_submseteq].
  - eapply H3; [done|]. eapply elem_of_submseteq; [done|by apply sublist_submseteq].
Qed.

Lemma OnDelete_sub obj cache cache' : OnDelete obj cache = Some cache' ->
  forall n l', cache' !! n = Some l' -> exists l, cache !! n = Some l /\ l' `sublist_of` l.
Proof.
  destruct obj as [pod|pod]; [|done]. intros [= <-] n l'.
  destruct (cache !! lp_node pod) as [infos|] eqn:E; [|eauto].
  destruct (list_find _ infos) as [[i v]|]; [|eauto].
  destruct (decide (lp_node pod = n)) as [<-|Hn].
  - rewrite lookup_insert_eq. intros [= <-]. exists infos. split; [done|apply sublist_delete].
  - rewrite lookup_insert_ne by done. eauto.
Qed.

Lemma cleanup_lookup cur cache n now : cache_ok now cache ->
  cleanupCache cur cache !! n =
    (fun l => if decide (Forall (fun v => ~ young (cur n) v) l) then l else filter (young (cur n)) l) <$> cache !! n.
Proof.
  intros Hok. unfold cleanupCache. rewrite map_lookup_imap. destruct (cache !! n) as [l|] eqn:E; [|done].
  cbn. apply cleanup_node_eq. by eapply entries_sorted.
Qed.

Lemma later_ok t t' cache : t <= t' -> cache_ok t cache -> cache_ok t' cache.
Proof. intros Ht [H1 H2 H3]. split; [done| |done]. intros n l v Hl Hv. specialize (H2 n l v Hl Hv). lia. Qed.

Lemma event_ok now cache cache' : cache_ok now cache -> event now cache cache' -> cache_ok now cache'.
Proof.
  intros Hok. destruct 1 as [pod|old new cache' He|obj cache' He|cur].
  - unfold filtered_add, OnAdd. case_match; [by apply updateCache_ok|done].
  - unfold filtered_update, OnAdd, OnUpdate in He. repeat case_match; simplify_eq; try done;
      try (by apply updateCache_ok). eapply subset_ok; [done|by eapply OnDelete_sub].
  - unfold filtered_delete in He. case_match; simplify_eq; [|done]. eapply subset_ok; [done|by eapply OnDelete_sub].
  - eapply subset_ok; [done|]. intros n l'. rewrite (cleanup_lookup _ _ _ now) by done.
    intros (l & Hl & ->)%fmap_Some. exists l. split; [done|]. case_decide; [done|apply sublist_filter].
Qed.

Lemma history_ok t cache : history t cache -> cache_ok t cache.
Proof.
  induction 1 as [t|t t' cache cache' _ IH Ht He].
  - split; intros n l; [|intros v..]; rewrite lookup_empty; done.
  - eapply event_ok; [|done]. by eapply later_ok.
Qed.
