(* ===== verification/LoadAware.v ===== *)
(** * The load-aware scores ([pkg/trimaran])

    [resourcestats.go] and the three plugins built on it: TargetLoadPacking
    ([targetloadpacking.go]) packs nodes up to a target CPU load,
    LoadVariationRiskBalancing ([analysis.go], [loadvariationriskbalancing.go])
    spreads by average and deviation of the load, and LowRiskOverCommitment
    ([beta.go], [lowriskovercommitment.go]) by the risk of overuse, from limits
    and from a beta distribution fitted to the load.

    Floating point is IEEE arithmetic in the order of the code, without fused
    operations. Parameters: scalar resource names, [math.Pow], gonum's beta
    functions and what an [int64] conversion out of range gives. *)

From S2P Require Import Prelude.
From S2P Require Import GoFloat.
From S2P Require Import GoMath.
From S2P Require Import KubeTypes.
From S2P Require Import Framework.
From S2P Require Import Resource.
From S2P Require Import ArgsTypes.
From S2P Require Import Trimaran.
From Stdlib Require Import SpecFloat.

(** The operators and types of the load watcher's metrics. *)
Definition Average : string := "AVG".
Definition Std : string := "STD".
Definition Latest : string := "Latest".
Definition CPU : string := "CPU".
Definition MemoryMetric : string := "Memory".

(** [float64(1. / 1024. / 1024.)]. *)
Definition MegaFactor : spec_float := f64_div (f64_div (float64 1) (float64 1024)) (float64 1024).

Definition float_lt (x y : spec_float) : bool := SFltb x y.
Definition float_le (x y : spec_float) : bool := SFleb x y.

(** ** Statistics of a resource *)

Record ResourceStats := {
  UsedAvg : spec_float;
  UsedStdev : spec_float;
  Req : spec_float;
  Capacity : spec_float;
}.

(** [GetResourceData]: the average, the deviation, and whether any metric of the
    type was there. *)
Definition data_turn (resourceType : string) (acc : spec_float * spec_float * bool * bool) (metric : Metric)
    : spec_float * spec_float * bool * bool :=
  let '(avg, stDev, avgFound, isValid) := acc in
  if bool_decide (metric_type metric = resourceType) then
    if bool_decide (metric_operator metric = Average) then (metric_value metric, stDev, true, true)
    else if bool_decide (metric_operator metric = Std) then (avg, metric_value metric, avgFound, true)
    else if (bool_decide (metric_operator metric = "") || bool_decide (metric_operator metric = Latest)) && negb avgFound
    then (metric_value metric, stDev, avgFound, true)
    else (avg, stDev, avgFound, true)
  else acc.

Definition GetResourceData (metrics : list Metric) (resourceType : string) : spec_float * spec_float * bool :=
  let '(avg, stDev, _, isValid) :=
    foldl (data_turn resourceType) (float64 0, float64 0, false, false) metrics in
  (avg, stDev, isValid).

(** [CreateResourceStats]: [None] when there is no valid data. *)
Definition CreateResourceStats (metrics : list Metric) (allocatable : ResourceList) (podRequest : Resource)
    (resourceName watcherType : string) : option ResourceStats :=
  let '(nodeUtil, nodeStd, metricFound) := GetResourceData metrics watcherType in
  if negb metricFound then None
  else
    let am := default 0 (allocatable !! resourceName) in
    let '(capacity, req) :=
      if bool_decide (resourceName = ResourceCPU)
      then (float64 (MilliValue am), float64 (MilliCPU podRequest))
      else (f64_mul (float64 (Value am)) MegaFactor, f64_mul (float64 (Memory podRequest)) MegaFactor) in
    Some {| UsedAvg := f64_div (f64_mul nodeUtil capacity) (float64 100);
            UsedStdev := f64_div (f64_mul nodeStd capacity) (float64 100);
            Req := req; Capacity := capacity |}.

Definition GetMuSigma (rs : ResourceStats) : spec_float * spec_float :=
  if float_le (Capacity rs) (float64 0) then (float64 0, float64 0)
  else
    let mu := f64_div (f64_add (UsedAvg rs) (Req rs)) (Capacity rs) in
    let mu := Max (Min mu (float64 1)) (float64 0) in
    let sigma := f64_div (UsedStdev rs) (Capacity rs) in
    let sigma := Max (Min sigma (float64 1)) (float64 0) in
    (mu, sigma).

(** ** Requests and limits of pods *)

Section Effective.
Variable isScalar : string -> bool.

Definition setMax (x y : Z) : Z := if x <? y then y else x.
Definition setMin (x y : Z) : Z := if y <? x then y else x.

Definition with_cpu (v : Z) (r : Resource) : Resource := {|
  MilliCPU := v; Memory := Memory r; EphemeralStorage := EphemeralStorage r;
  AllowedPodNumber := AllowedPodNumber r; ScalarResources := ScalarResources r |}.
Definition with_memory (v : Z) (r : Resource) : Resource := {|
  MilliCPU := MilliCPU r; Memory := v; EphemeralStorage := EphemeralStorage r;
  AllowedPodNumber := AllowedPodNumber r; ScalarResources := ScalarResources r |}.

(** One entry of an init container. *)
Definition init_max (rName : string) (rQuantity : Quantity) (result : Resource) : Resource :=
  if bool_decide (rName = ResourceCPU) then with_cpu (setMax (MilliCPU result) (MilliValue rQuantity)) result
  else if bool_decide (rName = ResourceMemory) then with_memory (setMax (Memory result) (Value rQuantity)) result
  else result.

Definition GetEffectiveResource (pod : LoadPod) (fn : Container -> ResourceList) : Resource :=
  let result := foldl (fun r c => Add isScalar (fn c) r) zero_resource (lp_containers pod) in
  let result := foldl (fun r c => map_fold init_max r (fn c)) result (lp_init_containers pod) in
  match lp_overhead pod with Some o => Add isScalar o result | None => result end.

Definition GetResourceRequested (pod : LoadPod) : Resource := GetEffectiveResource pod c_requests.
Definition GetResourceLimits (pod : LoadPod) : Resource := GetEffectiveResource pod c_limits.

(** The loop of [SetMaxLimits] over the scalar requests. The map of limits is
    nil as long as it is empty, and a write to a nil map panics ([None]). *)
Definition set_max_scalar (k : string) (v : Z) (limits : option (gmap string Z)) : option (gmap string Z) :=
  match limits with
  | None => None
  | Some m =>
      if default 0 (m !! k) <? v then if bool_decide (m = ∅) then None else Some (<[k := v]> m)
      else Some m
  end.

Definition SetMaxLimits (requests limits : Resource) : option Resource :=
  (fun scalars => {|
    MilliCPU := setMax (MilliCPU limits) (MilliCPU requests);
    Memory := setMax (Memory limits) (Memory requests);
    EphemeralStorage := setMax (EphemeralStorage limits) (EphemeralStorage requests);
    AllowedPodNumber := if AllowedPodNumber limits <? AllowedPodNumber requests
                        then AllowedPodNumber requests else AllowedPodNumber limits;
    ScalarResources := scalars |}) <$>
  map_fold set_max_scalar (Some (ScalarResources limits)) (ScalarResources requests).

(** ** Requests and limits on a node *)

Record NodeRequestsAndLimits := {
  NodeRequest : Resource;
  NodeLimit : Resource;
  NodeRequestMinusPod : Resource;
  NodeLimitMinusPod : Resource;
  Nodecapacity : Resource;
}.

Definition accumulate (total r : Resource) : Resource :=
  with_memory (Memory total +! Memory r) (with_cpu (MilliCPU total +! MilliCPU r) total).

(** A pod at an address: pods are compared by pointer. *)
Record PodAt := { address : Z; pod_at : LoadPod }.

(** A turn of the loop over the pods, the pending one last. *)
Definition limits_turn (pending : PodAt) (podRequests podLimits : Resource)
    (acc : option (Resource * Resource * Resource * Resource)) (p : PodAt)
    : option (Resource * Resource * Resource * Resource) :=
  match acc with
  | None => None
  | Some (nodeRequest, nodeLimit, requestMinus, limitMinus) =>
      if address p =? address pending then
        Some (accumulate nodeRequest podRequests, accumulate nodeLimit podLimits, nodeRequest, nodeLimit)
      else
        let requested := GetResourceRequested (pod_at p) in
        match SetMaxLimits requested (GetResourceLimits (pod_at p)) with
        | None => None
        | Some limits =>
            Some (accumulate nodeRequest requested, accumulate nodeLimit limits, requestMinus, limitMinus)
        end
  end.

Definition cap_by (capCpu capMem : Z) (r : Resource) : Resource :=
  with_memory (setMin (Memory r) capMem) (with_cpu (setMin (MilliCPU r) capCpu) r).

Definition GetNodeRequestsAndLimits (podsOnNode : list PodAt) (allocatable : ResourceList) (pending : PodAt)
    (podRequests podLimits : Resource) : option NodeRequestsAndLimits :=
  let capCpu := MilliValue (default 0 (allocatable !! ResourceCPU)) in
  let capMem := Value (default 0 (allocatable !! ResourceMemory)) in
  match foldl (limits_turn pending podRequests podLimits)
          (Some (zero_resource, zero_resource, zero_resource, zero_resource)) (podsOnNode ++ [pending]) with
  | None => None
  | Some (nodeRequest, nodeLimit, requestMinus, limitMinus) =>
      Some {| NodeRequest := cap_by capCpu capMem nodeRequest; NodeLimit := nodeLimit;
              NodeRequestMinusPod := cap_by capCpu capMem requestMinus; NodeLimitMinusPod := limitMinus;
              Nodecapacity := with_memory capMem (with_cpu capCpu zero_resource) |}
  end.
End Effective.

(** ** TargetLoadPacking *)

Section TargetLoad.
(** What [int64] makes of a float out of its range. *)
Variable other : spec_float -> Z.

(** The variables of the package that [New] sets for every instance. *)
Record TargetLoadPacking := {
  requestsMilliCores : Z;
  hostTargetUtilizationPercent : Z;
  requestsMultiplier : spec_float;
}.

Definition PredictUtilisation (pl : TargetLoadPacking) (container : Container) : Z :=
  match c_limits container !! ResourceCPU with
  | Some q => MilliValue q
  | None =>
      match c_requests container !! ResourceCPU with
      | Some q => to_int64 other (Round (f64_mul (float64 (MilliValue q)) (requestsMultiplier pl)))
      | None => requestsMilliCores pl
      end
  end.

(** [Overhead.Cpu()] of a list, nil or not. *)
Definition overhead_cpu (o : option ResourceList) : Z :=
  MilliValue (default 0 (default ∅ o !! ResourceCPU)).

Definition predicted_sum (pl : TargetLoadPacking) (start : Z) (containers : list Container) : Z :=
  foldl (fun s c => s +! PredictUtilisation pl c) start containers.

Definition cur_usage (pl : TargetLoadPacking) (pod : LoadPod) : Z :=
  let cur := predicted_sum pl 0 (lp_containers pod) in
  match lp_overhead pod with Some o => cur +! overhead_cpu (Some o) | None => cur end.

(** The latest CPU metric of the slice, an average or an instant value. *)
Definition cpu_metric (metrics : list Metric) : option spec_float :=
  foldl (fun found metric =>
    if bool_decide (metric_type metric = CPU) &&
       (bool_decide (metric_operator metric = Average) || bool_decide (metric_operator metric = Latest))
    then Some (metric_value metric) else found) None metrics.

(** Whether the metrics may not count a pod yet; [t] in seconds. *)
Definition not_reported (windowEnd t : Z) : bool :=
  (windowEnd <? t) || ((t <=? windowEnd) && (windowEnd -! t <? metricsAgentReportingIntervalSeconds)).

Definition missing_usage (pl : TargetLoadPacking) (windowEnd : Z) (infos : list podInfo) : Z :=
  foldl (fun missing info =>
    if not_reported windowEnd (Timestamp info / Second)
    then predicted_sum pl missing (lp_containers (info_pod info)) +! overhead_cpu (lp_overhead (info_pod info))
    else missing) 0 infos.

(** The predicted usage in percent of the node's capacity. *)
Definition predicted_usage (nodeCPUUtilPercent : spec_float) (capacity cur missing : Z) : spec_float :=
  let nodeCPUCapMillis := float64 capacity in
  let nodeCPUUtilMillis := f64_mul (f64_div nodeCPUUtilPercent (float64 100)) nodeCPUCapMillis in
  if SFeqb nodeCPUCapMillis (float64 0) then float64 0
  else f64_div (f64_mul (float64 100) (f64_add (f64_add nodeCPUUtilMillis (float64 cur)) (float64 missing)))
         nodeCPUCapMillis.

(** The score of a predicted usage. *)
Definition target_score (target : Z) (predicted : spec_float) : Z :=
  if float_lt (float64 target) predicted then
    if float_lt (float64 100) predicted then MinNodeScore
    else
      to_int64 other (Round (f64_div (f64_mul (float64 target) (f64_sub (float64 100) predicted))
                               (f64_sub (float64 100) (float64 target))))
  else
    to_int64 other (Round (f64_add
      (f64_div (f64_mul (f64_sub (float64 100) (float64 target)) predicted) (float64 target))
      (float64 target))).

(** [Score]: the snapshot's answer has the capacity of the node's status. *)
Definition target_Score (pl : TargetLoadPacking) (c : Collector) (cache : ScheduledPodsCache) (pod : LoadPod)
    (nodeName : string) (node : result ResourceList) : Z * FStatus :=
  match node with
  | Err _ => (MinNodeScore, NewStatus CodeError)
  | Ok capacity =>
      match GetNodeMetrics c nodeName with
      | (Some metrics, Some allMetrics) =>
          match cpu_metric metrics with
          | None => (MinNodeScore, NewStatus Success)
          | Some util =>
              let missing := missing_usage pl (window_end allMetrics) (default [] (cache !! nodeName)) in
              (target_score (hostTargetUtilizationPercent pl)
                 (predicted_usage util (MilliValue (default 0 (capacity !! ResourceCPU))) (cur_usage pl pod) missing),
               NewStatus Success)
          end
      | _ => (MinNodeScore, NewStatus Success)
      end
  end.
End TargetLoad.

(** [New] overwrites the variables one by one, so the last step that fails still
    leaves the target and the default requests changed. [ParseFloat] is the
    standard library's, with the number it gives next to an error. *)
Definition New_target (env : Surroundings) (ParseFloat : string -> spec_float * bool)
    (args : TargetLoadPackingArgs) (answer : result WatcherMetrics) (vars : TargetLoadPacking)
    : Outcome Collector * TargetLoadPacking :=
  match NewCollector env (tlp_TrimaranSpec args) answer with
  | Refused => (Refused, vars)
  | Crashed => (Crashed, vars)
  | Made c =>
      let '(m, parsed) := ParseFloat (DefaultRequestsMultiplier args) in
      (if parsed then Made c else Refused,
       {| requestsMilliCores := MilliValue (default 0 (default ∅ (DefaultRequests args) !! ResourceCPU));
          hostTargetUtilizationPercent := TargetUtilization args; requestsMultiplier := m |})
  end.

(** ** LoadVariationRiskBalancing *)

Section Variation.
Variable isScalar : string -> bool.
Variable Pow : spec_float -> spec_float -> spec_float.
Variable other : spec_float -> Z.

(** [computeScore]: the statistics are clamped in place first. *)
Definition computeScore (rs : ResourceStats) (margin sensitivity : spec_float) : spec_float :=
  if float_le (Capacity rs) (float64 0) then float64 0
  else
    let rs := {|
      Req := Max (Req rs) (float64 0);
      UsedAvg := Max (Min (UsedAvg rs) (Capacity rs)) (float64 0);
      UsedStdev := Max (Min (UsedStdev rs) (Capacity rs)) (float64 0);
      Capacity := Capacity rs |} in
    let '(mu, sigma) := GetMuSigma rs in
    let sigma := if float_le (float64 0) sensitivity
                 then Pow sigma (f64_div (float64 1) sensitivity) else sigma in
    let sigma := f64_mul sigma margin in
    let sigma := Max (Min sigma (float64 1)) (float64 0) in
    let risk := f64_div (f64_add mu sigma) (float64 2) in
    f64_mul (f64_sub (float64 1) risk) (float64 MaxNodeScore).

(** [New]: the plugin keeps its arguments. *)
Definition New_variation (env : Surroundings) (args : LoadVariationRiskBalancingArgs)
    (answer : result WatcherMetrics) : Outcome (Collector * LoadVariationRiskBalancingArgs) :=
  match NewCollector env (lv_TrimaranSpec args) answer with
  | Made c => Made (c, args)
  | Refused => Refused
  | Crashed => Crashed
  end.

Definition resource_score (args : LoadVariationRiskBalancingArgs) (stats : option ResourceStats) : spec_float :=
  match stats with
  | Some rs => computeScore rs (SafeVarianceMargin args) (SafeVarianceSensitivity args)
  | None => float64 0
  end.

(** [Score]: [node] is the allocatable amounts of the node. *)
Definition variation_Score (args : LoadVariationRiskBalancingArgs) (c : Collector) (pod : LoadPod)
    (nodeName : string) (node : result ResourceList) : Z * FStatus :=
  match node with
  | Err _ => (MinNodeScore, NewStatus CodeError)
  | Ok allocatable =>
      match (GetNodeMetrics c nodeName).1 with
      | None => (MinNodeScore, NewStatus Success)
      | Some metrics =>
          let podRequest := GetResourceRequested isScalar pod in
          let cpuStats := CreateResourceStats metrics allocatable podRequest ResourceCPU CPU in
          let memoryStats := CreateResourceStats metrics allocatable podRequest ResourceMemory MemoryMetric in
          let cpuScore := resource_score args cpuStats in
          let memoryScore := resource_score args memoryStats in
          let totalScore :=
            match memoryStats, cpuStats with
            | Some _, Some _ => Min memoryScore cpuScore
            | _, _ => Max memoryScore cpuScore
            end in
          (to_int64 other (Round totalScore), NewStatus Success)
      end
  end.
End Variation.

(** ** The beta distribution *)

Section Risk.
Variable isScalar : string -> bool.
Variable Pow : spec_float -> spec_float -> spec_float.
(** gonum's [RegIncBeta(a, b, x)] and [Beta(a, b)]. *)
Variable RegIncBeta : spec_float -> spec_float -> spec_float -> spec_float.
Variable Beta : spec_float -> spec_float -> spec_float.
Variable other : spec_float -> Z.

Record BetaDistribution := {
  alpha : spec_float;
  beta : spec_float;
  isValid : bool;
  firstMoment : spec_float;
  secondMoment : spec_float;
  thirdMoment : spec_float;
}.

Definition checkValidity (alpha beta : spec_float) : bool := float_lt (float64 0) alpha && float_lt (float64 0) beta.

Definition computeMoments (b : BetaDistribution) : bool * BetaDistribution :=
  if isValid b then
    let sum := f64_add (alpha b) (beta b) in
    let first := f64_div (alpha b) sum in
    let second := f64_div (f64_mul first (f64_add (alpha b) (float64 1))) (f64_add sum (float64 1)) in
    let third := f64_div (f64_mul second (f64_add (alpha b) (float64 2))) (f64_add sum (float64 2)) in
    (true, {| alpha := alpha b; beta := beta b; isValid := true;
              firstMoment := first; secondMoment := second; thirdMoment := third |})
  else (false, b).

Definition NewBetaDistribution (a b : spec_float) : option BetaDistribution :=
  if checkValidity a b then
    Some (computeMoments {| alpha := a; beta := b; isValid := true;
      firstMoment := float64 0; secondMoment := float64 0; thirdMoment := float64 0 |}).2
  else None.

Definition Mean (b : BetaDistribution) : spec_float := firstMoment b.
Definition Variance (b : BetaDistribution) : spec_float :=
  f64_sub (secondMoment b) (f64_mul (firstMoment b) (firstMoment b)).

Definition RegularizedIncomplete (x a b : spec_float) : spec_float :=
  if float_le a (float64 0) || float_le b (float64 0) || float_lt x (float64 0) || float_lt (float64 1) x
  then S754_nan
  else if SFeqb x (float64 0) then float64 0
  else if SFeqb x (float64 1) then float64 1
  else RegIncBeta a b x.

Definition DistributionFunction (d : BetaDistribution) (x : spec_float) : spec_float :=
  let p := RegularizedIncomplete x (alpha d) (beta d) in
  if IsNaN p || float_lt p (float64 0) || float_lt (float64 1) p then float64 0 else p.

Definition DensityFunction (d : BetaDistribution) (x : spec_float) : spec_float :=
  let betax := f64_mul (Pow x (f64_sub (alpha d) (float64 1)))
                 (Pow (f64_sub (float64 1) x) (f64_sub (beta d) (float64 1))) in
  let pdf := f64_div betax (Beta (alpha d) (beta d)) in
  if IsNaN pdf || float_lt pdf (float64 0) then float64 0 else pdf.

Definition SmallestNonzeroFloat64 : spec_float := S754_finite false 1 (-1074).

(** [MatchMoments]: the distribution is left as it was when the moments have no
    beta distribution. *)
Definition MatchMoments (m1 m2 : spec_float) (b : BetaDistribution) : bool * BetaDistribution :=
  let variance := f64_sub m2 (f64_mul m1 m1) in
  let bound := f64_mul m1 (f64_sub (float64 1) m1) in
  if float_lt m1 (float64 0) || float_lt (float64 1) m1 || float_lt variance (float64 0) || float_le bound variance
  then (false, b)
  else
    let temp := f64_sub (f64_div bound variance) (float64 1) in
    let temp := Max temp SmallestNonzeroFloat64 in
    computeMoments {| alpha := f64_mul m1 temp; beta := f64_mul (f64_sub (float64 1) m1) temp;
      isValid := isValid b; firstMoment := firstMoment b; secondMoment := secondMoment b;
      thirdMoment := thirdMoment b |}.

Definition GetMaxVariance (m1 : spec_float) : spec_float :=
  if float_lt (float64 0) m1 && float_lt m1 (float64 1) then f64_mul m1 (f64_sub (float64 1) m1) else float64 0.

(** [ComputeProbability]: [NewBetaDistribution(1, 1)] is never nil. *)
Definition ComputeProbability (mu sigma threshold : spec_float) : spec_float * option BetaDistribution :=
  if SFeqb mu (float64 0) || (SFeqb sigma (float64 0) && float_le mu threshold) then (float64 1, None)
  else if SFeqb sigma (float64 0) && float_lt threshold mu then (float64 0, None)
  else
    let m2 := f64_add (f64_mul sigma sigma) (f64_mul mu mu) in
    match NewBetaDistribution (float64 1) (float64 1) with
    | None => (float64 0, None)
    | Some betaDist =>
        match MatchMoments mu m2 betaDist with
        | (false, _) => (float64 0, None)
        | (true, betaDist) =>
            let belowLimit := DistributionFunction betaDist threshold in
            if IsNaN belowLimit then (float64 1, Some betaDist) else (belowLimit, Some betaDist)
        end
    end.

(** ** LowRiskOverCommitment *)

Record LowRiskOverCommitment := {
  lowrisk_args : LowRiskOverCommitmentArgs;
  riskLimitWeightsMap : gmap string spec_float;
}.

Definition Half : spec_float := f64_div (float64 1) (float64 2).

(** [New]: the weights in the arguments, and a half for CPU and memory without
    one. *)
Definition New_lowrisk (env : Surroundings) (args : LowRiskOverCommitmentArgs)
    (answer : result WatcherMetrics) : Outcome (Collector * LowRiskOverCommitment) :=
  match NewCollector env (lr_TrimaranSpec args) answer with
  | Made c => Made (c, {|
      lowrisk_args := args;
      riskLimitWeightsMap :=
        default ∅ (RiskLimitWeights args) ∪ {[ ResourceCPU := Half; ResourceMemory := Half ]} |})
  | Refused => Refused
  | Crashed => Crashed
  end.

(** [MaxVarianceAllowance], the float nearest to 0.99. *)
Definition MaxVarianceAllowance : spec_float := f64_div (float64 99) (float64 100).

(** The potential load: what the limits overcommit. *)
Definition risk_limit (limit capacity request : Z) : spec_float :=
  if capacity <? limit then f64_div (float64 (limit -! capacity)) (float64 (limit -! request)) else float64 0.

(** The probability that the load is within what is allocated, given that it is
    within the limits. *)
Definition alloc_prob (mu sigma : spec_float) (requestMinusPod limitMinusPod capacity : Z) : spec_float :=
  let allocThreshold := f64_div (float64 requestMinusPod) (float64 capacity) in
  let allocThreshold := Min (Max allocThreshold (float64 0)) (float64 1) in
  let '(allocProb, fitDistribution) := ComputeProbability mu sigma allocThreshold in
  if (limitMinusPod <? capacity) && (requestMinusPod <=? limitMinusPod) then
    let limitThreshold := f64_div (float64 limitMinusPod) (float64 capacity) in
    if SFeqb limitThreshold (float64 0) then float64 1
    else
      match fitDistribution with
      | Some d =>
          let limitProb := DistributionFunction d limitThreshold in
          if float_lt (float64 0) limitProb
          then Min (Max (f64_div allocProb limitProb) (float64 0)) (float64 1)
          else allocProb
      | None => allocProb
      end
  else allocProb.

(** The measured overcommitment; no data is no risk. *)
Definition risk_load (pl : LowRiskOverCommitment) (stats : option ResourceStats)
    (requestMinusPod limitMinusPod capacity : Z) : spec_float :=
  match stats with
  | None => float64 0
  | Some stats =>
      let '(mu, sigma) := GetMuSigma stats in
      let sigma := f64_mul sigma (Pow (float64 (SmoothingWindowSize (lowrisk_args pl))) Half) in
      let sigma := Min sigma (f64_sqrt (f64_mul (GetMaxVariance mu) MaxVarianceAllowance)) in
      f64_sub (float64 1) (alloc_prob mu sigma requestMinusPod limitMinusPod capacity)
  end.

(** The weighted sum of the two risks. *)
Definition total_risk (w riskLimit riskLoad : spec_float) : spec_float :=
  let totalRisk := f64_add (f64_mul w riskLimit) (f64_mul (f64_sub (float64 1) w) riskLoad) in
  Min (Max totalRisk (float64 0)) (float64 1).

Definition computeRisk (pl : LowRiskOverCommitment) (metrics : list Metric) (resourceName resourceType : string)
    (allocatable : ResourceList) (n : NodeRequestsAndLimits) : spec_float :=
  let amounts (amount : Resource -> Z) :=
    let riskLimit := risk_limit (amount (NodeLimit n)) (amount (Nodecapacity n)) (amount (NodeRequest n)) in
    let stats := CreateResourceStats metrics allocatable zero_resource resourceName resourceType in
    let riskLoad := risk_load pl stats (amount (NodeRequestMinusPod n)) (amount (NodeLimitMinusPod n))
                      (amount (Nodecapacity n)) in
    total_risk (default (float64 0) (riskLimitWeightsMap pl !! resourceName)) riskLimit riskLoad in
  if bool_decide (resourceName = ResourceCPU) then amounts MilliCPU
  else if bool_decide (resourceName = ResourceMemory) then amounts Memory
  else float64 0.

(** [computeRank]; the panic of [SetMaxLimits] comes through. *)
Definition computeRank (pl : LowRiskOverCommitment) (metrics : list Metric) (allocatable : ResourceList)
    (podsOnNode : list PodAt) (pod : PodAt) (podRequests podLimits : Resource) : option spec_float :=
  (fun n =>
    let riskCPU := computeRisk pl metrics ResourceCPU CPU allocatable n in
    let riskMemory := computeRisk pl metrics ResourceMemory MemoryMetric allocatable n in
    f64_sub (float64 1) (Max riskCPU riskMemory)) <$>
  GetNodeRequestsAndLimits isScalar podsOnNode allocatable pod podRequests podLimits.

Record PodResourcesStateData := { podRequests : Resource; podLimits : Resource }.

Definition CreatePodResourcesStateData (pod : LoadPod) : option PodResourcesStateData :=
  let requests := GetResourceRequested isScalar pod in
  (fun limits => {| podRequests := requests; podLimits := limits |}) <$>
  SetMaxLimits requests (GetResourceLimits isScalar pod).

(** The cycle state under the plugin's key: absent, of another type, or data. *)
Inductive PreScoreState := NoState | OtherState | StateData (d : PodResourcesStateData).

Definition PreScore (pod : LoadPod) : option PreScoreState := StateData <$> CreatePodResourcesStateData pod.

(** The amounts of the pod: without the state of [PreScore] they are computed
    again. *)
Definition pod_resources (state : PreScoreState) (pod : LoadPod) : option PodResourcesStateData :=
  match state with StateData d => Some d | _ => CreatePodResourcesStateData pod end.

Definition lowrisk_Score (pl : LowRiskOverCommitment) (c : Collector) (state : PreScoreState) (pod : PodAt)
    (nodeName : string) (node : result (ResourceList * list PodAt)) : option (Z * FStatus) :=
  match pod_resources state (pod_at pod) with
  | None => None
  | Some podResources =>
      let requests := podRequests podResources in
      let limits := podLimits podResources in
      if (MilliCPU requests =? 0) && (Memory requests =? 0) && (MilliCPU limits =? 0) && (Memory limits =? 0)
      then Some (MinNodeScore, NewStatus Success)
      else
        match node with
        | Err _ => Some (MinNodeScore, NewStatus CodeError)
        | Ok (allocatable, podsOnNode) =>
            match (GetNodeMetrics c nodeName).1 with
            | None => Some (MinNodeScore, NewStatus Success)
            | Some metrics =>
                (fun rank => (to_int64 other (Round (f64_mul rank (float64 MaxNodeScore))), NewStatus Success)) <$>
                computeRank pl metrics allocatable podsOnNode pod requests limits
            end
        end
  end.
End Risk.
