(* ===== verification/LoadAwareProofs.v ===== *)
(** * Lemmas on the load-aware scores *)

From S2P Require Import Prelude.
From S2P Require Import GoFloat.
From S2P Require Import GoMath.
From S2P Require Import KubeTypes.
From S2P Require Import Framework.
From S2P Require Import Resource.
From S2P Require Import Trimaran.
From S2P Require Import LoadAware.
From Stdlib Require Import SpecFloat.

(** A double that is a number. *)
Definition number (x : spec_float) : Prop := valid x /\ IsNaN x = false.

Lemma number_float64 z : number (float64 z).
Proof. split; [apply valid_float64|apply normalize_valid]. Qed.

(** ** Unit intervals *)

Lemma unit_sub x : between 0 1 x -> between 0 1 (f64_sub (float64 1) x).
Proof. intros Hx. by apply (between_sub 1 1 0 1 (float64 1) x); [lia..|apply between_float64; lia|]. Qed.

Lemma unit_mul x y : between 0 1 x -> between 0 1 y -> between 0 1 (f64_mul x y).
Proof. intros Hx Hy. by apply (between_mul 0 1 0 1 x y). Qed.

Lemma unit_half x y : between 0 1 x -> between 0 1 y -> between 0 1 (f64_div (f64_add x y) (float64 2)).
Proof.
  intros Hx Hy. apply (between_div 0 2); [lia..|]. by apply (between_add 0 1 0 1 x y).
Qed.

Lemma unit_percent x : between 0 1 x -> between 0 100 (f64_mul x (float64 MaxNodeScore)).
Proof.
  intros Hx. apply (between_mul 0 1 0 100); [lia..|done|].
  apply between_float64; unfold MaxNodeScore; lia.
Qed.

(** Quotients that are clamped to the unit interval. *)
Lemma unit_ratio x c : number x -> valid c -> positive c = true ->
  between 0 1 (Max (Min (f64_div x c) (float64 1)) (float64 0)).
Proof.
  intros [Hx Hn] Hc Hp. change (between 0 1 (clamp (f64_div x c) (float64 1))).
  apply clamp_unit; [by apply valid_div|by apply number_div].
Qed.

(** ** Statistics *)

(** The data read off metrics that are numbers are numbers. *)
Lemma resource_data_numbers metrics ty : (forall m, m ∈ metrics -> number (metric_value m)) ->
  let '(avg, stDev, _) := GetResourceData metrics ty in number avg /\ number stDev.
Proof.
  intros Hm. unfold GetResourceData.
  assert (forall acc : spec_float * spec_float * bool * bool, number acc.1.1.1 -> number acc.1.1.2 ->
    let r := foldl (data_turn ty) acc metrics in number r.1.1.1 /\ number r.1.1.2) as H.
  { induction metrics as [|m ms IH]; intros acc H1 H2; [done|]. cbn [foldl].
    assert (number (metric_value m)) by (apply Hm; left).
    apply IH; [intros; apply Hm; by right|..]; destruct acc as [[[a s] f] v]; unfold data_turn; repeat case_match; done. }
  specialize (H (float64 0, float64 0, false, false)). destruct (foldl _ _ _) as [[[a s] f] v].
  apply H; apply number_float64.
Qed.

Lemma mega_unit : between 0 1 MegaFactor /\ positive MegaFactor = true.
Proof. split; [|done]. vm_compute. repeat split; discriminate. Qed.

(** What [CreateResourceStats] makes of sane amounts. *)
Record stats_ok (rs : ResourceStats) : Prop := {
  capacity_range : between 0 (2 ^ 53 - 1) (Capacity rs) /\ valid (Capacity rs);
  req_range : between 0 (2 ^ 53 - 1) (Req rs) /\ valid (Req rs);
  used_numbers : positive (Capacity rs) = true -> number (UsedAvg rs) /\ number (UsedStdev rs);
}.

Lemma amount_range z : 0 <= z < 2 ^ 53 -> between 0 (2 ^ 53 - 1) (float64 z) /\ valid (float64 z).
Proof. intros Hz. split; [apply between_float64; lia|apply valid_float64]. Qed.

Lemma mega_range z : 0 <= z < 2 ^ 53 ->
  between 0 (2 ^ 53 - 1) (f64_mul (float64 z) MegaFactor) /\ valid (f64_mul (float64 z) MegaFactor).
Proof.
  intros Hz. split; [|apply valid_mul; [apply valid_float64|done]].
  apply (between_mul 0 (2 ^ 53 - 1) 0 1); [lia..|apply between_float64; lia|apply mega_unit].
Qed.

Lemma hundredth_number u c : number u -> valid c -> positive c = true ->
  number (f64_div (f64_mul u c) (float64 100)).
Proof.
  intros [Hu Hn] Hc Hp. split; [apply valid_div; [by apply valid_mul|apply valid_float64]|].
  apply number_div; [by apply number_mul|done].
Qed.

Definition sane_amount (z : Z) : Prop := 0 <= z < 2 ^ 53.

Definition resource_amount (name : string) (q : Quantity) : Z :=
  if bool_decide (name = ResourceCPU) then MilliValue q else Value q.

Lemma stats_sane metrics allocatable req name ty rs :
  (forall m, m ∈ metrics -> number (metric_value m)) ->
  sane_amount (resource_amount name (default 0 (allocatable !! name))) ->
  sane_amount (MilliCPU req) -> sane_amount (Memory req) ->
  CreateResourceStats metrics allocatable req name ty = Some rs -> stats_ok rs.
Proof.
  intros Hm Ha Hc Hmem. unfold CreateResourceStats, resource_amount in *.
  pose proof (resource_data_numbers metrics ty Hm) as Hd. destruct (GetResourceData metrics ty) as [[u s] found].
  destruct Hd as [Hu Hs]. destruct found; [|done]. cbn [negb].
  case_bool_decide as Hn; intros [= <-]; split; cbn [Capacity Req UsedAvg UsedStdev];
    try (by apply amount_range); try (by apply mega_range); intros Hp;
    split; apply hundredth_number; try done; (by apply amount_range) || (by apply mega_range).
Qed.

(** ** LoadVariationRiskBalancing *)

Section Variation.
Variable Pow : spec_float -> spec_float -> spec_float.
(** [math.Pow(x, y)] for 0 <= x <= 1 and y >= 0 is a finite double. *)
Hypothesis Pow_finite : forall x y, between 0 1 x -> nonneg y = true -> valid (Pow x y) /\ finite (Pow x y) = true.

Lemma inverse_nonneg s : Signbit s = false -> IsNaN s = false -> nonneg (f64_div (float64 1) s) = true.
Proof.
  destruct s as [[]|[]| |[] m e]; try done. intros _ _. by apply nonneg_div.
Qed.

Lemma compute_score_range rs margin sensitivity :
  stats_ok rs -> valid margin -> finite margin = true ->
  Signbit sensitivity = false -> IsNaN sensitivity = false ->
  between 0 100 (computeScore Pow rs margin sensitivity).
Proof.
  intros [[Hcap Hcv] [Hreq Hrv] Hused] Hm Hmf Hs Hsn. unfold computeScore, float_le.
  destruct (SFleb (Capacity rs) (float64 0)) eqn:Ecap; [by apply between_float64|].
  assert (positive (Capacity rs) = true) as Hp.
  { apply not_le_zero; [by eapply between_nonneg|by eapply between_finite|done]. }
  destruct (Hused Hp) as [[Hua Hun] [Hsa Hsd]].
  destruct (clamp_spec (UsedAvg rs) (Capacity rs)) as (Ha1 & Ha2 & Ha3 & _); [done..|].
  destruct (clamp_spec (UsedStdev rs) (Capacity rs)) as (Hd1 & Hd2 & Hd3 & _); [done..|].
  unfold clamp in *. unfold GetMuSigma, float_le. cbn [Capacity UsedAvg UsedStdev Req]. rewrite Ecap.
  set (req := Max (Req rs) (float64 0)).
  assert (valid req /\ finite req = true) as [Hrq1 Hrq2].
  { split; [apply valid_Max; [done|apply valid_float64]|].
    eapply between_finite, between_Max; [exact Hreq|by apply between_float64]. }
  set (avg := Max (Min (UsedAvg rs) (Capacity rs)) (float64 0)) in *.
  set (dev := Max (Min (UsedStdev rs) (Capacity rs)) (float64 0)) in *.
  assert (between 0 1 (Max (Min (f64_div (f64_add avg req) (Capacity rs)) (float64 1)) (float64 0))) as Hmu.
  { apply unit_ratio; [|done..]. split; [by apply valid_add|]. apply number_add; [by apply nonneg_number|done]. }
  assert (between 0 1 (Max (Min (f64_div dev (Capacity rs)) (float64 1)) (float64 0))) as Hsig.
  { apply unit_ratio; [|done..]. split; [done|by apply nonneg_number]. }
  set (mu := Max (Min (f64_div (f64_add avg req) (Capacity rs)) (float64 1)) (float64 0)) in *.
  set (sigma := Max (Min (f64_div dev (Capacity rs)) (float64 1)) (float64 0)) in *.
  assert (valid sigma) as Hsv.
  { apply valid_Max; [apply valid_Min; [by apply valid_div|]|]; apply valid_float64. }
  apply unit_percent, unit_sub, unit_half; [done|].
  assert (forall x, valid x -> finite x = true ->
    between 0 1 (Max (Min (f64_mul x margin) (float64 1)) (float64 0))) as Hfin.
  { intros x Hx Hxf. apply (clamp_unit (f64_mul x margin)); [by apply valid_mul|by apply finite_mul_number]. }
  destruct (SFleb (float64 0) sensitivity); [|apply Hfin; [done|by eapply between_finite]].
  destruct (Pow_finite sigma (f64_div (float64 1) sensitivity)) as [H1 H2]; [done|by apply inverse_nonneg|].
  by apply Hfin.
Qed.
End Variation.

(** ** TargetLoadPacking *)

(** Integers up to a hundred subtract exactly. *)
Lemma sub_hundred t : 0 <= t <= 100 -> f64_sub (float64 100) (float64 t) = float64 (100 - t).
Proof.
  intros Ht. assert (Forall (fun t => f64_sub (float64 100) (float64 t) = float64 (100 - t)) (seqZ 0 101)) as H.
  { repeat (constructor; [vm_compute; reflexivity|]). constructor. }
  rewrite Forall_forall in H. apply H, elem_of_seqZ. lia.
Qed.

Lemma predicted_nonneg util capacity cur missing :
  valid util -> nonneg util = true -> 0 <= capacity < 2 ^ 53 -> 0 <= cur -> 0 <= missing ->
  let p := predicted_usage util capacity cur missing in valid p /\ nonneg p = true.
Proof.
  intros Hv Hu Hc Hcur Hmiss. unfold predicted_usage. cbn zeta.
  destruct (SFeqb (float64 capacity) (float64 0)) eqn:E; [by split|].
  assert (positive (float64 capacity) = true) as Hp.
  { destruct (decide (capacity = 0)) as [->|?]; [done|]. apply positive_float64. lia. }
  split; [repeat first [apply valid_div|apply valid_mul|apply valid_add|apply valid_float64|done]|].
  apply nonneg_div; [|done]. apply nonneg_mul'; [done|].
  apply nonneg_add; [|by apply nonneg_float64]. apply nonneg_add; [|by apply nonneg_float64].
  apply nonneg_mul; [|done]. by apply nonneg_div.
Qed.

(** The three bands of the score. *)
Lemma target_bands other t p : 0 < t <= 100 -> valid p -> nonneg p = true ->
  (float_lt (float64 100) p = true -> target_score other t p = 0) /\
  (float_lt (float64 t) p = true -> 0 <= target_score other t p <= t) /\
  (float_lt (float64 t) p = false -> t <= target_score other t p <= 100).
Proof.
  intros Ht Hv Hn. unfold target_score, float_lt.
  assert (SFltb (float64 t) p = false -> between 0 t p) as Hbelow.
  { apply (not_above p (float64 t) t t); [done|apply valid_float64|done|apply between_float64; lia|lia]. }
  assert (SFltb (float64 100) p = false -> between 0 100 p) as Hbelow100.
  { apply (not_above p (float64 100) 100 100); [done|apply valid_float64|done|by apply between_float64|lia]. }
  assert (SFltb (float64 t) p = false -> SFltb (float64 100) p = false) as Hmono.
  { intros Hlt. specialize (Hbelow Hlt). apply not_true_iff_false. intros H100.
    pose proof (above p (float64 100) 100 100 t Hv (valid_float64 _) Hbelow
      ltac:(by apply between_float64) H100) as Ha.
    assert (t = 100) as ->; [|congruence].
    destruct p as [s| | |[] m e]; try done; try (cbn in Ha; lia).
    destruct Ha as [He Ha]. pose proof (pow2_pos e He). nia. }
  split; [|split].
  - intros H100. rewrite H100. destruct (SFltb (float64 t) p); [done|]. by rewrite Hmono in H100.
  - intros Hlt. rewrite Hlt. destruct (SFltb (float64 100) p) eqn:E100; [unfold MinNodeScore; lia|].
    specialize (Hbelow100 eq_refl).
    pose proof (above p (float64 t) t t 100 Hv (valid_float64 _) Hbelow100 ltac:(apply between_float64; lia) Hlt) as Ha.
    assert (t < 100).
    { destruct (decide (t = 100)) as [->|?]; [congruence|lia]. }
    rewrite sub_hundred by lia. apply round_int64; [done|lia|].
    apply (between_div 0 (t * (100 - t))); [lia|lia|lia|lia|].
    apply (between_weaken (t * 0) (t * (100 - t))); [|lia|lia].
    apply between_mul; [lia|lia|nia|apply between_float64; lia|].
    apply (between_sub 100 100 t 100); [lia|lia|lia|by apply between_float64|done].
  - intros Hlt. rewrite Hlt. specialize (Hbelow Hlt). apply round_int64; [lia|lia|].
    rewrite sub_hundred by lia.
    apply (between_weaken (0 + t) ((100 - t) + t)); [|lia|lia]. apply between_add; [lia|lia|lia| |apply between_float64; lia].
    apply (between_div 0 ((100 - t) * t)); [lia|lia|lia|lia|].
    apply (between_weaken ((100 - t) * 0) ((100 - t) * t)); [|lia|lia].
    apply between_mul; [lia|lia|nia|apply between_float64; lia|done].
Qed.

(** ** The beta distribution and the risks *)

Section Risk.
Variable Pow : spec_float -> spec_float -> spec_float.
Variable RegIncBeta : spec_float -> spec_float -> spec_float -> spec_float.
(** gonum returns doubles. *)
Hypothesis RegIncBeta_valid : forall a b x, valid (RegIncBeta a b x).

Lemma regularized_valid x a b : valid (RegularizedIncomplete RegIncBeta x a b).
Proof using RegIncBeta_valid. unfold RegularizedIncomplete. repeat case_match; try done. Qed.

Lemma distribution_unit d x : valid (DistributionFunction RegIncBeta d x) /\ between 0 1 (DistributionFunction RegIncBeta d x).
Proof using RegIncBeta_valid.
  unfold DistributionFunction. pose proof (regularized_valid x (alpha d) (beta d)) as Hv.
  set (p := RegularizedIncomplete _ _ _ _) in *.
  destruct (IsNaN p || float_lt p (float64 0) || float_lt (float64 1) p) eqn:E; [done|].
  apply orb_false_iff in E as [[Hn H0]%orb_false_iff H1]. split; [done|].
  apply (not_above p (float64 1) 0 1); [done|apply valid_float64| |apply between_one|done|done].
  by destruct p as [|[]| |[] m e].
Qed.

Lemma probability_unit mu sigma threshold :
  valid (ComputeProbability RegIncBeta mu sigma threshold).1 /\
  between 0 1 (ComputeProbability RegIncBeta mu sigma threshold).1.
Proof using RegIncBeta_valid.
  unfold ComputeProbability. repeat case_match; cbn [fst]; try (split; [apply valid_float64|apply between_float64; lia]).
  apply distribution_unit.
Qed.

Lemma alloc_prob_unit mu sigma r l c :
  valid (alloc_prob RegIncBeta mu sigma r l c) /\ between 0 1 (alloc_prob RegIncBeta mu sigma r l c).
Proof using RegIncBeta_valid.
  unfold alloc_prob. set (th := Min _ _). pose proof (probability_unit mu sigma th) as [Hv Hp].
  destruct (ComputeProbability RegIncBeta mu sigma th) as [p fit]. cbn [fst] in *.
  destruct (_ && _); [|done]. destruct (SFeqb _ _); [split; [apply valid_float64|apply between_one]|].
  destruct fit as [d|]; [|done]. set (lp := DistributionFunction _ _ _).
  destruct (distribution_unit d (f64_div (float64 l) (float64 c))) as [Hlv Hlp]. fold lp in Hlv, Hlp.
  destruct (float_lt (float64 0) lp) eqn:E; [|done].
  assert (positive lp = true) as Hpos by (destruct (between_cases _ _ _ Hlp); [by destruct lp|done]).
  split.
  - apply valid_Min; [apply valid_Max; [by apply valid_div|]|]; apply valid_float64.
  - apply clamp_unit'; [by apply valid_div|]. apply number_div; [by eapply between_number|done].
Qed.

Lemma risk_load_unit pl stats r l c :
  valid (risk_load Pow RegIncBeta pl stats r l c) /\ between 0 1 (risk_load Pow RegIncBeta pl stats r l c).
Proof using RegIncBeta_valid.
  unfold risk_load. destruct stats as [s|]; [|done].
  destruct (GetMuSigma s) as [mu sigma]. set (sg := Min _ _).
  destruct (alloc_prob_unit mu sg r l c) as [Hv Hp]. split; [|by apply unit_sub].
  apply valid_sub; [apply valid_float64|done].
Qed.

Lemma total_risk_unit w rl rd : valid w -> between 0 1 w -> valid rl -> between 0 1 rl -> valid rd -> between 0 1 rd ->
  between 0 1 (total_risk w rl rd).
Proof using.
  intros Hw Hwb Hl Hlb Hd Hdb. unfold total_risk. set (x := f64_add _ _).
  assert (between 0 2 x) as Hx.
  { apply (between_add 0 1 0 1); [lia..|by apply unit_mul|]. apply unit_mul; [by apply unit_sub|done]. }
  apply clamp_unit'; [|by eapply between_number].
  apply valid_add; [by apply valid_mul|]. apply valid_mul; [|done]. apply valid_sub; [apply valid_float64|done].
Qed.
End Risk.

(** The overcommitment of limits is a fraction: requests are capped by the
    capacity, so the difference of limits and requests is at least that of
    limits and capacity. *)
Lemma risk_limit_range limit capacity request : sane_amount limit -> sane_amount capacity ->
  0 <= request <= capacity ->
  valid (risk_limit limit capacity request) /\ between 0 1 (risk_limit limit capacity request).
Proof.
  unfold sane_amount. intros Hl Hc Hr. unfold risk_limit. destruct (Z.ltb_spec capacity limit); [|done].
  unfold sub64. rewrite !int64_id by (unfold in_int64; lia).
  split; [apply valid_div; apply valid_float64|]. apply int_ratio; lia.
Qed.

(** ** Limits raised to requests *)

(** Without scalar limits the loop panics at the first positive request. *)
Lemma set_max_nil (m : gmap string Z) :
  map_fold set_max_scalar (Some ∅) m = None <-> exists k v, m !! k = Some v /\ 0 < v.
Proof.
  apply (map_fold_weak_ind (fun x m => (x = None \/ x = Some ∅) /\ (x = None <-> exists k v, m !! k = Some v /\ 0 < v))).
  - split; [by right|]. split; [done|]. by intros (k & v & Hk & _).
  - intros k v m' r Hk [Hr Hiff]. assert ((set_max_scalar k v r = None \/ set_max_scalar k v r = Some ∅) /\
      (set_max_scalar k v r = None <-> r = None \/ 0 < v)) as [H1 H2].
    { destruct Hr as [-> | ->]; cbn; [naive_solver|]. rewrite lookup_empty. cbn.
      destruct (Z.ltb_spec 0 v); naive_solver lia. }
    split; [done|]. rewrite H2, Hiff. split.
    + intros [(k' & v' & Hk' & Hv)|Hv]; [|by exists k, v; rewrite lookup_insert_eq].
      exists k', v'. split; [|done]. rewrite lookup_insert_ne; congruence.
    + intros (k' & v' & Hl & Hv). apply lookup_insert_Some in Hl as [[<- <-]|[_ Hl]]; [by right|left; eauto].
Qed.

Lemma set_max_some (m l : gmap string Z) : l <> ∅ ->
  exists l', map_fold set_max_scalar (Some l) m = Some l'.
Proof.
  intros Hl. assert (exists l', map_fold set_max_scalar (Some l) m = Some l' /\ l' <> ∅) as (l' & ? & _); [|eauto].
  apply (map_fold_weak_ind (fun x _ => exists l', x = Some l' /\ l' <> ∅)); [eauto|].
  intros k v m' r _ (l' & -> & Hne). cbn. destruct (_ <? v); [|eauto].
  rewrite bool_decide_false by done. eexists. split; [done|apply insert_non_empty].
Qed.

(** ** Requests and limits of pods *)

Section Amounts.
Variable isScalar : string -> bool.

(** The two dimensions the plugins read. *)
Definition read_dim (d : Dim) : Prop := d = DimCPU \/ d = DimMemory.

Lemma setMax_eq x y : setMax x y = Z.max x y.
Proof. unfold setMax. destruct (Z.ltb_spec x y); lia. Qed.

Lemma setMin_eq x y : setMin x y = Z.min x y.
Proof. unfold setMin. destruct (Z.ltb_spec y x); lia. Qed.

Lemma get_init_entry d n q x : read_dim d ->
  get d (init_max n q x) = if decide (n = dim_name d) then Z.max (get d x) (entry_value d q) else get d x.
Proof.
  unfold init_max. rewrite !setMax_eq. intros [-> | ->]; cbn [dim_name get entry_value];
    repeat case_bool_decide; subst; cbn [MilliCPU Memory with_cpu with_memory];
    first [by rewrite decide_True by done|by rewrite decide_False by done].
Qed.

Lemma get_init_max d rl r : read_dim d ->
  get d (map_fold init_max r rl) =
    match rl !! dim_name d with Some q => Z.max (get d r) (entry_value d q) | None => get d r end.
Proof.
  intros Hd. apply (map_fold_weak_ind (fun x m => get d x =
    match m !! dim_name d with Some q => Z.max (get d r) (entry_value d q) | None => get d r end)); [done|].
  intros n q m x Hm Hx.
  rewrite get_init_entry by done.
  case_decide as Hn; [subst n; by rewrite lookup_insert_eq, Hx, Hm|by rewrite lookup_insert_ne, Hx].
Qed.

(** The request or the limit of a pod in one dimension. *)
Definition effective_dim (pod : LoadPod) (fn : Container -> ResourceList) (d : Dim) : Z :=
  let peak := foldl (fun v c => match fn c !! dim_name d with
      | Some q => Z.max v (entry_value d q) | None => v end)
    (foldl (fun v c => v +! amount isScalar d (fn c)) 0 (lp_containers pod)) (lp_init_containers pod) in
  match lp_overhead pod with Some o => peak +! amount isScalar d o | None => peak end.

Lemma read_int64 d q : read_dim d -> in_int64 (entry_value d q).
Proof. intros [-> | ->]; apply int64_range. Qed.

Lemma init_max_int64 d rl r : read_dim d -> in_int64 (get d r) -> in_int64 (get d (map_fold init_max r rl)).
Proof.
  intros Hd Hr. rewrite get_init_max by done. destruct (rl !! _) as [q|]; [|done].
  pose proof (read_int64 d q Hd). unfold in_int64 in *. lia.
Qed.

Lemma get_effective pod fn d : read_dim d ->
  get d (GetEffectiveResource isScalar pod fn) = effective_dim pod fn d.
Proof.
  intros Hd. unfold GetEffectiveResource, effective_dim.
  assert (forall l r, in_int64 (get d r) ->
    let r' := foldl (fun r c => Add isScalar (fn c) r) r l in
    in_int64 (get d r') /\ get d r' = foldl (fun v c => v +! amount isScalar d (fn c)) (get d r) l) as HA.
  { induction l as [|c l IH]; intros r Hr; [done|]. cbn [foldl]. rewrite <- get_Add by done.
    apply IH. rewrite get_Add by done. apply int64_range. }
  assert (forall l r, in_int64 (get d r) ->
    let r' := foldl (fun r c => map_fold init_max r (fn c)) r l in
    in_int64 (get d r') /\ get d r' = foldl (fun v c => match fn c !! dim_name d with
      | Some q => Z.max v (entry_value d q) | None => v end) (get d r) l) as HM.
  { induction l as [|c l IH]; intros r Hr; [done|]. cbn [foldl]. rewrite <- get_init_max by done.
    apply IH. by apply init_max_int64. }
  destruct (HA (lp_containers pod) zero_resource) as [A1 A2]; [rewrite get_zero; by split|].
  destruct (HM (lp_init_containers pod) _ A1) as [M1 M2]. cbn zeta in *.
  destruct (lp_overhead pod) as [o|]; [rewrite get_Add by done|]; by rewrite M2, A2, get_zero.
Qed.

Lemma SetMaxLimits_get requests limits r d : read_dim d -> SetMaxLimits requests limits = Some r ->
  get d r = Z.max (get d limits) (get d requests).
Proof.
  intros Hd. unfold SetMaxLimits. intros (s & _ & ->)%fmap_Some. rewrite !setMax_eq.
  by destruct Hd as [-> | ->].
Qed.

(** ** The amounts of a node *)

Lemma get_accumulate d total r : read_dim d -> get d (accumulate total r) = get d total +! get d r.
Proof. by intros [-> | ->]. Qed.

Lemma get_cap d c m r : read_dim d -> get d (cap_by c m r) = Z.min (get d r) (if decide (d = DimCPU) then c else m).
Proof.
  unfold cap_by. rewrite !setMin_eq. by intros [-> | ->].
Qed.

(** What a pod on the node adds to the requests and to the limits. *)
Definition pod_request (d : Dim) (p : PodAt) : Z := effective_dim (pod_at p) c_requests d.
Definition pod_limit (d : Dim) (p : PodAt) : Z :=
  Z.max (effective_dim (pod_at p) c_limits d) (pod_request d p).

(** The limits of a pod can be raised without a panic. *)
Definition limits_ok (p : LoadPod) : Prop :=
  is_Some (SetMaxLimits (GetResourceRequested isScalar p) (GetResourceLimits isScalar p)).

Lemma limits_turn_some pending req lim l a : (forall p, p ∈ l -> limits_ok (pod_at p)) ->
  is_Some (foldl (limits_turn isScalar pending req lim) (Some a) l).
Proof.
  revert a. induction l as [|p l IH]; intros [[[r m] x] y] Hok; [done|]. cbn [foldl].
  assert (forall q, q ∈ l -> limits_ok (pod_at q)) by (intros; apply Hok; by right).
  destruct (Hok p ltac:(left)) as [limits El]. unfold limits_turn at 2. destruct (address p =? address pending); [by apply IH|].
  rewrite El. by apply IH.
Qed.

Lemma limits_turn_others d pending req lim l a b x y a' b' x' y' : read_dim d ->
  (forall p, p ∈ l -> address p <> address pending) ->
  in_int64 (get d a) -> in_int64 (get d b) ->
  foldl (limits_turn isScalar pending req lim) (Some (a, b, x, y)) l = Some (a', b', x', y') ->
  get d a' = int64 (get d a + sumZ (pod_request d) l) /\ get d b' = int64 (get d b + sumZ (pod_limit d) l).
Proof.
  intros Hd. revert a b x y. induction l as [|p l IH]; intros a b x y Hne Ha Hb; cbn [foldl].
  - intros [= -> -> -> ->]. rewrite !sumZ_nil, !Z.add_0_r, !int64_id by done. done.
  - unfold limits_turn at 2. rewrite (proj2 (Z.eqb_neq _ _)) by (apply Hne; left).
    destruct (SetMaxLimits _ _) as [limits|] eqn:El; [|intros H; exfalso; clear -H; induction l; [done|by apply IHl]].
    intros Hf. apply IH in Hf as [H1 H2];
      [|intros q Hq; apply Hne; by right|rewrite get_accumulate by done; apply int64_range..].
    apply (SetMaxLimits_get _ _ _ d Hd) in El. unfold GetResourceRequested, GetResourceLimits in *.
    rewrite !get_effective in El by done. rewrite get_accumulate, get_effective in H1 by done.
    rewrite get_accumulate, El in H2 by done. rewrite H1, H2, !sumZ_cons.
    change (effective_dim (pod_at p) c_requests d) with (pod_request d p).
    change (Z.max (effective_dim (pod_at p) c_limits d) (pod_request d p)) with (pod_limit d p).
    unfold add64. autorewrite with int64. split; f_equal; lia.
Qed.
End Amounts.

(** ** The rank of a node *)

Record sane_node (n : NodeRequestsAndLimits) : Prop := {
  sane_limit : forall d, read_dim d -> sane_amount (get d (NodeLimit n));
  sane_capacity : forall d, read_dim d -> sane_amount (get d (Nodecapacity n));
  sane_request : forall d, read_dim d -> 0 <= get d (NodeRequest n);
}.

Lemma request_capped isScalar pods allocatable pending req lim n d : read_dim d ->
  GetNodeRequestsAndLimits isScalar pods allocatable pending req lim = Some n ->
  get d (NodeRequest n) <= get d (Nodecapacity n).
Proof.
  intros Hd. unfold GetNodeRequestsAndLimits. destruct (foldl _ _ _) as [[[[a b] x] y]|]; [|done].
  intros [= <-]. cbn [NodeRequest Nodecapacity]. rewrite get_cap by done. destruct Hd as [-> | ->]; apply Z.le_min_r.
Qed.

Section Rank.
Variable Pow : spec_float -> spec_float -> spec_float.
Variable RegIncBeta : spec_float -> spec_float -> spec_float -> spec_float.
Hypothesis RegIncBeta_valid : forall a b x, valid (RegIncBeta a b x).

Definition unit_weights (pl : LowRiskOverCommitment) : Prop :=
  forall k w, riskLimitWeightsMap pl !! k = Some w -> valid w /\ between 0 1 w.

Lemma compute_risk_unit pl metrics name ty allocatable n : unit_weights pl -> sane_node n ->
  (forall d, read_dim d -> get d (NodeRequest n) <= get d (Nodecapacity n)) ->
  between 0 1 (computeRisk Pow RegIncBeta pl metrics name ty allocatable n).
Proof using RegIncBeta_valid.
  intros Hw [Hl Hc Hr] Hcap. unfold computeRisk.
  assert (valid (default (float64 0) (riskLimitWeightsMap pl !! name)) /\
          between 0 1 (default (float64 0) (riskLimitWeightsMap pl !! name))) as [Hv Hb].
  { destruct (riskLimitWeightsMap pl !! name) as [w|] eqn:E; [by eapply Hw|done]. }
  assert (forall d, read_dim d -> between 0 1 (total_risk (default (float64 0) (riskLimitWeightsMap pl !! name))
    (risk_limit (get d (NodeLimit n)) (get d (Nodecapacity n)) (get d (NodeRequest n)))
    (risk_load Pow RegIncBeta pl (CreateResourceStats metrics allocatable zero_resource name ty)
       (get d (NodeRequestMinusPod n)) (get d (NodeLimitMinusPod n)) (get d (Nodecapacity n))))) as Ht.
  { intros d Hd. destruct (risk_limit_range (get d (NodeLimit n)) (get d (Nodecapacity n)) (get d (NodeRequest n)));
      [by apply Hl|by apply Hc|split; [by apply Hr|by apply Hcap]|].
    apply total_risk_unit; try done; by apply risk_load_unit. }
  case_bool_decide; [by apply (Ht DimCPU (or_introl eq_refl))|].
  case_bool_decide; [by apply (Ht DimMemory (or_intror eq_refl))|by apply between_float64].
Qed.
End Rank.

(** A whole score. *)
Lemma lowrisk_score_range isScalar Pow RegIncBeta other pl c state pod n allocatable pods r :
  (forall a b x, valid (RegIncBeta a b x)) -> unit_weights pl ->
  pod_resources isScalar state (pod_at pod) = Some r ->
  (forall p, p ∈ pods -> limits_ok isScalar (pod_at p)) ->
  (forall node, GetNodeRequestsAndLimits isScalar pods allocatable pod (podRequests r) (podLimits r) = Some node -> sane_node node) ->
  exists score status, lowrisk_Score isScalar Pow RegIncBeta other pl c state pod n (Ok (allocatable, pods)) = Some (score, status) /\
    0 <= score <= 100.
Proof.
  intros HB Hw Hr Hok Hsane. unfold lowrisk_Score. rewrite Hr. unfold MinNodeScore.
  destruct (_ && _); [do 2 eexists; split; [done|lia]|].
  destruct (GetNodeMetrics c n).1 as [metrics|]; [|do 2 eexists; split; [done|lia]].
  assert (exists node, GetNodeRequestsAndLimits isScalar pods allocatable pod (podRequests r) (podLimits r) = Some node) as [node Hn].
  { unfold GetNodeRequestsAndLimits. rewrite foldl_app.
    destruct (limits_turn_some isScalar pod (podRequests r) (podLimits r) pods
      (zero_resource, zero_resource, zero_resource, zero_resource) Hok) as [[[[a b] x] y] ->].
    cbn [foldl limits_turn]. rewrite Z.eqb_refl. eauto. }
  unfold computeRank. rewrite Hn. cbn [fmap option_fmap option_map].
  do 2 eexists. split; [done|]. apply round_int64; [done|lia|]. apply unit_percent, unit_sub.
  assert (forall name ty, between 0 1 (computeRisk Pow RegIncBeta pl metrics name ty allocatable node)).
  { intros name ty. apply compute_risk_unit; [done|done|by apply Hsane|]. intros d Hd. by eapply request_capped. }
  by apply between_Max.
Qed.
