(* ===== verification/TrimaranClaims.v ===== *)
(** * The properties of the load-aware plugins *)

From S2P Require Import Prelude.
From S2P Require Import GoFloat.
From S2P Require Import GoMath.
From S2P Require Import KubeTypes.
From S2P Require Import Framework.
From S2P Require Import Resource.
From S2P Require Import ArgsTypes.
From S2P Require Import Trimaran.
From S2P Require Import TrimaranProofs.
From S2P Require Import LoadAware.
From S2P Require Import LoadAwareProofs.
From Stdlib Require Import SpecFloat.

(** ** Concrete pods and metrics *)

Definition cpu_container (request limit : option Z) : Container :=
  let list v := match v with Some m => {[ ResourceCPU := NewMilliQuantity m ]} | None => ∅ end in
  {| c_requests := list request; c_limits := list limit |}.

Definition load_pod (name node : string) (containers : list Container) : LoadPod := {|
  lp_meta := meta_named "default" name name; lp_node := node; lp_containers := containers;
  lp_init_containers := []; lp_overhead := None |}.

Definition one_core (name node : string) : LoadPod := load_pod name node [cpu_container (Some 1000) (Some 1000)].

Definition cpu_load (percent : Z) : Metric :=
  {| metric_type := CPU; metric_operator := Average; metric_value := float64 percent |}.

Definition collector_with (windowEnd : Z) (n : string) (metrics : list Metric) : Collector :=
  {| col_metrics := {| window_end := windowEnd; NodeMetricsMap := Some {[ n := Some metrics ]} |} |}.

Definition no_other (_ : spec_float) : Z := 0.
Definition no_scalar (_ : string) : bool := false.

(** ** The cache of assigned pods *)

(** After every history of informer events and cleanups with a clock that does
    not go back, the entries of a node are in the order of their times, none is
    of the future, and their pods are on the node. *)
Theorem assigned_cache_invariant t cache n l : history t cache -> cache !! n = Some l ->
  by_time l /\ forall v, v ∈ l -> Timestamp v <= t /\ lp_node (info_pod v) = n.
Proof.
  intros Hh Hl. apply history_ok in Hh as [H1 H2 H3]. split; [by eapply H1|].
  intros v Hv. split; [by eapply H2|by eapply H3].
Qed.

Definition bound_at (s : Z) (pod : LoadPod) : podInfo := {| Timestamp := s * Second; info_pod := pod |}.

(** Two pods bound at 100 and at 170 seconds. *)
Definition two_bound : ScheduledPodsCache :=
  filtered_add (170 * Second) (one_core "b" "n1") (filtered_add (100 * Second) (one_core "a" "n1") ∅).

Lemma two_bound_history : history (170 * Second) two_bound.
Proof.
  eapply hist_event; [eapply (hist_event (100 * Second)); [constructor|reflexivity|constructor]| |constructor].
  vm_compute. discriminate.
Qed.

Lemma assigned_cache_invariant_witness : by_time [bound_at 100 (one_core "a" "n1"); bound_at 170 (one_core "b" "n1")].
Proof. apply (assigned_cache_invariant (170 * Second) two_bound "n1"); [apply two_bound_history|reflexivity]. Defined.

(** A cleanup drops the entries older than a minute of the nodes that have a
    younger one; a node all of whose entries are old keeps them all, so no node
    ever leaves the cache and its last entries stay until their pods go. *)
Theorem cleanup_exact t cache cur n : history t cache ->
  cleanupCache cur cache !! n =
    (fun l => if decide (Forall (fun v => ~ young (cur n) v) l) then l else filter (young (cur n)) l)
      <$> cache !! n.
Proof. intros Hh. eapply cleanup_lookup, history_ok, Hh. Qed.

Lemma cleanup_exact_witness :
  cleanupCache (fun _ => 200 * Second) two_bound !! "n1" = Some [bound_at 170 (one_core "b" "n1")] /\
  cleanupCache (fun _ => 1000 * Second) two_bound !! "n1" = two_bound !! "n1".
Proof.
  split; rewrite (cleanup_exact (170 * Second) two_bound _ "n1" two_bound_history); vm_compute; reflexivity.
Defined.

(** A cleanup does not change the usage a score adds for unreported pods, when
    the window of the metrics ends no earlier than the cleanup's clock. *)
Theorem cleanup_keeps_usage other pl t cache cur n windowEnd l l' :
  history t cache -> cache !! n = Some l -> cleanupCache cur cache !! n = Some l' ->
  (forall v, v ∈ l -> 0 <= Timestamp v) -> in_int64 windowEnd -> cur n / Second <= windowEnd ->
  missing_usage other pl windowEnd l' = missing_usage other pl windowEnd l.
Proof.
  intros Hh Hl. rewrite (cleanup_exact t) by done. rewrite Hl. cbn. intros [= <-] Hts HE Hcur.
  case_decide as Ha; [done|]. clear Ha Hl. unfold missing_usage. generalize 0.
  induction l as [|v l IH]; intros z; [done|]. rewrite filter_cons. cbn [foldl].
  assert (forall w, w ∈ l -> 0 <= Timestamp w) as Hts' by (intros; apply Hts; by right).
  case_decide as Hy; cbn [foldl]; [by apply IH|].
  assert (not_reported windowEnd (Timestamp v / Second) = false) as ->; [|by apply IH].
  specialize (Hts v ltac:(left)). unfold young, is_young, metricsAgentReportingIntervalSeconds in Hy.
  assert (Timestamp v + 60 * Second <= cur n) as Hle by (destruct (Z.ltb_spec (cur n) (Timestamp v + 60 * Second)); [done|lia]).
  assert (Timestamp v / Second + 60 <= cur n / Second) as Hq.
  { rewrite <- Z.div_add by done. by apply Z.div_le_mono. }
  assert (0 <= Timestamp v / Second) by (apply Z.div_pos; done).
  unfold not_reported, sub64, metricsAgentReportingIntervalSeconds. unfold in_int64 in HE.
  rewrite int64_id by (unfold in_int64; lia).
  destruct (Z.ltb_spec windowEnd (Timestamp v / Second)); [lia|].
  destruct (Z.ltb_spec (windowEnd - Timestamp v / Second) 60); [lia|]. by rewrite andb_false_r.
Qed.

Definition plain_target : TargetLoadPacking :=
  {| requestsMilliCores := 1000; hostTargetUtilizationPercent := 40; requestsMultiplier := float64 1 |}.

Lemma cleanup_keeps_usage_witness :
  missing_usage no_other plain_target 200 [bound_at 170 (one_core "b" "n1")] =
  missing_usage no_other plain_target 200 [bound_at 100 (one_core "a" "n1"); bound_at 170 (one_core "b" "n1")].
Proof.
  apply (cleanup_keeps_usage no_other plain_target (170 * Second) two_bound (fun _ => 200 * Second) "n1");
    [apply two_bound_history|reflexivity|vm_compute; reflexivity| |by vm_compute|by vm_compute].
  intros v Hv. repeat (apply elem_of_cons in Hv as [->|Hv]; [by vm_compute|]). by apply not_elem_of_nil in Hv.
Defined.

(** With metrics half a minute old, as they are between two updates of the
    collector, a cleanup does drop pods that the metrics cannot count yet: the
    usage a score adds for the node falls by the pod's. *)
Theorem cleanup_drops_unreported : exists t cache cur n windowEnd l l',
  history t cache /\ t <= cur n /\ cur n <= (windowEnd + 30) * Second /\
  cache !! n = Some l /\ cleanupCache cur cache !! n = Some l' /\
  missing_usage no_other plain_target windowEnd l = 2000 /\
  missing_usage no_other plain_target windowEnd l' = 1000.
Proof.
  exists (170 * Second), two_bound, (fun _ => 175 * Second), "n1", 145,
    [bound_at 100 (one_core "a" "n1"); bound_at 170 (one_core "b" "n1")], [bound_at 170 (one_core "b" "n1")].
  split; [apply two_bound_history|]. repeat split; try (by vm_compute); vm_compute; reflexivity.
Qed.

(** ** TargetLoadPacking *)

(** A score is in one of three bands by the usage predicted for the node with
    the pod: 0 above the capacity, between 0 and the target above the target,
    between the target and 100 otherwise. So a node within its target never
    scores below one that is not, and no score is out of range. *)
Theorem target_load_bands other pl c cache pod n capacity metrics allMetrics util :
  let t := hostTargetUtilizationPercent pl in
  let cap := MilliValue (default 0 (capacity !! ResourceCPU)) in
  let cur := cur_usage other pl pod in
  let missing := missing_usage other pl (window_end allMetrics) (default [] (cache !! n)) in
  let predicted := predicted_usage util cap cur missing in
  GetNodeMetrics c n = (Some metrics, Some allMetrics) -> cpu_metric metrics = Some util ->
  0 < t <= 100 -> 0 <= cap < 2 ^ 53 -> 0 <= cur -> 0 <= missing -> number util -> Signbit util = false ->
  exists score, target_Score other pl c cache pod n (Ok capacity) = (score, NewStatus Success) /\
    (float_lt (float64 100) predicted = true -> score = 0) /\
    (float_lt (float64 t) predicted = true -> 0 <= score <= t) /\
    (float_lt (float64 t) predicted = false -> t <= score <= 100).
Proof.
  cbn zeta. intros Hm Hu Ht Hcap Hcur Hmiss [Hv Hn] Hs. unfold target_Score. rewrite Hm, Hu.
  eexists. split; [done|].
  edestruct predicted_nonneg as [Hp1 Hp2]; [exact Hv| |exact Hcap|exact Hcur|exact Hmiss|by apply target_bands].
  by destruct util as [|[]| |[] ? ?].
Qed.

(** A node of eight cores at a given load, where one of two pods is not in the
    metrics yet, and a pod that asks for one core. *)
Definition quarter_score (load : Z) : Z * FStatus :=
  target_Score no_other plain_target (collector_with 180 "n1" [cpu_load load]) two_bound (one_core "c" "") "n1"
    (Ok {[ ResourceCPU := NewMilliQuantity 8000 ]}).

Lemma target_load_bands_witness : exists s, quarter_score 10 = (s, NewStatus Success) /\ 40 <= s <= 100.
Proof.
  pose proof (target_load_bands no_other plain_target (collector_with 180 "n1" [cpu_load 10]) two_bound
    (one_core "c" "") "n1" {[ ResourceCPU := NewMilliQuantity 8000 ]} [cpu_load 10]
    (col_metrics (collector_with 180 "n1" [cpu_load 10])) (float64 10)) as H. cbn zeta in H.
  destruct H as (s & H1 & _ & _ & H2);
    [reflexivity|reflexivity|split; reflexivity || discriminate|vm_compute; split; [discriminate|reflexivity]
    |vm_compute; discriminate|vm_compute; discriminate|apply number_float64|vm_compute; reflexivity|].
  exists s. split; [exact H1|]. apply H2. vm_compute. reflexivity.
Defined.

(** Nothing keeps the target within 100: with a target of 150 percent an idle
    node scores 150, which the framework does not accept. *)
Theorem target_over_100 : exists pl capacity, 0 < hostTargetUtilizationPercent pl /\
  (target_Score no_other pl (collector_with 0 "n1" [cpu_load 0]) ∅ (load_pod "p" "" []) "n1" (Ok capacity)).1 = 150 /\
  MaxNodeScore < 150.
Proof.
  exists {| requestsMilliCores := 1000; hostTargetUtilizationPercent := 150; requestsMultiplier := float64 1 |},
    {[ ResourceCPU := NewMilliQuantity 1000 ]}.
  split; [done|]. split; [vm_compute; reflexivity|done].
Qed.

(** ** LoadVariationRiskBalancing *)

(** Scores are within 0 and 100 for every metric, margin and sensitivity that is
    a number, whatever [math.Pow] rounds to. *)
Theorem variation_score_bounds isScalar Pow other args c pod n allocatable metrics allMetrics :
  (forall x y, between 0 1 x -> nonneg y = true -> valid (Pow x y) /\ finite (Pow x y) = true) ->
  GetNodeMetrics c n = (Some metrics, allMetrics) -> (forall m, m ∈ metrics -> number (metric_value m)) ->
  sane_amount (MilliValue (default 0 (allocatable !! ResourceCPU))) ->
  sane_amount (Value (default 0 (allocatable !! ResourceMemory))) ->
  sane_amount (MilliCPU (GetResourceRequested isScalar pod)) ->
  sane_amount (Memory (GetResourceRequested isScalar pod)) ->
  valid (SafeVarianceMargin args) -> finite (SafeVarianceMargin args) = true ->
  Signbit (SafeVarianceSensitivity args) = false -> IsNaN (SafeVarianceSensitivity args) = false ->
  exists score, variation_Score isScalar Pow other args c pod n (Ok allocatable) = (score, NewStatus Success) /\
    0 <= score <= 100.
Proof.
  intros HPow Hc Hm Hcpu Hmem Hrc Hrm Hv Hf Hs Hn. unfold variation_Score. rewrite Hc. cbn [fst].
  eexists. split; [done|]. apply round_int64; [done|lia|].
  assert (forall name ty, name = ResourceCPU \/ name = ResourceMemory ->
    between 0 100 (resource_score Pow args (CreateResourceStats metrics allocatable (GetResourceRequested isScalar pod) name ty))) as Hr.
  { intros name ty Hname. unfold resource_score.
    destruct (CreateResourceStats _ _ _ _ _) as [rs|] eqn:E; [|by apply between_float64].
    apply compute_score_range; [done| |done..].
    eapply stats_sane; [exact Hm| |exact Hrc|exact Hrm|exact E]. by destruct Hname as [-> | ->]. }
  destruct (CreateResourceStats metrics allocatable _ ResourceMemory MemoryMetric) as [ms|] eqn:Em;
    [|rewrite <- Em; apply between_Max; apply Hr; auto].
  destruct (CreateResourceStats metrics allocatable _ ResourceCPU CPU) as [cs|] eqn:Ec;
    rewrite <- ?Em, <- ?Ec; [apply between_Min|apply between_Max]; apply Hr; auto.
Qed.

(** [math.Pow] for the exponent 1, which the default sensitivity gives. *)
Definition first_power (x y : spec_float) : spec_float := if valid_binary 53 1024 x then x else float64 1.

Lemma first_power_finite x y : between 0 1 x -> nonneg y = true ->
  valid (first_power x y) /\ finite (first_power x y) = true.
Proof. intros Hx _. unfold first_power. destruct (valid_binary 53 1024 x) eqn:E; [|done]. split; [done|by eapply between_finite]. Qed.

Definition demo_spec : TrimaranSpec := {|
  MetricProvider := {| mp_Type := KubernetesMetricsServer; mp_Address := ""; mp_Token := "";
                       mp_InsecureSkipVerify := false |};
  WatcherAddress := "" |}.

Definition default_variation : LoadVariationRiskBalancingArgs :=
  {| lv_TrimaranSpec := demo_spec; SafeVarianceMargin := float64 1; SafeVarianceSensitivity := float64 1 |}.

Definition cpu_std (percent : Z) : Metric :=
  {| metric_type := CPU; metric_operator := Std; metric_value := float64 percent |}.

Definition eight_cores : ResourceList := {[ ResourceCPU := NewMilliQuantity 8000 ]}.

Definition demo_metrics : list Metric := [cpu_load 50; cpu_std 25].

Definition demo_variation : Z * FStatus :=
  variation_Score no_scalar first_power no_other default_variation (collector_with 0 "n1" demo_metrics)
    (one_core "c" "") "n1" (Ok eight_cores).

Lemma demo_numbers m : m ∈ demo_metrics -> number (metric_value m).
Proof.
  intros Hm. repeat (apply elem_of_cons in Hm as [->|Hm]; [apply number_float64|]). by apply not_elem_of_nil in Hm.
Qed.

Lemma variation_score_bounds_witness : exists s, demo_variation = (s, NewStatus Success) /\ 0 <= s <= 100.
Proof.
  unfold demo_variation. eapply variation_score_bounds; [exact first_power_finite|reflexivity|exact demo_numbers| | | | |reflexivity..];
    vm_compute; (split; [discriminate|reflexivity]).
Defined.

(** ** Requests and limits *)

(** The CPU and the memory a pod counts with are the larger of its containers'
    sum and its largest init container, plus the overhead, as long as amounts
    are not negative and nothing overflows. *)
Theorem effective_amounts_exact isScalar pod fn d : read_dim d ->
  let amt c := amount isScalar d (fn c) in
  let overhead := match lp_overhead pod with Some o => amount isScalar d o | None => 0 end in
  let peak := Z.max (sumZ amt (lp_containers pod)) (foldr (fun c m => Z.max (amt c) m) 0 (lp_init_containers pod)) in
  (forall c, c ∈ lp_containers pod ++ lp_init_containers pod -> 0 <= amt c) ->
  0 <= overhead -> peak + overhead < 2 ^ 63 ->
  get d (GetEffectiveResource isScalar pod fn) = peak + overhead.
Proof.
  intros Hd amt overhead peak Hnn Ho Hlt. rewrite get_effective by done.
  assert (effective_dim isScalar pod fn d = int64 (peak + overhead)) as ->; [|apply int64_id; unfold in_int64].
  2:{ assert (0 <= sumZ amt (lp_containers pod)); [|lia]. apply sumZ_nonneg. intros c Hc. apply Hnn, elem_of_app. by left. }
  assert (forall c, match fn c !! dim_name d with Some q => entry_value d q | None => 0 end = amt c) as Hof.
  { intros c. unfold amt, amount. destruct Hd as [-> | ->]; cbn; by destruct (fn c !! _). }
  assert (forall l v, (forall c, c ∈ l -> 0 <= amt c) -> 0 <= v ->
    foldl (fun v c => match fn c !! dim_name d with Some q => Z.max v (entry_value d q) | None => v end) v l
    = Z.max v (foldr (fun c m => Z.max (amt c) m) 0 l)) as Hmax.
  { induction l as [|c l IH]; intros v Hl Hv; cbn [foldl foldr]; [lia|].
    specialize (Hof c). assert (0 <= amt c) by (apply Hl; left).
    assert (forall c, c ∈ l -> 0 <= amt c) by (intros; apply Hl; by right).
    destruct (fn c !! dim_name d) as [q|]; rewrite IH by (done || lia); rewrite <- Hof; lia. }
  assert (forall l v, 0 <= v -> (forall c, c ∈ l -> 0 <= amt c) -> v + sumZ amt l < 2 ^ 63 ->
    foldl (fun v c => v +! amount isScalar d (fn c)) v l = v + sumZ amt l) as Hsum.
  { induction l as [|c l IH]; intros v Hv Hl Hr; cbn [foldl]; [rewrite sumZ_nil; lia|].
    rewrite sumZ_cons in *. assert (0 <= amt c) by (apply Hl; left).
    assert (0 <= sumZ amt l) by (apply sumZ_nonneg; intros; apply Hl; by right).
    rewrite add64_exact by (fold (amt c); unfold in_int64; lia). fold (amt c).
    rewrite IH; [lia|lia|intros; apply Hl; by right|lia]. }
  unfold effective_dim. rewrite Hsum; [|done|intros c Hc; apply Hnn, elem_of_app; by left|fold overhead; lia].
  rewrite Hmax; [|intros c Hc; apply Hnn, elem_of_app; by right|].
  2:{ apply Z.add_nonneg_nonneg; [done|]. apply sumZ_nonneg. intros c Hc. apply Hnn, elem_of_app. by left. }
  rewrite Z.add_0_l. fold peak. unfold overhead. destruct (lp_overhead pod) as [o|]; [done|].
  rewrite Z.add_0_r, int64_id; [done|]. unfold in_int64.
  assert (0 <= sumZ amt (lp_containers pod)) by (apply sumZ_nonneg; intros c Hc; apply Hnn, elem_of_app; by left). lia.
Qed.

Definition init_pod : LoadPod := {|
  lp_meta := meta_named "default" "i" "i"; lp_node := "";
  lp_containers := [cpu_container (Some 300) None; cpu_container (Some 400) None];
  lp_init_containers := [cpu_container (Some 900) None; cpu_container None None];
  lp_overhead := Some {[ ResourceCPU := NewMilliQuantity 50 ]} |}.

Lemma effective_amounts_exact_witness : MilliCPU (GetResourceRequested no_scalar init_pod) = 950.
Proof.
  pose proof (effective_amounts_exact no_scalar init_pod c_requests DimCPU (or_introl eq_refl)) as H. cbn zeta in H.
  apply H; [clear H|vm_compute; discriminate|vm_compute; reflexivity].
  intros c Hc. cbn in Hc. repeat (apply elem_of_cons in Hc as [->|Hc]; [vm_compute; discriminate|]).
  by apply not_elem_of_nil in Hc.
Defined.

(** Raising limits to requests writes to a nil map, and panics, exactly when a
    pod has a positive scalar request and no scalar limit at all. *)
Theorem limits_panic_iff requests limits :
  SetMaxLimits requests limits = None <->
    ScalarResources limits = ∅ /\ exists k v, ScalarResources requests !! k = Some v /\ 0 < v.
Proof.
  unfold SetMaxLimits. rewrite fmap_None. split.
  - intros Hn. destruct (decide (ScalarResources limits = ∅)) as [He|He].
    + split; [done|]. rewrite He in Hn. by apply set_max_nil.
    + destruct (set_max_some (ScalarResources requests) (ScalarResources limits) He) as [l' Hl']. congruence.
  - intros [-> H]. by apply set_max_nil.
Qed.

(** What a node's pods request and may use: without the pending pod, requests are
    the sum of the pods' capped by the capacity and limits the sum of the pods'
    limits raised to their requests; with it, its own are added. *)
Theorem node_amounts_exact isScalar pods allocatable pending req lim n d :
  read_dim d -> (forall p, p ∈ pods -> address p <> address pending) ->
  GetNodeRequestsAndLimits isScalar pods allocatable pending req lim = Some n ->
  let cap := get d (Nodecapacity n) in
  let requests := sumZ (pod_request isScalar d) pods in
  let limits := sumZ (pod_limit isScalar d) pods in
  get d (NodeRequestMinusPod n) = Z.min (int64 requests) cap /\
  get d (NodeRequest n) = Z.min (int64 (requests + get d req)) cap /\
  get d (NodeLimitMinusPod n) = int64 limits /\ get d (NodeLimit n) = int64 (limits + get d lim).
Proof.
  intros Hd Hne. unfold GetNodeRequestsAndLimits. rewrite foldl_app.
  set (cpu := MilliValue _). set (mem := Value _).
  destruct (foldl _ (Some _) pods) as [[[[a b] x] y]|] eqn:E; [|done].
  destruct (limits_turn_others isScalar d pending req lim pods zero_resource zero_resource _ _ _ _ _ _ Hd Hne
    ltac:(rewrite get_zero; by split) ltac:(rewrite get_zero; by split) E) as [H1 H2].
  rewrite get_zero, Z.add_0_l in H1, H2. cbn [foldl limits_turn]. rewrite Z.eqb_refl. intros [= <-].
  cbn [NodeRequestMinusPod NodeRequest NodeLimitMinusPod NodeLimit Nodecapacity]. cbn zeta.
  assert (get d (with_memory mem (with_cpu cpu zero_resource)) = if decide (d = DimCPU) then cpu else mem) as ->
    by by destruct Hd as [-> | ->].
  rewrite !get_cap, !get_accumulate, H1, H2 by done. unfold add64. by rewrite !int64_add_l.
Qed.

Definition busy_pods : list PodAt := [{| address := 1; pod_at := load_pod "a" "n1" [cpu_container (Some 3000) (Some 6000)] |};
  {| address := 2; pod_at := load_pod "b" "n1" [cpu_container (Some 2000) None] |}].
Definition pending_pod : PodAt := {| address := 3; pod_at := one_core "c" "" |}.

Definition demo_amounts : option NodeRequestsAndLimits :=
  GetNodeRequestsAndLimits no_scalar busy_pods eight_cores pending_pod
    (with_cpu 1000 zero_resource) (with_cpu 2000 zero_resource).

Lemma demo_addresses p : p ∈ busy_pods -> address p <> address pending_pod.
Proof. intros Hp. repeat (apply elem_of_cons in Hp as [->|Hp]; [done|]). by apply not_elem_of_nil in Hp. Qed.

Lemma node_amounts_exact_witness : exists n, demo_amounts = Some n /\
  MilliCPU (NodeRequest n) = 6000 /\ MilliCPU (NodeLimit n) = 10000.
Proof.
  destruct demo_amounts as [n|] eqn:E; [|vm_compute in E; discriminate]. exists n. split; [reflexivity|].
  pose proof (node_amounts_exact no_scalar busy_pods eight_cores pending_pod _ _ n DimCPU (or_introl eq_refl)
    demo_addresses E) as (_ & H1 & _ & H2). cbn [get] in H1, H2. rewrite H1, H2.
  vm_compute in E. injection E as <-. split; vm_compute; reflexivity.
Defined.

(** ** LowRiskOverCommitment *)

(** The overcommitment of limits is a fraction on every node: the requests the
    plugin subtracts are capped by the capacity. *)
Theorem risk_limit_fraction isScalar pods allocatable pending req lim n d : read_dim d ->
  GetNodeRequestsAndLimits isScalar pods allocatable pending req lim = Some n -> sane_node n ->
  between 0 1 (risk_limit (get d (NodeLimit n)) (get d (Nodecapacity n)) (get d (NodeRequest n))).
Proof.
  intros Hd Hn [Hl Hc Hr]. apply risk_limit_range; [by apply Hl|by apply Hc|].
  split; [by apply Hr|by eapply request_capped].
Qed.

Lemma demo_sane n : demo_amounts = Some n -> sane_node n.
Proof.
  intros E. vm_compute in E. injection E as <-.
  split; intros d [-> | ->]; vm_compute; first [discriminate|split; [discriminate|reflexivity]].
Qed.

Lemma risk_limit_fraction_witness : exists n, demo_amounts = Some n /\
  between 0 1 (risk_limit (MilliCPU (NodeLimit n)) (MilliCPU (Nodecapacity n)) (MilliCPU (NodeRequest n))).
Proof.
  destruct demo_amounts as [n|] eqn:E; [|vm_compute in E; discriminate]. exists n. split; [reflexivity|].
  exact (risk_limit_fraction no_scalar busy_pods eight_cores pending_pod _ _ n DimCPU (or_introl eq_refl) E (demo_sane n E)).
Defined.

(** The probability that the load stays within what is allocated is a
    probability, whatever gonum computes for the fitted distribution. *)
Theorem alloc_probability_unit RegIncBeta mu sigma request limit capacity :
  (forall a b x, valid (RegIncBeta a b x)) ->
  between 0 1 (alloc_prob RegIncBeta mu sigma request limit capacity).
Proof. intros H. by apply alloc_prob_unit. Qed.

Definition half_beta (a b x : spec_float) : spec_float := Half.

Lemma alloc_probability_unit_witness : between 0 1 (alloc_prob half_beta Half (f64_div Half (float64 2)) 5000 8000 10000).
Proof. apply alloc_probability_unit. intros. vm_compute. reflexivity. Defined.

(** ** The collector *)

(** After any updates the collector has the metrics of the last one that
    succeeded: a failed call changes nothing. *)
Theorem latest_metrics answers c :
  col_metrics (foldl (fun c a => updateMetrics a c) c answers) =
    default (col_metrics c) (last (omap (fun a => match a with Ok m => Some m | Err _ => None end) answers)).
Proof.
  revert c. induction answers as [|[m|e] answers IH]; intros c; [done| |by cbn; rewrite IH].
  cbn [foldl]. rewrite IH. cbn [updateMetrics col_metrics omap list_omap]. by rewrite last_cons; case_match.
Qed.
