(* ===== verification/ArgsV1.v ===== *)
(** * The arguments as they are written in a configuration ([apis/config/v1])

    The versioned types, where a field that was left out is a nil pointer
    ([None]) or an empty value, and the defaults of [defaults.go]. Pointers to
    the package's default values are those values: nothing writes through them.
    The versioned arguments of VaclabScheduling have the fields of the internal
    ones, and their defaults are with the plugin. *)

From S2P Require Import Prelude.
From S2P Require Import GoFloat.
From S2P Require Import KubeTypes.
From S2P Require Import Resource.
From S2P Require Import ArgsTypes.
From Stdlib Require Import SpecFloat.

(** ** The defaults *)

Definition defaultPermitWaitingTimeSeconds : Z := 60.
Definition defaultPodGroupBackoffSeconds : Z := 0.
Definition defaultNodeResourcesAllocatableMode : ModeType := Least.
Definition defaultNodeResourcesAllocatableResourcesToWeightMap : list ResourceSpec :=
  [{| rs_Name := "cpu"; rs_Weight := Z.shiftl 1 20 |}; {| rs_Name := "memory"; rs_Weight := 1 |}].
Definition DefaultRequestsMilliCores : Z := 1000.
Definition DefaultRequestsMultiplier : string := "1.5".
Definition DefaultTargetUtilizationPercent : Z := 40.
Definition DefaultSafeVarianceMargin : spec_float := float64 1.
Definition DefaultSafeVarianceSensitivity : spec_float := float64 1.
Definition DefaultSmoothingWindowSize : Z := 5.
(** 0.5. *)
Definition DefaultRiskLimitWeight : spec_float := f64_div (float64 1) (float64 2).
Definition DefaultRiskLimitWeights : gmap string spec_float :=
  {[ ResourceCPU := DefaultRiskLimitWeight; ResourceMemory := DefaultRiskLimitWeight ]}.
Definition DefaultMetricProviderType : MetricProviderType := KubernetesMetricsServer.
Definition DefaultInsecureSkipVerify : bool := true.
Definition defaultResourceSpec : list ResourceSpec :=
  [{| rs_Name := ResourceCPU; rs_Weight := 1 |}; {| rs_Name := ResourceMemory; rs_Weight := 1 |}].
Definition defaultForeignPodsDetect : ForeignPodsDetectMode := ForeignPodsDetectAll.
Definition defaultResyncMethod : CacheResyncMethod := CacheResyncAutodetect.
Definition defaultInformerMode : CacheInformerMode := CacheInformerDedicated.
Definition DefaultWeightsName : string := "UserDefined".
Definition DefaultNetworkTopologyName : string := "nt-default".
Definition DefaultSySchedProfileNamespace : string := "default".
Definition DefaultSySchedProfileName : string := "all-syscalls".
Definition NamespaceDefault : string := "default".

(** ** Coscheduling and allocatable resources *)

Record CoschedulingArgs := {
  cs_PermitWaitingTimeSeconds : option Z;
  cs_PodGroupBackoffSeconds : option Z;
}.

(** A nil pointer becomes a pointer to a default. *)
Definition or_default {A} (d : A) (o : option A) : option A := match o with None => Some d | Some _ => o end.

Definition SetDefaults_CoschedulingArgs (obj : CoschedulingArgs) : CoschedulingArgs := {|
  cs_PermitWaitingTimeSeconds := or_default defaultPermitWaitingTimeSeconds (cs_PermitWaitingTimeSeconds obj);
  cs_PodGroupBackoffSeconds := or_default defaultPodGroupBackoffSeconds (cs_PodGroupBackoffSeconds obj) |}.

Record NodeResourcesAllocatableArgs := { ra_Resources : list ResourceSpec; ra_Mode : ModeType }.

Definition SetDefaults_NodeResourcesAllocatableArgs (obj : NodeResourcesAllocatableArgs)
    : NodeResourcesAllocatableArgs := {|
  ra_Resources := if (length (ra_Resources obj) =? 0)%nat
                  then defaultNodeResourcesAllocatableResourcesToWeightMap else ra_Resources obj;
  ra_Mode := if bool_decide (ra_Mode obj = "") then defaultNodeResourcesAllocatableMode else ra_Mode obj |}.

(** ** The load-aware plugins *)

Record MetricProviderSpec := {
  mp_Type : MetricProviderType;
  mp_Address : option string;
  mp_Token : option string;
  mp_InsecureSkipVerify : option bool;
}.

Record TrimaranSpec := { MetricProvider : MetricProviderSpec; WatcherAddress : option string }.

Definition SetDefaultTrimaranSpec (args : TrimaranSpec) : TrimaranSpec :=
  let mp := MetricProvider args in
  let type := if bool_decide (WatcherAddress args = None) && bool_decide (mp_Type mp = "")
              then DefaultMetricProviderType else mp_Type mp in
  let skip := if bool_decide (type = Prometheus) && bool_decide (mp_InsecureSkipVerify mp = None)
              then Some DefaultInsecureSkipVerify else mp_InsecureSkipVerify mp in
  {| MetricProvider := {| mp_Type := type; mp_Address := mp_Address mp; mp_Token := mp_Token mp;
                          mp_InsecureSkipVerify := skip |};
     WatcherAddress := WatcherAddress args |}.

(** [DefaultRequests] nil is [None]. *)
Record TargetLoadPackingArgs := {
  tlp_TrimaranSpec : TrimaranSpec;
  tlp_DefaultRequests : option ResourceList;
  tlp_DefaultRequestsMultiplier : option string;
  tlp_TargetUtilization : option Z;
}.

Definition SetDefaults_TargetLoadPackingArgs (args : TargetLoadPackingArgs) : TargetLoadPackingArgs := {|
  tlp_TrimaranSpec := SetDefaultTrimaranSpec (tlp_TrimaranSpec args);
  tlp_DefaultRequests :=
    or_default {[ ResourceCPU := NewMilliQuantity DefaultRequestsMilliCores ]} (tlp_DefaultRequests args);
  tlp_DefaultRequestsMultiplier := or_default DefaultRequestsMultiplier (tlp_DefaultRequestsMultiplier args);
  tlp_TargetUtilization :=
    match tlp_TargetUtilization args with
    | Some t => if t <=? 0 then Some DefaultTargetUtilizationPercent else Some t
    | None => Some DefaultTargetUtilizationPercent
    end |}.

Record LoadVariationRiskBalancingArgs := {
  lv_TrimaranSpec : TrimaranSpec;
  lv_SafeVarianceMargin : option spec_float;
  lv_SafeVarianceSensitivity : option spec_float;
}.

(** A nil or negative number becomes the default. *)
Definition nonneg_or (d : spec_float) (o : option spec_float) : option spec_float :=
  match o with Some x => if SFltb x (float64 0) then Some d else o | None => Some d end.

Definition SetDefaults_LoadVariationRiskBalancingArgs (args : LoadVariationRiskBalancingArgs)
    : LoadVariationRiskBalancingArgs := {|
  lv_TrimaranSpec := SetDefaultTrimaranSpec (lv_TrimaranSpec args);
  lv_SafeVarianceMargin := nonneg_or DefaultSafeVarianceMargin (lv_SafeVarianceMargin args);
  lv_SafeVarianceSensitivity := nonneg_or DefaultSafeVarianceSensitivity (lv_SafeVarianceSensitivity args) |}.

(** [RiskLimitWeights] nil is [None]. *)
Record LowRiskOverCommitmentArgs := {
  lr_TrimaranSpec : TrimaranSpec;
  lr_SmoothingWindowSize : option Z;
  lr_RiskLimitWeights : option (gmap string spec_float);
}.

Definition fraction_or_default (w : spec_float) : spec_float :=
  if SFltb w (float64 0) || SFltb (float64 1) w then DefaultRiskLimitWeight else w.

Definition SetDefaults_LowRiskOverCommitmentArgs (args : LowRiskOverCommitmentArgs)
    : LowRiskOverCommitmentArgs := {|
  lr_TrimaranSpec := SetDefaultTrimaranSpec (lr_TrimaranSpec args);
  lr_SmoothingWindowSize :=
    match lr_SmoothingWindowSize args with
    | Some s => if s <=? 0 then Some DefaultSmoothingWindowSize else Some s
    | None => Some DefaultSmoothingWindowSize
    end;
  lr_RiskLimitWeights :=
    match lr_RiskLimitWeights args with
    | Some ws => if bool_decide (ws = ∅) then Some DefaultRiskLimitWeights else Some (fraction_or_default <$> ws)
    | None => Some DefaultRiskLimitWeights
    end |}.

(** ** NUMA-aware scheduling *)

Record ScoringStrategy := { ss_Type : ScoringStrategyType; ss_Resources : list ResourceSpec }.

Record NodeResourceTopologyCache := {
  ForeignPodsDetect : option ForeignPodsDetectMode;
  ResyncMethod : option CacheResyncMethod;
  InformerMode : option CacheInformerMode;
  ResyncScope : option CacheResyncScope;
}.

Record NodeResourceTopologyMatchArgs := {
  nrt_ScoringStrategy : option ScoringStrategy;
  nrt_CacheResyncPeriodSeconds : option Z;
  nrt_DiscardReservedNodes : bool;
  nrt_Cache : option NodeResourceTopologyCache;
}.

Definition weight_or_one (r : ResourceSpec) : ResourceSpec :=
  if rs_Weight r =? 0 then {| rs_Name := rs_Name r; rs_Weight := 1 |} else r.

Definition resources_or_default (resources : list ResourceSpec) : list ResourceSpec :=
  if (length resources =? 0)%nat then resources ++ defaultResourceSpec else resources.

Definition SetDefaults_NodeResourceTopologyMatchArgs (obj : NodeResourceTopologyMatchArgs)
    : NodeResourceTopologyMatchArgs :=
  let strategy := default {| ss_Type := LeastAllocated; ss_Resources := defaultResourceSpec |}
                    (nrt_ScoringStrategy obj) in
  let cache := default {| ForeignPodsDetect := None; ResyncMethod := None; InformerMode := None; ResyncScope := None |}
                 (nrt_Cache obj) in
  {| nrt_ScoringStrategy := Some {| ss_Type := ss_Type strategy; ss_Resources := map weight_or_one (resources_or_default (ss_Resources strategy)) |};
     nrt_CacheResyncPeriodSeconds := nrt_CacheResyncPeriodSeconds obj;
     nrt_DiscardReservedNodes := nrt_DiscardReservedNodes obj;
     nrt_Cache := Some {|
       ForeignPodsDetect := or_default defaultForeignPodsDetect (ForeignPodsDetect cache);
       ResyncMethod := or_default defaultResyncMethod (ResyncMethod cache);
       InformerMode := or_default defaultInformerMode (InformerMode cache);
       ResyncScope := ResyncScope cache |} |}.

(** ** The other plugins *)

Record PreemptionTolerationArgs := {
  pt_MinCandidateNodesPercentage : option Z;
  pt_MinCandidateNodesAbsolute : option Z;
}.

(** With [SetDefaults_DefaultPreemptionArgs]. *)
Definition SetDefaults_PreemptionTolerationArgs (obj : PreemptionTolerationArgs) : PreemptionTolerationArgs := {|
  pt_MinCandidateNodesPercentage := or_default 10 (pt_MinCandidateNodesPercentage obj);
  pt_MinCandidateNodesAbsolute := or_default 100 (pt_MinCandidateNodesAbsolute obj) |}.

Definition namespaces_or_default (namespaces : list string) : list string :=
  if (length namespaces =? 0)%nat then [NamespaceDefault] else namespaces.

Record TopologicalSortArgs := { ts_Namespaces : list string }.

Definition SetDefaults_TopologicalSortArgs (obj : TopologicalSortArgs) : TopologicalSortArgs :=
  {| ts_Namespaces := namespaces_or_default (ts_Namespaces obj) |}.

Record NetworkOverheadArgs := {
  no_Namespaces : list string;
  no_WeightsName : option string;
  no_NetworkTopologyName : option string;
}.

Definition SetDefaults_NetworkOverheadArgs (obj : NetworkOverheadArgs) : NetworkOverheadArgs := {|
  no_Namespaces := namespaces_or_default (no_Namespaces obj);
  no_WeightsName := or_default DefaultWeightsName (no_WeightsName obj);
  no_NetworkTopologyName := or_default DefaultNetworkTopologyName (no_NetworkTopologyName obj) |}.

Record SySchedArgs := { sy_DefaultProfileNamespace : option string; sy_DefaultProfileName : option string }.

Definition SetDefaults_SySchedArgs (obj : SySchedArgs) : SySchedArgs := {|
  sy_DefaultProfileNamespace := or_default DefaultSySchedProfileNamespace (sy_DefaultProfileNamespace obj);
  sy_DefaultProfileName := or_default DefaultSySchedProfileName (sy_DefaultProfileName obj) |}.
