(* ===== verification/Args.v ===== *)
(** * Loading a plugin's arguments: defaults, conversion, and what [New] accepts

    The conversions of [zz_generated.conversion.go] and [conversion.go] in both
    directions, the registration of the defaults ([zz_generated.defaults.go]),
    and the path of a configuration from the versioned object to the plugin:
    the scheme's decoder applies the registered defaulter of the kind and
    converts the result ([load]). Where a conversion dereferences a pointer
    that may be nil it gives [None]. *)

From S2P Require Import Prelude.
From S2P Require Import GoFloat.
From S2P Require Import KubeTypes.
From S2P Require Import VaclabHandle.
From S2P Require Import VaclabScheduling.
From S2P Require Import NetworkOverhead.
From S2P Require Import Toleration.
From S2P Require Import Scoring.
From S2P Require Import NumaScore.
From S2P Require Import ArgsV1.
From S2P Require Import ArgsTypes.
From S2P Require Import Trimaran.
From S2P Require Import LoadAware.
From Stdlib Require Import SpecFloat.

(** ** Conversions *)

(** [metav1.Convert_Pointer_T_To_T]: a nil pointer is the zero value. *)
Definition Convert_Pointer_int64_To_int64 (o : option Z) : Z := default 0 o.
Definition Convert_Pointer_int32_To_int32 (o : option Z) : Z := default 0 o.
Definition Convert_Pointer_string_To_string (o : option string) : string := default "" o.
Definition Convert_Pointer_bool_To_bool (o : option bool) : bool := default false o.
Definition Convert_Pointer_float64_To_float64 (o : option spec_float) : spec_float := default (S754_zero false) o.

Definition Convert_v1_CoschedulingArgs_To_config_CoschedulingArgs (i : ArgsV1.CoschedulingArgs)
    : ArgsTypes.CoschedulingArgs := {|
  ArgsTypes.cs_PermitWaitingTimeSeconds := Convert_Pointer_int64_To_int64 (ArgsV1.cs_PermitWaitingTimeSeconds i);
  ArgsTypes.cs_PodGroupBackoffSeconds := Convert_Pointer_int64_To_int64 (ArgsV1.cs_PodGroupBackoffSeconds i) |}.
Definition Convert_config_CoschedulingArgs_To_v1_CoschedulingArgs (i : ArgsTypes.CoschedulingArgs)
    : ArgsV1.CoschedulingArgs := {|
  ArgsV1.cs_PermitWaitingTimeSeconds := Some (ArgsTypes.cs_PermitWaitingTimeSeconds i);
  ArgsV1.cs_PodGroupBackoffSeconds := Some (ArgsTypes.cs_PodGroupBackoffSeconds i) |}.

Definition Convert_v1_NodeResourcesAllocatableArgs_To_config_NodeResourcesAllocatableArgs
    (i : ArgsV1.NodeResourcesAllocatableArgs) : ArgsTypes.NodeResourcesAllocatableArgs := {|
  ArgsTypes.ra_Resources := ArgsV1.ra_Resources i; ArgsTypes.ra_Mode := ArgsV1.ra_Mode i |}.
Definition Convert_config_NodeResourcesAllocatableArgs_To_v1_NodeResourcesAllocatableArgs
    (i : ArgsTypes.NodeResourcesAllocatableArgs) : ArgsV1.NodeResourcesAllocatableArgs := {|
  ArgsV1.ra_Resources := ArgsTypes.ra_Resources i; ArgsV1.ra_Mode := ArgsTypes.ra_Mode i |}.

Definition Convert_v1_MetricProviderSpec_To_config_MetricProviderSpec (i : ArgsV1.MetricProviderSpec)
    : ArgsTypes.MetricProviderSpec := {|
  ArgsTypes.mp_Type := ArgsV1.mp_Type i;
  ArgsTypes.mp_Address := Convert_Pointer_string_To_string (ArgsV1.mp_Address i);
  ArgsTypes.mp_Token := Convert_Pointer_string_To_string (ArgsV1.mp_Token i);
  ArgsTypes.mp_InsecureSkipVerify := Convert_Pointer_bool_To_bool (ArgsV1.mp_InsecureSkipVerify i) |}.
Definition Convert_config_MetricProviderSpec_To_v1_MetricProviderSpec (i : ArgsTypes.MetricProviderSpec)
    : ArgsV1.MetricProviderSpec := {|
  ArgsV1.mp_Type := ArgsTypes.mp_Type i; ArgsV1.mp_Address := Some (ArgsTypes.mp_Address i);
  ArgsV1.mp_Token := Some (ArgsTypes.mp_Token i);
  ArgsV1.mp_InsecureSkipVerify := Some (ArgsTypes.mp_InsecureSkipVerify i) |}.

Definition Convert_v1_TrimaranSpec_To_config_TrimaranSpec (i : ArgsV1.TrimaranSpec) : ArgsTypes.TrimaranSpec := {|
  ArgsTypes.MetricProvider := Convert_v1_MetricProviderSpec_To_config_MetricProviderSpec (ArgsV1.MetricProvider i);
  ArgsTypes.WatcherAddress := Convert_Pointer_string_To_string (ArgsV1.WatcherAddress i) |}.
Definition Convert_config_TrimaranSpec_To_v1_TrimaranSpec (i : ArgsTypes.TrimaranSpec) : ArgsV1.TrimaranSpec := {|
  ArgsV1.MetricProvider := Convert_config_MetricProviderSpec_To_v1_MetricProviderSpec (ArgsTypes.MetricProvider i);
  ArgsV1.WatcherAddress := Some (ArgsTypes.WatcherAddress i) |}.

Definition Convert_v1_TargetLoadPackingArgs_To_config_TargetLoadPackingArgs (i : ArgsV1.TargetLoadPackingArgs)
    : ArgsTypes.TargetLoadPackingArgs := {|
  ArgsTypes.tlp_TrimaranSpec := Convert_v1_TrimaranSpec_To_config_TrimaranSpec (ArgsV1.tlp_TrimaranSpec i);
  ArgsTypes.DefaultRequests := ArgsV1.tlp_DefaultRequests i;
  ArgsTypes.DefaultRequestsMultiplier := Convert_Pointer_string_To_string (ArgsV1.tlp_DefaultRequestsMultiplier i);
  ArgsTypes.TargetUtilization := Convert_Pointer_int64_To_int64 (ArgsV1.tlp_TargetUtilization i) |}.
Definition Convert_config_TargetLoadPackingArgs_To_v1_TargetLoadPackingArgs (i : ArgsTypes.TargetLoadPackingArgs)
    : ArgsV1.TargetLoadPackingArgs := {|
  ArgsV1.tlp_TrimaranSpec := Convert_config_TrimaranSpec_To_v1_TrimaranSpec (ArgsTypes.tlp_TrimaranSpec i);
  ArgsV1.tlp_DefaultRequests := ArgsTypes.DefaultRequests i;
  ArgsV1.tlp_DefaultRequestsMultiplier := Some (ArgsTypes.DefaultRequestsMultiplier i);
  ArgsV1.tlp_TargetUtilization := Some (ArgsTypes.TargetUtilization i) |}.

Definition Convert_v1_LoadVariationRiskBalancingArgs_To_config_LoadVariationRiskBalancingArgs
    (i : ArgsV1.LoadVariationRiskBalancingArgs) : ArgsTypes.LoadVariationRiskBalancingArgs := {|
  ArgsTypes.lv_TrimaranSpec := Convert_v1_TrimaranSpec_To_config_TrimaranSpec (ArgsV1.lv_TrimaranSpec i);
  ArgsTypes.SafeVarianceMargin := Convert_Pointer_float64_To_float64 (ArgsV1.lv_SafeVarianceMargin i);
  ArgsTypes.SafeVarianceSensitivity := Convert_Pointer_float64_To_float64 (ArgsV1.lv_SafeVarianceSensitivity i) |}.
Definition Convert_config_LoadVariationRiskBalancingArgs_To_v1_LoadVariationRiskBalancingArgs
    (i : ArgsTypes.LoadVariationRiskBalancingArgs) : ArgsV1.LoadVariationRiskBalancingArgs := {|
  ArgsV1.lv_TrimaranSpec := Convert_config_TrimaranSpec_To_v1_TrimaranSpec (ArgsTypes.lv_TrimaranSpec i);
  ArgsV1.lv_SafeVarianceMargin := Some (ArgsTypes.SafeVarianceMargin i);
  ArgsV1.lv_SafeVarianceSensitivity := Some (ArgsTypes.SafeVarianceSensitivity i) |}.

Definition Convert_v1_LowRiskOverCommitmentArgs_To_config_LowRiskOverCommitmentArgs
    (i : ArgsV1.LowRiskOverCommitmentArgs) : ArgsTypes.LowRiskOverCommitmentArgs := {|
  ArgsTypes.lr_TrimaranSpec := Convert_v1_TrimaranSpec_To_config_TrimaranSpec (ArgsV1.lr_TrimaranSpec i);
  ArgsTypes.SmoothingWindowSize := Convert_Pointer_int64_To_int64 (ArgsV1.lr_SmoothingWindowSize i);
  ArgsTypes.RiskLimitWeights := ArgsV1.lr_RiskLimitWeights i |}.
Definition Convert_config_LowRiskOverCommitmentArgs_To_v1_LowRiskOverCommitmentArgs
    (i : ArgsTypes.LowRiskOverCommitmentArgs) : ArgsV1.LowRiskOverCommitmentArgs := {|
  ArgsV1.lr_TrimaranSpec := Convert_config_TrimaranSpec_To_v1_TrimaranSpec (ArgsTypes.lr_TrimaranSpec i);
  ArgsV1.lr_SmoothingWindowSize := Some (ArgsTypes.SmoothingWindowSize i);
  ArgsV1.lr_RiskLimitWeights := ArgsTypes.RiskLimitWeights i |}.

Definition Convert_v1_ScoringStrategy_To_config_ScoringStrategy (i : ArgsV1.ScoringStrategy)
    : ArgsTypes.ScoringStrategy := {|
  ArgsTypes.ss_Type := ArgsV1.ss_Type i; ArgsTypes.ss_Resources := ArgsV1.ss_Resources i |}.
Definition Convert_config_ScoringStrategy_To_v1_ScoringStrategy (i : ArgsTypes.ScoringStrategy)
    : ArgsV1.ScoringStrategy := {|
  ArgsV1.ss_Type := ArgsTypes.ss_Type i; ArgsV1.ss_Resources := ArgsTypes.ss_Resources i |}.

Definition Convert_v1_NodeResourceTopologyCache_To_config_NodeResourceTopologyCache
    (i : ArgsV1.NodeResourceTopologyCache) : ArgsTypes.NodeResourceTopologyCache := {|
  ArgsTypes.ForeignPodsDetect := ArgsV1.ForeignPodsDetect i; ArgsTypes.ResyncMethod := ArgsV1.ResyncMethod i;
  ArgsTypes.InformerMode := ArgsV1.InformerMode i; ArgsTypes.ResyncScope := ArgsV1.ResyncScope i |}.
Definition Convert_config_NodeResourceTopologyCache_To_v1_NodeResourceTopologyCache
    (i : ArgsTypes.NodeResourceTopologyCache) : ArgsV1.NodeResourceTopologyCache := {|
  ArgsV1.ForeignPodsDetect := ArgsTypes.ForeignPodsDetect i; ArgsV1.ResyncMethod := ArgsTypes.ResyncMethod i;
  ArgsV1.InformerMode := ArgsTypes.InformerMode i; ArgsV1.ResyncScope := ArgsTypes.ResyncScope i |}.

(** The manual conversion dereferences the strategy. *)
Definition Convert_v1_NodeResourceTopologyMatchArgs_To_config_NodeResourceTopologyMatchArgs
    (i : ArgsV1.NodeResourceTopologyMatchArgs) : option ArgsTypes.NodeResourceTopologyMatchArgs :=
  (fun strategy => {|
    ArgsTypes.nrt_ScoringStrategy := Convert_v1_ScoringStrategy_To_config_ScoringStrategy strategy;
    ArgsTypes.CacheResyncPeriodSeconds := Convert_Pointer_int64_To_int64 (ArgsV1.nrt_CacheResyncPeriodSeconds i);
    ArgsTypes.DiscardReservedNodes := ArgsV1.nrt_DiscardReservedNodes i;
    ArgsTypes.nrt_Cache :=
      Convert_v1_NodeResourceTopologyCache_To_config_NodeResourceTopologyCache <$> ArgsV1.nrt_Cache i |}) <$>
  ArgsV1.nrt_ScoringStrategy i.
Definition Convert_config_NodeResourceTopologyMatchArgs_To_v1_NodeResourceTopologyMatchArgs
    (i : ArgsTypes.NodeResourceTopologyMatchArgs) : ArgsV1.NodeResourceTopologyMatchArgs := {|
  ArgsV1.nrt_ScoringStrategy :=
    Some (Convert_config_ScoringStrategy_To_v1_ScoringStrategy (ArgsTypes.nrt_ScoringStrategy i));
  ArgsV1.nrt_CacheResyncPeriodSeconds := Some (ArgsTypes.CacheResyncPeriodSeconds i);
  ArgsV1.nrt_DiscardReservedNodes := ArgsTypes.DiscardReservedNodes i;
  ArgsV1.nrt_Cache :=
    Convert_config_NodeResourceTopologyCache_To_v1_NodeResourceTopologyCache <$> ArgsTypes.nrt_Cache i |}.

Definition Convert_v1_PreemptionTolerationArgs_To_config_PreemptionTolerationArgs
    (i : ArgsV1.PreemptionTolerationArgs) : Toleration.PreemptionTolerationArgs := {|
  MinCandidateNodesPercentage := Convert_Pointer_int32_To_int32 (pt_MinCandidateNodesPercentage i);
  MinCandidateNodesAbsolute := Convert_Pointer_int32_To_int32 (pt_MinCandidateNodesAbsolute i) |}.
Definition Convert_config_PreemptionTolerationArgs_To_v1_PreemptionTolerationArgs
    (i : Toleration.PreemptionTolerationArgs) : ArgsV1.PreemptionTolerationArgs := {|
  pt_MinCandidateNodesPercentage := Some (MinCandidateNodesPercentage i);
  pt_MinCandidateNodesAbsolute := Some (MinCandidateNodesAbsolute i) |}.

Definition Convert_v1_TopologicalSortArgs_To_config_TopologicalSortArgs (i : ArgsV1.TopologicalSortArgs)
    : ArgsTypes.TopologicalSortArgs := {| ArgsTypes.ts_Namespaces := ArgsV1.ts_Namespaces i |}.
Definition Convert_config_TopologicalSortArgs_To_v1_TopologicalSortArgs (i : ArgsTypes.TopologicalSortArgs)
    : ArgsV1.TopologicalSortArgs := {| ArgsV1.ts_Namespaces := ArgsTypes.ts_Namespaces i |}.

Definition Convert_v1_NetworkOverheadArgs_To_config_NetworkOverheadArgs (i : ArgsV1.NetworkOverheadArgs)
    : NetworkOverhead.NetworkOverheadArgs := {|
  no_namespaces := no_Namespaces i;
  no_weightsName := Convert_Pointer_string_To_string (no_WeightsName i);
  no_ntName := Convert_Pointer_string_To_string (no_NetworkTopologyName i) |}.
Definition Convert_config_NetworkOverheadArgs_To_v1_NetworkOverheadArgs (i : NetworkOverhead.NetworkOverheadArgs)
    : ArgsV1.NetworkOverheadArgs := {|
  no_Namespaces := no_namespaces i; no_WeightsName := Some (no_weightsName i);
  no_NetworkTopologyName := Some (no_ntName i) |}.

Definition Convert_v1_SySchedArgs_To_config_SySchedArgs (i : ArgsV1.SySchedArgs) : ArgsTypes.SySchedArgs := {|
  ArgsTypes.sy_DefaultProfileNamespace := Convert_Pointer_string_To_string (ArgsV1.sy_DefaultProfileNamespace i);
  ArgsTypes.sy_DefaultProfileName := Convert_Pointer_string_To_string (ArgsV1.sy_DefaultProfileName i) |}.
Definition Convert_config_SySchedArgs_To_v1_SySchedArgs (i : ArgsTypes.SySchedArgs) : ArgsV1.SySchedArgs := {|
  ArgsV1.sy_DefaultProfileNamespace := Some (ArgsTypes.sy_DefaultProfileNamespace i);
  ArgsV1.sy_DefaultProfileName := Some (ArgsTypes.sy_DefaultProfileName i) |}.

(** ** Objects of every kind *)

Inductive V1Args :=
| V1Coscheduling (a : ArgsV1.CoschedulingArgs)
| V1NodeResourcesAllocatable (a : ArgsV1.NodeResourcesAllocatableArgs)
| V1TargetLoadPacking (a : ArgsV1.TargetLoadPackingArgs)
| V1LoadVariationRiskBalancing (a : ArgsV1.LoadVariationRiskBalancingArgs)
| V1LowRiskOverCommitment (a : ArgsV1.LowRiskOverCommitmentArgs)
| V1NodeResourceTopologyMatch (a : ArgsV1.NodeResourceTopologyMatchArgs)
| V1PreemptionToleration (a : ArgsV1.PreemptionTolerationArgs)
| V1TopologicalSort (a : ArgsV1.TopologicalSortArgs)
| V1NetworkOverhead (a : ArgsV1.NetworkOverheadArgs)
| V1SySched (a : ArgsV1.SySchedArgs)
| V1VaclabScheduling (a : VaclabSchedulingArgs).

Inductive PluginArgs :=
| CoschedulingArgs_ (a : ArgsTypes.CoschedulingArgs)
| NodeResourcesAllocatableArgs_ (a : ArgsTypes.NodeResourcesAllocatableArgs)
| TargetLoadPackingArgs_ (a : ArgsTypes.TargetLoadPackingArgs)
| LoadVariationRiskBalancingArgs_ (a : ArgsTypes.LoadVariationRiskBalancingArgs)
| LowRiskOverCommitmentArgs_ (a : ArgsTypes.LowRiskOverCommitmentArgs)
| NodeResourceTopologyMatchArgs_ (a : ArgsTypes.NodeResourceTopologyMatchArgs)
| PreemptionTolerationArgs_ (a : Toleration.PreemptionTolerationArgs)
| TopologicalSortArgs_ (a : ArgsTypes.TopologicalSortArgs)
| NetworkOverheadArgs_ (a : NetworkOverhead.NetworkOverheadArgs)
| SySchedArgs_ (a : ArgsTypes.SySchedArgs)
| VaclabSchedulingArgs_ (a : VaclabSchedulingArgs).

(** The defaulter that [RegisterDefaults] gives the scheme for a kind. *)
Definition Default (obj : V1Args) : V1Args :=
  match obj with
  | V1Coscheduling a => V1Coscheduling (SetDefaults_CoschedulingArgs a)
  | V1NodeResourcesAllocatable a => V1NodeResourcesAllocatable (SetDefaults_NodeResourcesAllocatableArgs a)
  | V1TargetLoadPacking a => V1TargetLoadPacking (SetDefaults_TargetLoadPackingArgs a)
  | V1LoadVariationRiskBalancing a => V1LoadVariationRiskBalancing (SetDefaults_LoadVariationRiskBalancingArgs a)
  | V1LowRiskOverCommitment a => V1LowRiskOverCommitment (SetDefaults_LowRiskOverCommitmentArgs a)
  | V1NodeResourceTopologyMatch a => V1NodeResourceTopologyMatch (SetDefaults_NodeResourceTopologyMatchArgs a)
  | V1PreemptionToleration a => V1PreemptionToleration (SetDefaults_PreemptionTolerationArgs a)
  | V1TopologicalSort a => V1TopologicalSort (SetDefaults_TopologicalSortArgs a)
  | V1NetworkOverhead a => V1NetworkOverhead (SetDefaults_NetworkOverheadArgs a)
  | V1SySched a => V1SySched (SetDefaults_SySchedArgs a)
  | V1VaclabScheduling a => obj
  end.

(** The conversions of [RegisterConversions]. Those of VaclabScheduling copy
    fields of one name and type. *)
Definition to_internal (obj : V1Args) : option PluginArgs :=
  match obj with
  | V1Coscheduling a => Some (CoschedulingArgs_ (Convert_v1_CoschedulingArgs_To_config_CoschedulingArgs a))
  | V1NodeResourcesAllocatable a => Some (NodeResourcesAllocatableArgs_
      (Convert_v1_NodeResourcesAllocatableArgs_To_config_NodeResourcesAllocatableArgs a))
  | V1TargetLoadPacking a =>
      Some (TargetLoadPackingArgs_ (Convert_v1_TargetLoadPackingArgs_To_config_TargetLoadPackingArgs a))
  | V1LoadVariationRiskBalancing a => Some (LoadVariationRiskBalancingArgs_
      (Convert_v1_LoadVariationRiskBalancingArgs_To_config_LoadVariationRiskBalancingArgs a))
  | V1LowRiskOverCommitment a =>
      Some (LowRiskOverCommitmentArgs_ (Convert_v1_LowRiskOverCommitmentArgs_To_config_LowRiskOverCommitmentArgs a))
  | V1NodeResourceTopologyMatch a => NodeResourceTopologyMatchArgs_ <$>
      Convert_v1_NodeResourceTopologyMatchArgs_To_config_NodeResourceTopologyMatchArgs a
  | V1PreemptionToleration a =>
      Some (PreemptionTolerationArgs_ (Convert_v1_PreemptionTolerationArgs_To_config_PreemptionTolerationArgs a))
  | V1TopologicalSort a =>
      Some (TopologicalSortArgs_ (Convert_v1_TopologicalSortArgs_To_config_TopologicalSortArgs a))
  | V1NetworkOverhead a =>
      Some (NetworkOverheadArgs_ (Convert_v1_NetworkOverheadArgs_To_config_NetworkOverheadArgs a))
  | V1SySched a => Some (SySchedArgs_ (Convert_v1_SySchedArgs_To_config_SySchedArgs a))
  | V1VaclabScheduling a => Some (VaclabSchedulingArgs_ a)
  end.

Definition to_v1 (obj : PluginArgs) : V1Args :=
  match obj with
  | CoschedulingArgs_ a => V1Coscheduling (Convert_config_CoschedulingArgs_To_v1_CoschedulingArgs a)
  | NodeResourcesAllocatableArgs_ a => V1NodeResourcesAllocatable
      (Convert_config_NodeResourcesAllocatableArgs_To_v1_NodeResourcesAllocatableArgs a)
  | TargetLoadPackingArgs_ a =>
      V1TargetLoadPacking (Convert_config_TargetLoadPackingArgs_To_v1_TargetLoadPackingArgs a)
  | LoadVariationRiskBalancingArgs_ a => V1LoadVariationRiskBalancing
      (Convert_config_LoadVariationRiskBalancingArgs_To_v1_LoadVariationRiskBalancingArgs a)
  | LowRiskOverCommitmentArgs_ a =>
      V1LowRiskOverCommitment (Convert_config_LowRiskOverCommitmentArgs_To_v1_LowRiskOverCommitmentArgs a)
  | NodeResourceTopologyMatchArgs_ a => V1NodeResourceTopologyMatch
      (Convert_config_NodeResourceTopologyMatchArgs_To_v1_NodeResourceTopologyMatchArgs a)
  | PreemptionTolerationArgs_ a =>
      V1PreemptionToleration (Convert_config_PreemptionTolerationArgs_To_v1_PreemptionTolerationArgs a)
  | TopologicalSortArgs_ a => V1TopologicalSort (Convert_config_TopologicalSortArgs_To_v1_TopologicalSortArgs a)
  | NetworkOverheadArgs_ a => V1NetworkOverhead (Convert_config_NetworkOverheadArgs_To_v1_NetworkOverheadArgs a)
  | SySchedArgs_ a => V1SySched (Convert_config_SySchedArgs_To_v1_SySchedArgs a)
  | VaclabSchedulingArgs_ a => V1VaclabScheduling a
  end.

(** Decoding: default, then convert. *)
Definition load (obj : V1Args) : option PluginArgs := to_internal (Default obj).

(** ** What each [New] accepts *)

Definition Second : Z := 1000000000.

(** [New] of Coscheduling: how long a pod waits and the backoff of a group, in
    nanoseconds; [None] is the error. *)
Definition New_coscheduling (args : ArgsTypes.CoschedulingArgs) : option (Z * option Z) :=
  let scheduleTimeDuration := ArgsTypes.cs_PermitWaitingTimeSeconds args *! Second in
  if ArgsTypes.cs_PodGroupBackoffSeconds args <? 0 then None
  else if 0 <? ArgsTypes.cs_PodGroupBackoffSeconds args
  then Some (scheduleTimeDuration, Some (ArgsTypes.cs_PodGroupBackoffSeconds args *! Second))
  else Some (scheduleTimeDuration, None).

(** The modes and strategies by their names. *)
Definition mode_named (mode : string) : option Scoring.ModeType :=
  if bool_decide (mode = "") then None
  else if bool_decide (mode = ArgsTypes.Least) then Some Scoring.Least
  else if bool_decide (mode = ArgsTypes.Most) then Some Scoring.Most else Some OtherMode.

Definition strategy_named (t : string) : NumaScore.ScoringStrategyType :=
  if bool_decide (t = ArgsTypes.MostAllocated) then NumaScore.MostAllocated
  else if bool_decide (t = ArgsTypes.BalancedAllocation) then NumaScore.BalancedAllocation
  else if bool_decide (t = ArgsTypes.LeastAllocated) then NumaScore.LeastAllocated
  else if bool_decide (t = ArgsTypes.LeastNUMANodes) then NumaScore.LeastNUMANodes else OtherStrategy.

Definition spec_pair (r : ResourceSpec) : string * Z := (rs_Name r, rs_Weight r).

Definition allocatable_view (a : ArgsTypes.NodeResourcesAllocatableArgs) : Scoring.NodeResourcesAllocatableArgs := {|
  ra_mode := mode_named (ArgsTypes.ra_Mode a); ra_resources := map spec_pair (ArgsTypes.ra_Resources a) |}.

Definition ValidateDefaultPreemptionArgs (args : Toleration.PreemptionTolerationArgs) : bool :=
  let p := MinCandidateNodesPercentage args in
  let a := MinCandidateNodesAbsolute args in
  negb ((p <? 0) || (100 <? p)) && negb (a <? 0) && negb ((p =? 0) && (a =? 0)).

(** Whether [New] of the plugin returns a plugin, when its clients of the API
    server can be made. [env] is what the load watcher's client finds around it,
    [ParseFloat] the standard library's; the load watcher's first answer and the
    variables of TargetLoadPacking are there for the plugins to be made. *)
Section Accepted.
Variable env : Surroundings.
Variable ParseFloat : string -> spec_float * bool.
Variable answer : result WatcherMetrics.
Variable vars : TargetLoadPacking.

Definition is_made {A} (o : Outcome A) : bool := match o with Made _ => true | _ => false end.

Definition accepted (obj : PluginArgs) : bool :=
  match obj with
  | CoschedulingArgs_ a => bool_decide (is_Some (New_coscheduling a))
  | NodeResourcesAllocatableArgs_ a => bool_decide (is_Some (NewAllocatable (Some (allocatable_view a))))
  | TargetLoadPackingArgs_ a => is_made (New_target env ParseFloat a answer vars).1
  | LoadVariationRiskBalancingArgs_ a => is_made (New_variation env a answer)
  | LowRiskOverCommitmentArgs_ a => is_made (New_lowrisk env a answer)
  | NodeResourceTopologyMatchArgs_ a => validScoringStrategy (strategy_named (ss_Type (nrt_ScoringStrategy a)))
  | PreemptionTolerationArgs_ a => ValidateDefaultPreemptionArgs a
  | TopologicalSortArgs_ _ | NetworkOverheadArgs_ _ | SySchedArgs_ _ => true
  | VaclabSchedulingArgs_ a => bool_decide (is_Some (handle_config a))
  end.
End Accepted.
