(* ===== verification/NumaSetup.v ===== *)
(** * Setting up NodeResourceTopologyMatch

    What [New] of [pkg/noderesourcetopology/plugin.go] makes of a profile's
    arguments: [initNodeTopologyInformer] and the detection of foreign pods of
    [pluginhelpers.go], the constructors of the caches, [podprovider], and the
    two global variables of [cache/foreign_pods.go] that all profiles of a
    scheduler share. The loop of the watcher of attributes is here too.

    The answers of the API server and the profile's name are arguments. A
    background loop the code starts is a field of the plugin that says so. *)

From Stdlib Require Import SpecFloat.
From S2P Require Import Prelude.
From S2P Require Import KubeTypes.
From S2P Require Import Framework.
From S2P Require Import Resource.
From S2P Require Import Scoring.
From S2P Require Import NumaTopology.
From S2P Require Import NumaScore.
From S2P Require Import NumaCache.
From S2P Require ArgsTypes.
From S2P Require Args.

(** ** The configured modes ([apis/config/types.go]) *)

Definition ForeignPodsDetectNone : ArgsTypes.ForeignPodsDetectMode := "None".
Definition ForeignPodsDetectOnlyExclusiveResources : ArgsTypes.ForeignPodsDetectMode :=
  "OnlyExclusiveResources".
Definition CacheResyncScopeAll : ArgsTypes.CacheResyncScope := "All".

Definition getForeignPodsDetectMode (cfg : option ArgsTypes.NodeResourceTopologyCache)
    : ArgsTypes.ForeignPodsDetectMode :=
  match cfg with
  | Some c => match ArgsTypes.ForeignPodsDetect c with
              | Some mode => mode
              | None => ArgsTypes.ForeignPodsDetectAll
              end
  | None => ArgsTypes.ForeignPodsDetectAll
  end.

Definition getCacheResyncScope (cfg : option ArgsTypes.NodeResourceTopologyCache)
    : ArgsTypes.CacheResyncScope :=
  match cfg with
  | Some c => match ArgsTypes.ResyncScope c with
              | Some scope => scope
              | None => CacheResyncScopeAll
              end
  | None => CacheResyncScopeAll
  end.

(** The methods [podFingerprintForNodeTopology] tells apart. *)
Definition resync_method_named (m : ArgsTypes.CacheResyncMethod) : CacheResyncMethod :=
  if bool_decide (m = "OnlyExclusiveResources") then CacheResyncOnlyExclusiveResources
  else if bool_decide (m = ArgsTypes.CacheResyncAutodetect) then CacheResyncAutodetect
  else CacheResyncAll.

(** [podprovider.NewFromHandle]: whether the informer is a dedicated one, and
    which pods matter. *)
Definition wants_dedicated (cacheConf : option ArgsTypes.NodeResourceTopologyCache) : bool :=
  wantsDedicatedInformer
    ((fun c => (fun mode => bool_decide (mode = ArgsTypes.CacheInformerDedicated)) <$> ArgsTypes.InformerMode c)
       <$> cacheConf).

Definition NewFromHandle (cacheConf : option ArgsTypes.NodeResourceTopologyCache) : bool * (Pod -> bool) :=
  let dedicated := wants_dedicated cacheConf in
  (dedicated, if dedicated then IsPodRelevantDedicated else IsPodRelevantShared).

(** ** The variables all profiles share *)

Record ForeignGlobals := { schedProfileNames : gset string; onlyExclusiveResources : bool }.

Definition initial_globals : ForeignGlobals :=
  {| schedProfileNames := ∅; onlyExclusiveResources := false |}.

Definition TrackOnlyForeignPodsWithExclusiveResources (g : ForeignGlobals) : ForeignGlobals :=
  {| schedProfileNames := schedProfileNames g; onlyExclusiveResources := true |}.
Definition TrackAllForeignPods (g : ForeignGlobals) : ForeignGlobals :=
  {| schedProfileNames := schedProfileNames g; onlyExclusiveResources := false |}.
Definition RegisterSchedulerProfileName (name : string) (g : ForeignGlobals) : ForeignGlobals :=
  {| schedProfileNames := {[name]} ∪ schedProfileNames g;
     onlyExclusiveResources := onlyExclusiveResources g |}.

(** ** The plugin *)

(** The value of type [Interface]. *)
Inductive CacheValue :=
| APassthrough (c : Passthrough)
| ADiscardReserved (c : DiscardReserved)
| AnOverReserve (c : OverReserve).

Definition on_cache (f : forall C, NRTCache C -> C -> C) (v : CacheValue) : CacheValue :=
  match v with
  | APassthrough c => APassthrough (f _ _ c)
  | ADiscardReserved c => ADiscardReserved (f _ _ c)
  | AnOverReserve c => AnOverReserve (f _ _ c)
  end.

#[export] Instance cache_value : NRTCache CacheValue := {|
  GetCachedNRTCopy client v nodeName pod :=
    match v with
    | APassthrough c => GetCachedNRTCopy client c nodeName pod
    | ADiscardReserved c => GetCachedNRTCopy client c nodeName pod
    | AnOverReserve c => GetCachedNRTCopy client c nodeName pod
    end;
  NodeMaybeOverReserved nodeName pod := on_cache (fun _ _ => NodeMaybeOverReserved nodeName pod);
  NodeHasForeignPods nodeName pod := on_cache (fun _ _ => NodeHasForeignPods nodeName pod);
  ReserveNodeResources nodeName pod := on_cache (fun _ _ => ReserveNodeResources nodeName pod);
  UnreserveNodeResources nodeName pod := on_cache (fun _ _ => UnreserveNodeResources nodeName pod);
  CachePostBind nodeName pod := on_cache (fun _ _ => CachePostBind nodeName pod);
|}.

Definition NewPassthrough : CacheValue := APassthrough PassthroughCache.
Definition NewDiscardReserved : CacheValue := ADiscardReserved {| reservationMap := ∅ |}.

(** What a profile finds when its plugin is made: whether the client can be
    made, what it lists, and the profile's name when the handle is a framework. *)
Record SetupEnv := {
  env_client : result unit;
  env_listed : result (list NodeResourceTopology);
  env_profile : option string;
}.

(** What runs beside an [OverReserve]: the resynchronisation with its period in
    nanoseconds, method and relevant pods, the watcher of attributes, and the
    detector of foreign pods of a profile. *)
Record BackgroundTasks := {
  bg_resync : Z;
  bg_method : CacheResyncMethod;
  bg_dedicated : bool;
  bg_relevant : Pod -> bool;
  bg_watcher : bool;
  bg_detector : option string;
}.

Definition initNodeTopologyForeignPodsDetection (cfg : option ArgsTypes.NodeResourceTopologyCache)
    (profile : option string) (g : ForeignGlobals) : option string * ForeignGlobals :=
  let foreignPodsDetect := getForeignPodsDetectMode cfg in
  if bool_decide (foreignPodsDetect = ForeignPodsDetectNone) then (None, g)
  else
    match profile with
    | None => (None, g)
    | Some profileName =>
        let g := if bool_decide (foreignPodsDetect = ForeignPodsDetectOnlyExclusiveResources)
                 then TrackOnlyForeignPodsWithExclusiveResources g else TrackAllForeignPods g in
        (Some profileName, RegisterSchedulerProfileName profileName g)
    end.

Definition initNodeTopologyInformer (tcfg : ArgsTypes.NodeResourceTopologyMatchArgs) (env : SetupEnv)
    (g : ForeignGlobals) : result (CacheValue * option BackgroundTasks) * ForeignGlobals :=
  match env_client env with
  | Err e => (Err e, g)
  | Ok _ =>
      if ArgsTypes.DiscardReservedNodes tcfg then (Ok (NewDiscardReserved, None), g)
      else if ArgsTypes.CacheResyncPeriodSeconds tcfg <=? 0 then (Ok (NewPassthrough, None), g)
      else
        let '(dedicated, isPodRelevant) := NewFromHandle (ArgsTypes.nrt_Cache tcfg) in
        match env_listed env with
        | Err e => (Err e, g)
        | Ok objs =>
            let '(detector, g) :=
              initNodeTopologyForeignPodsDetection (ArgsTypes.nrt_Cache tcfg) (env_profile env) g in
            (Ok (AnOverReserve (NewOverReserve objs),
                 Some {| bg_resync := ArgsTypes.CacheResyncPeriodSeconds tcfg *! 1000000000;
                         bg_method := resync_method_named (default ArgsTypes.CacheResyncAutodetect
                           (ArgsTypes.nrt_Cache tcfg ≫= ArgsTypes.ResyncMethod));
                         bg_dedicated := dedicated;
                         bg_relevant := isPodRelevant;
                         bg_watcher := bool_decide (getCacheResyncScope (ArgsTypes.nrt_Cache tcfg) = CacheResyncScopeAll);
                         bg_detector := detector |}), g)
        end
  end.

Record TopologyMatch := {
  tm_resourceToWeightMap : gmap string Z;
  tm_nrtCache : CacheValue;
  tm_background : option BackgroundTasks;
  tm_scoreStrategyType : ScoringStrategyType;
  tm_scoreStrategyFunc : option scoreStrategyFn;
}.

Section New.
Variable variance : list spec_float -> spec_float.
Variable other : spec_float -> Z.

Definition bad_strategy : ApiError := OtherError "invalid ScoringStrategyType".

(** The arguments are of the plugin's type; the validation comes first. *)
Definition New (tcfg : ArgsTypes.NodeResourceTopologyMatchArgs) (env : SetupEnv) (g : ForeignGlobals)
    : result TopologyMatch * ForeignGlobals :=
  let strategy := Args.strategy_named (ArgsTypes.ss_Type (ArgsTypes.nrt_ScoringStrategy tcfg)) in
  if negb (validScoringStrategy strategy) then (Err bad_strategy, g)
  else
    match initNodeTopologyInformer tcfg env g with
    | (Err e, g) => (Err e, g)
    | (Ok (nrtCache, background), g) =>
        let weights := resToWeightMap
          (map Args.spec_pair (ArgsTypes.ss_Resources (ArgsTypes.nrt_ScoringStrategy tcfg))) in
        match getScoringStrategyFunction variance other strategy with
        | None => (Err bad_strategy, g)
        | Some fn =>
            (Ok {| tm_resourceToWeightMap := weights; tm_nrtCache := nrtCache;
                   tm_background := background; tm_scoreStrategyType := strategy;
                   tm_scoreStrategyFunc := fn |}, g)
        end
    end.

(** The framework makes the plugins of the profiles one after the other and
    stops at the first error. *)
Fixpoint new_profiles (profiles : list (ArgsTypes.NodeResourceTopologyMatchArgs * SetupEnv))
    (g : ForeignGlobals) : result (list TopologyMatch) * ForeignGlobals :=
  match profiles with
  | [] => (Ok [], g)
  | (tcfg, env) :: rest =>
      match New tcfg env g with
      | (Err e, g) => (Err e, g)
      | (Ok plugin, g) =>
          match new_profiles rest g with
          | (Err e, g) => (Err e, g)
          | (Ok plugins, g) => (Ok (plugin :: plugins), g)
          end
      end
  end.
End New.

(** [IsForeignPod] with the shared variables. *)
Definition is_foreign (AreExclusive : Pod -> bool) (g : ForeignGlobals) (pod : Pod) : bool :=
  IsForeignPod (schedProfileNames g) (onlyExclusiveResources g) AreExclusive pod.

(** ** The loop of the watcher ([attr_watch.go])

    [NodeResourceTopologies] as steps: where it is, its variable [done], how
    many watches it has begun, whether the channel of the current one is
    closed, and the cache. *)

Inductive WatchPoint := OuterTest | InnerTest | Receiving | Returned.

Record WatchState := {
  ws_at : WatchPoint;
  ws_done : bool;
  ws_watches : nat;
  ws_closed : bool;
  ws_cache : OverReserve;
}.

Definition watch_start (ov : OverReserve) : WatchState :=
  {| ws_at := OuterTest; ws_done := false; ws_watches := 0; ws_closed := false; ws_cache := ov |}.

Definition at_point (p : WatchPoint) (s : WatchState) : WatchState := {|
  ws_at := p; ws_done := ws_done s; ws_watches := ws_watches s; ws_closed := ws_closed s;
  ws_cache := ws_cache s |}.

(** One event handed to [ProcessEvent]. *)
Definition processed (modified : bool) (obj : option NodeResourceTopology) (s : WatchState) : WatchState := {|
  ws_at := InnerTest; ws_done := ws_done s; ws_watches := ws_watches s; ws_closed := ws_closed s;
  ws_cache := (ProcessEvent modified obj (ws_cache s)).2 |}.

(** A closed channel hands out zero events, whose type is none of the known. *)
Inductive watch_step : WatchState -> WatchState -> Prop :=
| watch_outer_done s : ws_at s = OuterTest -> ws_done s = true -> watch_step s (at_point Returned s)
| watch_error s : ws_at s = OuterTest -> ws_done s = false -> watch_step s (at_point Returned s)
| watch_begin s : ws_at s = OuterTest -> ws_done s = false ->
    watch_step s {| ws_at := InnerTest; ws_done := false; ws_watches := S (ws_watches s);
                    ws_closed := false; ws_cache := ws_cache s |}
| watch_inner_done s : ws_at s = InnerTest -> ws_done s = true -> watch_step s (at_point OuterTest s)
| watch_inner s : ws_at s = InnerTest -> ws_done s = false -> watch_step s (at_point Receiving s)
| watch_receive s modified obj : ws_at s = Receiving -> ws_closed s = false ->
    watch_step s (processed modified obj s)
| watch_zero s : ws_at s = Receiving -> ws_closed s = true -> watch_step s (processed false None s)
| watch_context s : ws_at s = Receiving ->
    watch_step s {| ws_at := InnerTest; ws_done := true; ws_watches := ws_watches s;
                    ws_closed := ws_closed s; ws_cache := ws_cache s |}
| watch_closes s : ws_at s <> OuterTest ->
    watch_step s {| ws_at := ws_at s; ws_done := ws_done s; ws_watches := ws_watches s;
                    ws_closed := true; ws_cache := ws_cache s |}.
