(* ===== verification/NumaSetupClaims.v ===== *)
(** * The properties of setting up NodeResourceTopologyMatch *)

From Stdlib Require Import SpecFloat.
From S2P Require Import Prelude.
From S2P Require Import KubeTypes.
From S2P Require Import Framework.
From S2P Require Import Resource.
From S2P Require Import Scoring.
From S2P Require Import NumaTopology.
From S2P Require Import NumaScore.
From S2P Require Import NumaCache.
From S2P Require ArgsTypes.
From S2P Require Args.
From S2P Require Import NumaSetup.

Abbreviation MatchArgs := ArgsTypes.NodeResourceTopologyMatchArgs.

(** ** What [New] makes *)

Section New.
Variable variance : list spec_float -> spec_float.
Variable other : spec_float -> Z.


Definition strategy_of (tcfg : MatchArgs) : ScoringStrategyType :=
  Args.strategy_named (ArgsTypes.ss_Type (ArgsTypes.nrt_ScoringStrategy tcfg)).

(** The arguments call for an [OverReserve]. *)
Definition over_reserving (tcfg : MatchArgs) : bool :=
  negb (ArgsTypes.DiscardReservedNodes tcfg) && (0 <? ArgsTypes.CacheResyncPeriodSeconds tcfg).

(** The detection of foreign pods the arguments turn on, with the profile. *)
Definition tracking (tcfg : MatchArgs) (env : SetupEnv) : option (string * ArgsTypes.ForeignPodsDetectMode) :=
  let mode := getForeignPodsDetectMode (ArgsTypes.nrt_Cache tcfg) in
  name ← env_profile env;
  if over_reserving tcfg && negb (bool_decide (mode = ForeignPodsDetectNone)) then Some (name, mode) else None.

(** What tracking does to the shared variables. *)
Definition track (g : ForeignGlobals) (t : option (string * ArgsTypes.ForeignPodsDetectMode)) : ForeignGlobals :=
  match t with
  | None => g
  | Some (name, mode) =>
      {| schedProfileNames := {[name]} ∪ schedProfileNames g;
         onlyExclusiveResources := bool_decide (mode = ForeignPodsDetectOnlyExclusiveResources) |}
  end.

Lemma informer_made tcfg env g :
  let '(r, g') := initNodeTopologyInformer tcfg env g in
  match r with
  | Ok (cache, bg) =>
      g' = track g (tracking tcfg env) /\
      (bg ≫= bg_detector) = fst <$> tracking tcfg env /\
      (is_Some bg <-> over_reserving tcfg = true) /\
      match cache with
      | APassthrough _ => ArgsTypes.DiscardReservedNodes tcfg = false /\ ArgsTypes.CacheResyncPeriodSeconds tcfg <= 0
      | ADiscardReserved c => ArgsTypes.DiscardReservedNodes tcfg = true /\ reservationMap c = ∅
      | AnOverReserve c => over_reserving tcfg = true /\
          exists objs, env_listed env = Ok objs /\ c = NewOverReserve objs
      end
  | Err _ => g' = g
  end /\
  ((exists v, r = Ok v) <->
   (exists u, env_client env = Ok u) /\ (over_reserving tcfg = true -> exists objs, env_listed env = Ok objs)).
Proof.
  unfold initNodeTopologyInformer, tracking, over_reserving.
  destruct (env_client env) as [u|e]; cbn [fst snd].
  2:{ split; [done|]. split; [intros [? ?]; done|intros [[? ?] _]; done]. }
  destruct (ArgsTypes.DiscardReservedNodes tcfg); cbn [negb andb].
  { destruct (env_profile env); cbn; naive_solver. }
  destruct (Z.leb_spec (ArgsTypes.CacheResyncPeriodSeconds tcfg) 0).
  { rewrite (proj2 (Z.ltb_ge _ _)) by lia. destruct (env_profile env); cbn; naive_solver. }
  rewrite (proj2 (Z.ltb_lt _ _)) by lia. destruct (NewFromHandle _) as [dedicated relevant].
  destruct (env_listed env) as [objs|e]; cbn [andb]; [|naive_solver].
  unfold initNodeTopologyForeignPodsDetection.
  case_bool_decide; cbn [negb]; [destruct (env_profile env); cbn; naive_solver|].
  destruct (env_profile env); cbn; [case_bool_decide; cbn; naive_solver|naive_solver].
Qed.
Lemma strategy_known tcfg :
  validScoringStrategy (strategy_of tcfg) = true <->
  exists fn, getScoringStrategyFunction variance other (strategy_of tcfg) = Some fn.
Proof.
  unfold validScoringStrategy. rewrite bool_decide_eq_true. destruct (strategy_of tcfg); cbn; naive_solver.
Qed.

(** What [New] returns, and what it does to the shared variables. *)
Lemma new_made tcfg env g :
  let '(r, g') := New variance other tcfg env g in
  match r with
  | Ok plugin =>
      g' = track g (tracking tcfg env) /\
      (tm_background plugin ≫= bg_detector) = fst <$> tracking tcfg env /\
      tm_scoreStrategyType plugin = strategy_of tcfg /\
      match tm_nrtCache plugin with
      | APassthrough _ => ArgsTypes.DiscardReservedNodes tcfg = false /\ ArgsTypes.CacheResyncPeriodSeconds tcfg <= 0
      | ADiscardReserved c => ArgsTypes.DiscardReservedNodes tcfg = true /\ reservationMap c = ∅
      | AnOverReserve c => over_reserving tcfg = true /\
          exists objs, env_listed env = Ok objs /\ c = NewOverReserve objs
      end
  | Err _ => g' = g
  end /\
  ((exists plugin, r = Ok plugin) <->
   validScoringStrategy (strategy_of tcfg) = true /\ (exists u, env_client env = Ok u) /\
   (over_reserving tcfg = true -> exists objs, env_listed env = Ok objs)).
Proof.
  unfold NumaSetup.New. pose proof (informer_made tcfg env g) as Hi. pose proof (strategy_known tcfg) as Hs.
  change (Args.strategy_named _) with (strategy_of tcfg) in *.
  destruct (validScoringStrategy (strategy_of tcfg)); cbn [negb]; [|naive_solver].
  destruct (proj1 Hs eq_refl) as [fn Hfn]. rewrite Hfn.
  destruct (initNodeTopologyInformer tcfg env g) as [[[cache bg]|e] g']; cbn; naive_solver.
Qed.

(** The trackings of a list of profiles, in order. *)
Definition tracked (profiles : list (MatchArgs * SetupEnv)) : list (string * ArgsTypes.ForeignPodsDetectMode) :=
  omap (fun pe => tracking pe.1 pe.2) profiles.

Definition tracked_names (profiles : list (MatchArgs * SetupEnv)) : list string := (tracked profiles).*1.

Lemma profiles_made profiles g plugins g' :
  new_profiles variance other profiles g = (Ok plugins, g') ->
  g' = foldl (fun g t => track g (Some t)) g (tracked profiles) /\
  Forall2 (fun pe plugin => (tm_background plugin ≫= bg_detector) = fst <$> tracking pe.1 pe.2) profiles plugins.
Proof.
  revert g plugins. induction profiles as [|[tcfg env] rest IH]; intros g plugins; cbn [NumaSetup.new_profiles].
  { intros [= <- <-]. by split. }
  pose proof (new_made tcfg env g) as Hm. destruct (New variance other tcfg env g) as [[plugin|e] g1]; [|done].
  destruct Hm as [(-> & Hd & _) _].
  destruct (new_profiles variance other rest _) as [[rest'|e] g2] eqn:Er; [|done]. intros [= <- <-].
  destruct (IH _ _ Er) as [-> Hf]. split; [|by constructor].
  unfold tracked. cbn [omap list_omap fst snd]. by destruct (tracking tcfg env).
Qed.

Lemma track_fold l g :
  let g' := foldl (fun g t => track g (Some t)) g l in
  schedProfileNames g' = list_to_set l.*1 ∪ schedProfileNames g /\
  onlyExclusiveResources g'
  = match last l with
    | Some (_, mode) => bool_decide (mode = ForeignPodsDetectOnlyExclusiveResources)
    | None => onlyExclusiveResources g
    end.
Proof.
  revert g. induction l as [|[name mode] l IH]; intros g; [by split; [set_solver|]|].
  cbn [foldl]. destruct (IH (track g (Some (name, mode)))) as [-> ->]. cbn [track schedProfileNames onlyExclusiveResources].
  split; [rewrite fmap_cons, list_to_set_cons; set_solver|]. rewrite last_cons. by destruct (last l) as [[]|].
Qed.
End New.

(** Making the plugin: [New] succeeds exactly when the scoring strategy is
    known, the client can be made and, if the arguments call for an
    [OverReserve], the topology objects can be listed. Which cache it then
    uses follows from two arguments: [DiscardReserved] when reserved nodes are
    to be discarded; else [Passthrough] when the resynchronisation period is not
    positive; else an [OverReserve] of the objects listed. When it fails, the
    variables that all profiles share are as before: no profile is registered
    without its plugin. *)
Theorem topology_plugin_made variance other tcfg env g :
  let '(r, g') := New variance other tcfg env g in
  match r with
  | Ok plugin =>
      tm_scoreStrategyType plugin = strategy_of tcfg /\
      match tm_nrtCache plugin with
      | APassthrough _ => ArgsTypes.DiscardReservedNodes tcfg = false /\ ArgsTypes.CacheResyncPeriodSeconds tcfg <= 0
      | ADiscardReserved c => ArgsTypes.DiscardReservedNodes tcfg = true /\ reservationMap c = ∅
      | AnOverReserve c => over_reserving tcfg = true /\
          exists objs, env_listed env = Ok objs /\ c = NewOverReserve objs
      end
  | Err _ => g' = g
  end /\
  ((exists plugin, r = Ok plugin) <->
   validScoringStrategy (strategy_of tcfg) = true /\ (exists u, env_client env = Ok u) /\
   (over_reserving tcfg = true -> exists objs, env_listed env = Ok objs)).
Proof.
  pose proof (new_made variance other tcfg env g) as H.
  destruct (New variance other tcfg env g) as [[plugin|e] g']; [|done].
  destruct H as [(_ & _ & Hm) Hi]. split; [exact Hm|exact Hi].
Qed.

(** ** Foreign pods *)

(** C37. Which pods are foreign once the plugins of all profiles are made: an
    assigned pod whose scheduler is not the name of a profile that tracks
    foreign pods (an [OverReserve] with a detection other than None), and, if
    the last of those profiles tracks exclusive resources only, one with
    exclusive resources. A profile with another cache or with detection off is
    thus foreign to its neighbours, and the mode of the last one made is the
    mode of all. The detectors attached are those of the tracking profiles. *)
Theorem foreign_pods_of_profiles variance other profiles plugins g AreExclusive pod :
  new_profiles variance other profiles initial_globals = (Ok plugins, g) ->
  (is_foreign AreExclusive g pod = true <->
   pod_node pod <> "" /\ (spec_scheduler_name (pod_spec pod) ∉ tracked_names profiles) /\
   ((snd <$> last (tracked profiles)) = Some ForeignPodsDetectOnlyExclusiveResources -> AreExclusive pod = true)) /\
  Forall2 (fun pe plugin => (tm_background plugin ≫= bg_detector) = fst <$> tracking pe.1 pe.2) profiles plugins.
Proof.
  intros Hp. destruct (profiles_made variance other profiles initial_globals plugins g Hp) as [Hg Hf].
  split; [|done]. destruct (track_fold (tracked profiles) initial_globals) as [Hn Ho]. rewrite <- Hg in Hn, Ho.
  change ((tracked profiles).*1) with (tracked_names profiles) in Hn.
  unfold is_foreign, IsForeignPod. rewrite Hn, Ho. clear Hn Ho Hg Hf Hp.
  case_bool_decide as H1; [naive_solver|]. case_bool_decide as H2.
  { split; [done|]. intros (_ & Hx & _). cbn in H2. set_solver. }
  assert (spec_scheduler_name (pod_spec pod) ∉ tracked_names profiles) as H3 by (cbn in H2; set_solver).
  destruct (last (tracked profiles)) as [[name mode]|]; cbn; [|naive_solver].
  case_bool_decide as Hm; cbn [negb]; naive_solver.
Qed.

(** *** Three profiles of one scheduler: tracking all foreign pods, tracking
    those with exclusive resources, and not tracking *)

Definition numa_args (period : Z) (mode : option ArgsTypes.ForeignPodsDetectMode) : MatchArgs := {|
  ArgsTypes.nrt_ScoringStrategy :=
    {| ArgsTypes.ss_Type := ArgsTypes.LeastAllocated; ArgsTypes.ss_Resources := [] |};
  ArgsTypes.CacheResyncPeriodSeconds := period;
  ArgsTypes.DiscardReservedNodes := false;
  ArgsTypes.nrt_Cache := Some {| ArgsTypes.ForeignPodsDetect := mode; ArgsTypes.ResyncMethod := None;
    ArgsTypes.InformerMode := Some ArgsTypes.CacheInformerDedicated; ArgsTypes.ResyncScope := None |} |}.

Definition numa_object : NodeResourceTopology := {|
  nrt_name := "n1"; nrt_annotations := ∅; nrt_policies := ["SingleNUMANodePodLevel"]; nrt_zones := [];
  nrt_attributes := [] |}.

Definition numa_env (profile : string) : SetupEnv :=
  {| env_client := Ok tt; env_listed := Ok [numa_object]; env_profile := Some profile |}.

Definition three_profiles : list (MatchArgs * SetupEnv) :=
  [(numa_args 5 None, numa_env "all");
   (numa_args 5 (Some ForeignPodsDetectOnlyExclusiveResources), numa_env "exclusive");
   (numa_args 0 None, numa_env "plain")].

Definition no_variance (_ : list spec_float) : spec_float := S754_zero false.
Definition no_other (_ : spec_float) : Z := 0.

(** A pod of a profile, running on [n1]. *)
Definition bound_pod (profile : string) : Pod := {|
  pod_meta := {| meta_name := "p"; meta_namespace := "default"; meta_uid := "uid-p"; meta_labels := ∅;
    meta_annotations := ∅; meta_owners := []; meta_deletion := None; meta_creation := 0;
    meta_resource_version := 0 |};
  pod_spec := {| spec_node_name := "n1"; spec_priority := None; spec_preempt_never := false;
    spec_priority_class := ""; spec_scheduler_name := profile; spec_containers := [];
    spec_init_containers := []; spec_overhead := None |};
  pod_status := {| pstatus_phase := PodRunning; pstatus_nominated := ""; pstatus_start_time := None;
                   pstatus_conditions := [] |} |}.

Definition three_globals : ForeignGlobals := (new_profiles no_variance no_other three_profiles initial_globals).2.

(** A pod of the third profile is foreign if its resources are exclusive,
    although the first profile, which tracks all foreign pods, is one of two. *)
Lemma foreign_pods_of_profiles_witness :
  is_foreign (fun _ => true) three_globals (bound_pod "plain") = true /\
  is_foreign (fun _ => false) three_globals (bound_pod "plain") = false /\
  is_foreign (fun _ => true) three_globals (bound_pod "all") = false.
Proof.
  assert (exists plugins, new_profiles no_variance no_other three_profiles initial_globals
    = (Ok plugins, three_globals)) as [plugins E].
  { eexists. apply injective_projections; [reflexivity|exact eq_refl]. }
  split_and!.
  - apply (foreign_pods_of_profiles no_variance no_other three_profiles plugins three_globals _ _ E).
    split; [discriminate|]. split; [|done]. apply (bool_decide_unpack _). vm_compute. exact I.
  - apply not_true_iff_false. intros Hx.
    apply (foreign_pods_of_profiles no_variance no_other three_profiles plugins three_globals _ _ E) in Hx as (_ & _ & Hx).
    by specialize (Hx ltac:(vm_compute; reflexivity)).
  - apply not_true_iff_false. intros Hx.
    apply (foreign_pods_of_profiles no_variance no_other three_profiles plugins three_globals _ _ E) in Hx as (_ & Hx & _).
    apply Hx. apply (bool_decide_unpack _). vm_compute. exact I.
Defined.

(** A foreign pod takes its node away: once the handler has seen one on a
    node the cache knows, [Filter] rejects the node for every pod, but for
    best-effort pods without requests of non-native resources, until the node
    is flushed. *)
Theorem foreign_pod_withholds_node IsNativeResource IsHugePageResourceName GetPodQOS client
    AreExclusive g ov foreign pod allocatable :
  is_foreign AreExclusive g foreign = true -> is_Some (nrts ov !! pod_node foreign) ->
  let cache := foreignCache (schedProfileNames g) (onlyExclusiveResources g) AreExclusive foreign
                 (AnOverReserve ov) in
  Filter IsNativeResource IsHugePageResourceName GetPodQOS client pod
    (Some (pod_node foreign, allocatable)) cache
  = (Some (if bool_decide (GetPodQOS pod = BestEffort) && negb (IncludeNonNative IsNativeResource pod)
           then NewStatus Success else NewStatus Unschedulable), cache).
Proof.
  intros Hf Hk cache. unfold Filter. destruct (_ && _); [done|]. subst cache.
  unfold foreignCache. unfold is_foreign in Hf. rewrite Hf.
  cbn [NodeHasForeignPods cache_value on_cache over_reserve_cache].
  rewrite (bool_decide_eq_true_2 (is_Some _)) by done.
  cbn [GetCachedNRTCopy cache_value over_reserve_cache with_foreign nodesWithForeignPods].
  unfold IsSet, Incr. rewrite lookup_insert_eq, bool_decide_eq_true_2 by eauto. done.
Qed.

Lemma foreign_pod_withholds_node_witness :
  let g := three_globals in
  let cache := foreignCache (schedProfileNames g) (onlyExclusiveResources g) (fun _ => true)
                 (bound_pod "plain") (AnOverReserve (NewOverReserve [numa_object])) in
  (Filter (fun _ => true) (fun _ => false) (fun _ => Guaranteed) (fun _ => Ok numa_object) (bound_pod "all")
    (Some ("n1", zero_resource)) cache).1 = Some (NewStatus Unschedulable).
Proof.
  intros g cache.
  refine (eq_trans (f_equal fst (foreign_pod_withholds_node (fun _ => true) (fun _ => false)
    (fun _ => Guaranteed) (fun _ => Ok numa_object) (fun _ => true) g (NewOverReserve [numa_object])
    (bound_pod "plain") (bound_pod "all") zero_resource _ _)) _).
  - vm_compute. reflexivity.
  - vm_compute. eauto.
  - vm_compute. reflexivity.
Defined.

(** ** The loop of the watcher *)

Definition watch_inv (s : WatchState) : Prop :=
  (ws_watches s <= 1)%nat /\
  match ws_at s with
  | OuterTest => ws_done s = true \/ ws_watches s = 0%nat /\ ws_closed s = false
  | InnerTest | Receiving => ws_watches s = 1%nat
  | Returned => True
  end.

Lemma watch_inv_step s s' : watch_step s s' -> watch_inv s -> watch_inv s'.
Proof.
  intros Hs [Hw Hi].
  destruct Hs as [s Ha Hd|s Ha Hd|s Ha Hd|s Ha Hd|s Ha Hd|s m o Ha Hc|s Ha Hc|s Ha|s Ha];
    unfold watch_inv; try rewrite Ha in Hi;
    cbn [at_point processed ws_at ws_done ws_watches ws_closed ws_cache]; (split; [|try done]).
  all: try done; try (by left); try lia.
  - destruct Hi as [Hi|[-> _]]; [congruence|done].
  - destruct Hi as [Hi|[-> _]]; [congruence|done].
  - by destruct (ws_at s).
Qed.

Lemma watch_inv_reach s s' : rtc watch_step s s' -> watch_inv s -> watch_inv s'.
Proof. induction 1; [done|]. intros Hi. apply IHrtc. by eapply watch_inv_step. Qed.

Lemma closed_step s s' : watch_step s s' -> watch_inv s -> ws_closed s = true ->
  ws_closed s' = true /\ ws_cache s' = ws_cache s.
Proof.
  intros Hs [_ Hi] Hc.
  destruct Hs as [s Ha Hd|s Ha Hd|s Ha Hd|s Ha Hd|s Ha Hd|s m o Ha Hc'|s Ha Hc'|s Ha|s Ha];
    try rewrite Ha in Hi; cbn [at_point processed ws_closed ws_cache]; try done.
  - destruct Hi as [Hi|[_ Hi]]; congruence.
  - congruence.
Qed.

(** Whatever the API server answers, the watcher begins at most one watch: the
    inner loop is left only when the context is done, and then the outer loop
    ends as well. Once the channel of that watch is closed, as the API server
    does after a while, no attribute change reaches the cache any more: the
    loop spins on zero events. *)
Theorem watcher_never_watches_again ov s :
  rtc watch_step (watch_start ov) s ->
  (ws_watches s <= 1)%nat /\
  (ws_closed s = true -> forall s', rtc watch_step s s' ->
     ws_cache s' = ws_cache s /\ (ws_at s' = Receiving -> watch_step s' (processed false None s') /\
       ws_cache (processed false None s') = ws_cache s)).
Proof.
  intros Hr. assert (watch_inv s) as Hi.
  { eapply watch_inv_reach; [exact Hr|]. split; cbn; [lia|by right]. }
  split; [apply Hi|]. intros Hc s' Hs.
  assert (ws_closed s' = true /\ ws_cache s' = ws_cache s) as [Hc' He].
  { clear Hr. induction Hs as [s|s s1 s2 H1 _ IH]; [done|].
    destruct (closed_step s s1 H1 Hi Hc) as [Hc1 He1].
    destruct (IH (watch_inv_step _ _ H1 Hi) Hc1) as [Hc2 He2]. split; [exact Hc2|]. by rewrite He2, He1. }
  split; [done|]. intros Ha. split; [by apply watch_zero|exact He].
Qed.

(** The channel closes; the loop receives nothing, twice. *)
Lemma watcher_never_watches_again_witness :
  let ov := NewOverReserve [numa_object] in
  exists s, rtc watch_step (watch_start ov) s /\ ws_closed s = true /\ ws_at s = Receiving /\
    (ws_watches s <= 1)%nat /\ ws_cache (processed false None s) = ws_cache s.
Proof.
  intros ov. set (s1 := {| ws_at := InnerTest; ws_done := false; ws_watches := 1; ws_closed := false; ws_cache := ov |}).
  set (s2 := at_point Receiving s1).
  set (s3 := {| ws_at := Receiving; ws_done := false; ws_watches := 1; ws_closed := true; ws_cache := ov |}).
  assert (rtc watch_step (watch_start ov) s3) as Hr.
  { eapply rtc_l; [by apply (watch_begin (watch_start ov))|]. eapply rtc_l; [by apply (watch_inner s1)|].
    eapply rtc_l; [by apply (watch_closes s2)|]. apply rtc_refl. }
  exists s3. split; [exact Hr|]. split; [done|]. split; [done|].
  destruct (watcher_never_watches_again ov s3 Hr) as [Hw Hc]. split; [exact Hw|].
  destruct (Hc eq_refl s3 (rtc_refl _ _)) as [_ Hz]. by apply Hz.
Defined.
