(* ===== verification/ArgsClaims.v ===== *)
(** * The properties of loading a configuration *)

From S2P Require Import Prelude.
From S2P Require Import GoFloat.
From S2P Require Import GoMath.
From S2P Require Import KubeTypes.
From S2P Require Import Framework.
From S2P Require Import Resource.
From S2P Require Import VaclabHandle.
From S2P Require Import VaclabScheduling.
From S2P Require Import NetworkOverhead.
From S2P Require Import Toleration.
From S2P Require Import Scoring.
From S2P Require Import NumaScore.
From S2P Require Import ArgsV1.
From S2P Require Import ArgsTypes.
From S2P Require Import Trimaran.
From S2P Require Import LoadAware.
From S2P Require Import LoadAwareProofs.
From S2P Require Import TrimaranClaims.
From S2P Require Import Args.
From Stdlib Require Import SpecFloat.

(** ** Lemmas *)

Lemma or_default_some {A} (d x : A) : or_default d (Some x) = Some x.
Proof. done. Qed.

Lemma default_or_default {A} (z d : A) o : default z (or_default d o) = default d o.
Proof. by destruct o. Qed.

Lemma spec_stable spec : let i := Convert_v1_TrimaranSpec_To_config_TrimaranSpec (SetDefaultTrimaranSpec spec) in
  Convert_v1_TrimaranSpec_To_config_TrimaranSpec
    (SetDefaultTrimaranSpec (Convert_config_TrimaranSpec_To_v1_TrimaranSpec i)) = i.
Proof.
  destruct spec as [[ty addr tok skip] w]. cbn. unfold SetDefaultTrimaranSpec. cbn.
  by rewrite andb_false_r.
Qed.

Lemma nonneg_or_stable d o : SFltb d (float64 0) = false ->
  let x := default (S754_zero false) (nonneg_or d o) in nonneg_or d (Some x) = Some x.
Proof.
  intros Hd x. subst x. destruct o as [x|]; cbn [nonneg_or from_option id]; [|by rewrite Hd].
  destruct (SFltb x (float64 0)) eqn:E; cbn [from_option nonneg_or id]; [by rewrite Hd|by rewrite E].
Qed.

Lemma fraction_stable w : fraction_or_default (fraction_or_default w) = fraction_or_default w.
Proof. unfold fraction_or_default at 2 3. case_match eqn:E; [reflexivity|]. unfold fraction_or_default. by rewrite E. Qed.

Lemma weight_stable r : weight_or_one (weight_or_one r) = weight_or_one r.
Proof. unfold weight_or_one at 2 3. case_match eqn:E; [done|]. unfold weight_or_one. by rewrite E. Qed.

Lemma weights_stable rs : map weight_or_one (map weight_or_one rs) = map weight_or_one rs.
Proof. rewrite map_map. apply map_ext, weight_stable. Qed.

Lemma namespaces_stable l : namespaces_or_default (namespaces_or_default l) = namespaces_or_default l.
Proof. by destruct l. Qed.

Lemma resources_stable l :
  resources_or_default (map weight_or_one (resources_or_default l)) = map weight_or_one (resources_or_default l).
Proof. by destruct l. Qed.

Lemma target_positive o : let t := default 0 match o with
    | Some t => if t <=? 0 then Some DefaultTargetUtilizationPercent else Some t
    | None => Some DefaultTargetUtilizationPercent
    end in 0 < t.
Proof. destruct o as [t|]; cbn; [destruct (Z.leb_spec t 0)|]; unfold DefaultTargetUtilizationPercent; cbn; lia. Qed.

(** ** Conversions and defaults *)

(** Every internal object survives the conversion to the versioned type and back:
    no field is lost on either way. *)
Theorem conversion_roundtrip obj : to_internal (to_v1 obj) = Some obj.
Proof.
  destruct obj as [[]|[]|[[[]] ]|[[[]] ]|[[[]] ]|[[] ? ? c]|[]|[]|[]|[]|[]]; try reflexivity.
  destruct c as [[]|]; reflexivity.
Qed.


(** Loading a written-out configuration again, for the kinds with more than
    plain pointers. *)
Lemma allocatable_stable a : let i := Convert_v1_NodeResourcesAllocatableArgs_To_config_NodeResourcesAllocatableArgs
    (SetDefaults_NodeResourcesAllocatableArgs a) in
  load (to_v1 (NodeResourcesAllocatableArgs_ i)) = Some (NodeResourcesAllocatableArgs_ i).
Proof.
  destruct a as [rs m]. intros i. subst i. unfold load. cbn. do 2 f_equal.
  unfold SetDefaults_NodeResourcesAllocatableArgs, Convert_v1_NodeResourcesAllocatableArgs_To_config_NodeResourcesAllocatableArgs.
  cbn. f_equal; [by destruct rs|]. destruct (decide (m = "")) as [->|Hm]; [done|]. by rewrite !(bool_decide_false (m = "")).
Qed.

Lemma target_stable a : let i := Convert_v1_TargetLoadPackingArgs_To_config_TargetLoadPackingArgs
    (SetDefaults_TargetLoadPackingArgs a) in
  load (to_v1 (TargetLoadPackingArgs_ i)) = Some (TargetLoadPackingArgs_ i).
Proof.
  destruct a as [spec req m t]. intros i. subst i. unfold load. cbn. do 2 f_equal.
  unfold Convert_v1_TargetLoadPackingArgs_To_config_TargetLoadPackingArgs, SetDefaults_TargetLoadPackingArgs,
    Convert_config_TargetLoadPackingArgs_To_v1_TargetLoadPackingArgs.
  cbn -[SetDefaultTrimaranSpec]. f_equal; [apply spec_stable|by destruct req|].
  pose proof (target_positive t) as Ht. cbn -[Z.leb] in Ht. unfold Convert_Pointer_int64_To_int64.
  by rewrite (proj2 (Z.leb_gt _ _) Ht).
Qed.

Lemma variation_stable a : let i := Convert_v1_LoadVariationRiskBalancingArgs_To_config_LoadVariationRiskBalancingArgs
    (SetDefaults_LoadVariationRiskBalancingArgs a) in
  load (to_v1 (LoadVariationRiskBalancingArgs_ i)) = Some (LoadVariationRiskBalancingArgs_ i).
Proof.
  destruct a as [spec m t]. intros i. subst i. unfold load. cbn -[SetDefaultTrimaranSpec nonneg_or]. do 2 f_equal.
  unfold Convert_v1_LoadVariationRiskBalancingArgs_To_config_LoadVariationRiskBalancingArgs,
    SetDefaults_LoadVariationRiskBalancingArgs, Convert_config_LoadVariationRiskBalancingArgs_To_v1_LoadVariationRiskBalancingArgs.
  cbn -[SetDefaultTrimaranSpec nonneg_or]. f_equal; [apply spec_stable|..];
    unfold Convert_Pointer_float64_To_float64; by rewrite nonneg_or_stable.
Qed.

Lemma lowrisk_stable a : let i := Convert_v1_LowRiskOverCommitmentArgs_To_config_LowRiskOverCommitmentArgs
    (SetDefaults_LowRiskOverCommitmentArgs a) in
  load (to_v1 (LowRiskOverCommitmentArgs_ i)) = Some (LowRiskOverCommitmentArgs_ i).
Proof.
  destruct a as [spec t ws]. intros i. subst i. unfold load. cbn -[SetDefaultTrimaranSpec]. do 2 f_equal.
  unfold Convert_v1_LowRiskOverCommitmentArgs_To_config_LowRiskOverCommitmentArgs,
    SetDefaults_LowRiskOverCommitmentArgs, Convert_config_LowRiskOverCommitmentArgs_To_v1_LowRiskOverCommitmentArgs.
  cbn -[SetDefaultTrimaranSpec fraction_or_default DefaultRiskLimitWeights]. f_equal; [apply spec_stable| |].
  - destruct t as [t|]; [|done]. destruct (Z.leb_spec t 0); [done|]. cbn -[Z.leb].
    by rewrite (proj2 (Z.leb_gt t 0)).
  - assert (fraction_or_default <$> DefaultRiskLimitWeights = DefaultRiskLimitWeights) as Hd by reflexivity.
    assert (bool_decide (DefaultRiskLimitWeights = ∅) = false) as He by reflexivity.
    destruct ws as [ws|]; [|by rewrite He, Hd]. destruct (decide (ws = ∅)) as [->|Hws]; [by rewrite bool_decide_true, He, Hd|].
    rewrite !(bool_decide_false _ Hws). rewrite bool_decide_false by (exact (fun E => Hws (fmap_empty_inv _ _ E))).
    f_equal. rewrite <- map_fmap_compose. apply map_fmap_ext. intros. apply fraction_stable.
Qed.

Lemma topology_stable a : let s := SetDefaults_NodeResourceTopologyMatchArgs a in
  let i := {| nrt_ScoringStrategy := Convert_v1_ScoringStrategy_To_config_ScoringStrategy
                (default {| ArgsV1.ss_Type := ""; ArgsV1.ss_Resources := [] |} (ArgsV1.nrt_ScoringStrategy s));
              CacheResyncPeriodSeconds := Convert_Pointer_int64_To_int64 (nrt_CacheResyncPeriodSeconds s);
              DiscardReservedNodes := nrt_DiscardReservedNodes s;
              nrt_Cache := Convert_v1_NodeResourceTopologyCache_To_config_NodeResourceTopologyCache <$> ArgsV1.nrt_Cache s |} in
  load (V1NodeResourceTopologyMatch a) = Some (NodeResourceTopologyMatchArgs_ i) /\
  load (to_v1 (NodeResourceTopologyMatchArgs_ i)) = Some (NodeResourceTopologyMatchArgs_ i).
Proof.
  intros s i. subst s i. split; [done|]. unfold load. cbn -[resources_or_default].
  unfold Convert_v1_NodeResourceTopologyMatchArgs_To_config_NodeResourceTopologyMatchArgs.
  cbn -[resources_or_default]. do 3 f_equal; [|by destruct a as [? ? ? [[[] [] []]|]]].
  unfold Convert_v1_ScoringStrategy_To_config_ScoringStrategy. cbn -[resources_or_default].
  by rewrite resources_stable, weights_stable.
Qed.

(** C36. A loaded configuration is stable: written out and loaded again it is the
    same, and loading never fails on a nil pointer. *)
Theorem load_stable obj : exists a, load obj = Some a /\ load (to_v1 a) = Some a.
Proof.
  destruct obj as [[]|a|a|a|a|a|[]|[]|[]|[]|[]]; try (eexists; split; reflexivity).
  - eexists; split; [reflexivity|apply allocatable_stable].
  - eexists; split; [reflexivity|apply target_stable].
  - eexists; split; [reflexivity|apply variation_stable].
  - eexists; split; [reflexivity|apply lowrisk_stable].
  - eexists. apply topology_stable.
  - eexists; split; [reflexivity|]. unfold load. cbn. do 2 f_equal.
    unfold Convert_v1_TopologicalSortArgs_To_config_TopologicalSortArgs. cbn. by rewrite namespaces_stable.
  - eexists; split; [reflexivity|]. unfold load. cbn. do 2 f_equal.
    unfold Convert_v1_NetworkOverheadArgs_To_config_NetworkOverheadArgs. cbn. by rewrite namespaces_stable.
Qed.

(** ** Which configurations a plugin accepts *)

(** What a configuration has to satisfy, by what is written in it, and for the
    load watcher's client by what it finds around it. *)
Definition prometheus_ok (env : Surroundings) (address : string) : Prop :=
  sr_parses env (if bool_decide (address = "") then DefaultPromAddress else address) = true /\
  (sr_openshift env = None \/ sr_openshift env = Some true /\ sr_parses env address = true).

Definition provider_ok (env : Surroundings) (s : ArgsV1.TrimaranSpec) : Prop :=
  let mp := ArgsV1.MetricProvider s in
  sr_serving env = false /\
  (((ArgsV1.mp_Type mp = KubernetesMetricsServer \/ ArgsV1.mp_Type mp = "" /\ ArgsV1.WatcherAddress s = None) /\
    sr_kube_clients env = true) \/
   (ArgsV1.mp_Type mp = Prometheus /\ prometheus_ok env (default "" (ArgsV1.mp_Address mp))) \/
   (ArgsV1.mp_Type mp = SignalFx /\ default "" (ArgsV1.mp_Token mp) <> "")).

Definition spec_ok (env : Surroundings) (s : ArgsV1.TrimaranSpec) : Prop :=
  default "" (ArgsV1.WatcherAddress s) <> "" \/ provider_ok env s.

Definition preemption_numbers_ok (percentage absolute : Z) : Prop :=
  0 <= percentage <= 100 /\ 0 <= absolute /\ (percentage = 0 -> absolute <> 0).

Definition acceptable (env : Surroundings) (ParseFloat : string -> spec_float * bool) (obj : V1Args) : Prop :=
  match obj with
  | V1Coscheduling a => 0 <= default 0 (ArgsV1.cs_PodGroupBackoffSeconds a)
  | V1NodeResourcesAllocatable a =>
      ArgsV1.ra_Mode a ∈ [""; Least; Most] /\ forall r, r ∈ ArgsV1.ra_Resources a -> 0 < rs_Weight r
  | V1TargetLoadPacking a =>
      spec_ok env (ArgsV1.tlp_TrimaranSpec a) /\
      (ParseFloat (default "1.5" (tlp_DefaultRequestsMultiplier a))).2 = true
  | V1LoadVariationRiskBalancing a => spec_ok env (ArgsV1.lv_TrimaranSpec a)
  | V1LowRiskOverCommitment a => spec_ok env (ArgsV1.lr_TrimaranSpec a)
  | V1NodeResourceTopologyMatch a =>
      forall s, ArgsV1.nrt_ScoringStrategy a = Some s ->
        ArgsV1.ss_Type s ∈ [MostAllocated; BalancedAllocation; LeastAllocated; LeastNUMANodes]
  | V1PreemptionToleration a =>
      preemption_numbers_ok (default 10 (pt_MinCandidateNodesPercentage a)) (default 100 (pt_MinCandidateNodesAbsolute a))
  | V1TopologicalSort _ | V1NetworkOverhead _ | V1SySched _ => True
  | V1VaclabScheduling a =>
      args_egress a <> "" /\ args_ingress a <> "" /\ 0 <= args_default_egress a /\ 0 <= args_default_ingress a
  end.

(** The providers' names differ. *)
Lemma providers_differ :
  Prometheus <> SignalFx /\ Prometheus <> KubernetesMetricsServer /\ SignalFx <> KubernetesMetricsServer /\
  Prometheus <> "" /\ SignalFx <> "" /\ KubernetesMetricsServer <> "".
Proof. by split_and!. Qed.

Lemma prom_made env opts : NewPromClient env opts = Made tt <-> prometheus_ok env (mp_Address opts).
Proof.
  unfold NewPromClient, prometheus_ok.
  destruct (sr_openshift env) as [[]|], (sr_parses env (if bool_decide _ then _ else _)),
    (sr_parses env (mp_Address opts)); naive_solver.
Qed.

Lemma library_made env opts :
  NewLibraryClient env opts = Made tt <->
  sr_serving env = false /\
  ((mp_Type opts = Prometheus /\ prometheus_ok env (mp_Address opts)) \/
   (mp_Type opts = SignalFx /\ mp_Token opts <> "") \/
   (mp_Type opts <> Prometheus /\ mp_Type opts <> SignalFx /\ sr_kube_clients env = true)).
Proof.
  rewrite <- prom_made. unfold NewLibraryClient, NewSignalFxClient, NewMetricsServerClient.
  destruct (decide (mp_Type opts = Prometheus)) as [Ep|Np].
  { rewrite Ep, bool_decide_true by done. pose proof providers_differ.
    destruct (NewPromClient env opts) as [[]| |], (sr_serving env); intuition congruence. }
  rewrite (bool_decide_false (mp_Type opts = Prometheus)) by done.
  destruct (decide (mp_Type opts = SignalFx)) as [Es|Ns].
  { rewrite (bool_decide_true (mp_Type opts = SignalFx)) by done.
    destruct (decide (mp_Token opts = "")) as [Et|Nt];
      [rewrite (bool_decide_true (mp_Token opts = "")) by done
      |rewrite (bool_decide_false (mp_Token opts = "")) by done]; destruct (sr_serving env); intuition congruence. }
  rewrite (bool_decide_false (mp_Type opts = SignalFx)) by done.
  destruct (sr_kube_clients env), (sr_serving env); intuition congruence.
Qed.

Lemma collector_iff env s answer :
  (exists c, NewCollector env (Convert_v1_TrimaranSpec_To_config_TrimaranSpec (SetDefaultTrimaranSpec s)) answer
             = Made c) <-> spec_ok env s.
Proof.
  set (t := Convert_v1_TrimaranSpec_To_config_TrimaranSpec _).
  assert (WatcherAddress t = default "" (ArgsV1.WatcherAddress s)) as Hw by (by destruct s as [? []]).
  assert (mp_Address (MetricProvider t) = default "" (ArgsV1.mp_Address (ArgsV1.MetricProvider s))) as Ha
    by (by destruct s as [[? [] ? ?] ?]).
  assert (mp_Token (MetricProvider t) = default "" (ArgsV1.mp_Token (ArgsV1.MetricProvider s))) as Hk
    by (by destruct s as [[? ? [] ?] ?]).
  assert (mp_Type (MetricProvider t) =
    if decide (ArgsV1.WatcherAddress s = None /\ ArgsV1.mp_Type (ArgsV1.MetricProvider s) = "")
    then KubernetesMetricsServer else ArgsV1.mp_Type (ArgsV1.MetricProvider s)) as Ht.
  { destruct s as [[ty ? ? ?] w]. cbn. destruct (decide (w = None)) as [->|Hn], (decide (ty = "")) as [->|He];
      rewrite ?bool_decide_true, ?(bool_decide_false (ty = "")), ?(bool_decide_false (w = None)) by done;
      cbn; destruct (decide _); naive_solver. }
  unfold NewCollector, checkSpecs, spec_ok, provider_ok. rewrite Hw.
  destruct (decide (default "" (ArgsV1.WatcherAddress s) = "")) as [E|E].
  2:{ rewrite (bool_decide_false (_ = "")), bool_decide_true by done. split; [by left|eauto]. }
  rewrite (bool_decide_true (_ = "")), (bool_decide_false (_ <> "")) by naive_solver.
  pose proof (library_made env (MetricProvider t)) as Hl. rewrite Ha, Hk, Ht in Hl. rewrite Ht.
  clearbody t. pose proof providers_differ.
  assert (forall (X : Outcome unit) (k : Collector),
    (exists c, match X with Made _ => Made k | _ => Crashed end = Made c) <-> X = Made tt) as Hx
    by (intros [[]| |] k; (split; [intros [? ?]; done|eauto || done])).
  destruct (decide (_ /\ _)) as [[En Et]|Hn].
  - rewrite En, Et. rewrite bool_decide_true by done. cbn [orb]. rewrite Hx, Hl. intuition congruence.
  - destruct (_ || _) eqn:Ec.
    + rewrite !orb_true_iff, !bool_decide_eq_true in Ec. rewrite Hx, Hl. intuition congruence.
    + rewrite !orb_false_iff, !bool_decide_eq_false in Ec. split; [by intros [? ?]|]. intuition congruence.
Qed.

Lemma strategy_valid_iff t : validScoringStrategy (strategy_named t) = true <->
  t ∈ [MostAllocated; BalancedAllocation; LeastAllocated; LeastNUMANodes].
Proof.
  unfold validScoringStrategy, strategy_named. rewrite bool_decide_eq_true, list_elem_of_In. cbn.
  repeat case_bool_decide; naive_solver.
Qed.

Lemma new_allocatable_iff a : is_Some (NewAllocatable (Some a)) <->
  ra_mode a <> Some OtherMode /\ validateResources (ra_resources a) = true.
Proof.
  unfold NewAllocatable. destruct (ra_mode a) as [[]|]; try (split; [by intros [? [=]]|by intros []]);
    (destruct (ra_resources a) as [|r l]; [by split|]);
    destruct (validateResources (r :: l)); split; try (by intros [? [=]]); try (by intros []); by eexists.
Qed.

Lemma weights_positive_iff rs :
  validateResources (map spec_pair rs) = true <-> forall r, r ∈ rs -> 0 < rs_Weight r.
Proof.
  unfold validateResources. rewrite forallb_forall. split.
  - intros H r Hr%list_elem_of_In. by apply Z.ltb_lt, (H (spec_pair r)), in_map.
  - intros H x (r & <- & Hr)%in_map_iff. apply Z.ltb_lt, H. by apply list_elem_of_In.
Qed.

Lemma allocatable_accepted a :
  is_Some (NewAllocatable (Some (allocatable_view
    (Convert_v1_NodeResourcesAllocatableArgs_To_config_NodeResourcesAllocatableArgs
       (SetDefaults_NodeResourcesAllocatableArgs a))))) <->
  ArgsV1.ra_Mode a ∈ [""; Least; Most] /\ forall r, r ∈ ArgsV1.ra_Resources a -> 0 < rs_Weight r.
Proof.
  destruct a as [rs m]. rewrite new_allocatable_iff. cbn [ra_mode ra_resources allocatable_view].
  rewrite weights_positive_iff. cbn. f_equiv.
  - rewrite list_elem_of_In. cbn. unfold mode_named. repeat case_bool_decide; naive_solver.
  - destruct rs as [|r rs]; [|done]. split; [intros _ r Hr; by apply not_elem_of_nil in Hr|]. intros _ r Hr.
    repeat (apply elem_of_cons in Hr as [->|Hr]; [done|]). by apply not_elem_of_nil in Hr.
Qed.

Lemma coscheduling_accepted a : is_Some (New_coscheduling a) <-> 0 <= ArgsTypes.cs_PodGroupBackoffSeconds a.
Proof.
  unfold New_coscheduling. destruct (Z.ltb_spec (ArgsTypes.cs_PodGroupBackoffSeconds a) 0).
  - split; [by intros [? [=]]|lia].
  - split; [done|intros _]. case_match; by eexists.
Qed.

Lemma preemption_accepted a : ValidateDefaultPreemptionArgs a = true <->
  preemption_numbers_ok (MinCandidateNodesPercentage a) (MinCandidateNodesAbsolute a).
Proof.
  unfold ValidateDefaultPreemptionArgs, preemption_numbers_ok.
  rewrite !andb_true_iff, !negb_true_iff, orb_false_iff, andb_false_iff, !Z.ltb_ge, !Z.eqb_neq. lia.
Qed.

Lemma vaclab_accepted a : is_Some (handle_config a) <->
  args_egress a <> "" /\ args_ingress a <> "" /\ 0 <= args_default_egress a /\ 0 <= args_default_ingress a.
Proof.
  unfold handle_config, ValidateVaclabSchedulingArgs. repeat case_bool_decide;
    destruct (Z.ltb_spec (args_default_egress a) 0), (Z.ltb_spec (args_default_ingress a) 0); cbn;
    (split; [by intros [? [=]]|naive_solver lia]) || (split; [naive_solver lia|by eexists]).
Qed.

(** C31. A plugin can be made from a configuration, when its clients of the API
    server can be made, exactly when what is written in it is [acceptable]:
    numbers in range, names of modes and strategies among the known ones, for
    VaclabScheduling both annotation keys, for which nothing supplies the
    defaults, and for the load-aware plugins the address of a load watcher, or a
    metric provider of which a client can be made: the metrics server, the
    default if no watcher address is written, Prometheus at an address that
    parses, or SignalFx with a token. The library's watcher can be made once per
    process. Where it is not acceptable, a load-aware plugin may also end the
    scheduler: see the examples below. *)
Theorem args_accepted_iff env ParseFloat answer vars obj :
  exists a, load obj = Some a /\
    (accepted env ParseFloat answer vars a = true <-> acceptable env ParseFloat obj).
Proof.
  destruct obj as [a|a|a|a|a|a|a|a|a|a|a]; (eexists; split; [reflexivity|]); cbn [accepted acceptable]; try done.
  - by rewrite bool_decide_eq_true, coscheduling_accepted; cbn; rewrite default_or_default.
  - by rewrite bool_decide_eq_true, allocatable_accepted.
  - rewrite <- (collector_iff env _ answer), <- (default_or_default "" "1.5"). unfold New_target.
    cbn -[SetDefaultTrimaranSpec NewCollector]. destruct (NewCollector _ _ _); [|naive_solver..].
    unfold Convert_Pointer_string_To_string. change ArgsV1.DefaultRequestsMultiplier with "1.5".
    destruct (ParseFloat _) as [m []]; naive_solver.
  - rewrite <- (collector_iff env _ answer). unfold New_variation. cbn -[SetDefaultTrimaranSpec NewCollector].
    destruct (NewCollector _ _ _); naive_solver.
  - rewrite <- (collector_iff env _ answer). unfold New_lowrisk. cbn -[SetDefaultTrimaranSpec NewCollector].
    destruct (NewCollector _ _ _); naive_solver.
  - rewrite strategy_valid_iff. cbn. destruct (ArgsV1.nrt_ScoringStrategy a) as [s|]; cbn; [naive_solver|].
    split; [done|]. intros _. rewrite list_elem_of_In. cbn. auto.
  - rewrite preemption_accepted. cbn. unfold Convert_Pointer_int32_To_int32. by rewrite !default_or_default.
  - by rewrite bool_decide_eq_true, vaclab_accepted.
Qed.

(** A scheduler that runs in a cluster and has no load watcher yet; one address,
    for its space, does not parse. *)
Definition in_cluster : Surroundings := {|
  sr_serving := false; sr_kube_clients := true; sr_openshift := None;
  sr_parses address := bool_decide (address <> "http://a b") |}.
Definition with_provider (type address token : string) : TrimaranSpec := {|
  MetricProvider := {| mp_Type := type; mp_Address := address; mp_Token := token; mp_InsecureSkipVerify := true |};
  WatcherAddress := "" |}.

(** Configurations that pass [checkSpecs] and end the scheduler: SignalFx without
    a token, an address of Prometheus that does not parse, and a second plugin
    that makes a watcher. A configuration without a provider is refused. *)
Example collectors_that_crash answer :
  NewCollector in_cluster (with_provider SignalFx "" "") answer = Crashed /\
  NewCollector in_cluster (with_provider Prometheus "http://a b" "") answer = Crashed /\
  NewCollector {| sr_serving := true; sr_kube_clients := true; sr_openshift := None; sr_parses _ := true |}
    (with_provider KubernetesMetricsServer "" "") answer = Crashed /\
  NewCollector in_cluster (with_provider "" "" "") answer = Refused.
Proof. by vm_compute. Qed.

(** The defaults of VaclabScheduling are not registered, so its configuration is
    loaded as written: an empty one, for which the defaults would supply valid
    keys and rates, is rejected, and one without rates reserves nothing for pods
    that are not annotated. *)
Theorem vaclab_defaults_never_applied env ParseFloat answer vars a :
  load (V1VaclabScheduling a) = Some (VaclabSchedulingArgs_ a) /\
  (args_egress a = "" \/ args_ingress a = "" -> accepted env ParseFloat answer vars (VaclabSchedulingArgs_ a) = false) /\
  (0 <= args_default_egress a -> 0 <= args_default_ingress a -> is_Some (handle_config (SetDefaults_VaclabSchedulingArgs a))) /\
  (args_default_egress a = 0 -> forall c, handle_config a = Some c -> DefaultEgressMbps c = 0).
Proof.
  split; [done|]. split; [|split].
  - intros H. apply bool_decide_eq_false. rewrite vaclab_accepted. naive_solver.
  - intros He Hi. apply vaclab_accepted. cbn. repeat case_bool_decide; naive_solver lia.
  - intros H0 c. unfold handle_config. case_match; [|done]. by intros [= <-].
Qed.

(** ** Ranges *)

Lemma fraction_unit w : number w -> valid (fraction_or_default w) /\ between 0 1 (fraction_or_default w).
Proof.
  intros [Hv Hn]. unfold fraction_or_default.
  destruct (SFltb w (float64 0)) eqn:E0; cbn [orb]; [split; [reflexivity|vm_compute; repeat split; discriminate]|].
  destruct (SFltb (float64 1) w) eqn:E1; [split; [reflexivity|vm_compute; repeat split; discriminate]|].
  split; [done|]. destruct (IsZero w) eqn:Ez; [destruct w; try done; cbn; lia|].
  apply (not_above w (float64 1) 1 1); [done|apply valid_float64| |by apply between_float64|lia|done].
  by destruct w as [|[]| |[] m e].
Qed.

Definition unit_values (ws : gmap string spec_float) : Prop := map_Forall (fun _ w => valid w /\ between 0 1 w) ws.

Lemma half_values : unit_values DefaultRiskLimitWeights.
Proof.
  assert (valid DefaultRiskLimitWeight /\ between 0 1 DefaultRiskLimitWeight)
    by (split; [reflexivity|vm_compute; repeat split; discriminate]).
  apply map_Forall_insert_2; [done|]. by apply map_Forall_singleton.
Qed.

(** The weights of a plugin made from a loaded configuration. *)
Lemma loaded_unit_weights env a i answer c pl :
  (forall ws k w, lr_RiskLimitWeights a = Some ws -> ws !! k = Some w -> number w) ->
  load (V1LowRiskOverCommitment a) = Some (LowRiskOverCommitmentArgs_ i) ->
  New_lowrisk env i answer = Made (c, pl) -> unit_weights pl.
Proof.
  intros Hws [= <-] Hp. unfold New_lowrisk in Hp. destruct (NewCollector _ _ _) as [c'| |]; [|done..].
  injection Hp as _ <-. intros k w Hw. revert Hw. cbn [riskLimitWeightsMap].
  set (given := default ∅ _). assert (unit_values given) as Hg.
  { subst given. cbn [RiskLimitWeights Convert_v1_LowRiskOverCommitmentArgs_To_config_LowRiskOverCommitmentArgs
      SetDefaults_LowRiskOverCommitmentArgs lr_RiskLimitWeights].
    destruct (lr_RiskLimitWeights a) as [ws|]; [|exact half_values].
    case_bool_decide; [exact half_values|]. cbn [from_option id]. intros k' w' Hk'.
    apply lookup_fmap_Some in Hk' as (x & <- & Hx). apply fraction_unit. by eapply Hws. }
  intros [Hw|[_ Hw]]%lookup_union_Some_raw; [by apply (Hg k)|by apply (half_values k)].
Qed.

(** C26. Scores of LowRiskOverCommitment are within 0 and 100 for every configuration
    whose weights are numbers, however far out of range they are written, and
    for all metrics, when no pod has scalar requests without scalar limits and
    the node's amounts are below 2^53. *)
Theorem lowrisk_score_bounds isScalar Pow RegIncBeta other env a i answer c pl state pod n allocatable pods r :
  (forall ws k w, lr_RiskLimitWeights a = Some ws -> ws !! k = Some w -> number w) ->
  load (V1LowRiskOverCommitment a) = Some (LowRiskOverCommitmentArgs_ i) -> New_lowrisk env i answer = Made (c, pl) ->
  (forall a b x, valid (RegIncBeta a b x)) ->
  pod_resources isScalar state (pod_at pod) = Some r ->
  (forall p, p ∈ pods -> limits_ok isScalar (pod_at p)) ->
  (forall node, GetNodeRequestsAndLimits isScalar pods allocatable pod (podRequests r) (podLimits r) = Some node -> sane_node node) ->
  exists score status, lowrisk_Score isScalar Pow RegIncBeta other pl c state pod n (Ok (allocatable, pods)) = Some (score, status) /\
    0 <= score <= 100.
Proof. intros. eapply lowrisk_score_range; [done| |done..]. by eapply loaded_unit_weights. Qed.

(** A configuration with a weight of 7 for CPU and a negative window. *)
Definition empty_spec : ArgsV1.TrimaranSpec := {|
  ArgsV1.MetricProvider := {| ArgsV1.mp_Type := ""; ArgsV1.mp_Address := None; ArgsV1.mp_Token := None;
                              ArgsV1.mp_InsecureSkipVerify := None |};
  ArgsV1.WatcherAddress := None |}.

Definition heavy_weights : ArgsV1.LowRiskOverCommitmentArgs := {|
  ArgsV1.lr_TrimaranSpec := empty_spec; lr_SmoothingWindowSize := Some (-1);
  lr_RiskLimitWeights := Some {[ ResourceCPU := float64 7 ]} |}.

Definition loaded_heavy : ArgsTypes.LowRiskOverCommitmentArgs :=
  Convert_v1_LowRiskOverCommitmentArgs_To_config_LowRiskOverCommitmentArgs
    (SetDefaults_LowRiskOverCommitmentArgs heavy_weights).

Definition demo_metrics_map : WatcherMetrics := {| window_end := 0; NodeMetricsMap := Some {[ "n1" := Some demo_metrics ]} |}.

Definition heavy_plugin : Outcome (Collector * LowRiskOverCommitment) :=
  New_lowrisk in_cluster loaded_heavy (Ok demo_metrics_map).

Definition demo_pod_state : PodResourcesStateData :=
  {| podRequests := with_cpu 1000 zero_resource; podLimits := with_cpu 2000 zero_resource |}.

Lemma lowrisk_score_bounds_witness : exists c pl s st, heavy_plugin = Made (c, pl) /\
  lowrisk_Score no_scalar first_power half_beta no_other pl c (StateData demo_pod_state) pending_pod "n1"
    (Ok (eight_cores, busy_pods)) = Some (s, st) /\ 0 <= s <= 100.
Proof.
  do 2 eexists. destruct (lowrisk_score_bounds no_scalar first_power half_beta no_other in_cluster heavy_weights loaded_heavy
    (Ok demo_metrics_map) {| col_metrics := demo_metrics_map |}
    {| lowrisk_args := loaded_heavy; riskLimitWeightsMap := {[ ResourceCPU := Half; ResourceMemory := Half ]} |}
    (StateData demo_pod_state) pending_pod "n1" eight_cores busy_pods demo_pod_state) as (s & st & Hs & Hb).
  - intros ws k w [= <-] [_ <-]%lookup_singleton_Some. exact (number_float64 7).
  - reflexivity.
  - reflexivity.
  - reflexivity.
  - reflexivity.
  - intros p Hp. repeat (apply elem_of_cons in Hp as [->|Hp]; [vm_compute; eexists; reflexivity|]).
    by apply not_elem_of_nil in Hp.
  - exact demo_sane.
  - exists s, st. split; [reflexivity|]. split; [exact Hs|exact Hb].
Defined.

Definition written_number (o : option spec_float) : Prop := forall x, o = Some x -> number x.

(** The numbers of the other load-aware plugins after loading: the target and the
    window are positive, and margin and sensitivity are numbers that are not
    below 0, kept as written when they were. *)
Theorem loaded_numbers_in_range t v l :
  written_number (lv_SafeVarianceMargin v) -> written_number (lv_SafeVarianceSensitivity v) ->
  exists t' v' l', load (V1TargetLoadPacking t) = Some (TargetLoadPackingArgs_ t') /\
    load (V1LoadVariationRiskBalancing v) = Some (LoadVariationRiskBalancingArgs_ v') /\
    load (V1LowRiskOverCommitment l) = Some (LowRiskOverCommitmentArgs_ l') /\
    0 < TargetUtilization t' /\ 0 < SmoothingWindowSize l' /\
    (forall x, x = SafeVarianceMargin v' \/ x = SafeVarianceSensitivity v' -> number x /\ SFltb x (float64 0) = false) /\
    (forall x, lv_SafeVarianceMargin v = Some x -> SFltb x (float64 0) = false -> SafeVarianceMargin v' = x) /\
    (forall u, tlp_TargetUtilization t = Some u -> 0 < u -> TargetUtilization t' = u).
Proof.
  intros Hm Hs. do 3 eexists. do 3 (split; [reflexivity|]). cbn -[Z.leb float64 SFltb].
  split; [apply target_positive|]. split; [|split; [|split]].
  - destruct (lr_SmoothingWindowSize l) as [s|]; cbn -[Z.leb]; [destruct (Z.leb_spec s 0)|]; cbn;
      unfold DefaultSmoothingWindowSize; lia.
  - assert (forall o d, written_number o -> number d -> SFltb d (float64 0) = false ->
      let x := Convert_Pointer_float64_To_float64 (nonneg_or d o) in number x /\ SFltb x (float64 0) = false) as H.
    { intros o d Ho Hd Hd0 x. subst x. destruct o as [x|]; cbn [nonneg_or]; [|by split].
      destruct (SFltb x (float64 0)) eqn:E; [by split|]. split; [by apply Ho|exact E]. }
    intros x [->| ->]; apply H; [exact Hm| | |exact Hs| |]; try reflexivity; apply number_float64.
  - intros x -> Hx. cbn [nonneg_or]. by rewrite Hx.
  - intros u -> Hu. by rewrite (proj2 (Z.leb_gt u 0)).
Qed.

Definition nothing_written : ArgsV1.LowRiskOverCommitmentArgs := {|
  ArgsV1.lr_TrimaranSpec := empty_spec; lr_SmoothingWindowSize := None; lr_RiskLimitWeights := None |}.
Definition target_90 : ArgsV1.TargetLoadPackingArgs := {|
  ArgsV1.tlp_TrimaranSpec := empty_spec; tlp_DefaultRequests := None; tlp_DefaultRequestsMultiplier := None;
  tlp_TargetUtilization := Some 90 |}.
Definition margin_2 : ArgsV1.LoadVariationRiskBalancingArgs := {|
  ArgsV1.lv_TrimaranSpec := empty_spec; lv_SafeVarianceMargin := Some (float64 2);
  lv_SafeVarianceSensitivity := Some (float64 (-1)) |}.

Lemma loaded_numbers_in_range_witness : exists t', load (V1TargetLoadPacking target_90) = Some (TargetLoadPackingArgs_ t') /\
  TargetUtilization t' = 90.
Proof.
  destruct (loaded_numbers_in_range target_90 margin_2 nothing_written) as (t' & v' & l' & Ht & _ & _ & _ & _ & _ & _ & Hu).
  - intros x [= <-]. exact (number_float64 2).
  - intros x [= <-]. exact (number_float64 (-1)).
  - exists t'. split; [exact Ht|]. apply (Hu 90); reflexivity.
Defined.

(** ** Empty configurations *)

(** The configuration of every kind in which nothing is written. *)
Definition empty_args : list V1Args := [
  V1Coscheduling {| ArgsV1.cs_PermitWaitingTimeSeconds := None; ArgsV1.cs_PodGroupBackoffSeconds := None |};
  V1NodeResourcesAllocatable {| ArgsV1.ra_Resources := []; ArgsV1.ra_Mode := "" |};
  V1TargetLoadPacking {| ArgsV1.tlp_TrimaranSpec := empty_spec; tlp_DefaultRequests := None;
    tlp_DefaultRequestsMultiplier := None; tlp_TargetUtilization := None |};
  V1LoadVariationRiskBalancing {| ArgsV1.lv_TrimaranSpec := empty_spec; lv_SafeVarianceMargin := None;
    lv_SafeVarianceSensitivity := None |};
  V1LowRiskOverCommitment nothing_written;
  V1NodeResourceTopologyMatch {| ArgsV1.nrt_ScoringStrategy := None; nrt_CacheResyncPeriodSeconds := None;
    nrt_DiscardReservedNodes := false; ArgsV1.nrt_Cache := None |};
  V1PreemptionToleration {| pt_MinCandidateNodesPercentage := None; pt_MinCandidateNodesAbsolute := None |};
  V1TopologicalSort {| ArgsV1.ts_Namespaces := [] |};
  V1NetworkOverhead {| no_Namespaces := []; no_WeightsName := None; no_NetworkTopologyName := None |};
  V1SySched {| ArgsV1.sy_DefaultProfileNamespace := None; ArgsV1.sy_DefaultProfileName := None |};
  V1VaclabScheduling {| args_egress := ""; args_ingress := ""; args_default_egress := 0; args_default_ingress := 0 |}].

Definition is_vaclab (obj : V1Args) : bool := match obj with V1VaclabScheduling _ => true | _ => false end.

Lemma target_made env ParseFloat answer vars :
  sr_serving env = false -> sr_kube_clients env = true -> (ParseFloat "1.5").2 = true ->
  accepted env ParseFloat answer vars (TargetLoadPackingArgs_ (Convert_v1_TargetLoadPackingArgs_To_config_TargetLoadPackingArgs
    (SetDefaults_TargetLoadPackingArgs {| ArgsV1.tlp_TrimaranSpec := empty_spec; tlp_DefaultRequests := None;
       tlp_DefaultRequestsMultiplier := None; tlp_TargetUtilization := None |}))) = true.
Proof.
  intros H1 H2. cbn. unfold New_target, NewCollector, NewLibraryClient, NewMetricsServerClient. cbn.
  rewrite H1, H2. cbn. change ArgsV1.DefaultRequestsMultiplier with "1.5".
  destruct (ParseFloat "1.5") as [? []]; [reflexivity|discriminate 1].
Qed.

(** Every plugin but VaclabScheduling can be made without any configuration,
    where the clients of the metrics server can be made and no other watcher of
    the process serves. *)
Theorem empty_args_accepted env ParseFloat answer vars obj :
  sr_serving env = false -> sr_kube_clients env = true -> (ParseFloat "1.5").2 = true -> obj ∈ empty_args ->
  exists a, load obj = Some a /\ accepted env ParseFloat answer vars a = negb (is_vaclab obj).
Proof.
  intros H1 H2 HP Hobj.
  assert (forall o : Outcome Collector, o = NewCollector env (Convert_v1_TrimaranSpec_To_config_TrimaranSpec
    (SetDefaultTrimaranSpec empty_spec)) answer -> is_made o = true) as Hc.
  { intros ? ->. unfold NewCollector, NewLibraryClient, NewMetricsServerClient. cbn. by rewrite H1, H2. }
  specialize (Hc _ eq_refl).
  repeat (apply elem_of_cons in Hobj as [->|Hobj];
    [eexists; split; [reflexivity|first [reflexivity|by apply target_made|by (cbn [accepted]; unfold New_variation, New_lowrisk; cbn -[NewCollector SetDefaultTrimaranSpec] in *; destruct (NewCollector _ _ _))]]|]).
  by apply not_elem_of_nil in Hobj.
Qed.

(** A parser that takes everything for 1.5. *)
Definition parse_any (s : string) : spec_float * bool := (f64_div (float64 3) (float64 2), true).

Lemma empty_args_accepted_witness : exists a,
  load (V1LowRiskOverCommitment nothing_written) = Some a /\
  accepted in_cluster parse_any (Ok demo_metrics_map) plain_target a = true.
Proof.
  apply (empty_args_accepted in_cluster parse_any (Ok demo_metrics_map) plain_target
    (V1LowRiskOverCommitment nothing_written)); [reflexivity..|].
  do 4 apply list_elem_of_further. apply list_elem_of_here.
Defined.
