(* ===== verification/GoFmt.v ===== *)
(** * Go's [fmt] and [time]: how numbers and durations are printed

    [%.2f] rounds the exact value of a float to two decimals, half to even;
    [Duration.String] prints a duration; the trimming and the case conversions of
    [strings], on ASCII. *)

From S2P Require Import Prelude.
From S2P Require Import GoFloat.
From S2P Require Import GoStrings.
From Stdlib Require Import SpecFloat.

(** [n / d] rounded to the nearest integer, half to even; [0 <= n], [0 < d]. *)
Definition round_half_even (n d : Z) : Z :=
  let q := n / d in
  match Z.compare (2 * (n mod d)) d with
  | Lt => q
  | Gt => q + 1
  | Eq => if Z.even q then q else q + 1
  end.

(** The hundredths of a finite float's absolute value. *)
Definition hundredths (m : positive) (e : Z) : Z :=
  if 0 <=? e then 100 * Zpos m * 2 ^ e else round_half_even (100 * Zpos m) (2 ^ (- e)).

Definition two_digits (n : Z) : string := String (digit_char (n / 10)) (String (digit_char (n mod 10)) "").

(** A float64 has at most 309 digits before the point. *)
Definition fixed2 (s : bool) (h : Z) : string :=
  (if s then "-" else "") +:+ fmt_digits 320 (h / 100) "" +:+ "." +:+ two_digits (h mod 100).

(** [fmt.Sprintf("%.2f", x)]. *)
Definition Fixed2 (x : spec_float) : string :=
  match x with
  | S754_zero s => fixed2 s 0
  | S754_infinity s => if s then "-Inf" else "+Inf"
  | S754_nan => "NaN"
  | S754_finite s m e => fixed2 s (hundredths m e)
  end.

Example fixed2_half : Fixed2 (f64_div (float64 1) (float64 8)) = "0.12".
Proof. reflexivity. Qed.
Example fixed2_third : Fixed2 (f64_div (float64 200) (float64 (-3))) = "-66.67".
Proof. reflexivity. Qed.

(** ** Durations *)

(** The last [n] digits of [v] as a fraction, without trailing zeros, and the
    quotient. *)
Fixpoint fmt_frac (n : nat) (v : Z) (printing : bool) (acc : string) : string * Z :=
  match n with
  | O => (if printing then String "." acc else acc, v)
  | S n' =>
      let p := printing || negb (v mod 10 =? 0) in
      fmt_frac n' (v / 10) p (if p then String (digit_char (v mod 10)) acc else acc)
  end.

(** [Duration.String] of a duration in nanoseconds. *)
Definition DurationString (d : Z) : string :=
  let u := Z.abs d in
  let body :=
    if u <? 1000000000 then
      if u =? 0 then "0s"
      else if u <? 1000 then FormatInt u +:+ "ns"
      else if u <? 1000000 then let '(f, v) := fmt_frac 3 u false "" in
             FormatInt v +:+ f +:+ String (ascii_of_nat 194) (String (ascii_of_nat 181) "s")
      else let '(f, v) := fmt_frac 6 u false "" in FormatInt v +:+ f +:+ "ms"
    else
      let '(f, v) := fmt_frac 9 u false "" in
      let secs := FormatInt (v mod 60) +:+ f +:+ "s" in
      if v / 60 =? 0 then secs
      else
        let mins := FormatInt (v / 60 mod 60) +:+ "m" +:+ secs in
        if v / 3600 =? 0 then mins else FormatInt (v / 3600) +:+ "h" +:+ mins in
  if d <? 0 then String "-" body else body.

Example duration_twenty_minutes : DurationString 1200000000000 = "20m0s".
Proof. reflexivity. Qed.
Example duration_fraction : DurationString 1500000000 = "1.5s".
Proof. reflexivity. Qed.
Example duration_hours : DurationString 3661000000000 = "1h1m1s".
Proof. reflexivity. Qed.

(** ** [strings.TrimSpace], [ToLower], [ToUpper] *)

Definition is_space (c : ascii) : bool :=
  let n := nat_of_ascii c in ((9 <=? n) && (n <=? 13) || (n =? 32))%nat.

Fixpoint TrimLeft (s : string) : string :=
  match s with
  | EmptyString => ""
  | String c s' => if is_space c then TrimLeft s' else s
  end.

Fixpoint TrimRight (s : string) : string :=
  match s with
  | EmptyString => ""
  | String c s' =>
      match TrimRight s' with
      | EmptyString => if is_space c then "" else String c ""
      | t => String c t
      end
  end.

Definition TrimSpace (s : string) : string := TrimRight (TrimLeft s).

Definition ToLower : string -> string := fold_case.

Definition upper_ascii (c : ascii) : ascii :=
  let n := nat_of_ascii c in
  if ((97 <=? n) && (n <=? 122))%nat then ascii_of_nat (n - 32) else c.

Fixpoint ToUpper (s : string) : string :=
  match s with
  | EmptyString => ""
  | String c s' => String (upper_ascii c) (ToUpper s')
  end.

Example trim_both : TrimSpace "  a b " = "a b".
Proof. reflexivity. Qed.
