(* ===== verification/HealthTypes.v ===== *)
(** * Benchmarks: the plugin's data and the objects it creates

    The records of [k3sutils/types.go], the names of [vars.go], and the API
    objects [create_benchmark.go] writes and reads, with the fields it sets. An
    instant is a number of nanoseconds since the epoch; a [Time] carries the
    location it is printed in. *)

From S2P Require Import Prelude.
From Stdlib Require Import SpecFloat.

(** ** [time.Time] and [time.Duration] *)

Inductive Location := UTC | Local | FixedZone (offset : Z).

Record Time := { instant : Z; zone : Location }.

(** [time.Time{}]: the first of January of the year 1. *)
Definition zero_Time : Time := {| instant := -62135596800000000000; zone := UTC |}.

Definition Second : Z := 1000000000.
Definition Minute : Z := 60 * Second.

Definition After (t u : Time) : bool := instant u <? instant t.
Definition Before (t u : Time) : bool := instant t <? instant u.

(** [t.Sub(u)]: a duration is an [int64], and the difference saturates. *)
Definition Sub (t u : Time) : Z :=
  Z.max (-9223372036854775808) (Z.min 9223372036854775807 (instant t - instant u)).

(** [d.Abs()]: the least duration has no opposite and gives the greatest. *)
Definition Abs (d : Z) : Z := Z.min 9223372036854775807 (Z.abs d).

(** ** [types.go] *)

Record ConfigMapSetRow := {
  row_Name : string;
  row_Namespace : string;
  row_Ready : Z;
  row_Age : Z;
}.

Record BenchmarkConfig := {
  NumberOfConnections : Z;
  DurationSeconds : Z;
  ExcludeNodes : string;
}.

Record IperfTestResult := {
  it_Destination : string;
  it_DestNode : string;
  it_Protocol : string;
  it_Direction : string;
  it_ThroughputBps : spec_float;
  it_Retransmits : Z;
  it_AvgCWND : spec_float;
  it_RTTMin : spec_float;
  it_RTTAvg : spec_float;
  it_RTTMax : spec_float;
  it_JitterMs : spec_float;
  it_PacketLossPct : spec_float;
}.

Record BenchmarkReport := {
  br_Timestamp : string;
  br_SourceNode : string;
  br_BenchmarkMode : string;
  br_Parallel : Z;
  br_Duration : Z;
  br_Results : list IperfTestResult;
}.

Record DestNodeSummary := {
  ds_DestNode : string;
  ds_LatestRun : Time;
  ds_TotalTests : Z;
  ds_HostModeTests : Z;
  ds_PodModeTests : Z;
  ds_AvgThroughput : spec_float;
  ds_AvgRTT : spec_float;
  ds_AvgJitter : spec_float;
  ds_AvgPacketLoss : spec_float;
  ds_TotalRetrans : Z;
}.

Record DestNodeTestResult := {
  Timestamp : Time;
  SourceNode : string;
  DestNode : string;
  BenchmarkMode : string;
  Protocol : string;
  Direction : string;
  ThroughputBps : spec_float;
  RTTAvg : spec_float;
  JitterMs : spec_float;
  PacketLossPct : spec_float;
  Retransmits : Z;
}.

Record ListFilter := {
  Latest : bool;
  Today : bool;
  Mode : string;
  NodeName : string;
  Limit : Z;
}.

(** ** [vars.go] *)

Definition CONFIG_MAP_PREFIX : string := "iperf-result-".
Definition IPERF_CLIENT_IMAGE : string := "katakuri100/kube-iperf3-client:v0.2".
Definition IPERF_SERVER_IMAGE : string := "networkstatic/iperf3:latest".
Definition IPERF_SERVERS_PN_DAEMONSET_NAME : string := "iperf-servers-podnetwork".
Definition IPERF_SERVERS_HN_DAEMONSET_NAME : string := "iperf-servers-hostnetwork".
Definition HOSTNETWORK_HEADLESS_SERVICE_NAME : string := "iperf-hostnetwork".
Definition PODNETWORK_HEADLESS_SERVICE_NAME : string := "iperf-podnetwork".
Definition DEFAULT_NAMESPACE : string := "health-monitoring".
Definition DEFAULT_IPERF_PORT : Z := 5201.
Definition IPERF_BENCHMARK_SA : string := "iperf-benchmark-sa".
Definition IPERF_NODE_POD_READER_ROLE : string := "iperf-node-pod-reader".
Definition IPERF_BENCHMARK_ROLE_BINDING : string := "iperf-benchmark-binding".
Definition IPERF_BENCHMARK_CONFIG_MAP : string := "iperf-benchmark-script".
Definition IPERF_CLIENT_PODNETWORK_NAME : string := "iperf-client-pod".
Definition IPERF_CLIENT_HOSTNETWORK_NAME : string := "iperf-client-host".

(** ** The API objects *)

Record ObjectMeta := {
  Name : string;
  Namespace : string;
  Labels : gmap string string;
  CreationTimestamp : Time;
}.

(** Metadata as a client writes it: the server sets the creation time. *)
Definition named (name : string) (labels : gmap string string) : ObjectMeta := {|
  Name := name; Namespace := DEFAULT_NAMESPACE; Labels := labels;
  CreationTimestamp := zero_Time |}.

Record ServicePort := { Port : Z; TargetPort : Z }.

Record Service := {
  svc_meta : ObjectMeta;
  ClusterIP : string;
  Selector : gmap string string;
  Ports : list ServicePort;
}.

Inductive EnvValue := Value (v : string) | FieldPath (path : string).

Record VolumeMount := { vm_Name : string; MountPath : string }.

Record Container := {
  c_Name : string;
  Image : string;
  Args : list string;
  Env : list (string * EnvValue);
  Command : list string;
  VolumeMounts : list VolumeMount;
}.

(** A volume from a config map. *)
Record Volume := { vol_Name : string; vol_ConfigMap : string; DefaultMode : Z }.

(** A preferred node term with one requirement, a label that exists. *)
Record PreferredSchedulingTerm := { Weight : Z; ExistsKey : string }.

Record PodSpec := {
  Affinity : list PreferredSchedulingTerm;
  HostNetwork : bool;
  DNSPolicy : string;
  ServiceAccountName : string;
  spec_NodeName : string;
  Containers : list Container;
  Volumes : list Volume;
  RestartPolicy : string;
}.

(** The phases of [corev1]; [PhaseUnknown] is any other value. *)
Inductive PodPhase := PodPending | PodRunning | PodSucceeded | PodFailed | PhaseUnknown (s : string).

#[export] Instance PodPhase_eq_dec : EqDecision PodPhase.
Proof. solve_decision. Defined.

Record Pod := { pod_meta : ObjectMeta; pod_spec : PodSpec; Phase : PodPhase }.

Record DaemonSet := {
  dset_meta : ObjectMeta;
  MatchLabels : gmap string string;
  template_Labels : gmap string string;
  template_Spec : PodSpec;
  NumberReady : Z;
  DesiredNumberScheduled : Z;
}.

Record ServiceAccount := { sa_meta : ObjectMeta }.

Record PolicyRule := { APIGroups : list string; Resources : list string; Verbs : list string }.

Record Role := { role_meta : ObjectMeta; Rules : list PolicyRule }.

Record Subject := { sub_Kind : string; sub_Name : string; sub_Namespace : string }.

Record RoleRef := { ref_Kind : string; ref_Name : string; ref_APIGroup : string }.

Record RoleBinding := { rb_meta : ObjectMeta; Subjects : list Subject; rb_RoleRef : RoleRef }.

Record ConfigMap := { cm_meta : ObjectMeta; Data : gmap string string }.

Record Node := { node_Name : string; Unschedulable : bool }.

(** The kinds the plugin writes, all namespaced. *)
Inductive Kind := KService | KDaemonSet | KServiceAccount | KRole | KRoleBinding | KConfigMap | KPod.

#[export] Instance Kind_eq_dec : EqDecision Kind.
Proof. solve_decision. Defined.

Definition object (k : Kind) : Type :=
  match k with
  | KService => Service
  | KDaemonSet => DaemonSet
  | KServiceAccount => ServiceAccount
  | KRole => Role
  | KRoleBinding => RoleBinding
  | KConfigMap => ConfigMap
  | KPod => Pod
  end.

Definition meta {k : Kind} : object k -> ObjectMeta :=
  match k with
  | KService => svc_meta
  | KDaemonSet => dset_meta
  | KServiceAccount => sa_meta
  | KRole => role_meta
  | KRoleBinding => rb_meta
  | KConfigMap => cm_meta
  | KPod => pod_meta
  end.
