(* ===== verification/HealthApi.v ===== *)
(** * Benchmarks: the API server and the standard library as the plugin sees them

    [Clientset] is the part of client-go's clientset the plugin calls, with the
    clock and the standard output, over an abstract world. [ClientsetLaws] states
    what the plugin relies on: reads leave the objects alone, writes change the
    object they name, calls made after a context's deadline fail, and the clock
    never goes back. [Codec] has the functions of [encoding/json] and of [time]
    that read and print: their results are data for the plugin. *)

From S2P Require Import Prelude.
From S2P Require Import GoStrings.
From S2P Require Import HealthTypes.

(** An error as the plugin's functions return it: one of the API's, or a text.
    [OutOfFuel] is the model's own, for a wait whose fuel runs out. *)
Inductive Error := Api (e : ApiError) | Errorf (msg : string) | OutOfFuel.

Inductive outcome (A : Type) := Return (a : A) | Fail (e : Error).
Arguments Return {A} a.
Arguments Fail {A} e.

(** A context is its deadline; [context.Background()] has none. *)
Record Context := { deadline : option Z }.

Definition Background : Context := {| deadline := None |}.

Definition expired (ctx : Context) (now : Z) : bool :=
  match deadline ctx with Some t => t <=? now | None => false end.

(** A label selector of equalities. *)
Definition LabelSelector := list (string * string).

Definition matches (sel : LabelSelector) (labels : gmap string string) : bool :=
  forallb (fun kv => bool_decide (labels !! kv.1 = Some kv.2)) sel.

Class Clientset (W : Type) := {
  Get : forall k : Kind, Context -> string -> string -> M W (result (object k));
  Create : forall k : Kind, Context -> string -> object k -> M W (result (object k));
  Update : forall k : Kind, Context -> string -> object k -> M W (result (object k));
  Delete : forall k : Kind, Context -> string -> string -> M W (result unit);
  DeleteCollection : forall k : Kind, Context -> string -> LabelSelector -> M W (result unit);
  List : forall k : Kind, Context -> string -> LabelSelector -> M W (result (list (object k)));
  ListNodes : Context -> M W (result (list Node));
  (** Opening the stream of a pod's logs, and reading it to its end. *)
  StreamLogs : Context -> string -> string -> M W (result (result string));
  (** [time.Now()] in nanoseconds, and [time.Sleep]. *)
  Now : M W Z;
  Sleep : Z -> M W unit;
  (** What a flush of the tabwriter passes on to the standard output. *)
  Output : list string -> M W (option Error);
  (** The text of an error of the API, as [%v] prints it. *)
  ApiErrorString : ApiError -> string;
}.

Definition show `{Clientset W} (e : Error) : string :=
  match e with Api e => ApiErrorString e | Errorf msg => msg | OutOfFuel => "out of fuel" end.

Class Codec := {
  UnmarshalReport : string -> option BenchmarkReport;
  UnmarshalResult : string -> option IperfTestResult;
  MarshalIndent : BenchmarkReport -> outcome string;
  (** [time.Parse(time.RFC3339, s)], [t.Format(layout)]. *)
  ParseRFC3339 : string -> option Time;
  Format : string -> Time -> string;
  (** Midnight of the day of an instant, where the plugin runs: [time.Date]
      with the instant's year, month and day. *)
  StartOfDay : Z -> Time;
}.

Definition RFC3339 : string := "2006-01-02T15:04:05Z07:00".

(** [context.WithTimeout(context.Background(), d)]. *)
Definition WithTimeout `{Clientset W} (d : Z) : M W Context :=
  let! now := Now in ret {| deadline := Some (now + d) |}.

(** The first case of [select { case <-ctx.Done(): ... default: ... }] is taken. *)
Definition Done `{Clientset W} (ctx : Context) : M W bool :=
  let! now := Now in ret (expired ctx now).

(** ** The tabwriter: lines kept until the next flush *)

Definition Fprintf (tw : list string) (line : string) : list string := tw ++ [line].

Definition Flush `{Clientset W} (tw : list string) : M W unit :=
  let! _ := Output tw in ret tt.

(** ** The laws *)

Section Laws.
Context `{Clientset W}.

(** The objects that exist and are not being deleted, by namespace and name. *)
Definition View : Type := forall k : Kind, gmap (string * string) (object k).

Definition same_but (k : Kind) (v v' : View) : Prop := forall k', k' <> k -> v' k' = v k'.
Definition same (v v' : View) : Prop := forall k, v' k = v k.

(** The parts of an object the server stores as the client sent them. *)
Definition stored_as {k : Kind} (o s : object k) : Prop :=
  Name (meta s) = Name (meta o) /\ Labels (meta s) = Labels (meta o) /\
  match k return object k -> object k -> Prop with
  | KConfigMap => fun o s => Data s = Data o
  | KPod => fun o s => spec_NodeName (pod_spec s) = spec_NodeName (pod_spec o)
  | _ => fun _ _ => True
  end o s.

(** An object of a list: stored under its own name. *)
Definition listed {k : Kind} (ns : string) (sel : LabelSelector) (v : gmap (string * string) (object k))
    (o : object k) : Prop :=
  v !! (ns, Name (meta o)) = Some o /\ matches sel (Labels (meta o)) = true.

End Laws.

(** The clock. *)
Class ClockLaws W `{Clientset W} (clock : W -> Z) := {
  now_clock w : (Now w).1 = clock (Now w).2 /\ clock w <= clock (Now w).2;
  sleep_clock d w : clock w + d <= clock (Sleep d w).2;
  output_clock ls w : clock w <= clock (Output ls w).2;
  get_clock k ctx ns n w : clock w <= clock (Get k ctx ns n w).2;
  list_clock k ctx ns sel w : clock w <= clock (List k ctx ns sel w).2;
  logs_clock ctx ns n w : clock w <= clock (StreamLogs ctx ns n w).2;
  create_clock k ctx ns o w : clock w <= clock (Create k ctx ns o w).2;
  (* a call under a context whose deadline has passed fails *)
  get_expired k ctx ns n w : expired ctx (clock w) = true ->
    exists e, (Get k ctx ns n w).1 = Err e;
}.

(** The objects. A sleep and the passing of time are free to change them. *)
Class ObjectLaws W `{Clientset W} (view : W -> View) := {
  now_view w : same (view w) (view (Now w).2);
  output_view ls w : same (view w) (view (Output ls w).2);
  get_view k ctx ns n w : same (view w) (view (Get k ctx ns n w).2);
  get_ok k ctx ns n w o : (Get k ctx ns n w).1 = Ok o -> Name (meta o) = n;
  get_absent k ctx ns n w : (Get k ctx ns n w).1 = Err NotFound -> view w k !! (ns, n) = None;
  list_view k ctx ns sel w : same (view w) (view (List k ctx ns sel w).2);
  list_ok k ctx ns sel w l : (List k ctx ns sel w).1 = Ok l ->
    forall o, o ∈ l <-> listed ns sel (view w k) o;
  list_nodes_view ctx w : same (view w) (view (ListNodes ctx w).2);
  create_other k ctx ns o w : same_but k (view w) (view (Create k ctx ns o w).2);
  create_ok k ctx ns o w o' : (Create k ctx ns o w).1 = Ok o' ->
    view w k !! (ns, Name (meta o)) = None /\
    exists s, stored_as o s /\ view (Create k ctx ns o w).2 k = <[(ns, Name (meta o)) := s]> (view w k);
  (* a failed write may have been done *)
  create_err k ctx ns o w e : (Create k ctx ns o w).1 = Err e ->
    view (Create k ctx ns o w).2 k = view w k \/
    view w k !! (ns, Name (meta o)) = None /\
    exists s, stored_as o s /\ view (Create k ctx ns o w).2 k = <[(ns, Name (meta o)) := s]> (view w k);
  delete_other k ctx ns n w : same_but k (view w) (view (Delete k ctx ns n w).2);
  delete_ok k ctx ns n w : (Delete k ctx ns n w).1 = Ok tt ->
    view (Delete k ctx ns n w).2 k = delete (ns, n) (view w k);
  delete_absent k ctx ns n w : (Delete k ctx ns n w).1 = Err NotFound ->
    view w k !! (ns, n) = None /\ view (Delete k ctx ns n w).2 k = view w k;
  delete_err k ctx ns n w e : (Delete k ctx ns n w).1 = Err e ->
    view (Delete k ctx ns n w).2 k ⊆ view w k;
  collection_other k ctx ns sel w : same_but k (view w) (view (DeleteCollection k ctx ns sel w).2);
  collection_sub k ctx ns sel w : view (DeleteCollection k ctx ns sel w).2 k ⊆ view w k;
  (* deleted, or there was nothing to delete *)
  collection_gone k ctx ns sel w :
    (DeleteCollection k ctx ns sel w).1 = Ok tt \/ (DeleteCollection k ctx ns sel w).1 = Err NotFound ->
    forall n o, view (DeleteCollection k ctx ns sel w).2 k !! (ns, n) = Some o ->
      matches sel (Labels (meta o)) = false;
}.
