(* ===== verification/HealthList.v ===== *)
(** * Benchmarks: reading and listing results

    [k3sutils/list_benchmark.go]: the results stored in config maps, the listing
    with its filters, the description of a node and the summary of all nodes.
    What goes through the tabwriter is a list of lines, cells separated by tabs. *)

From S2P Require Import Prelude.
From S2P Require Import GoSort.
From S2P Require Import GoFloat.
From S2P Require Import GoStrings.
From S2P Require Import GoFmt.
From S2P Require Import HealthTypes.
From S2P Require Import HealthApi.
From Stdlib Require Import SpecFloat.

Definition TAB : string := String (ascii_of_nat 9) "".

(** A line of cells. *)
Definition cells (l : list string) : string := String.concat TAB l.

Definition positive_float (x : spec_float) : bool := SFltb (float64 0) x.

(** [formatThroughput]. *)
Definition formatThroughput (bps : spec_float) : string :=
  if SFleb (float64 1000000000) bps then Fixed2 (f64_div bps (float64 1000000000)) +:+ " Gbps"
  else if SFleb (float64 1000000) bps then Fixed2 (f64_div bps (float64 1000000)) +:+ " Mbps"
  else if SFleb (float64 1000) bps then Fixed2 (f64_div bps (float64 1000)) +:+ " Kbps"
  else Fixed2 bps +:+ " bps".

(** [d.Seconds()]. *)
Definition Seconds (d : Z) : spec_float :=
  f64_add (float64 (Z.quot d Second)) (f64_div (float64 (Z.rem d Second)) (float64 1000000000)).

(** [int64(d.Seconds())]: a duration has less than 2^34 seconds, so the
    conversion is in range. *)
Definition whole_seconds (d : Z) : Z := to_int64 (fun _ => 0) (Seconds d).

Definition humanDuration (d : Z) : string :=
  let sec := whole_seconds d in
  if sec <? 60 then FormatInt sec +:+ "s"
  else if sec <? 3600 then FormatInt (Z.quot sec 60) +:+ "m" +:+ FormatInt (Z.rem sec 60) +:+ "s"
  else if sec <? 86400 then
    FormatInt (Z.quot sec 3600) +:+ "h" +:+ FormatInt (Z.quot (Z.rem sec 3600) 60) +:+ "m"
  else FormatInt (Z.quot sec 86400) +:+ "d" +:+ FormatInt (Z.quot (Z.rem sec 86400) 3600) +:+ "h".

Section List_.
Context `{Clientset W, !Codec, !GoSort}.

(** ** Reading the results *)

Definition to_result (timestamp : Time) (report : BenchmarkReport) (r : IperfTestResult) : DestNodeTestResult := {|
  Timestamp := timestamp;
  SourceNode := br_SourceNode report;
  DestNode := it_DestNode r;
  BenchmarkMode := br_BenchmarkMode report;
  Protocol := it_Protocol r;
  Direction := it_Direction r;
  ThroughputBps := it_ThroughputBps r;
  RTTAvg := it_RTTAvg r;
  JitterMs := it_JitterMs r;
  PacketLossPct := it_PacketLossPct r;
  Retransmits := it_Retransmits r |}.

(** The body of the loop over config maps. *)
Definition report_results (cm : ConfigMap) : list DestNodeTestResult :=
  if negb (String.prefix CONFIG_MAP_PREFIX (Name (cm_meta cm))) then []
  else match Data cm !! "report.json" with
       | None => []
       | Some reportJSON =>
           match UnmarshalReport reportJSON with
           | None => []
           | Some report =>
               let timestamp := match ParseRFC3339 (br_Timestamp report) with
                                | Some t => t
                                | None => CreationTimestamp (cm_meta cm)
                                end in
               map (to_result timestamp report) (br_Results report)
           end
       end.

Definition getAllDestNodeResults (ctx : Context) : M W (outcome (list DestNodeTestResult)) :=
  let! r := List KConfigMap ctx DEFAULT_NAMESPACE [("app", "iperf-benchmark")] in
  match r with
  | Err e => ret (Fail (Errorf ("failed to list benchmark results: " +:+ ApiErrorString e)))
  | Ok configMaps => ret (Return (concat (map report_results configMaps)))
  end.

(** ** The listing *)

Definition mode_matches (mode : string) (r : DestNodeTestResult) : bool :=
  negb ((String.eqb mode "host" && negb (String.eqb (BenchmarkMode r) "host_network")) ||
        (String.eqb mode "pod" && negb (String.eqb (BenchmarkMode r) "pod_network")) ||
        (String.eqb mode "intra" && negb (String.eqb (BenchmarkMode r) "intra_node"))).

Definition node_matches (node : string) (r : DestNodeTestResult) : bool :=
  String.eqb node "" || Contains (ToLower (DestNode r)) (ToLower node).

(** The filters that do not look at the clock. *)
Definition matches_filter (f : ListFilter) (r : DestNodeTestResult) : bool :=
  mode_matches (Mode f) r && node_matches (NodeName f) r.

Definition before_today (f : ListFilter) (r : DestNodeTestResult) : M W bool :=
  if Today f then let! now := Now in ret (Before (Timestamp r) (StartOfDay now)) else ret false.

Definition apply_filters (f : ListFilter) (results : list DestNodeTestResult) : M W (list DestNodeTestResult) :=
  foldM (fun filtered r =>
    let! old := before_today f r in
    ret (if old then filtered else if matches_filter f r then filtered ++ [r] else filtered)) [] results.

Definition newest_first (a b : DestNodeTestResult) : bool := After (Timestamp a) (Timestamp b).

Definition latest_key (r : DestNodeTestResult) : string :=
  DestNode r +:+ "|" +:+ BenchmarkMode r +:+ "|" +:+ Protocol r +:+ "|" +:+ Direction r.

(** The loop of the flag [latest]: the results whose key has not been seen. *)
Fixpoint first_of_key (seen : gset string) (l : list DestNodeTestResult) : list DestNodeTestResult :=
  match l with
  | [] => []
  | r :: l' =>
      if decide (latest_key r ∈ seen) then first_of_key seen l'
      else r :: first_of_key ({[latest_key r]} ∪ seen) l'
  end.

(** The order of the output. *)
Definition grouped (a b : DestNodeTestResult) : bool :=
  if negb (String.eqb (DestNode a) (DestNode b)) then String.ltb (DestNode a) (DestNode b)
  else if negb (String.eqb (BenchmarkMode a) (BenchmarkMode b)) then String.ltb (BenchmarkMode a) (BenchmarkMode b)
  else if negb (String.eqb (Protocol a) (Protocol b)) then String.ltb (Protocol a) (Protocol b)
  else String.ltb (Direction a) (Direction b).

Definition limit_rows (f : ListFilter) (l : list DestNodeTestResult) : list DestNodeTestResult :=
  if (0 <? Limit f) && (Limit f <? Z.of_nat (length l)) then take (Z.to_nat (Limit f)) l else l.

(** From the results that pass the filters to the rows. *)
Definition arrange (f : ListFilter) (filtered : list DestNodeTestResult) : list DestNodeTestResult :=
  let filtered := sort_Sort newest_first filtered in
  let filtered := if Latest f then first_of_key ∅ filtered else filtered in
  limit_rows f (sort_Sort grouped filtered).

(** The four columns of a row that depend on the protocol. *)
Definition metrics (r : DestNodeTestResult) : list string :=
  if String.eqb (Protocol r) "tcp" then
    [if positive_float (RTTAvg r) then Fixed2 (RTTAvg r) +:+ "ms" else "-"; "-"; "-"; FormatInt (Retransmits r)]
  else
    ["-"; if positive_float (JitterMs r) then Fixed2 (JitterMs r) +:+ "ms" else "-";
     Fixed2 (PacketLossPct r) +:+ "%"; "-"].

Definition mode_name (r : DestNodeTestResult) : string :=
  if String.eqb (BenchmarkMode r) "pod_network" then "pod"
  else if String.eqb (BenchmarkMode r) "intra_node" then "intra" else "host".

(** [humanDuration(time.Since(t))]. *)
Definition age (t : Time) : M W string :=
  let! now := Now in ret (humanDuration (Sub {| instant := now; zone := Local |} t)).

Definition list_row (r : DestNodeTestResult) : M W string :=
  let! a := age (Timestamp r) in
  ret (cells ([DestNode r; mode_name r; ToUpper (Protocol r); Direction r; formatThroughput (ThroughputBps r)]
              ++ metrics r ++ [a])).

Definition list_header : string :=
  cells ["DEST"; "MODE"; "PROTOCOL"; "DIR"; "THROUGHPUT"; "RTT"; "JITTER"; "LOSS"; "RETRANS"; "AGE"].

Definition ListBenchmarksWithFilter (ctx : Context) (f : ListFilter) : M W (option Error) :=
  let! r := getAllDestNodeResults ctx in
  match r with
  | Fail e => ret (Some e)
  | Return [] => Output ["No benchmark results found."]
  | Return results =>
      let! filtered := apply_filters f results in
      match filtered with
      | [] => Output ["No benchmark results match the filter criteria."]
      | _ =>
          let! tw := foldM (fun tw r => let! row := list_row r in ret (Fprintf tw row))
                       [list_header] (arrange f filtered) in
          Output tw
      end
  end.

Definition no_filter : ListFilter :=
  {| Latest := false; Today := false; Mode := ""; NodeName := ""; Limit := 0 |}.

Definition ListAllBenchmarks (ctx : Context) : M W (option Error) := ListBenchmarksWithFilter ctx no_filter.

(** ** The description of a node *)

Definition describes (nodeName mode : string) (r : DestNodeTestResult) : bool :=
  Contains (ToLower (DestNode r)) (ToLower nodeName) &&
  negb ((String.eqb mode "host" && negb (String.eqb (BenchmarkMode r) "host_network")) ||
        (String.eqb mode "pod" && negb (String.eqb (BenchmarkMode r) "pod_network"))).

(** The sums of the summary. *)
Record Totals := {
  totalThroughput : spec_float;
  totalRTT : spec_float;
  totalJitter : spec_float;
  totalPacketLoss : spec_float;
  totalRetrans : Z;
  tcpCount : Z;
  udpCount : Z;
}.

Definition zero_Totals : Totals := {|
  totalThroughput := float64 0; totalRTT := float64 0; totalJitter := float64 0;
  totalPacketLoss := float64 0; totalRetrans := 0; tcpCount := 0; udpCount := 0 |}.

Definition add_totals (t : Totals) (r : DestNodeTestResult) : Totals :=
  let tcp := String.eqb (Protocol r) "tcp" && positive_float (RTTAvg r) in
  let udp := String.eqb (Protocol r) "udp" in
  {| totalThroughput := f64_add (totalThroughput t) (ThroughputBps r);
     totalRTT := if tcp then f64_add (totalRTT t) (RTTAvg r) else totalRTT t;
     totalJitter := if udp && positive_float (JitterMs r)
                    then f64_add (totalJitter t) (JitterMs r) else totalJitter t;
     totalPacketLoss := if udp then f64_add (totalPacketLoss t) (PacketLossPct r) else totalPacketLoss t;
     totalRetrans := totalRetrans t +! Retransmits r;
     tcpCount := if tcp then tcpCount t +! 1 else tcpCount t;
     udpCount := if udp then udpCount t +! 1 else udpCount t |}.

Definition average (total : spec_float) (count : Z) : spec_float :=
  if 0 <? count then f64_div total (float64 count) else float64 0.

Definition summary_lines (actualDestNode : string) (nodeResults : list DestNodeTestResult) : list string :=
  let t := fold_left add_totals nodeResults zero_Totals in
  let avgThroughput := f64_div (totalThroughput t) (float64 (Z.of_nat (length nodeResults))) in
  let avgRTT := average (totalRTT t) (tcpCount t) in
  let avgJitter := average (totalJitter t) (udpCount t) in
  let avgPacketLoss := average (totalPacketLoss t) (udpCount t) in
  [""; "Benchmark Results for Destination Node: " +:+ actualDestNode;
   "==========================================";
   cells ["Total Tests:"; FormatInt (Z.of_nat (length nodeResults))];
   cells ["Avg Throughput:"; formatThroughput avgThroughput]]
  ++ (if positive_float avgRTT then [cells ["Avg RTT:"; Fixed2 avgRTT +:+ "ms"]] else [])
  ++ (if positive_float avgJitter then [cells ["Avg Jitter:"; Fixed2 avgJitter +:+ "ms"]] else [])
  ++ (if positive_float avgPacketLoss then [cells ["Avg Packet Loss:"; Fixed2 avgPacketLoss +:+ "%"]] else [])
  ++ (if 0 <? totalRetrans t then [cells ["Total Retransmits:"; FormatInt (totalRetrans t)]] else []).

(** [if latest]: the results within a minute of the newest. *)
Definition within_minute (newest : Time) (r : DestNodeTestResult) : bool :=
  Abs (Sub (Timestamp r) newest) <? Minute.

(** [sourceResults]. *)
Definition by_source (l : list DestNodeTestResult) : gmap string (list DestNodeTestResult) :=
  fold_left (fun m r => <[SourceNode r := default [] (m !! SourceNode r) ++ [r]]> m) l ∅.

Definition source_row (r : DestNodeTestResult) : string :=
  cells ([SourceNode r; if String.eqb (BenchmarkMode r) "pod_network" then "pod" else "host";
          ToUpper (Protocol r); Direction r; formatThroughput (ThroughputBps r)]
         ++ metrics r ++ [Format "15:04:05" (Timestamp r)]).

Definition source_rows (m : gmap string (list DestNodeTestResult)) : list string :=
  concat (map (fun sourceNode =>
      map source_row (sort_Sort newest_first (default [] (m !! sourceNode))))
    (sort_Sort String.ltb (map_to_list m).*1)).

Definition source_header : string :=
  cells ["SOURCE NODE"; "MODE"; "PROTOCOL"; "DIRECTION"; "THROUGHPUT"; "RTT"; "JITTER"; "PKT LOSS"; "RETRANS"; "TIME"].

Definition DescribeNodeBenchmarks (ctx : Context) (nodeName mode : string) (latest : bool) : M W (option Error) :=
  let! r := getAllDestNodeResults ctx in
  match r with
  | Fail e => ret (Some e)
  | Return results =>
      match sort_Sort newest_first (List.filter (describes nodeName mode) results) with
      | [] => Output ["No benchmark results found for destination node '" +:+ nodeName +:+ "'"]
      | first :: _ as nodeResults =>
          let nodeResults := if latest then List.filter (within_minute (Timestamp first)) nodeResults
                             else nodeResults in
          let! _ := Flush (summary_lines (DestNode first) nodeResults) in
          Output ([""; "Detailed Results by Source Node:"; source_header]
                  ++ source_rows (by_source nodeResults))
      end
  end.

(** ** The summary of all nodes *)

Definition new_summary (n : string) : DestNodeSummary := {|
  ds_DestNode := n; ds_LatestRun := zero_Time; ds_TotalTests := 0; ds_HostModeTests := 0;
  ds_PodModeTests := 0; ds_AvgThroughput := float64 0; ds_AvgRTT := float64 0;
  ds_AvgJitter := float64 0; ds_AvgPacketLoss := float64 0; ds_TotalRetrans := 0 |}.

(** What a result does to the summary of its node. *)
Definition add_result (nd : DestNodeSummary) (r : DestNodeTestResult) : DestNodeSummary :=
  let total := ds_TotalTests nd +! 1 in
  let host := String.eqb (BenchmarkMode r) "host_network" in
  {| ds_DestNode := ds_DestNode nd;
     ds_LatestRun := if After (Timestamp r) (ds_LatestRun nd) then Timestamp r else ds_LatestRun nd;
     ds_TotalTests := total;
     ds_HostModeTests := if host then ds_HostModeTests nd +! 1 else ds_HostModeTests nd;
     ds_PodModeTests := if host then ds_PodModeTests nd else ds_PodModeTests nd +! 1;
     ds_AvgThroughput :=
       f64_div (f64_add (f64_mul (ds_AvgThroughput nd) (float64 (total -! 1))) (ThroughputBps r)) (float64 total);
     ds_AvgRTT :=
       if String.eqb (Protocol r) "tcp" && positive_float (RTTAvg r) then
         if SFeqb (ds_AvgRTT nd) (float64 0) then RTTAvg r
         else f64_div (f64_add (ds_AvgRTT nd) (RTTAvg r)) (float64 2)
       else ds_AvgRTT nd;
     ds_AvgJitter := ds_AvgJitter nd;
     ds_AvgPacketLoss := ds_AvgPacketLoss nd;
     ds_TotalRetrans := ds_TotalRetrans nd +! Retransmits r |}.

(** [nodeData]. *)
Definition node_data (results : list DestNodeTestResult) : gmap string DestNodeSummary :=
  fold_left (fun m r =>
    let nd := default (new_summary (DestNode r)) (m !! DestNode r) in
    <[DestNode r := add_result nd r]> m) results ∅.

(** [nodes], sorted. *)
Definition node_summaries (results : list DestNodeTestResult) : list DestNodeSummary :=
  sort_Sort (by_key ds_DestNode) (map_to_list (node_data results)).*2.

Definition node_row (n : DestNodeSummary) : M W string :=
  let! a := age (ds_LatestRun n) in
  ret (cells [ds_DestNode n; FormatInt (ds_TotalTests n); FormatInt (ds_HostModeTests n);
              FormatInt (ds_PodModeTests n); formatThroughput (ds_AvgThroughput n);
              if positive_float (ds_AvgRTT n) then Fixed2 (ds_AvgRTT n) +:+ "ms" else "-";
              Format "2006-01-02 15:04" (ds_LatestRun n); a]).

Definition nodes_header : string :=
  cells ["DEST NODE"; "TOTAL TESTS"; "HOST"; "POD"; "AVG THROUGHPUT"; "AVG RTT"; "LAST TEST"; "AGE"].

Definition ListNodes_ (ctx : Context) : M W (option Error) :=
  let! r := getAllDestNodeResults ctx in
  match r with
  | Fail e => ret (Some e)
  | Return [] => Output ["No benchmark results found."]
  | Return results =>
      let! tw := foldM (fun tw n => let! row := node_row n in ret (Fprintf tw row))
                   [nodes_header] (node_summaries results) in
      Output tw
  end.

End List_.
