(* ===== verification/HealthScript.v ===== *)
(** * Benchmarks: the script of the client pods

    The text of [benchmark.sh], as [create_benchmark.go] embeds it: a backquote
    below, which a Go raw string cannot hold, stands for a double quote. The
    plugin only stores the text in a config map; what the shell does with it is
    not modelled. *)

From S2P Require Import Prelude.

Fixpoint unquote (s : string) : string :=
  match s with
  | EmptyString => ""
  | String c s' => String (if Ascii.eqb c "`" then ascii_of_nat 34 else c) (unquote s')
  end.

Definition script_text : string :=
  "#!/bin/bash
set -e

# Defaults if ENV variables are not provided
PARALLEL=${IPERF_PARALLEL:-5}
DURATION=${IPERF_DURATION:-10}
INTRA_NODE=${INTRA_NODE_MODE:-false}
EXCLUDE_NODES=${EXCLUDE_NODES:-``}
DATE=$(date -u +`%Y-%m-%dT%H:%M:%SZ`)

# Function to check if a node is in the exclude list
is_excluded() {
  local node=$1
  if [ -z `$EXCLUDE_NODES` ]; then
    return 1
  fi
  IFS=',' read -ra EXCLUDED <<< `$EXCLUDE_NODES`
  for excluded in `${EXCLUDED[@]}`; do
    if [ `$node` == `$excluded` ]; then
      return 0
    fi
  done
  return 1
}

# Initialize results array
RESULTS=`[]`

echo `--- STARTING BENCHMARK RUN: $DATE ---` >&2
echo `Target Service: $TARGET_SVC` >&2
echo `My Node: $MY_NODE_NAME` >&2
echo `Config: Parallel=$PARALLEL, Duration=${DURATION}s, IntraNode=$INTRA_NODE` >&2
[ -n `$EXCLUDE_NODES` ] && echo `Excluded nodes: $EXCLUDE_NODES` >&2

run_benchmark() {
  local svc_label=$1; local port=$2; local mode=$3

  # Find targets
  echo `>>> Discovering pods for label: app=$svc_label` >&2
  TARGETS=$(kubectl get pods -l app=$svc_label -o json | jq -c '.items[] | {ip: .status.podIP, node: .spec.nodeName}')
  
  if [ -z `$TARGETS` ]; then
    echo `ERROR: No target pods found for label app=$svc_label` >&2
    exit 1
  fi

  echo `$TARGETS` | while read -r target; do
    DEST_IP=$(echo $target | jq -r .ip)
    DEST_NODE=$(echo $target | jq -r .node)

    # Check if destination node is in exclude list
    if is_excluded `$DEST_NODE`; then
      echo `Skipping excluded node ($DEST_NODE)` >&2
      continue
    fi

    # Intra-node mode: only test against the server on the SAME node
    if [ `$INTRA_NODE` == `true` ]; then
      if [ `$DEST_NODE` != `$MY_NODE_NAME` ]; then
        echo `Skipping remote node ($DEST_NODE) - intra-node mode` >&2
        continue
      fi
    else
      # Inter-node mode: skip self (same node)
      if [ `$DEST_NODE` == `$MY_NODE_NAME` ]; then 
        echo `Skipping self ($MY_NODE_NAME)` >&2
        continue
      fi
    fi

    for DIRECTION in `UL` `DL`; do
      for PROTO in `tcp` `udp`; do
        echo `----------------------------------------------------------` >&2
        echo `TESTING: $PROTO | $DIRECTION | $MY_NODE_NAME -> $DEST_NODE ($DEST_IP)` >&2
        
        # Directional Flag: -R is Reverse (Download for the client)
        DIR_FLAG=``
        [ `$DIRECTION` == `DL` ] && DIR_FLAG=`-R`
        
        # Protocol specific flags
        EXTRA_FLAGS=``
        [ `$PROTO` == `udp` ] && EXTRA_FLAGS=`-u -b 0`
        
        # Run iperf3: Using ENV-driven Duration and Parallelism
        RESULT=$(iperf3 -c $DEST_IP -p $port -t $DURATION -P $PARALLEL $DIR_FLAG $EXTRA_FLAGS -J 2>/dev/null || echo '{}')
        
        # Log summary to stderr
        echo `iperf3 summary for $PROTO $DIRECTION:` >&2
        echo `$RESULT` | jq .end.sum_received >&2

        # Extract metrics for JSON output
        if [ `$PROTO` == `tcp` ]; then
          THROUGHPUT=$(jq '.end.sum_received.bits_per_second // 0' <<< `$RESULT`)
          RETRANSMITS=$(jq '.end.sum_sent.retransmits // 0' <<< `$RESULT`)
          RTT_MIN=$(jq '(.end.streams[0].sender.min_rtt // .end.streams[0].receiver.min_rtt // 0) / 1000' <<< `$RESULT`)
          RTT_AVG=$(jq '(.end.streams[0].sender.mean_rtt // .end.streams[0].receiver.mean_rtt // 0) / 1000' <<< `$RESULT`)
          RTT_MAX=$(jq '(.end.streams[0].sender.max_rtt // .end.streams[0].receiver.max_rtt // 0) / 1000' <<< `$RESULT`)
          AVG_CWND=$(jq '[.intervals[].streams[0].snd_cwnd | select(. != null)] | if length > 0 then add / length else 0 end' <<< `$RESULT`)
          
          # Output test result as JSON line
          jq -c -n \
            --arg dest `$DEST_IP` \
            --arg dest_node `$DEST_NODE` \
            --arg proto `$PROTO` \
            --arg dir `$DIRECTION` \
            --argjson throughput `$THROUGHPUT` \
            --argjson retransmits `$RETRANSMITS` \
            --argjson avg_cwnd `$AVG_CWND` \
            --argjson rtt_min `$RTT_MIN` \
            --argjson rtt_avg `$RTT_AVG` \
            --argjson rtt_max `$RTT_MAX` \
            '{
              destination: $dest,
              dest_node: $dest_node,
              protocol: $proto,
              direction: $dir,
              throughput_bps: $throughput,
              retransmits: $retransmits,
              avg_cwnd_bytes: $avg_cwnd,
              rtt_min_ms: $rtt_min,
              rtt_avg_ms: $rtt_avg,
              rtt_max_ms: $rtt_max
            }'

          # Push to VictoriaMetrics
          CONGESTION=$(jq -r '.end.sender_tcp_congestion // .end.receiver_tcp_congestion // `unknown`' <<< `$RESULT`)
          cat <<EOF | curl -s -X POST `$VM_FULL_PATH` --data-binary @- 2>&1 >/dev/null
iperf_throughput_bps{src=`$MY_NODE_NAME`,dest=`$DEST_NODE`,mode=`$mode`,protocol=`tcp`,direction=`$DIRECTION`,cc=`$CONGESTION`} $THROUGHPUT
iperf_retransmits_total{src=`$MY_NODE_NAME`,dest=`$DEST_NODE`,mode=`$mode`,protocol=`tcp`,direction=`$DIRECTION`,cc=`$CONGESTION`} $RETRANSMITS
iperf_rtt_ms{src=`$MY_NODE_NAME`,dest=`$DEST_NODE`,mode=`$mode`,protocol=`tcp`,direction=`$DIRECTION`,stat=`min`} $RTT_MIN
iperf_rtt_ms{src=`$MY_NODE_NAME`,dest=`$DEST_NODE`,mode=`$mode`,protocol=`tcp`,direction=`$DIRECTION`,stat=`avg`} $RTT_AVG
iperf_rtt_ms{src=`$MY_NODE_NAME`,dest=`$DEST_NODE`,mode=`$mode`,protocol=`tcp`,direction=`$DIRECTION`,stat=`max`} $RTT_MAX
iperf_tcp_avg_cwnd_bytes{src=`$MY_NODE_NAME`,dest=`$DEST_NODE`,mode=`$mode`,protocol=`tcp`,direction=`$DIRECTION`,cc=`$CONGESTION`} $AVG_CWND
EOF
        else
          THROUGHPUT=$(jq '.end.sum_received.bits_per_second // 0' <<< `$RESULT`)
          JITTER=$(jq '.end.sum_received.jitter_ms // 0' <<< `$RESULT`)
          LOST_PCT=$(jq '.end.sum_received.lost_percent // 0' <<< `$RESULT`)
          
          # Output test result as JSON line
          jq -c -n \
            --arg dest `$DEST_IP` \
            --arg dest_node `$DEST_NODE` \
            --arg proto `$PROTO` \
            --arg dir `$DIRECTION` \
            --argjson throughput `$THROUGHPUT` \
            --argjson jitter `$JITTER` \
            --argjson lost_pct `$LOST_PCT` \
            '{
              destination: $dest,
              dest_node: $dest_node,
              protocol: $proto,
              direction: $dir,
              throughput_bps: $throughput,
              jitter_ms: $jitter,
              packet_loss_pct: $lost_pct
            }'
          
          # Push to VictoriaMetrics
          cat <<EOF | curl -s -X POST `$VM_FULL_PATH` --data-binary @- 2>&1 >/dev/null
iperf_throughput_bps{src=`$MY_NODE_NAME`,dest=`$DEST_NODE`,mode=`$mode`,protocol=`udp`,direction=`$DIRECTION`} $THROUGHPUT
iperf_jitter_ms{src=`$MY_NODE_NAME`,dest=`$DEST_NODE`,mode=`$mode`,protocol=`udp`,direction=`$DIRECTION`} $JITTER
iperf_packet_loss_percent{src=`$MY_NODE_NAME`,dest=`$DEST_NODE`,mode=`$mode`,protocol=`udp`,direction=`$DIRECTION`} $LOST_PCT
EOF
        fi

        # Push to VictoriaLogs
        LOG_PAYLOAD=$(jq -c \
          --arg src `$MY_NODE_NAME` \
          --arg dest `$DEST_NODE` \
          --arg mode `$mode` \
          --arg proto `$PROTO` \
          --arg dir `$DIRECTION` \
          '{
            `_time`: `'$DATE'`,
            `_msg`: (`iperf3 ` + $proto + ` ` + $dir + `: ` + $src + ` -> ` + $dest),
            `app`: `iperf-health`,
            `src`: $src,
            `dest`: $dest,
            `protocol`: $proto,
            `mode`: $mode,
            `direction`: $dir,
            `iperf_stats`: .
          }' <<< `$RESULT`)
        
        curl -s -L -X POST `$VL_FULL_PATH` \
          -H `Content-Type: application/json` \
          --data-binary `$LOG_PAYLOAD` >/dev/null 2>&1

        echo `Done with $PROTO $DIRECTION` >&2
      done
    done
  done
}

run_benchmark `$TARGET_SVC` `$TARGET_PORT` `$BENCHMARK_MODE`
echo `--- ALL JOBS FINISHED ---` >&2
".

(** [benchmarkScript]. *)
Definition benchmarkScript : string := unquote script_text.

Example script_is_bash : String.prefix "#!/bin/bash" benchmarkScript = true.
Proof. reflexivity. Qed.
