(* ===== verification/HealthBench.v ===== *)
(** * Benchmarks: running a benchmark

    [k3sutils/create_benchmark.go]: the objects the plugin creates, the waits
    with their deadlines, the reading of the client pods' logs, the saved results
    and the release of what was created. Every function that prints has its own
    tabwriter, whose lines reach the output when it is flushed: lines left at a
    return are lost. The waits have fuel, one unit per turn; [HealthProofs] shows
    [wait_fuel] to be enough. [args/parser.go]'s commands are at the end. *)

From S2P Require Import Prelude.
From S2P Require Import GoSort.
From S2P Require Import GoStrings.
From S2P Require Import GoFmt.
From S2P Require Import HealthTypes.
From S2P Require Import HealthApi.
From S2P Require Import HealthList.
From S2P Require Import HealthScript.

(** ** The objects *)

Definition hostNetworkSvc : Service := {|
  svc_meta := named HOSTNETWORK_HEADLESS_SERVICE_NAME ∅;
  ClusterIP := "None";
  Selector := {["app" := "iperf-hostnetwork"]};
  Ports := [{| Port := int32 DEFAULT_IPERF_PORT; TargetPort := DEFAULT_IPERF_PORT |}] |}.

Definition podNetworkSvc : Service := {|
  svc_meta := named PODNETWORK_HEADLESS_SERVICE_NAME ∅;
  ClusterIP := "None";
  Selector := {["app" := "iperf-podnetwork"]};
  Ports := [{| Port := int32 DEFAULT_IPERF_PORT; TargetPort := DEFAULT_IPERF_PORT |}] |}.

(** The container of the iperf servers. *)
Definition server_container : Container := {|
  c_Name := "iperf"; Image := IPERF_SERVER_IMAGE; Args := ["-s"; "-p"; FormatInt DEFAULT_IPERF_PORT];
  Env := []; Command := []; VolumeMounts := [] |}.

Definition server_spec (hostNetwork : bool) : PodSpec := {|
  Affinity := []; HostNetwork := hostNetwork; DNSPolicy := ""; ServiceAccountName := "";
  spec_NodeName := ""; Containers := [server_container]; Volumes := []; RestartPolicy := "" |}.

Definition hostNetworkDS : DaemonSet := {|
  dset_meta := named IPERF_SERVERS_HN_DAEMONSET_NAME {["network" := "host"]};
  MatchLabels := {["app" := "iperf-hostnetwork"]};
  template_Labels := {["app" := "iperf-hostnetwork"; "network" := "host"]};
  template_Spec := server_spec true; NumberReady := 0; DesiredNumberScheduled := 0 |}.

Definition podNetworkDS : DaemonSet := {|
  dset_meta := named IPERF_SERVERS_PN_DAEMONSET_NAME {["network" := "pod"]};
  MatchLabels := {["app" := "iperf-podnetwork"]};
  template_Labels := {["app" := "iperf-podnetwork"; "network" := "pod"]};
  template_Spec := server_spec false; NumberReady := 0; DesiredNumberScheduled := 0 |}.

Definition benchmark_sa : ServiceAccount := {| sa_meta := named IPERF_BENCHMARK_SA ∅ |}.

Definition reader_role : Role := {|
  role_meta := named IPERF_NODE_POD_READER_ROLE ∅;
  Rules := [{| APIGroups := [""]; Resources := ["pods"]; Verbs := ["get"; "list"] |};
            {| APIGroups := [""]; Resources := ["nodes"]; Verbs := ["get"; "list"] |}] |}.

Definition role_binding : RoleBinding := {|
  rb_meta := named IPERF_BENCHMARK_ROLE_BINDING ∅;
  Subjects := [{| sub_Kind := "ServiceAccount"; sub_Name := IPERF_BENCHMARK_SA;
                  sub_Namespace := DEFAULT_NAMESPACE |}];
  rb_RoleRef := {| ref_Kind := "Role"; ref_Name := IPERF_NODE_POD_READER_ROLE;
                   ref_APIGroup := "rbac.authorization.k8s.io" |} |}.

Definition script_config_map : ConfigMap := {|
  cm_meta := named IPERF_BENCHMARK_CONFIG_MAP ∅;
  Data := {["benchmark.sh" := benchmarkScript]} |}.

(** The environment of a client: [intra] is there for the pods of single nodes. *)
Definition client_env (config : BenchmarkConfig) (mode : string) (intra : list (string * EnvValue))
    (svc : string) (node : EnvValue) : list (string * EnvValue) :=
  [("BENCHMARK_MODE", Value mode)] ++ intra ++
  [("TARGET_SVC", Value svc);
   ("TARGET_PORT", Value (FormatInt DEFAULT_IPERF_PORT));
   ("IPERF_PARALLEL", Value (FormatInt (NumberOfConnections config)));
   ("IPERF_DURATION", Value (FormatInt (DurationSeconds config)));
   ("EXCLUDE_NODES", Value (ExcludeNodes config));
   ("MY_NODE_NAME", node);
   ("VL_FULL_PATH", Value "http://vlc-victoria-logs-cluster-vlinsert.victorialogs.svc.cluster.local:9481/insert/jsonline");
   ("VM_FULL_PATH", Value "http://vminsert-vmks-victoria-metrics-k8s-stack.vmetrics.svc.cluster.local:8480/insert/0/prometheus/api/v1/import/prometheus")].

Definition client_container (name : string) (env : list (string * EnvValue)) : Container := {|
  c_Name := name; Image := IPERF_CLIENT_IMAGE; Args := []; Env := env;
  Command := ["/bin/bash"; "/scripts/benchmark.sh"];
  VolumeMounts := [{| vm_Name := "script-vol"; MountPath := "/scripts" |}] |}.

(** [0755] is octal. *)
Definition script_volume : Volume :=
  {| vol_Name := "script-vol"; vol_ConfigMap := IPERF_BENCHMARK_CONFIG_MAP; DefaultMode := 493 |}.

Definition prefer_control_plane : list PreferredSchedulingTerm :=
  [{| Weight := 100; ExistsKey := "node-role.kubernetes.io/control-plane" |}].

Definition host_client (config : BenchmarkConfig) : Pod := {|
  pod_meta := named IPERF_CLIENT_HOSTNETWORK_NAME {["app" := "iperf-benchmark"; "mode" := "host-network"]};
  pod_spec := {|
    Affinity := prefer_control_plane; HostNetwork := true; DNSPolicy := "ClusterFirstWithHostNet";
    ServiceAccountName := IPERF_BENCHMARK_SA; spec_NodeName := "";
    Containers := [client_container IPERF_CLIENT_HOSTNETWORK_NAME
      (client_env config "host_network" [] HOSTNETWORK_HEADLESS_SERVICE_NAME (FieldPath "spec.nodeName"))];
    Volumes := [script_volume]; RestartPolicy := "Never" |};
  Phase := PhaseUnknown "" |}.

Definition pod_client (config : BenchmarkConfig) : Pod := {|
  pod_meta := named IPERF_CLIENT_PODNETWORK_NAME {["app" := "iperf-benchmark"; "mode" := "pod-network"]};
  pod_spec := {|
    Affinity := prefer_control_plane; HostNetwork := false; DNSPolicy := "";
    ServiceAccountName := IPERF_BENCHMARK_SA; spec_NodeName := "";
    Containers := [client_container IPERF_CLIENT_PODNETWORK_NAME
      (client_env config "pod_network" [] "iperf-podnetwork" (FieldPath "spec.nodeName"))];
    Volumes := [script_volume]; RestartPolicy := "Never" |};
  Phase := PhaseUnknown "" |}.

Definition intra_client (config : BenchmarkConfig) (nodeName : string) : Pod := {|
  pod_meta := named ("iperf-intra-node-" +:+ nodeName)
    {["app" := "iperf-benchmark"; "mode" := "intra-node"; "node" := nodeName]};
  pod_spec := {|
    Affinity := []; HostNetwork := false; DNSPolicy := "";
    ServiceAccountName := IPERF_BENCHMARK_SA; spec_NodeName := nodeName;
    Containers := [client_container "iperf-client"
      (client_env config "intra_node" [("INTRA_NODE_MODE", Value "true")] "iperf-podnetwork" (Value nodeName))];
    Volumes := [script_volume]; RestartPolicy := "Never" |};
  Phase := PhaseUnknown "" |}.

(** The label selector of the intra-node pods. *)
Definition intra_pods : LabelSelector := [("app", "iperf-benchmark"); ("mode", "intra-node")].

Definition quoted (s : string) : string := "'" +:+ s +:+ "'".

Definition ns : string := DEFAULT_NAMESPACE.

Section Bench.
Context `{Clientset W, !Codec, !GoSort}.

(** ** Creating what is missing *)

(** The block the functions repeat for an object: look it up, and create it when
    it is not found. [what] and [what_get] name its kind in the messages. An
    error is printed and returned; otherwise a line is added to the buffer. *)
Definition ensure {k : Kind} (what what_get : string) (o : object k) (ctx : Context) (tw : list string)
    : M W (option Error * list string) :=
  let name := quoted (Name (meta o)) in
  let! r := Get k ctx ns (Name (meta o)) in
  match r with
  | Err err =>
      if IsNotFound err then
        let! c := Create k ctx ns o in
        match c with
        | Err err =>
            let! _ := Flush (Fprintf tw ("[ERROR] failed to create " +:+ what +:+ " " +:+ name +:+ ": " +:+ ApiErrorString err)) in
            ret (Some (Api err), [])
        | Ok _ => ret (None, Fprintf tw ("[INFO] " +:+ what +:+ " " +:+ name +:+ " created"))
        end
      else
        let! _ := Flush (Fprintf tw ("[ERROR] failed to get " +:+ what_get +:+ " " +:+ name +:+ ": " +:+ ApiErrorString err)) in
        ret (Some (Api err), [])
  | Ok _ => ret (None, Fprintf tw ("[INFO] " +:+ what +:+ " " +:+ name +:+ " already exists"))
  end.

(** The next block of a function, unless the last one returned. *)
Definition then_ (m : M W (option Error * list string)) (k : list string -> M W (option Error)) : M W (option Error) :=
  let! (err, tw) := m in
  match err with Some _ => ret err | None => k tw end.

(** [tw.Flush(); return nil]. *)
Definition finish (tw : list string) : M W (option Error) := let! _ := Flush tw in ret None.

Definition CreateIperfHeadlessServices : M W (option Error) :=
  let! ctx := WithTimeout (60 * Second) in
  then_ (ensure (k := KService) "headless service" "service" hostNetworkSvc ctx []) (fun tw =>
  then_ (ensure (k := KService) "headless service" "service" podNetworkSvc ctx tw) finish).

Definition CreateIperfHostNetworkDaemonSet : M W (option Error) :=
  let! ctx := WithTimeout (60 * Second) in
  then_ (ensure (k := KDaemonSet) "daemonset" "daemonset" hostNetworkDS ctx []) finish.

Definition CreateIperfPodNetworkDaemonSet : M W (option Error) :=
  let! ctx := WithTimeout (60 * Second) in
  then_ (ensure (k := KDaemonSet) "daemonset" "daemonset" podNetworkDS ctx []) finish.

Definition CreateIperfRolesAndBindings : M W (option Error) :=
  let! ctx := WithTimeout (60 * Second) in
  then_ (ensure (k := KServiceAccount) "service account" "service account" benchmark_sa ctx []) (fun tw =>
  then_ (ensure (k := KRole) "role" "role" reader_role ctx tw) (fun tw =>
  then_ (ensure (k := KRoleBinding) "role binding" "role binding" role_binding ctx tw) finish)).

Definition CreateIperfBencharkScriptConfigMap : M W (option Error) :=
  let! ctx := WithTimeout (60 * Second) in
  let name := quoted IPERF_BENCHMARK_CONFIG_MAP in
  let fail verb err :=
    let! _ := Flush ["[ERROR] failed to " +:+ verb +:+ " configmap " +:+ name +:+ ": " +:+ ApiErrorString err] in
    ret (Some (Api err)) in
  let! r := Get KConfigMap ctx ns IPERF_BENCHMARK_CONFIG_MAP in
  match r with
  | Err err =>
      if IsNotFound err then
        let! c := Create KConfigMap ctx ns script_config_map in
        match c with
        | Err err => fail "create" err
        | Ok _ => finish ["[INFO] configmap " +:+ name +:+ " created"]
        end
      else fail "get" err
  | Ok _ =>
      let! u := Update KConfigMap ctx ns script_config_map in
      match u with
      | Err err => fail "update" err
      | Ok _ => finish ["[INFO] configmap " +:+ name +:+ " updated"]
      end
  end.

(** ** Waiting for a pod, and its logs *)

Definition GetPodLogs (podName : string) : M W (outcome string) :=
  let! ctx := WithTimeout (30 * Second) in
  let! r := StreamLogs ctx ns podName in
  ret (match r with
       | Err err => Fail (Errorf ("failed to get log stream: " +:+ ApiErrorString err))
       | Ok (Err err) => Fail (Errorf ("failed to read logs: " +:+ ApiErrorString err))
       | Ok (Ok logs) => Return logs
       end).

Fixpoint completion_loop (fuel : nat) (ctx : Context) (podName : string) : M W (outcome string) :=
  match fuel with
  | O => ret (Fail OutOfFuel)
  | S fuel =>
      let! done := Done ctx in
      if done then ret (Fail (Errorf ("timeout waiting for pod " +:+ quoted podName +:+ " to complete")))
      else
        let! r := Get KPod ctx ns podName in
        match r with
        | Err err => ret (Fail (Errorf ("failed to get pod " +:+ quoted podName +:+ ": " +:+ ApiErrorString err)))
        | Ok pod =>
            match Phase pod with
            | PodSucceeded | PodFailed =>
                let! l := GetPodLogs podName in
                ret (match l with
                     | Fail err => Fail (Errorf ("failed to get logs for pod " +:+ quoted podName +:+ ": " +:+ show err))
                     | Return logs => Return logs
                     end)
            | PodPending | PodRunning =>
                let! _ := Sleep (5 * Second) in completion_loop fuel ctx podName
            | PhaseUnknown phase =>
                ret (Fail (Errorf ("pod " +:+ quoted podName +:+ " is in unexpected phase: " +:+ phase)))
            end
        end
  end.

Definition WaitForPodCompletion (fuel : nat) (podName : string) (timeout : Z) : M W (outcome string) :=
  let! ctx := WithTimeout timeout in completion_loop fuel ctx podName.

Definition GetSourceNodeFromPod (podName : string) : M W (outcome string) :=
  let! ctx := WithTimeout (30 * Second) in
  let! r := Get KPod ctx ns podName in
  ret (match r with
       | Err err => Fail (Errorf ("failed to get pod " +:+ quoted podName +:+ ": " +:+ ApiErrorString err))
       | Ok pod => Return (spec_NodeName (pod_spec pod))
       end).

(** ** The results *)

(** The body of the loop over the lines. *)
Definition parse_line (line : string) : option IperfTestResult :=
  let line := TrimSpace line in
  if String.eqb line "" || negb (String.prefix "{" line) then None
  else match UnmarshalResult line with
       | None => None
       | Some result => if String.eqb (it_Destination result) "" then None else Some result
       end.

Definition parse_lines (logs : string) : list IperfTestResult :=
  omap parse_line (Split (ascii_of_nat 10) logs).

(** The error is always nil. *)
Definition ParseBenchmarkLogs (logs : string) (config : BenchmarkConfig) (benchmarkMode sourceNode : string)
    : M W (BenchmarkReport * option Error) :=
  let! now := Now in
  ret ({| br_Timestamp := Format RFC3339 {| instant := now; zone := UTC |};
          br_SourceNode := sourceNode; br_BenchmarkMode := benchmarkMode;
          br_Parallel := NumberOfConnections config; br_Duration := DurationSeconds config;
          br_Results := parse_lines logs |}, None).

Definition result_config_map (name : string) (report : BenchmarkReport) (reportJSON : string) : ConfigMap := {|
  cm_meta := named name
    {["app" := "iperf-benchmark"; "benchmark-mode" := br_BenchmarkMode report;
      "source-node" := br_SourceNode report]};
  Data := {["report.json" := reportJSON]} |}.

Definition CreateBenchmarkResultConfigMap (report : BenchmarkReport) (suffix : string) : M W (option Error) :=
  let! ctx := WithTimeout (60 * Second) in
  match MarshalIndent report with
  | Fail err => ret (Some (Errorf ("failed to marshal report: " +:+ show err)))
  | Return reportJSON =>
      let! now := Now in
      let name := CONFIG_MAP_PREFIX +:+ suffix +:+ "-" +:+ Format "20060102-150405" {| instant := now; zone := Local |} in
      let! c := Create KConfigMap ctx ns (result_config_map name report reportJSON) in
      match c with
      | Err err =>
          let! _ := Flush ["[ERROR] failed to create result configmap " +:+ quoted name +:+ ": " +:+ ApiErrorString err] in
          ret (Some (Api err))
      | Ok _ => finish ["[INFO] benchmark results saved to configmap " +:+ quoted name]
      end
  end.

(** ** The client pods *)

(** [if err := Delete(...); err != nil && !IsNotFound(err) { Fprintf(tw, ...) }]. *)
Definition warn_unless_gone (what : string) (r : result unit) (tw : list string) : list string :=
  match r with
  | Ok _ => tw
  | Err err =>
      if IsNotFound err then tw
      else Fprintf tw ("[WARN] failed to delete " +:+ what +:+ ": " +:+ ApiErrorString err)
  end.

(** The common part of the two functions that create a client pod. *)
Definition replace_pod (pod : Pod) (network : string) : M W (option Error) :=
  let! ctx := WithTimeout (60 * Second) in
  let name := quoted (Name (pod_meta pod)) in
  let! d := Delete KPod ctx ns (Name (pod_meta pod)) in
  let tw := warn_unless_gone ("existing pod " +:+ name) d [] in
  let! _ := Sleep (2 * Second) in
  let! c := Create KPod ctx ns pod in
  match c with
  | Err err =>
      let! _ := Flush (Fprintf tw ("[ERROR] failed to create pod " +:+ name +:+ ": " +:+ ApiErrorString err)) in
      ret (Some (Api err))
  | Ok _ => finish (Fprintf tw ("[INFO] pod " +:+ name +:+ " created for " +:+ network +:+ " network benchmark"))
  end.

Definition CreateIperfHostNetworkBenchmarkPod (config : BenchmarkConfig) : M W (option Error) :=
  replace_pod (host_client config) "host".

Definition CreateIperfPodNetworkBenchmarkPod (config : BenchmarkConfig) : M W (option Error) :=
  replace_pod (pod_client config) "pod".

(** [excludeNodesMap]. *)
Definition excluded_nodes (config : BenchmarkConfig) : gset string :=
  if String.eqb (ExcludeNodes config) "" then ∅
  else list_to_set (map TrimSpace (Split "," (ExcludeNodes config))).

(** The body of the loop over nodes: the buffer and the count of pods created. *)
Definition intra_step (config : BenchmarkConfig) (ctx : Context) (s : list string * Z) (node : Node)
    : M W (list string * Z) :=
  let '(tw, createdCount) := s in
  let nodeName := node_Name node in
  if bool_decide (nodeName ∈ excluded_nodes config) then
    let! _ := Flush (Fprintf tw ("[INFO] skipping excluded node " +:+ quoted nodeName)) in ret ([], createdCount)
  else if Unschedulable node then
    let! _ := Flush (Fprintf tw ("[INFO] skipping unschedulable node " +:+ quoted nodeName)) in ret ([], createdCount)
  else
    let! c := Create KPod ctx ns (intra_client config nodeName) in
    match c with
    | Err err =>
        let! _ := Flush (Fprintf tw ("[ERROR] failed to create intra-node pod on node " +:+ quoted nodeName +:+ ": " +:+ ApiErrorString err)) in
        ret ([], createdCount)
    | Ok _ =>
        let! _ := Flush (Fprintf tw ("[INFO] created intra-node benchmark pod on node " +:+ quoted nodeName)) in
        ret ([], createdCount +! 1)
    end.

Definition CreateIntraNodeBenchmarkPods (config : BenchmarkConfig) : M W (option Error) :=
  let! ctx := WithTimeout (120 * Second) in
  let! r := ListNodes ctx in
  match r with
  | Err err => ret (Some (Errorf ("failed to list nodes: " +:+ ApiErrorString err)))
  | Ok nodes =>
      let! d := DeleteCollection KPod ctx ns intra_pods in
      let tw := warn_unless_gone "existing intra-node pods" d [] in
      let! _ := Sleep (2 * Second) in
      let! (tw, createdCount) := foldM (intra_step config ctx) (tw, 0) nodes in
      if createdCount =? 0 then ret (Some (Errorf "no intra-node benchmark pods were created"))
      else finish (Fprintf tw ("[INFO] created " +:+ FormatInt createdCount +:+ " intra-node benchmark pods"))
  end.

(** ** Waiting for the intra-node pods *)

Definition completed (pod : Pod) : bool :=
  bool_decide (Phase pod = PodSucceeded) || bool_decide (Phase pod = PodFailed).

(** The body of the loop that collects the results of a pod. *)
Definition collect (config : BenchmarkConfig) (tw : list string) (pod : Pod) : M W (list string) :=
  let! l := GetPodLogs (Name (pod_meta pod)) in
  match l with
  | Fail err => ret (Fprintf tw ("[WARN] failed to get logs from pod " +:+ Name (pod_meta pod) +:+ ": " +:+ show err))
  | Return logs =>
      let sourceNode := spec_NodeName (pod_spec pod) in
      let! (report, perr) := ParseBenchmarkLogs logs config "intra_node" sourceNode in
      match perr with
      | Some err => ret (Fprintf tw ("[WARN] failed to parse logs from pod " +:+ Name (pod_meta pod) +:+ ": " +:+ show err))
      | None =>
          match br_Results report with
          | [] => ret tw
          | _ =>
              let! e := CreateBenchmarkResultConfigMap report ("intra-" +:+ sourceNode) in
              ret (match e with
                   | Some err => Fprintf tw ("[WARN] failed to save intra-node results for " +:+ sourceNode +:+ ": " +:+ show err)
                   | None => tw
                   end)
          end
      end
  end.

Fixpoint intra_loop (fuel : nat) (config : BenchmarkConfig) (ctx : Context) : M W (option Error) :=
  match fuel with
  | O => ret (Some OutOfFuel)
  | S fuel =>
      let! done := Done ctx in
      if done then
        let! _ := Flush ["[ERROR] timeout waiting for intra-node benchmark pods"] in
        ret (Some (Errorf "timeout waiting for intra-node benchmark pods"))
      else
        let! r := List KPod ctx ns intra_pods in
        match r with
        | Err err => ret (Some (Errorf ("failed to list intra-node benchmark pods: " +:+ ApiErrorString err)))
        | Ok [] => let! _ := Sleep (2 * Second) in intra_loop fuel config ctx
        | Ok pods =>
            if forallb completed pods then
              let! _ := Flush ["[INFO] all " +:+ FormatInt (Z.of_nat (length pods)) +:+ " intra-node benchmark pods completed"] in
              (* the buffer the loop leaves is dropped *)
              let! _ := foldM (collect config) [] pods in
              ret None
            else
              let! _ := Flush ["[INFO] intra-node benchmark progress: " +:+
                               FormatInt (Z.of_nat (length (List.filter completed pods))) +:+ "/" +:+
                               FormatInt (Z.of_nat (length pods)) +:+ " pods completed"] in
              let! _ := Sleep (5 * Second) in
              intra_loop fuel config ctx
        end
  end.

Definition WaitForIntraNodeBenchmarkCompletion (fuel : nat) (config : BenchmarkConfig) (timeout : Z) : M W (option Error) :=
  let! ctx := WithTimeout timeout in
  let! _ := Flush ["[INFO] waiting for intra-node benchmark pods to complete (timeout: " +:+ DurationString timeout +:+ ")..."] in
  intra_loop fuel config ctx.

(** ** Waiting for the servers *)

Fixpoint daemonset_loop (fuel : nat) (ctx : Context) (name : string) : M W (option Error) :=
  match fuel with
  | O => ret (Some OutOfFuel)
  | S fuel =>
      let! r := Get KDaemonSet ctx ns name in
      match r with
      | Err err => ret (Some (Errorf ("failed to get daemonset " +:+ quoted name +:+ ": " +:+ ApiErrorString err)))
      | Ok ds =>
          if (NumberReady ds =? DesiredNumberScheduled ds) && (0 <? DesiredNumberScheduled ds) then ret None
          else let! _ := Sleep (2 * Second) in daemonset_loop fuel ctx name
      end
  end.

Definition WaitForDaemonSetReady (fuel : nat) (name : string) : M W (option Error) :=
  let! ctx := WithTimeout (120 * Second) in daemonset_loop fuel ctx name.

(** ** Releasing what was created *)

(** The deletions: the warnings they leave in the buffer. *)
Definition release_calls (ctx : Context) : M W (list string) :=
  let! d := Delete KPod ctx ns IPERF_CLIENT_HOSTNETWORK_NAME in
  let tw := warn_unless_gone ("pod " +:+ quoted IPERF_CLIENT_HOSTNETWORK_NAME) d [] in
  let! d := Delete KPod ctx ns IPERF_CLIENT_PODNETWORK_NAME in
  let tw := warn_unless_gone ("pod " +:+ quoted IPERF_CLIENT_PODNETWORK_NAME) d tw in
  let! d := DeleteCollection KPod ctx ns intra_pods in
  let tw := warn_unless_gone "intra-node benchmark pods" d tw in
  let! d := Delete KDaemonSet ctx ns IPERF_SERVERS_HN_DAEMONSET_NAME in
  let tw := warn_unless_gone ("daemonset " +:+ quoted IPERF_SERVERS_HN_DAEMONSET_NAME) d tw in
  let! d := Delete KDaemonSet ctx ns IPERF_SERVERS_PN_DAEMONSET_NAME in
  let tw := warn_unless_gone ("daemonset " +:+ quoted IPERF_SERVERS_PN_DAEMONSET_NAME) d tw in
  let! d := Delete KService ctx ns PODNETWORK_HEADLESS_SERVICE_NAME in
  let tw := warn_unless_gone ("service " +:+ quoted PODNETWORK_HEADLESS_SERVICE_NAME) d tw in
  let! d := Delete KService ctx ns HOSTNETWORK_HEADLESS_SERVICE_NAME in
  ret (warn_unless_gone ("service " +:+ quoted HOSTNETWORK_HEADLESS_SERVICE_NAME) d tw).

Definition ReleaseBenchmarkResources : M W (option Error) :=
  let! ctx := WithTimeout (60 * Second) in
  let! tw := release_calls ctx in
  finish (Fprintf tw "[INFO] benchmark resources cleanup completed").

(** ** The whole benchmark *)

Definition benchmarkTimeout : Z := 20 * Minute.

(** [if err := m; err != nil { print; return err }], then the rest. *)
Definition check (m : M W (option Error)) (msg : string) (k : M W (option Error)) : M W (option Error) :=
  let! e := m in
  match e with
  | Some err => let! _ := Flush ["[ERROR] " +:+ msg +:+ ": " +:+ show err] in ret e
  | None => k
  end.

Definition say (msg : string) (k : M W (option Error)) : M W (option Error) := let! _ := Flush [msg] in k.

(** Latest results of a mode; the error is ignored. *)
Definition show_latest (mode : string) : M W unit :=
  let! _ := ListBenchmarksWithFilter Background
              {| Latest := true; Today := false; Mode := mode; NodeName := ""; Limit := 0 |} in
  ret tt.

(** The part the host and the pod network benchmarks share, from the creation of
    the client pod to the listing of its results. *)
Definition network_benchmark (fuel : nat) (config : BenchmarkConfig) (network podName : string)
    (create : M W (option Error)) (k : M W (option Error)) : M W (option Error) :=
  say ("[INFO] starting " +:+ network +:+ " network benchmark...")
  (check create ("failed to create " +:+ network +:+ " network benchmark pod") (
  let! s := GetSourceNodeFromPod podName in
  let '(sourceNode, tw) :=
    match s with
    | Fail err => ("unknown", ["[WARN] failed to get source node for " +:+ network +:+ " network benchmark: " +:+ show err])
    | Return n => (n, [])
    end in
  let! _ := Flush (Fprintf tw ("[INFO] waiting for " +:+ network +:+ " network benchmark to complete (timeout: " +:+
                               DurationString benchmarkTimeout +:+ ")...")) in
  let! l := WaitForPodCompletion fuel podName benchmarkTimeout in
  match l with
  | Fail err =>
      let! _ := Flush ["[ERROR] " +:+ network +:+ " network benchmark failed: " +:+ show err] in ret (Some err)
  | Return logs =>
      let! (report, perr) := ParseBenchmarkLogs logs config (network +:+ "_network") sourceNode in
      let! tw :=
        match perr with
        | Some err => ret ["[WARN] failed to parse " +:+ network +:+ " network benchmark logs: " +:+ show err]
        | None =>
            let! e := CreateBenchmarkResultConfigMap report network in
            ret (match e with
                 | Some err => ["[WARN] failed to save " +:+ network +:+ " network benchmark results: " +:+ show err]
                 | None => []
                 end)
        end in
      let! _ := Flush (Fprintf tw ("[INFO] " +:+ network +:+ " network benchmark completed with " +:+
                                   FormatInt (Z.of_nat (length (br_Results report))) +:+ " results")) in
      let! _ := show_latest network in
      k
  end)).

(** [CreateNewBenchmark] from the line after [defer]. *)
Definition after_defer (fuel : nat) (config : BenchmarkConfig) : M W (option Error) :=
  check CreateIperfPodNetworkDaemonSet "failed to create pod network daemonset" (
  say "[INFO] waiting for iperf server pods to be ready..." (
  check (WaitForDaemonSetReady fuel IPERF_SERVERS_HN_DAEMONSET_NAME) "host network daemonset pods not ready" (
  check (WaitForDaemonSetReady fuel IPERF_SERVERS_PN_DAEMONSET_NAME) "pod network daemonset pods not ready" (
  say "[INFO] iperf server host/pod networks daemonsets are ready" (
  check CreateIperfRolesAndBindings "failed to create roles and bindings" (
  say "[INFO] iperf roles and bindings created successfully" (
  check CreateIperfBencharkScriptConfigMap "failed to create benchmark script configmap" (
  say "[INFO] benchmark script configmap created successfully" (
  network_benchmark fuel config "host" IPERF_CLIENT_HOSTNETWORK_NAME (CreateIperfHostNetworkBenchmarkPod config) (
  network_benchmark fuel config "pod" IPERF_CLIENT_PODNETWORK_NAME (CreateIperfPodNetworkBenchmarkPod config) (
  say "[INFO] starting intra-node benchmark..." (
  check (CreateIntraNodeBenchmarkPods config) "failed to create intra-node benchmark pods" (
  check (WaitForIntraNodeBenchmarkCompletion fuel config benchmarkTimeout) "intra-node benchmark failed" (
  say "[INFO] intra-node benchmark completed" (
  let! _ := show_latest "intra" in
  finish ["[INFO] all benchmarks completed successfully"]))))))))))))))).

Definition CreateNewBenchmark (fuel : nat) (config : BenchmarkConfig) : M W (option Error) :=
  say "[INFO] starting benchmark setup..." (
  check CreateIperfHeadlessServices "failed to create headless services" (
  say "[INFO] headless services created successfully" (
  check CreateIperfHostNetworkDaemonSet "failed to create host network daemonset" (
  let! e := after_defer fuel config in
  let! _ := ReleaseBenchmarkResources in
  ret e)))).

(** ** The commands *)

Definition default_conn : Z := 4.
Definition default_duration : Z := 10.
Definition default_exclude : string := "metal-01.he-eu-hel1.misc.vacdst".

(** [create], with the values of its flags. *)
Definition create_action (fuel : nat) (conn duration : Z) (exclude : string) : M W (option Error) :=
  CreateNewBenchmark fuel
    {| NumberOfConnections := conn; DurationSeconds := duration; ExcludeNodes := exclude |}.

(** [get], with the values of its flags. *)
Definition get_action (latest today : bool) (mode node : string) (limit : Z) : M W (option Error) :=
  let! ctx := WithTimeout (30 * Second) in
  ListBenchmarksWithFilter ctx
    {| Latest := latest; Today := today; Mode := mode; NodeName := node; Limit := limit |}.

End Bench.

(** The turns a wait of [timeout] can take when each turn but the last sleeps
    for [interval]. *)
Definition turns (timeout interval : Z) : nat := Z.to_nat (timeout / interval + 2).

(** Enough for every wait: twenty minutes in sleeps of two seconds. *)
Definition wait_fuel : nat := turns benchmarkTimeout (2 * Second).
