(* ===== verification/HealthProofs.v ===== *)
(** * Benchmarks: lemmas

    Relations every operation keeps ([keeps]); the waits end within their fuel;
    creating functions only add objects and the release only removes them; where
    the intra-node pods are; the listing's orders, its pass over the newest results
    and what the summaries of nodes count. *)

From stdpp Require Import sorting.
From S2P Require Import Prelude.
From S2P Require Import GoSort.
From S2P Require Import GoStrings.
From S2P Require Import GoFmt.
From S2P Require Import HealthTypes.
From S2P Require Import HealthApi.
From S2P Require Import HealthList.
From S2P Require Import HealthBench.

(** ** Relations between the worlds before and after *)

Definition keeps {W A} (R : W -> W -> Prop) (m : M W A) : Prop := forall w, R w (m w).2.

Create HintDb keeps.

Section Keeps.
Context {W : Type} (R : W -> W -> Prop) `{!PreOrder R}.

Lemma keeps_ret {A} (a : A) : keeps R (ret a).
Proof. intros w. reflexivity. Qed.

Lemma keeps_bind {A B} (m : M W A) (k : A -> M W B) :
  keeps R m -> (forall a, keeps R (k a)) -> keeps R (bind m k).
Proof. intros Hm Hk w. rewrite bind_eq. etransitivity; [apply Hm|apply Hk]. Qed.

Lemma keeps_foldM {A S} (body : S -> A -> M W S) s l :
  (forall s a, keeps R (body s a)) -> keeps R (foldM body s l).
Proof.
  intros Hb. revert s. induction l as [|a l IH]; intros s; [apply keeps_ret|].
  apply keeps_bind; [apply Hb|intros s'; apply IH].
Qed.

End Keeps.

(** Takes a program apart and closes the calls by the hints of the database. *)
Ltac keeps :=
  repeat first
    [ progress intros
    | solve [eauto with keeps]
    | apply keeps_ret; apply _
    | apply keeps_bind; [apply _| |]
    | apply keeps_foldM; [apply _|]
    | case_match ].

(** ** The clock *)

Section Clock.
Context {W : Type} {CS : Clientset W} {clock : W -> Z} {CK : ClockLaws W clock} {CD : Codec} {GS : GoSort}.

Definition forth (w w' : W) : Prop := clock w <= clock w'.

#[export] Instance forth_preorder : PreOrder forth.
Proof. unfold forth. split; [intros w; lia|intros w1 w2 w3; lia]. Qed.

Lemma forth_now : keeps forth Now.
Proof. intros w. by apply now_clock. Qed.
Lemma forth_output ls : keeps forth (Output ls).
Proof. intros w. apply output_clock. Qed.
Lemma forth_sleep d : 0 <= d -> keeps forth (Sleep d).
Proof. intros Hd w. unfold forth. pose proof (sleep_clock d w). lia. Qed.
Lemma forth_get k ctx n name : keeps forth (Get k ctx n name).
Proof. intros w. apply get_clock. Qed.
Lemma forth_list k ctx n sel : keeps forth (List k ctx n sel).
Proof. intros w. apply list_clock. Qed.

Lemma forth_flush ls : keeps forth (Flush ls).
Proof. apply keeps_bind; [apply _|apply forth_output|]. intros. apply keeps_ret, _. Qed.

Lemma bind_snd {A B} (m : M W A) (k : A -> M W B) w : (bind m k w).2 = (k (m w).1 (m w).2).2.
Proof. by rewrite bind_eq. Qed.

(** The end of a wait: [left] turns of [interval] reach the deadline. *)
Definition reaches (t interval : Z) (fuel : nat) (w : W) : Prop :=
  (1 <= fuel)%nat /\ t - clock w <= interval * (Z.of_nat fuel - 1).

Lemma reaches_expired ctx t interval w : deadline ctx = Some t -> reaches t interval 1 w ->
  expired ctx (clock w) = true.
Proof. intros Hd [_ Hr]. unfold expired. rewrite Hd. apply Z.leb_le. lia. Qed.

Lemma reaches_mono t interval fuel w w' : forth w w' -> reaches t interval fuel w -> reaches t interval fuel w'.
Proof. unfold forth. intros Hw [H1 H2]. split; [done|lia]. Qed.

Lemma reaches_next t interval d fuel w w' : interval <= d -> clock w + d <= clock w' -> (1 <= fuel)%nat ->
  reaches t interval (S fuel) w -> reaches t interval fuel w'.
Proof. intros Hd Hw Hf [H1 H2]. split; [done|]. nia. Qed.

Lemma expired_forth ctx w w' : forth w w' -> expired ctx (clock w) = true -> expired ctx (clock w') = true.
Proof. unfold forth, expired. destruct (deadline ctx); [|done]. rewrite !Z.leb_le. lia. Qed.

Lemma Done_eq ctx w : Done ctx w = (expired ctx (clock (Now w).2), (Now w).2).
Proof. unfold Done. rewrite bind_eq. unfold ret. by rewrite (proj1 (now_clock w)). Qed.

Lemma WithTimeout_eq d w : WithTimeout d w = ({| deadline := Some (clock (Now w).2 + d) |}, (Now w).2).
Proof. unfold WithTimeout. rewrite bind_eq. unfold ret. by rewrite (proj1 (now_clock w)). Qed.

(** A turn that sleeps leaves the loop a turn to spare. *)
Lemma sleep_reaches t interval d fuel w w' : 0 <= interval <= d -> forth w w' ->
  (fuel = O -> clock w' < t) -> reaches t interval (S fuel) w ->
  reaches t interval fuel (Sleep d w').2.
Proof.
  intros Hd Hw Ht Hr. pose proof (sleep_clock d w') as Hs. unfold forth in Hw.
  apply (reaches_next _ _ d _ w); [lia|lia| |done].
  destruct fuel; [|lia]. destruct Hr as [_ Hr]. specialize (Ht eq_refl). lia.
Qed.

Lemma alive ctx t w : deadline ctx = Some t -> expired ctx (clock w) = false -> clock w < t.
Proof. intros Hd. unfold expired. rewrite Hd. apply Z.leb_gt. Qed.

(** ** The waits end *)

(** Any two fuels that reach the deadline give the same run, and it does not run
    out of fuel. *)
Lemma completion_loop_ends ctx t name fuel fuel' w : deadline ctx = Some t ->
  reaches t (5 * Second) fuel w -> reaches t (5 * Second) fuel' w ->
  completion_loop fuel ctx name w = completion_loop fuel' ctx name w /\
  (completion_loop fuel ctx name w).1 <> Fail OutOfFuel.
Proof.
  intros Hd. revert fuel' w. induction fuel as [|fuel IH]; intros fuel' w Hr Hr'; [destruct Hr; lia|].
  destruct fuel' as [|fuel']; [destruct Hr'; lia|].
  cbn [completion_loop]. rewrite !(bind_eq (Done ctx)), Done_eq. cbn [fst snd].
  set (w1 := (Now w).2). assert (forth w w1) as Hw1 by apply forth_now.
  destruct (expired ctx (clock w1)) eqn:Hexp; [done|]. rewrite !bind_eq.
  destruct (Get KPod ctx ns name w1) as [[pod|e] w2] eqn:Hget; cbn [fst snd]; [|done].
  assert (forth w1 w2) as Hw2 by (pose proof (forth_get KPod ctx ns name w1) as Hf; by rewrite Hget in Hf).
  assert (forth w w2) as Hw by (by transitivity w1).
  assert (forall fu : nat, fu = O -> reaches t (5 * Second) (S fu) w -> False) as H0.
  { intros ? -> Hr0. pose proof (reaches_mono _ _ _ _ _ Hw1 Hr0) as Hr1.
    rewrite (reaches_expired ctx t (5 * Second) w1) in Hexp; done. }
  destruct (Phase pod); try (rewrite !bind_eq; cbn [fst snd]); try done.
  1, 2: apply IH; (eapply sleep_reaches; [split; [done|reflexivity]|exact Hw| |done]);
    intros E; destruct (H0 _ E ltac:(done)).
  all: split; [done|]; by destruct (GetPodLogs name w2) as [[] ?].
Qed.

Lemma daemonset_loop_ends ctx t name fuel fuel' w : deadline ctx = Some t ->
  reaches t (2 * Second) fuel w -> reaches t (2 * Second) fuel' w ->
  daemonset_loop fuel ctx name w = daemonset_loop fuel' ctx name w /\
  (daemonset_loop fuel ctx name w).1 <> Some OutOfFuel.
Proof.
  intros Hd. revert fuel' w. induction fuel as [|fuel IH]; intros fuel' w Hr Hr'; [destruct Hr; lia|].
  destruct fuel' as [|fuel']; [destruct Hr'; lia|].
  cbn [daemonset_loop]. rewrite !bind_eq.
  destruct (Get KDaemonSet ctx ns name w) as [[ds|e] w1] eqn:Hget; cbn [fst snd]; [|done].
  assert (forth w w1) as Hw by (pose proof (forth_get KDaemonSet ctx ns name w) as Hf; by rewrite Hget in Hf).
  assert (forall fu : nat, fu = O -> reaches t (2 * Second) (S fu) w -> False) as H0.
  { intros ? -> Hr0. destruct (get_expired KDaemonSet ctx ns name w) as [e He]; [|by rewrite Hget in He].
    by apply (reaches_expired ctx t (2 * Second)). }
  destruct (_ && _); [done|]. rewrite !bind_eq.
  apply IH; (eapply sleep_reaches; [split; [done|reflexivity]|exact Hw| |done]);
    intros E; destruct (H0 _ E ltac:(done)).
Qed.

Lemma intra_loop_ends config ctx t fuel fuel' w : deadline ctx = Some t ->
  reaches t (2 * Second) fuel w -> reaches t (2 * Second) fuel' w ->
  intra_loop fuel config ctx w = intra_loop fuel' config ctx w /\
  (intra_loop fuel config ctx w).1 <> Some OutOfFuel.
Proof.
  intros Hd. revert fuel' w. induction fuel as [|fuel IH]; intros fuel' w Hr Hr'; [destruct Hr; lia|].
  destruct fuel' as [|fuel']; [destruct Hr'; lia|].
  cbn [intra_loop]. rewrite !(bind_eq (Done ctx)), Done_eq. cbn [fst snd].
  set (w1 := (Now w).2). assert (forth w w1) as Hw1 by apply forth_now.
  destruct (expired ctx (clock w1)) eqn:Hexp; [by rewrite !bind_eq|]. rewrite !bind_eq.
  destruct (List KPod ctx ns intra_pods w1) as [[pods|e] w2] eqn:Hl; cbn [fst snd]; [|done].
  assert (forth w1 w2) as Hw2 by (pose proof (forth_list KPod ctx ns intra_pods w1) as Hf; by rewrite Hl in Hf).
  assert (forth w w2) as Hw by (by transitivity w1).
  assert (forall fu : nat, fu = O -> reaches t (2 * Second) (S fu) w -> False) as H0.
  { intros ? -> Hr0. pose proof (reaches_mono _ _ _ _ _ Hw1 Hr0) as Hr1.
    rewrite (reaches_expired ctx t (2 * Second) w1) in Hexp; done. }
  destruct pods as [|p pods].
  - rewrite !bind_eq.
    apply IH; (eapply sleep_reaches; [split; [done|reflexivity]|exact Hw| |done]);
      intros E; destruct (H0 _ E ltac:(done)).
  - destruct (forallb completed (p :: pods)); [by rewrite !bind_eq|]. rewrite !bind_eq.
    set (w3 := (Flush _ w2).2). assert (forth w w3) as Hw3 by (transitivity w2; [done|apply forth_flush]).
    apply IH; (eapply sleep_reaches; [|exact Hw3| |done]); try (unfold Second; lia);
      intros E; destruct (H0 _ E ltac:(done)).
Qed.

(** ** The whole benchmark ends *)

Lemma reaches_start d interval fuel w : 0 < interval -> 0 <= d -> (turns d interval <= fuel)%nat ->
  reaches (clock w + d) interval fuel w.
Proof.
  intros Hi Hd Hf. unfold turns in Hf. pose proof (Z.div_pos d interval Hd Hi).
  pose proof (Z.mul_succ_div_gt d interval Hi). split; [lia|]. nia.
Qed.

(** Two programs that do the same and do not run out of fuel. *)
Definition same_run (m m' : M W (option Error)) : Prop :=
  forall w, m w = m' w /\ (m w).1 <> Some OutOfFuel.

(** No error of the program is [OutOfFuel]. *)
Definition in_time (m : M W (option Error)) : Prop := forall w, (m w).1 <> Some OutOfFuel.

Lemma in_time_same m : in_time m -> same_run m m.
Proof. intros Hm w. split; [done|apply Hm]. Qed.

Lemma same_run_bind {A} (m : M W A) k k' : (forall a, same_run (k a) (k' a)) -> same_run (bind m k) (bind m k').
Proof. intros Hk w. rewrite !bind_eq. apply Hk. Qed.

Lemma same_run_ret e : e <> Some OutOfFuel -> same_run (ret e) (ret e).
Proof. intros He w. by split. Qed.

Lemma same_run_check m m' msg k k' : same_run m m' -> same_run k k' -> same_run (check m msg k) (check m' msg k').
Proof.
  intros Hm Hk w. unfold check. destruct (Hm w) as [Heq Hne]. rewrite !bind_eq, <- Heq.
  destruct ((m w).1) as [e|] eqn:E; [|apply Hk]. by rewrite !bind_eq.
Qed.

Lemma same_run_say msg k k' : same_run k k' -> same_run (say msg k) (say msg k').
Proof. intros Hk. by apply same_run_bind. Qed.

Lemma in_time_bind {A} (m : M W A) k : (forall a, in_time (k a)) -> in_time (bind m k).
Proof. intros Hk w. rewrite bind_eq. apply Hk. Qed.

Lemma in_time_ret e : e <> Some OutOfFuel -> in_time (ret e).
Proof. intros He w. exact He. Qed.

Lemma in_time_finish tw : in_time (finish tw).
Proof. apply in_time_bind. intros. by apply in_time_ret. Qed.

Lemma ensure_error {k} what what_get (o : object k) ctx tw w :
  (ensure what what_get o ctx tw w).1.1 <> Some OutOfFuel.
Proof.
  unfold ensure. rewrite bind_eq. destruct ((Get _ _ _ _ w).1) as [|e]; [done|].
  destruct (IsNotFound e); rewrite bind_eq; [|done]. destruct ((Create _ _ _ _ _).1); [done|].
  by rewrite bind_eq.
Qed.

Lemma in_time_then {k} what what_get (o : object k) ctx tw next : (forall tw, in_time (next tw)) ->
  in_time (then_ (ensure what what_get o ctx tw) next).
Proof.
  intros Hn w. unfold then_. rewrite bind_eq. pose proof (ensure_error what what_get o ctx tw w) as He.
  destruct ((ensure what what_get o ctx tw w).1) as [[e|] tw']; [done|apply Hn].
Qed.

Lemma in_time_services : in_time CreateIperfHeadlessServices.
Proof. apply in_time_bind. intros ctx. do 2 (apply in_time_then; intros ?). apply in_time_finish. Qed.
Lemma in_time_host_ds : in_time CreateIperfHostNetworkDaemonSet.
Proof. apply in_time_bind. intros ctx. apply in_time_then. intros. apply in_time_finish. Qed.
Lemma in_time_pod_ds : in_time CreateIperfPodNetworkDaemonSet.
Proof. apply in_time_bind. intros ctx. apply in_time_then. intros. apply in_time_finish. Qed.
Lemma in_time_roles : in_time CreateIperfRolesAndBindings.
Proof. apply in_time_bind. intros ctx. do 3 (apply in_time_then; intros ?). apply in_time_finish. Qed.

Lemma in_time_script : in_time CreateIperfBencharkScriptConfigMap.
Proof.
  apply in_time_bind. intros ctx. apply in_time_bind. intros [?|e]; [|destruct (IsNotFound e)];
    repeat first [apply in_time_finish | apply in_time_bind; intros [?|?] | apply in_time_bind; intros ?
                 | by apply in_time_ret].
Qed.

Lemma in_time_replace pod network : in_time (replace_pod pod network).
Proof.
  do 3 (apply in_time_bind; intros ?). apply in_time_bind. intros [?|e]; [apply in_time_finish|].
  apply in_time_bind. intros. by apply in_time_ret.
Qed.

Lemma in_time_intra config : in_time (CreateIntraNodeBenchmarkPods config).
Proof.
  apply in_time_bind. intros ctx. apply in_time_bind. intros [nodes|e]; [|by apply in_time_ret].
  do 2 (apply in_time_bind; intros ?). apply in_time_bind. intros [tw n].
  destruct (n =? 0); [by apply in_time_ret|apply in_time_finish].
Qed.

Lemma turns_le d d' i i' : 0 < i' <= i -> 0 <= d <= d' -> (turns d i <= turns d' i')%nat.
Proof.
  intros Hi Hd. unfold turns. assert (d / i <= d' / i'); [|lia].
  transitivity (d / i'); [apply Z.div_le_compat_l; lia|apply Z.div_le_mono; lia].
Qed.

Lemma fuel_reaches d i fuel w : 2 * Second <= i -> 0 <= d <= benchmarkTimeout -> (wait_fuel <= fuel)%nat ->
  reaches (clock w + d) i fuel w.
Proof.
  intros Hi Hd Hf. unfold Second in Hi. apply reaches_start; [lia|lia|]. etransitivity; [|exact Hf].
  apply turns_le; [unfold Second; lia|done].
Qed.

Lemma wait_pod_ends fuel name : (wait_fuel <= fuel)%nat ->
  forall w, WaitForPodCompletion fuel name benchmarkTimeout w = WaitForPodCompletion wait_fuel name benchmarkTimeout w /\
    (WaitForPodCompletion fuel name benchmarkTimeout w).1 <> Fail OutOfFuel.
Proof.
  intros Hf w. unfold WaitForPodCompletion. rewrite !bind_eq, WithTimeout_eq. cbn [fst snd].
  eapply completion_loop_ends; [done|by apply fuel_reaches..].
Qed.

Lemma wait_ds_ends fuel name : (wait_fuel <= fuel)%nat ->
  same_run (WaitForDaemonSetReady fuel name) (WaitForDaemonSetReady wait_fuel name).
Proof.
  intros Hf w. unfold WaitForDaemonSetReady. rewrite !bind_eq, WithTimeout_eq. cbn [fst snd].
  eapply daemonset_loop_ends; [done|by apply fuel_reaches..].
Qed.

Lemma wait_intra_ends fuel config : (wait_fuel <= fuel)%nat ->
  same_run (WaitForIntraNodeBenchmarkCompletion fuel config benchmarkTimeout)
           (WaitForIntraNodeBenchmarkCompletion wait_fuel config benchmarkTimeout).
Proof.
  intros Hf w. unfold WaitForIntraNodeBenchmarkCompletion. rewrite !(bind_eq (WithTimeout _)), WithTimeout_eq.
  cbn [fst snd]. rewrite !bind_eq.
  eapply intra_loop_ends; [done|eapply reaches_mono; [apply forth_flush|by apply fuel_reaches]..].
Qed.

Lemma network_benchmark_ends fuel config network name create k k' : (wait_fuel <= fuel)%nat ->
  in_time create -> same_run k k' ->
  same_run (network_benchmark fuel config network name create k)
           (network_benchmark wait_fuel config network name create k').
Proof.
  intros Hf Hc Hk. apply same_run_say, same_run_check; [by apply in_time_same|].
  apply same_run_bind. intros s. set (p := match s with Return _ => _ | Fail _ => _ end). destruct p as [node tw].
  apply same_run_bind. intros _ w. destruct (wait_pod_ends fuel name Hf w) as [Heq Hne].
  rewrite !(bind_eq (WaitForPodCompletion _ _ _)), <- Heq. revert Hne.
  destruct ((WaitForPodCompletion fuel name benchmarkTimeout w).1) as [logs|e]; intros Hne.
  - revert w Heq. intros w _. apply same_run_bind. intros [report perr].
    apply same_run_bind. intros tw'. by do 2 (apply same_run_bind; intros _).
  - rewrite !bind_eq. split; [done|]. cbn. congruence.
Qed.

Lemma after_defer_ends fuel config : (wait_fuel <= fuel)%nat ->
  same_run (after_defer fuel config) (after_defer wait_fuel config).
Proof.
  intros Hf. unfold after_defer.
  repeat first
    [ apply network_benchmark_ends; [done|apply in_time_replace|]
    | apply same_run_say
    | apply same_run_check
    | by apply wait_ds_ends
    | by apply wait_intra_ends
    | apply in_time_same; first [apply in_time_pod_ds | apply in_time_roles | apply in_time_script | apply in_time_intra]
    | apply same_run_bind; intros _; apply in_time_same, in_time_finish ].
Qed.

End Clock.

(** ** The objects *)

Section Objects.
Context {W : Type} {CS : Clientset W} {view : W -> View} {OL : ObjectLaws W view} {CD : Codec} {GS : GoSort}.

Definition grows (w w' : W) : Prop := forall k, view w k ⊆ view w' k.
Definition shrinks (w w' : W) : Prop := forall k, view w' k ⊆ view w k.

#[export] Instance grows_preorder : PreOrder grows.
Proof. split; [intros w k; done|]. intros w1 w2 w3 H1 H2 k. etransitivity; eauto. Qed.

#[export] Instance shrinks_preorder : PreOrder shrinks.
Proof. split; [intros w k; done|]. intros w1 w2 w3 H1 H2 k. etransitivity; eauto. Qed.

Lemma same_grows w w' : same (view w) (view w') -> grows w w'.
Proof. intros Hs k. by rewrite Hs. Qed.

Lemma grows_now : keeps grows Now.
Proof. intros w. apply same_grows, now_view. Qed.
Lemma grows_output ls : keeps grows (Output ls).
Proof. intros w. apply same_grows, output_view. Qed.
Lemma grows_get k ctx n name : keeps grows (Get k ctx n name).
Proof. intros w. apply same_grows, get_view. Qed.

Lemma grows_create k ctx n o : keeps grows (Create k ctx n o).
Proof.
  intros w k'. destruct (decide (k' = k)) as [->|Hne]; [|by rewrite (create_other k ctx n o w k' Hne)].
  destruct ((Create k ctx n o w).1) as [o'|e] eqn:E.
  - apply create_ok in E as [Hn (s & _ & ->)]. by apply insert_subseteq.
  - apply create_err in E as [->|[Hn (s & _ & ->)]]; [done|]. by apply insert_subseteq.
Qed.

Local Hint Resolve grows_now grows_output grows_get grows_create : keeps.

Lemma grows_flush ls : keeps grows (Flush ls).
Proof. unfold Flush. keeps. Qed.
Local Hint Resolve grows_flush : keeps.

Lemma grows_ensure {k} what what_get (o : object k) ctx tw : keeps grows (ensure what what_get o ctx tw).
Proof. unfold ensure. keeps. Qed.

Lemma grows_then {k} what what_get (o : object k) ctx tw next : (forall tw, keeps grows (next tw)) ->
  keeps grows (then_ (ensure what what_get o ctx tw) next).
Proof. intros Hn. apply keeps_bind; [apply _|apply grows_ensure|]. intros [[e|] tw']; [apply keeps_ret, _|apply Hn]. Qed.

Lemma grows_finish tw : keeps grows (finish tw).
Proof. unfold finish. keeps. Qed.

Lemma grows_check m msg k : keeps grows m -> keeps grows k -> keeps grows (check m msg k).
Proof. intros. unfold check. keeps. Qed.

Lemma grows_say msg k : keeps grows k -> keeps grows (say msg k).
Proof. intros. unfold say. keeps. Qed.

(** The part of [CreateNewBenchmark] before [defer]. *)
Definition setup : M W (option Error) :=
  say "[INFO] starting benchmark setup..." (
  check CreateIperfHeadlessServices "failed to create headless services" (
  say "[INFO] headless services created successfully" (
  check CreateIperfHostNetworkDaemonSet "failed to create host network daemonset" (ret None)))).

Lemma grows_timeout d : keeps grows (WithTimeout d).
Proof. unfold WithTimeout. keeps. Qed.

Lemma grows_setup : keeps grows setup.
Proof.
  apply grows_say, grows_check; [|apply grows_say, grows_check; [|apply keeps_ret, _]].
  - apply keeps_bind; [apply _|apply grows_timeout|]. intros ctx. do 2 (apply grows_then; intros ?). apply grows_finish.
  - apply keeps_bind; [apply _|apply grows_timeout|]. intros ctx. apply grows_then. intros. apply grows_finish.
Qed.

Lemma check_eq m msg k w : check m msg k w =
  match (m w).1 with
  | Some e => ((m w).1, (Flush ["[ERROR] " +:+ msg +:+ ": " +:+ show e] (m w).2).2)
  | None => k (m w).2
  end.
Proof. unfold check. rewrite bind_eq. destruct ((m w).1); [by rewrite bind_eq|done]. Qed.

Lemma CreateNewBenchmark_eq fuel config w : CreateNewBenchmark fuel config w =
  match (setup w).1 with
  | Some _ => setup w
  | None => let r := after_defer fuel config (setup w).2 in (r.1, (ReleaseBenchmarkResources r.2).2)
  end.
Proof.
  unfold CreateNewBenchmark, setup, say. rewrite !(bind_eq (Flush _)), !check_eq.
  destruct ((CreateIperfHeadlessServices _).1); [done|]. rewrite !(bind_eq (Flush _)), !check_eq.
  destruct ((CreateIperfHostNetworkDaemonSet _).1); [done|]. cbn. by rewrite !bind_eq.
Qed.

(** ** The release *)

Lemma shrinks_delete k ctx n w : shrinks w (Delete k ctx ns n w).2.
Proof.
  intros k'. destruct (decide (k' = k)) as [->|Hne]; [|by rewrite (delete_other k ctx ns n w k' Hne)].
  destruct ((Delete k ctx ns n w).1) as [[]|e] eqn:E.
  - apply delete_ok in E as ->. apply delete_subseteq.
  - by apply delete_err in E.
Qed.

Lemma shrinks_collection k ctx sel w : shrinks w (DeleteCollection k ctx ns sel w).2.
Proof.
  intros k'. destruct (decide (k' = k)) as [->|Hne]; [apply collection_sub|].
  by rewrite (collection_other k ctx ns sel w k' Hne).
Qed.

(** No warning is added only when the object is gone. *)
Lemma no_warning what r tw : warn_unless_gone what r tw = [] -> tw = [] /\ (r = Ok tt \/ r = Err NotFound).
Proof.
  unfold warn_unless_gone, IsNotFound. destruct r as [[]|e]; [by auto|].
  case_bool_decide; [subst; by auto|]. unfold Fprintf. by destruct tw.
Qed.

Definition absent (k : Kind) (n : string) (w : W) : Prop := view w k !! (ns, n) = None.
Definition no_intra_pods (w : W) : Prop :=
  forall n p, view w KPod !! (ns, n) = Some p -> matches intra_pods (Labels (pod_meta p)) = false.

Lemma absent_shrinks k n w w' : shrinks w w' -> absent k n w -> absent k n w'.
Proof. intros Hs Ha. eapply lookup_weaken_None; [exact Ha|apply Hs]. Qed.

Lemma no_intra_shrinks w w' : shrinks w w' -> no_intra_pods w -> no_intra_pods w'.
Proof. intros Hs Hn n p Hp. apply (Hn n p). eapply lookup_weaken; [exact Hp|exact (Hs KPod)]. Qed.

Lemma delete_gone k ctx n w r : r = (Delete k ctx ns n w).1 -> r = Ok tt \/ r = Err NotFound ->
  absent k n (Delete k ctx ns n w).2.
Proof.
  unfold absent. intros -> [E|E].
  - apply delete_ok in E as ->. apply lookup_delete_eq.
  - by apply delete_absent in E as [? ->].
Qed.

(** What a benchmark creates and the release deletes. *)
Definition nothing_left (w : W) : Prop :=
  absent KPod IPERF_CLIENT_HOSTNETWORK_NAME w /\ absent KPod IPERF_CLIENT_PODNETWORK_NAME w /\
  no_intra_pods w /\
  absent KDaemonSet IPERF_SERVERS_HN_DAEMONSET_NAME w /\ absent KDaemonSet IPERF_SERVERS_PN_DAEMONSET_NAME w /\
  absent KService PODNETWORK_HEADLESS_SERVICE_NAME w /\ absent KService HOSTNETWORK_HEADLESS_SERVICE_NAME w.

Lemma release_calls_gone ctx w : (release_calls ctx w).1 = [] -> nothing_left (release_calls ctx w).2.
Proof.
  unfold release_calls. rewrite !bind_eq.
  set (w1 := (Delete KPod ctx ns IPERF_CLIENT_HOSTNETWORK_NAME w).2).
  set (w2 := (Delete KPod ctx ns IPERF_CLIENT_PODNETWORK_NAME w1).2).
  set (w3 := (DeleteCollection KPod ctx ns intra_pods w2).2).
  set (w4 := (Delete KDaemonSet ctx ns IPERF_SERVERS_HN_DAEMONSET_NAME w3).2).
  set (w5 := (Delete KDaemonSet ctx ns IPERF_SERVERS_PN_DAEMONSET_NAME w4).2).
  set (w6 := (Delete KService ctx ns PODNETWORK_HEADLESS_SERVICE_NAME w5).2).
  set (w7 := (Delete KService ctx ns HOSTNETWORK_HEADLESS_SERVICE_NAME w6).2). cbn [fst snd ret].
  assert (shrinks w1 w2) as S1 by apply shrinks_delete. assert (shrinks w2 w3) as S2 by apply shrinks_collection.
  assert (shrinks w3 w4) as S3 by apply shrinks_delete. assert (shrinks w4 w5) as S4 by apply shrinks_delete.
  assert (shrinks w5 w6) as S5 by apply shrinks_delete.
  assert (shrinks w6 w7) as S6 by apply shrinks_delete.
  intros [[[[[[[_ H1]%no_warning H2]%no_warning H3]%no_warning H4]%no_warning H5]%no_warning H6]%no_warning H7]%no_warning.
  pose proof (collection_gone KPod ctx ns intra_pods w2 H3) as H3'.
  eapply delete_gone in H1, H2, H4, H5, H6, H7; try reflexivity.
  assert (shrinks w5 w7) as T5 by (etransitivity; eassumption).
  assert (shrinks w4 w7) as T4 by (etransitivity; eassumption).
  assert (shrinks w3 w7) as T3 by (etransitivity; eassumption).
  assert (shrinks w2 w7) as T2 by (etransitivity; eassumption).
  assert (shrinks w1 w7) as T1 by (etransitivity; eassumption).
  unfold nothing_left. split_and!; first [assumption | by eapply absent_shrinks; [|eassumption] | by eapply no_intra_shrinks; [|exact H3']].
Qed.

(** ** Saved results *)

Lemma prefix_append s t : String.prefix s (s +:+ t) = true.
Proof. induction s as [|c s IH]; [by destruct t|]. rewrite app_cons. cbn. by destruct (Ascii.ascii_dec c c). Qed.

Lemma getAll_eq ctx w results w' : getAllDestNodeResults ctx w = (Return results, w') ->
  exists cms, results = concat (map report_results cms) /\
    forall cm, cm ∈ cms <-> listed ns [("app", "iperf-benchmark")] (view w KConfigMap) cm.
Proof.
  unfold getAllDestNodeResults. rewrite bind_eq.
  destruct ((List KConfigMap ctx DEFAULT_NAMESPACE _ w).1) as [cms|e] eqn:E; [|done].
  intros [= <- _]. exists cms. split; [done|]. by apply (list_ok KConfigMap ctx).
Qed.

Lemma elem_of_concat_map {A B} (f : A -> list B) l b : b ∈ concat (map f l) <-> exists a, a ∈ l /\ b ∈ f a.
Proof.
  induction l as [|a l IH]; cbn; [set_solver|]. rewrite elem_of_app, IH. set_solver.
Qed.

(** A successful save adds one config map under a new name. *)
Lemma save_adds report suffix json w w' : MarshalIndent report = Return json ->
  CreateBenchmarkResultConfigMap report suffix w = (None, w') ->
  exists name cm, view w KConfigMap !! (ns, CONFIG_MAP_PREFIX +:+ name) = None /\
    view w' KConfigMap = <[(ns, CONFIG_MAP_PREFIX +:+ name) := cm]> (view w KConfigMap) /\
    stored_as (k := KConfigMap) (result_config_map (CONFIG_MAP_PREFIX +:+ name) report json) cm.
Proof.
  intros Hj. unfold CreateBenchmarkResultConfigMap. rewrite bind_eq, Hj, bind_eq.
  set (w1 := (WithTimeout _ w).2). set (w2 := (Now w1).2). set (t := (Now w1).1). rewrite bind_eq.
  set (name := suffix +:+ "-" +:+ _).
  assert (view w2 KConfigMap = view w KConfigMap) as Hw2.
  { unfold w2. rewrite (now_view w1 KConfigMap). unfold w1, WithTimeout. rewrite bind_snd. apply now_view. }
  destruct (Create KConfigMap _ ns _ w2) as [[o|e] w3] eqn:E; cbn [fst snd]; [|by rewrite bind_eq].
  intros Hf%(f_equal snd). cbn [snd] in Hf. subst w'. exists name. destruct (create_ok KConfigMap _ _ _ _ o (f_equal fst E)) as [Hn (s & Hs & Hv)].
  rewrite E in Hv. cbn [snd] in Hv. exists s. rewrite <- Hw2. split; [exact Hn|]. split; [|exact Hs].
  unfold finish. rewrite bind_snd. cbn [ret snd]. unfold Flush. rewrite bind_snd. cbn [ret snd].
  rewrite (output_view _ w3 KConfigMap). exact Hv.
Qed.

Lemma result_labels report json name cm :
  stored_as (k := KConfigMap) (result_config_map name report json) cm ->
  Name (cm_meta cm) = name /\ matches [("app", "iperf-benchmark")] (Labels (cm_meta cm)) = true /\
  Data cm !! "report.json" = Some json.
Proof.
  intros (Hn & Hl & Hd). cbn in Hn, Hl, Hd. split; [done|]. rewrite Hl, Hd. split; [|apply lookup_insert_eq].
  unfold matches. cbn [forallb fst snd]. by rewrite lookup_insert_eq, bool_decide_true.
Qed.

(** ** The intra-node pods *)

Lemma printed_view ls w : same (view w) (view (Flush ls w).2).
Proof. unfold Flush. rewrite bind_snd. apply output_view. Qed.

Definition eligible (config : BenchmarkConfig) (nd : Node) : Prop :=
  (node_Name nd ∉ excluded_nodes config) /\ Unschedulable nd = false.

(** The pod of a node, as it is created and as it is found. *)
Definition intra_key (nd : Node) : string * string := (ns, "iperf-intra-node-" +:+ node_Name nd).

Definition placed (config : BenchmarkConfig) (nodes : list Node) (key : string * string) (p : Pod) : Prop :=
  exists nd, nd ∈ nodes /\ eligible config nd /\ key = intra_key nd /\
    stored_as (k := KPod) (intra_client config (node_Name nd)) p.

Lemma intra_step_spec config ctx tw n nd w :
  let r := intra_step config ctx (tw, n) nd w in
  grows w r.2 /\
  (forall key p, view r.2 KPod !! key = Some p -> view w KPod !! key = Some p \/ placed config [nd] key p) /\
  (r.1.2 = n \/ eligible config nd /\ is_Some (view r.2 KPod !! intra_key nd)).
Proof.
  cbn zeta. unfold intra_step. case_bool_decide as Hx; [|destruct (Unschedulable nd) eqn:Hu].
  1, 2: rewrite bind_eq; cbn [ret fst snd]; rewrite (printed_view _ w KPod);
    (split; [apply grows_flush|]); split; eauto.
  rewrite bind_eq. set (o := intra_client config (node_Name nd)). set (w1 := (Create KPod ctx ns o w).2).
  assert (eligible config nd) as He by done.
  assert (forall key p, view w1 KPod !! key = Some p -> view w KPod !! key = Some p \/ placed config [nd] key p) as Hp.
  { intros key p. assert (forall s, stored_as (k := KPod) o s -> <[(ns, Name (meta (k := KPod) o)) := s]> (view w KPod) !! key = Some p ->
      view w KPod !! key = Some p \/ placed config [nd] key p) as Hins.
    { intros s Hs [[<- <-]|[_ ?]]%lookup_insert_Some; [|by left]. right. exists nd. split; [left|done]. }
    unfold w1. destruct ((Create KPod ctx ns o w).1) as [o'|err] eqn:E.
    - apply create_ok in E as [_ (s & Hs & ->)]. by apply Hins.
    - apply create_err in E as [->|[_ (s & Hs & ->)]]; [by left|by apply Hins]. }
  pose proof (grows_create KPod ctx ns o w : grows w w1) as Hg.
  destruct ((Create KPod ctx ns o w).1) as [o'|err] eqn:E; rewrite bind_eq; cbn [ret fst snd];
    rewrite (printed_view _ w1 KPod); (split; [transitivity w1; [exact Hg|apply grows_flush]|]); (split; [exact Hp|]).
  - right. split; [done|]. apply create_ok in E as [_ (s & _ & Hv)]. fold w1 in Hv. rewrite Hv, lookup_insert_eq. eauto.
  - by left.
Qed.

Lemma intra_steps_spec config ctx tw nodes w :
  let r := foldM (intra_step config ctx) (tw, 0) nodes w in
  (forall key p, view r.2 KPod !! key = Some p -> view w KPod !! key = Some p \/ placed config nodes key p) /\
  (r.1.2 <> 0 -> exists nd, nd ∈ nodes /\ eligible config nd /\ is_Some (view r.2 KPod !! intra_key nd)).
Proof.
  cbn zeta. apply (foldM_ind (fun seen s w' =>
    (forall key p, view w' KPod !! key = Some p -> view w KPod !! key = Some p \/ placed config seen key p) /\
    (s.2 <> 0 -> exists nd, nd ∈ seen /\ eligible config nd /\ is_Some (view w' KPod !! intra_key nd)))).
  { split; [by left|done]. }
  intros seen nd [tw' n] w' _ [Hp Hn]. destruct (intra_step_spec config ctx tw' n nd w') as (Hg & Hp' & Hn').
  split.
  - intros key p [Hk|(nd' & Hin & Hr)]%Hp'.
    + destruct (Hp key p Hk) as [?|(nd' & Hin & Hr)]; [by left|]. right. exists nd'. split; [set_solver|done].
    + right. exists nd'. split; [set_solver|done].
  - destruct Hn' as [->|[He Hs]]; [|intros _; exists nd; set_solver].
    intros (nd' & Hin & He & [p Hs])%Hn. exists nd'. split; [set_solver|]. split; [done|].
    exists p. eapply lookup_weaken; [exact Hs|exact (Hg KPod)].
Qed.

End Objects.

(** ** The summaries *)

Definition of_node (n : string) (results : list DestNodeTestResult) : list DestNodeTestResult :=
  List.filter (fun r => String.eqb (DestNode r) n) results.

Definition is_host (r : DestNodeTestResult) : bool := String.eqb (BenchmarkMode r) "host_network".

(** What a summary counts. *)
Definition summarises (l : list DestNodeTestResult) (nd : DestNodeSummary) : Prop :=
  ds_TotalTests nd = int64 (Z.of_nat (length l)) /\
  ds_HostModeTests nd = int64 (Z.of_nat (length (List.filter is_host l))) /\
  ds_PodModeTests nd = int64 (Z.of_nat (length (List.filter (fun r => negb (is_host r)) l))) /\
  ds_TotalRetrans nd = int64 (sumZ Retransmits l) /\
  Forall (fun r => instant (Timestamp r) <= instant (ds_LatestRun nd)) l.

Lemma summarises_new n : summarises [] (new_summary n).
Proof. by repeat split. Qed.

Lemma summarises_add l nd r : summarises l nd -> summarises (l ++ [r]) (add_result nd r).
Proof.
  intros (H1 & H2 & H3 & H4 & H5). unfold summarises, add_result.
  cbn [ds_TotalTests ds_HostModeTests ds_PodModeTests ds_TotalRetrans ds_LatestRun].
  rewrite !List.filter_app, !length_app, sumZ_app. cbn [List.filter length]. fold (is_host r).
  rewrite H1, H2, H3, H4. unfold add64. rewrite !int64_add_l.
  split; [f_equal; lia|]. split; [destruct (is_host r); cbn; rewrite ?int64_add_l; f_equal; lia|].
  split; [destruct (is_host r); cbn; rewrite ?int64_add_l; f_equal; lia|].
  split; [f_equal; rewrite sumZ_cons, sumZ_nil; lia|].
  unfold After. apply Forall_app. split; [|apply Forall_singleton]; destruct (Z.ltb_spec (instant (ds_LatestRun nd)) (instant (Timestamp r)));
    try lia; [|done]. eapply Forall_impl; [exact H5|]. cbn. lia.
Qed.

Lemma node_data_app results r : node_data (results ++ [r]) =
  <[DestNode r := add_result (default (new_summary (DestNode r)) (node_data results !! DestNode r)) r]> (node_data results).
Proof. unfold node_data. by rewrite fold_left_app. Qed.

Lemma node_data_spec results n :
  match node_data results !! n with
  | None => of_node n results = []
  | Some nd => ds_DestNode nd = n /\ of_node n results <> [] /\ summarises (of_node n results) nd
  end.
Proof.
  induction results as [|r results IH] using rev_ind; [done|].
  rewrite node_data_app. unfold of_node in *. rewrite List.filter_app. cbn [List.filter].
  destruct (String.eqb_spec (DestNode r) n) as [<-|Hne].
  - rewrite lookup_insert_eq. destruct (node_data results !! DestNode r) as [nd|]; cbn [default].
    + destruct IH as (Hn & _ & Hs). split; [done|]. split; [by destruct (List.filter _ results)|]. by apply summarises_add.
    + rewrite IH. split; [done|]. split; [done|]. apply (summarises_add [] _ r), summarises_new.
  - rewrite lookup_insert_ne, app_nil_r by done. done.
Qed.


(** ** The orders of the listing *)

(** First by a string, then by another order. *)
Definition lex {A} (key : A -> string) (less : A -> A -> bool) (a b : A) : bool :=
  if negb (String.eqb (key a) (key b)) then String.ltb (key a) (key b) else less a b.

Lemma lex_true {A} (key : A -> string) less a b : lex key less a b = true <->
  String.ltb (key a) (key b) = true \/ key a = key b /\ less a b = true.
Proof.
  unfold lex. destruct (String.eqb_spec (key a) (key b)) as [E|E]; cbn [negb]; [|naive_solver].
  rewrite E, ltb_irrefl. naive_solver.
Qed.

Lemma lex_weak {A} (key : A -> string) less : StrictWeak less -> StrictWeak (lex key less).
Proof.
  intros Hw. split.
  - intros a. apply not_true_iff_false. rewrite lex_true, ltb_irrefl, (less_irrefl _ Hw). naive_solver.
  - intros a b c. rewrite !lex_true. intros [H1|[E1 H1]] [H2|[E2 H2]].
    + left. by eapply ltb_trans.
    + left. by rewrite <- E2.
    + left. by rewrite E1.
    + right. split; [congruence|]. by eapply less_trans.
  - intros a b c. rewrite !lex_true. intros [H1|[E1 H1]].
    + destruct (decide (key a = key b)) as [E|E]; [rewrite E in H1; auto|].
      destruct (ltb_total _ _ E) as [?|Hba]; [auto|]. right. left. by eapply ltb_trans.
    + destruct (decide (key a = key b)) as [E|E].
      * destruct (less_cotrans _ Hw _ b _ H1); [auto|]. right. right. split; [congruence|done].
      * destruct (ltb_total _ _ E) as [?|Hba]; [auto|]. right. left. by rewrite <- E1.
Qed.

Lemma lex_total {A} (key : A -> string) less a b : lex key less a b = false -> lex key less b a = false ->
  key a = key b /\ less a b = false /\ less b a = false.
Proof.
  rewrite <- !not_true_iff_false, !lex_true. intros H1 H2.
  destruct (decide (key a = key b)) as [E|E]; [|destruct (ltb_total _ _ E); tauto].
  split; [done|]. split; intros Hl; [apply H1|apply H2]; right; by split.
Qed.

Lemma grouped_lex : grouped = lex DestNode (lex BenchmarkMode (lex Protocol (by_key Direction))).
Proof. reflexivity. Qed.

Lemma grouped_weak : StrictWeak grouped.
Proof. rewrite grouped_lex. do 3 apply lex_weak. apply by_key_weak. Qed.

(** Results the order does not tell apart have the same key. *)
Lemma grouped_key a b : grouped a b = false -> grouped b a = false -> latest_key a = latest_key b.
Proof.
  rewrite grouped_lex. intros H1 H2. apply lex_total in H1 as (E1 & H1 & H2'); [|done].
  apply lex_total in H1 as (E2 & H1 & H3'); [|done]. apply lex_total in H1 as (E3 & H1 & H4'); [|done].
  assert (Direction a = Direction b) as E4.
  { destruct (decide (Direction a = Direction b)) as [?|E]; [done|].
    unfold by_key in H1, H4'. destruct (ltb_total _ _ E); congruence. }
  unfold latest_key. by rewrite E1, E2, E3, E4.
Qed.

Lemma newest_weak : StrictWeak newest_first.
Proof.
  unfold newest_first, After. split; intros *; rewrite ?Z.ltb_lt, ?Z.ltb_ge; lia.
Qed.

(** ** The newest result of every key *)

Lemma first_of_key_sub seen l r : r ∈ first_of_key seen l -> r ∈ l /\ latest_key r ∉ seen.
Proof.
  revert seen. induction l as [|a l IH]; intros seen; cbn; [set_solver|].
  case_decide; [intros Hr%IH; set_solver|]. rewrite list_elem_of_In. cbn. rewrite <- list_elem_of_In.
  intros [->|Hr%IH]; set_solver.
Qed.

Lemma first_of_key_nodup seen l : NoDup (latest_key <$> first_of_key seen l).
Proof.
  revert seen. induction l as [|a l IH]; intros seen; cbn; [constructor|]. case_decide; [apply IH|].
  cbn. apply NoDup_cons. split; [|apply IH]. intros (r & Hr & Hin)%list_elem_of_fmap.
  apply first_of_key_sub in Hin as [_ Hin]. set_solver.
Qed.

Lemma first_of_key_complete seen l r : StronglySorted (fun a b => newest_first b a = false) l -> r ∈ l ->
  latest_key r ∉ seen ->
  exists r', r' ∈ first_of_key seen l /\ latest_key r' = latest_key r /\ newest_first r r' = false.
Proof.
  intros Hs. revert seen. induction Hs as [|a l Hs IH Ha]; intros seen Hr Hn; [set_solver|]. cbn.
  rewrite Forall_forall in Ha. apply elem_of_cons in Hr as [->|Hr].
  - rewrite decide_False by done. exists a. split; [set_solver|]. split; [done|].
    apply (less_irrefl _ newest_weak).
  - case_decide; [by apply IH|]. destruct (decide (latest_key a = latest_key r)) as [E|E].
    + exists a. split; [set_solver|]. split; [done|]. by apply Ha.
    + destruct (IH ({[latest_key a]} ∪ seen) Hr) as (r' & H1 & H2 & H3); [set_solver|]. exists r'. set_solver.
Qed.

Lemma grouped_strict l : NoDup (latest_key <$> l) -> StronglySorted (fun a b => grouped b a = false) l ->
  StronglySorted (fun a b => grouped a b = true) l.
Proof.
  intros Hnd Hs. induction Hs as [|a l Hs IH Ha]; [constructor|].
  rewrite fmap_cons in Hnd. apply NoDup_cons in Hnd as [Hni Hnd]. constructor; [by apply IH|].
  rewrite Forall_forall in Ha |- *. intros b Hb. apply not_false_iff_true. intros Hab.
  apply Hni. rewrite (grouped_key a b Hab (Ha b Hb)). by apply list_elem_of_fmap_2.
Qed.

Section Listing.
Context {W : Type} {CS : Clientset W} {CD : Codec} {GS : GoSort} {SL : SortLaws}.

Lemma apply_filters_eq f results w : Today f = false ->
  apply_filters f results w = (List.filter (matches_filter f) results, w).
Proof.
  intros Hf. unfold apply_filters.
  assert (forall acc, foldM (fun filtered r => let! old := before_today f r in
    ret (if old then filtered else if matches_filter f r then filtered ++ [r] else filtered)) acc results w
    = (acc ++ List.filter (matches_filter f) results, w)) as Hg; [|exact (Hg [])].
  induction results as [|r results IH]; intros acc; [by rewrite foldM_nil, app_nil_r|].
  assert (before_today f r w = (false, w)) as Hb by (unfold before_today; by rewrite Hf).
  rewrite foldM_cons, (bind_eq (before_today f r)), Hb. cbn. rewrite IH.
  destruct (matches_filter f r); [by rewrite <- app_assoc|done].
Qed.

(** A row shows its result; the age is the clock's. *)
Definition row_of (r : DestNodeTestResult) (row : string) : Prop :=
  exists a, row = cells ([DestNode r; mode_name r; ToUpper (Protocol r); Direction r;
                          formatThroughput (ThroughputBps r)] ++ metrics r ++ [a]).

Lemma rows_spec l tw w : exists rows w',
  foldM (fun tw r => let! row := list_row r in ret (Fprintf tw row)) tw l w = (tw ++ rows, w') /\
  Forall2 row_of l rows.
Proof.
  revert tw w. induction l as [|r l IH]; intros tw w; [exists [], w; by rewrite app_nil_r|].
  rewrite foldM_cons, !bind_eq. destruct (list_row r w) as [row w1] eqn:E. cbn [fst snd ret].
  destruct (IH (Fprintf tw row) w1) as (rows & w2 & -> & Hr). exists (row :: rows), w2.
  unfold Fprintf. rewrite <- app_assoc. split; [done|]. constructor; [|done].
  unfold list_row in E. rewrite bind_eq in E. injection E as <- _. by eexists.
Qed.

(** What [latest] lists of the results that pass the filters. *)
Lemma latest_spec l : let listed := sort_Sort grouped (first_of_key ∅ (sort_Sort newest_first l)) in
  StronglySorted (fun a b => grouped a b = true) listed /\
  (forall r, r ∈ listed -> r ∈ l) /\
  (forall r, r ∈ l -> exists r', r' ∈ listed /\ latest_key r' = latest_key r /\
     After (Timestamp r) (Timestamp r') = false).
Proof.
  set (rows := first_of_key ∅ _). cbn zeta. pose proof (sort_perm _ grouped rows) as Hp.
  split; [|split].
  - apply grouped_strict; [|apply sort_ordered, grouped_weak]. rewrite Hp. apply first_of_key_nodup.
  - intros r. rewrite Hp. intros [Hr _]%first_of_key_sub. by apply elem_of_sort in Hr.
  - intros r Hr. destruct (first_of_key_complete ∅ (sort_Sort newest_first l) r) as (r' & H1 & H2 & H3);
      [apply sort_ordered, newest_weak|by apply elem_of_sort|set_solver|].
    exists r'. split; [by rewrite Hp|done].
Qed.

End Listing.
