(* ===== verification/HealthSim.v ===== *)
(** * Benchmarks: a concrete cluster

    Tables of objects, a clock and a script of injected faults: the [Clientset]
    instance the witnesses evaluate. Servers are ready when they are created, and
    a pod is placed on the first node and has run to its end after the first
    sleep. It is not a model of code of this repository; it shows that the laws of
    [HealthApi] can hold. *)

From S2P Require Import Prelude.
From S2P Require Import HealthTypes.
From S2P Require Import HealthApi.

Record Sim := {
  sim_services : gmap (string * string) Service;
  sim_daemonsets : gmap (string * string) DaemonSet;
  sim_accounts : gmap (string * string) ServiceAccount;
  sim_roles : gmap (string * string) Role;
  sim_bindings : gmap (string * string) RoleBinding;
  sim_configmaps : gmap (string * string) ConfigMap;
  sim_pods : gmap (string * string) Pod;
  sim_nodes : list Node;
  sim_logs : string;
  sim_clock : Z;
  sim_faults : list (option string);
  sim_output : list (list string);
}.

Definition table (s : Sim) (k : Kind) : gmap (string * string) (object k) :=
  match k with
  | KService => sim_services s
  | KDaemonSet => sim_daemonsets s
  | KServiceAccount => sim_accounts s
  | KRole => sim_roles s
  | KRoleBinding => sim_bindings s
  | KConfigMap => sim_configmaps s
  | KPod => sim_pods s
  end.

Definition put (k : Kind) (m : gmap (string * string) (object k)) (s : Sim) : Sim :=
  let tbl k' : gmap (string * string) (object k) -> gmap (string * string) (object k') -> gmap (string * string) (object k') :=
    match k, k' return gmap (string * string) (object k) -> gmap (string * string) (object k') -> gmap (string * string) (object k') with
    | KService, KService => fun m _ => m
    | KDaemonSet, KDaemonSet => fun m _ => m
    | KServiceAccount, KServiceAccount => fun m _ => m
    | KRole, KRole => fun m _ => m
    | KRoleBinding, KRoleBinding => fun m _ => m
    | KConfigMap, KConfigMap => fun m _ => m
    | KPod, KPod => fun m _ => m
    | _, _ => fun _ old => old
    end in
  {| sim_services := tbl KService m (sim_services s);
     sim_daemonsets := tbl KDaemonSet m (sim_daemonsets s);
     sim_accounts := tbl KServiceAccount m (sim_accounts s);
     sim_roles := tbl KRole m (sim_roles s);
     sim_bindings := tbl KRoleBinding m (sim_bindings s);
     sim_configmaps := tbl KConfigMap m (sim_configmaps s);
     sim_pods := tbl KPod m (sim_pods s);
     sim_nodes := sim_nodes s; sim_logs := sim_logs s; sim_clock := sim_clock s;
     sim_faults := sim_faults s; sim_output := sim_output s |}.

(** The rest of the state. *)
Definition upd (f : list (option string) -> list (option string)) (t : Z) (out : list (list string))
    (p : gmap (string * string) Pod -> gmap (string * string) Pod) (s : Sim) : Sim := {|
  sim_services := sim_services s; sim_daemonsets := sim_daemonsets s; sim_accounts := sim_accounts s;
  sim_roles := sim_roles s; sim_bindings := sim_bindings s; sim_configmaps := sim_configmaps s;
  sim_pods := p (sim_pods s); sim_nodes := sim_nodes s; sim_logs := sim_logs s;
  sim_clock := sim_clock s + t; sim_faults := f (sim_faults s);
  sim_output := sim_output s ++ out |}.

(** Objects are found under their own names only. *)
Definition sim_view (s : Sim) (k : Kind) : gmap (string * string) (object k) :=
  filter (fun kv => Name (meta kv.2) = kv.1.2) (table s k).

(** A call fails after its deadline, or when the script says so. *)
Definition call {A} (ctx : Context) (f : Sim -> result A * Sim) : M Sim (result A) := fun s =>
  if expired ctx (sim_clock s) then (Err (OtherError "context deadline exceeded"), s)
  else match sim_faults s with
       | Some r :: _ => (Err (OtherError r), upd (drop 1) 0 [] id s)
       | _ => f (upd (drop 1) 0 [] id s)
       end.

Definition read {A} (ctx : Context) (f : Sim -> result A) : M Sim (result A) := call ctx (fun s => (f s, s)).

Definition created_at (now : Z) (m : ObjectMeta) : ObjectMeta := {|
  Name := Name m; Namespace := Namespace m; Labels := Labels m;
  CreationTimestamp := {| instant := now; zone := UTC |} |}.

(** What the server makes of a new object. *)
Definition received (s : Sim) {k : Kind} : object k -> object k :=
  match k return object k -> object k with
  | KDaemonSet => fun o => {| dset_meta := created_at (sim_clock s) (dset_meta o);
      MatchLabels := MatchLabels o; template_Labels := template_Labels o; template_Spec := template_Spec o;
      NumberReady := Z.of_nat (length (sim_nodes s)); DesiredNumberScheduled := Z.of_nat (length (sim_nodes s)) |}
  | KConfigMap => fun o => {| cm_meta := created_at (sim_clock s) (cm_meta o); Data := Data o |}
  | KPod => fun o => {| pod_meta := created_at (sim_clock s) (pod_meta o); pod_spec := pod_spec o; Phase := PodPending |}
  | _ => fun o => o
  end.

(** A pod after some time. *)
Definition finished (s : Sim) (p : Pod) : Pod := {|
  pod_meta := pod_meta p;
  pod_spec := {| Affinity := Affinity (pod_spec p); HostNetwork := HostNetwork (pod_spec p);
    DNSPolicy := DNSPolicy (pod_spec p); ServiceAccountName := ServiceAccountName (pod_spec p);
    spec_NodeName := if decide (spec_NodeName (pod_spec p) = "")
                     then match sim_nodes s with n :: _ => node_Name n | [] => "" end
                     else spec_NodeName (pod_spec p);
    Containers := Containers (pod_spec p); Volumes := Volumes (pod_spec p);
    RestartPolicy := RestartPolicy (pod_spec p) |};
  Phase := PodSucceeded |}.

Definition selects {k : Kind} (n : string) (sel : LabelSelector) (kv : (string * string) * object k) : bool :=
  bool_decide (kv.1.1 = n) && matches sel (Labels (meta kv.2)).

#[export] Instance sim_clientset : Clientset Sim := {|
  Get k ctx n name := read ctx (fun s => match sim_view s k !! (n, name) with Some o => Ok o | None => Err NotFound end);
  Create k ctx n o := call ctx (fun s =>
    match sim_view s k !! (n, Name (meta o)) with
    | Some _ => (Err AlreadyExists, s)
    | None => (Ok (received s o), put k (<[(n, Name (meta o)) := received s o]> (sim_view s k)) s)
    end);
  Update k ctx n o := call ctx (fun s =>
    match sim_view s k !! (n, Name (meta o)) with
    | Some _ => (Ok o, put k (<[(n, Name (meta o)) := o]> (sim_view s k)) s)
    | None => (Err NotFound, s)
    end);
  Delete k ctx n name := call ctx (fun s =>
    match sim_view s k !! (n, name) with
    | Some _ => (Ok tt, put k (delete (n, name) (sim_view s k)) s)
    | None => (Err NotFound, s)
    end);
  DeleteCollection k ctx n sel := call ctx (fun s =>
    (Ok tt, put k (filter (fun kv => selects n sel kv = false) (sim_view s k)) s));
  List k ctx n sel := read ctx (fun s => Ok (map_to_list (filter (fun kv => selects n sel kv = true) (sim_view s k))).*2);
  ListNodes ctx := read ctx (fun s => Ok (sim_nodes s));
  StreamLogs ctx n name := read ctx (fun s => Ok (Ok (sim_logs s)));
  Now := fun s => (sim_clock s, s);
  Sleep d := fun s => (tt, upd id (Z.max 0 d) [] (fmap (finished s)) s);
  Output ls := fun s => (None, upd id 0 [ls] id s);
  ApiErrorString e := match e with OtherError r => r | NotFound => "not found" | AlreadyExists => "already exists" | Conflict => "conflict" end |}.

(** ** The laws *)

Lemma table_put k m s : table (put k m s) k = m.
Proof. by destruct k. Qed.

Lemma table_put_ne k k' m s : k' <> k -> table (put k m s) k' = table s k'.
Proof. by destruct k, k'. Qed.

Lemma view_put_ne k k' m s : k' <> k -> sim_view (put k m s) k' = sim_view s k'.
Proof. intros Hk. unfold sim_view. by rewrite table_put_ne. Qed.

Lemma view_sub k m s : m ⊆ sim_view s k -> sim_view (put k m s) k = m.
Proof.
  intros Hs. unfold sim_view. rewrite table_put. apply map_filter_id. intros i x Hi.
  eapply lookup_weaken in Hi; [|exact Hs]. by apply map_lookup_filter_Some in Hi as [_ ?].
Qed.

Lemma view_insert k n o s : sim_view (put k (<[(n, Name (meta o)) := o]> (sim_view s k)) s) k
  = <[(n, Name (meta o)) := o]> (sim_view s k).
Proof.
  unfold sim_view at 1. rewrite table_put, map_filter_insert_True by done. f_equal.
  apply map_filter_id. intros i x Hi. by apply map_lookup_filter_Some in Hi as [_ ?].
Qed.

Lemma call_cases {A} ctx (f : Sim -> result A * Sim) s : exists s', sim_view s' = sim_view s /\
  sim_clock s' = sim_clock s /\
  ((exists r, call ctx f s = (Err (OtherError r), s')) \/ call ctx f s = f s').
Proof.
  unfold call. destruct (expired ctx (sim_clock s)); [exists s; eauto|].
  exists (upd (drop 1) 0 [] id s). split; [done|]. split; [cbn; lia|]. destruct (sim_faults s) as [|[r|] fs]; eauto.
Qed.

Lemma call_clock {A} ctx (f : Sim -> result A * Sim) s : (forall s, sim_clock (f s).2 = sim_clock s) ->
  sim_clock s <= sim_clock (call ctx f s).2.
Proof. intros Hf. destruct (call_cases ctx f s) as (s' & _ & Hc & [[r ->]| ->]); cbn; rewrite ?Hf; lia. Qed.

#[export] Instance sim_clock_laws : ClockLaws Sim sim_clock.
Proof.
  split; intros *; try (apply call_clock; intros; cbn; by repeat case_match).
  - split; [done|cbn; lia].
  - cbn. lia.
  - cbn. lia.
  - intros He. unfold Get. cbn. unfold read, call. rewrite He. eauto.
Qed.

Lemma received_name s {k} (o : object k) : Name (meta (received s o)) = Name (meta o).
Proof. by destruct k. Qed.

Lemma received_stored s {k} (o : object k) : stored_as o (received s o).
Proof. by destruct k. Qed.

Lemma read_view {A} ctx (f : Sim -> result A) s k : sim_view (read ctx f s).2 k = sim_view s k.
Proof. destruct (call_cases ctx (fun s => (f s, s)) s) as (s' & Hv & _ & [[r Hc]|Hc]); unfold read; rewrite Hc; cbn; by rewrite Hv. Qed.

Lemma read_answer {A} ctx (f : Sim -> result A) s : (exists r, (read ctx f s).1 = Err (OtherError r)) \/
  exists s', sim_view s' = sim_view s /\ (read ctx f s).1 = f s'.
Proof.
  destruct (call_cases ctx (fun s => (f s, s)) s) as (s' & Hv & _ & [[r Hc]|Hc]); unfold read; rewrite Hc; eauto.
Qed.

(** A call that changes one table. *)
Ltac sim_call :=
  match goal with
  | |- context [call ?ctx ?f ?s] =>
      let s' := fresh "s'" in let Hv := fresh "Hv" in let Hc := fresh "Hc" in
      destruct (call_cases ctx f s) as (s' & Hv & _ & [[? Hc]|Hc]);
      rewrite Hc; clear Hc; cbn [fst snd]; rewrite <- ?Hv
  end.

Lemma sim_create k ctx n o s : let r := Create k ctx n o s in
  (sim_view r.2 k = sim_view s k /\ is_Ok r.1 = false) \/
  (sim_view s k !! (n, Name (meta o)) = None /\
   sim_view r.2 k = <[(n, Name (meta o)) := received r.2 o]> (sim_view s k)).
Proof.
  cbn. sim_call; [by left|]. destruct (sim_view s' k !! _) eqn:E; [by left|]. right. split; [done|].
  cbn [snd]. assert (received (put k (<[(n, Name (meta o)):=received s' o]> (sim_view s' k)) s') o = received s' o) as -> by by destruct k.
  pose proof (view_insert k n (received s' o) s') as Hi. by rewrite received_name in Hi.
Qed.

Lemma sim_delete k ctx n name s : let r := Delete k ctx n name s in
  (sim_view r.2 k = sim_view s k /\ exists e, r.1 = Err e /\ (e = NotFound -> sim_view s k !! (n, name) = None)) \/
  (r.1 = Ok tt /\ sim_view r.2 k = delete (n, name) (sim_view s k)).
Proof.
  cbn. sim_call; [left; split; [done|]; by eexists|]. destruct (sim_view s' k !! _) eqn:E.
  - right. split; [done|]. apply view_sub, delete_subseteq.
  - left. split; [done|]. by eexists.
Qed.

#[export] Instance sim_object_laws : ObjectLaws Sim sim_view.
Proof.
  split.
  - done.
  - by intros ls w k.
  - intros *; intros ?. apply read_view.
  - intros k ctx n name w o. destruct (read_answer ctx (fun s => match sim_view s k !! (n, name) with Some o => Ok o | None => Err NotFound end) w)
      as [[r Hr]|(s' & Hv & Hr)]; cbn; rewrite Hr; [done|]. destruct (sim_view s' k !! (n, name)) eqn:E; [|done].
    intros [= <-]. by apply map_lookup_filter_Some in E as [_ ?].
  - intros k ctx n name w. destruct (read_answer ctx (fun s => match sim_view s k !! (n, name) with Some o => Ok o | None => Err NotFound end) w)
      as [[r Hr]|(s' & Hv & Hr)]; cbn; rewrite Hr; [done|]. rewrite <- Hv. by destruct (sim_view s' k !! (n, name)).
  - intros *; intros ?. apply read_view.
  - intros k ctx n sel w l. destruct (read_answer ctx (fun s => Ok (map_to_list (filter (fun kv => selects n sel kv = true) (sim_view s k))).*2) w)
      as [[r Hr]|(s' & Hv & Hr)]; cbn; rewrite Hr; [done|]. intros [= <-] o. rewrite Hv. unfold listed.
    rewrite list_elem_of_fmap. split.
    + intros ([[n' name] o'] & -> & Hin). apply elem_of_map_to_list, map_lookup_filter_Some in Hin as [Hin Hs].
      unfold selects in Hs. apply andb_true_iff in Hs as [Hn Hs]. apply bool_decide_eq_true in Hn. cbn in *. subst n'.
      pose proof Hin as Hk. apply map_lookup_filter_Some in Hk as [_ Hk]. cbn in Hk. by rewrite Hk.
    + intros [Ho Hs]. exists ((n, Name (meta o)), o). split; [done|]. apply elem_of_map_to_list, map_lookup_filter_Some.
      split; [done|]. unfold selects. cbn. by rewrite bool_decide_true.
  - intros *; intros ?. apply read_view.
  - intros k ctx n o w k' Hk. cbn. sim_call; [done|]. destruct (sim_view s' k !! _); [done|]. by apply view_put_ne.
  - intros k ctx n o w o' Ho. destruct (sim_create k ctx n o w) as [[_ Hf]|[Hn Hv]]; [by rewrite Ho in Hf|].
    split; [done|]. eexists. split; [apply received_stored|exact Hv].
  - intros k ctx n o w e _. destruct (sim_create k ctx n o w) as [[Hv _]|[Hn Hv]]; [by left|right].
    split; [done|]. eexists. split; [apply received_stored|exact Hv].
  - intros k ctx n name w k' Hk. cbn. sim_call; [done|]. destruct (sim_view s' k !! _); [|done]. by apply view_put_ne.
  - intros k ctx n name w Ho. destruct (sim_delete k ctx n name w) as [(_ & e & Hf & _)|[_ Hv]]; [congruence|done].
  - intros k ctx n name w Ho. destruct (sim_delete k ctx n name w) as [(Hv & e & Hf & Hn)|[Hf _]]; [|congruence].
    split; [|done]. apply Hn. congruence.
  - intros k ctx n name w e Ho. destruct (sim_delete k ctx n name w) as [(Hv & _)|[Hf _]]; [|congruence]. by rewrite Hv.
  - intros k ctx n sel w k' Hk. cbn. sim_call; [done|]. by apply view_put_ne.
  - intros k ctx n sel w. cbn. sim_call; [done|]. rewrite view_sub; apply map_filter_subseteq.
  - intros k ctx n sel w Ho name o. revert Ho. cbn. sim_call; [by intros [|]|]. intros _.
    rewrite view_sub by apply map_filter_subseteq. intros [_ Hs]%map_lookup_filter_Some.
    unfold selects in Hs. cbn in Hs. by rewrite bool_decide_true in Hs.
Qed.
