(* ===== verification/HealthClaims.v ===== *)
(** * Benchmarks: properties

    A benchmark ends whatever the cluster does; when it ends, what it created is
    gone unless a warning says otherwise, or its first steps failed; saved results
    are listed; the listing of the latest results, the summaries of nodes and the
    placement of the intra-node pods are exact. The witnesses run the model on the
    cluster of [HealthSim]; the examples show behaviours worth knowing. *)

From stdpp Require Import sorting.
From S2P Require Import Prelude.
From S2P Require Import GoSort.
From S2P Require Import GoFloat.
From S2P Require Import GoStrings.
From S2P Require Import GoFmt.
From S2P Require Import HealthTypes.
From S2P Require Import HealthApi.
From S2P Require Import HealthList.
From S2P Require Import HealthBench.
From S2P Require Import HealthProofs.
From S2P Require Import HealthSim.
From Stdlib Require Import SpecFloat.

(** ** A cluster of two nodes *)

Definition demo_result (dest : string) : IperfTestResult := {|
  it_Destination := "10.0.0.1"; it_DestNode := dest; it_Protocol := "tcp"; it_Direction := "UL";
  it_ThroughputBps := float64 940000000; it_Retransmits := 3; it_AvgCWND := float64 0;
  it_RTTMin := float64 0; it_RTTAvg := float64 1; it_RTTMax := float64 2;
  it_JitterMs := float64 0; it_PacketLossPct := float64 0 |}.

Definition demo_report : BenchmarkReport := {|
  br_Timestamp := "T"; br_SourceNode := "n1"; br_BenchmarkMode := "host_network";
  br_Parallel := 4; br_Duration := 10; br_Results := [demo_result "n2"] |}.

(** A codec that knows one report and one result. *)
Definition demo_codec : Codec := {|
  UnmarshalReport s := if String.eqb s "{report}" then Some demo_report else None;
  UnmarshalResult s := if String.eqb s "{result}" then Some (demo_result "n2") else None;
  MarshalIndent _ := Return "{report}";
  ParseRFC3339 s := if String.eqb s "T" then Some {| instant := 7; zone := UTC |} else None;
  Format _ t := FormatInt (instant t);
  StartOfDay _ := zero_Time |}.

Definition demo_sim (faults : list (option string)) : Sim := {|
  sim_services := ∅; sim_daemonsets := ∅; sim_accounts := ∅; sim_roles := ∅; sim_bindings := ∅;
  sim_configmaps := ∅; sim_pods := ∅;
  sim_nodes := [{| node_Name := "n1"; Unschedulable := false |}; {| node_Name := "n2"; Unschedulable := false |}];
  sim_logs := "--- STARTING ---" +:+ String (ascii_of_nat 10) " {result} ";
  sim_clock := 0; sim_faults := faults; sim_output := [] |}.

Definition demo_config : BenchmarkConfig :=
  {| NumberOfConnections := 4; DurationSeconds := 10; ExcludeNodes := "n2" |}.

#[local] Existing Instance demo_codec.
#[local] Existing Instance insertion.

(** ** Ending *)

(** C24. A benchmark ends: with the fuel of twenty minutes in turns of two seconds no
    wait runs out of it, whatever the API answers, and more fuel changes nothing. *)
Theorem benchmark_ends {W} `{ClockLaws W clock} {CD : Codec} {GS : GoSort} fuel config w :
  (wait_fuel <= fuel)%nat ->
  CreateNewBenchmark fuel config w = CreateNewBenchmark wait_fuel config w /\
  (CreateNewBenchmark fuel config w).1 <> Some OutOfFuel.
Proof.
  intros Hf. rewrite !CreateNewBenchmark_eq.
  assert (same_run setup setup) as Hs.
  { apply same_run_say, same_run_check; [apply in_time_same, in_time_services|].
    apply same_run_say, same_run_check; [apply in_time_same, in_time_host_ds|]. by apply in_time_same, in_time_ret. }
  destruct ((setup w).1) as [e|] eqn:E; [split; [done|apply (Hs w)]|].
  destruct (after_defer_ends fuel config Hf (setup w).2) as [Heq Hne]. cbn zeta. by rewrite <- Heq.
Qed.

Lemma benchmark_ends_witness : (wait_fuel <= 1000)%nat /\
  (CreateNewBenchmark 1000 demo_config (demo_sim [])).1 <> Some OutOfFuel /\
  (CreateNewBenchmark wait_fuel demo_config (demo_sim [])).1 = None.
Proof.
  assert ((wait_fuel <= 1000)%nat) as Hf by (apply Nat.leb_le; vm_compute; reflexivity).
  split; [exact Hf|]. split.
  - exact (proj2 (benchmark_ends (clock := sim_clock) 1000 demo_config (demo_sim []) Hf)).
  - vm_compute. reflexivity.
Defined.

(** ** Releasing *)

(** C20. When a benchmark returns, either creating the services or the first DaemonSet
    failed, and what had been created until then is still there, or the resources
    were released: the warnings of the release are what is printed before its
    last line, and when there is none the client pods, the servers and the
    services are gone. *)
Theorem benchmark_released {W} `{ObjectLaws W view} {CD : Codec} {GS : GoSort} fuel config w e w' :
  CreateNewBenchmark fuel config w = (e, w') ->
  (is_Some e /\ setup w = (e, w') /\ forall k, view w k ⊆ view w' k) \/
  (exists w1 w2 ctx w3, setup w = (None, w1) /\ after_defer fuel config w1 = (e, w2) /\
     let '(tw, w4) := release_calls ctx w3 in
     w' = (Output (tw ++ ["[INFO] benchmark resources cleanup completed"]) w4).2 /\
     (tw = [] -> nothing_left (view := view) w')).
Proof.
  rewrite CreateNewBenchmark_eq. destruct (setup w) as [[err|] w1] eqn:Es; cbn [fst snd]; intros Hr.
  - left. injection Hr as <- <-. split; [by eexists|]. split; [done|].
    pose proof (grows_setup (view := view) w) as Hg. by rewrite Es in Hg.
  - right. destruct (after_defer fuel config w1) as [e2 w2] eqn:Ed. cbn [fst snd] in Hr.
    injection Hr as <- <-. exists w1, w2. set (t := WithTimeout (60 * Second) w2).
    exists t.1, t.2. split; [done|]. split; [done|].
    unfold ReleaseBenchmarkResources. rewrite bind_eq. fold t. rewrite bind_eq.
    pose proof (release_calls_gone (view := view) t.1 t.2) as Hg.
    destruct (release_calls t.1 t.2) as [tw w4]. cbn [fst snd] in Hg |- *.
    unfold finish. rewrite bind_snd. unfold Flush. rewrite bind_snd. cbn [ret snd]. split; [done|].
    intros Htw. specialize (Hg Htw). revert Hg. unfold nothing_left, absent, no_intra_pods.
    by rewrite !(output_view _ w4 _).
Qed.

(** The run of the demonstration: its error, and what is left of what it created. *)
Definition demo_run (faults : list (option string)) : option Error * Sim :=
  CreateNewBenchmark wait_fuel demo_config (demo_sim faults).

Definition leftovers (s : Sim) : list (string * string) :=
  (map_to_list (sim_view s KService)).*1 ++ (map_to_list (sim_view s KDaemonSet)).*1 ++
  (map_to_list (sim_view s KPod)).*1.

Lemma benchmark_released_witness :
  (demo_run []).1 = None /\ leftovers (demo_run []).2 = [] /\
  ((is_Some (demo_run []).1 /\ setup (demo_sim []) = ((demo_run []).1, (demo_run []).2) /\
    forall k, sim_view (demo_sim []) k ⊆ sim_view (demo_run []).2 k) \/
   (exists w1 w2 ctx w3, setup (demo_sim []) = (None, w1) /\
      after_defer wait_fuel demo_config w1 = ((demo_run []).1, w2) /\
      let '(tw, w4) := release_calls ctx w3 in
      (demo_run []).2 = (Output (tw ++ ["[INFO] benchmark resources cleanup completed"]) w4).2 /\
      (tw = [] -> nothing_left (view := sim_view) (demo_run []).2))).
Proof.
  split; [vm_compute; reflexivity|]. split; [vm_compute; reflexivity|].
  apply (benchmark_released (view := sim_view) wait_fuel demo_config (demo_sim [])). apply surjective_pairing.
Defined.

(** The deferred release is registered after the first steps: when the first
    DaemonSet cannot be looked up, the services stay. *)
Example failed_setup_leaves_services :
  let r := demo_run [None; None; None; None; Some "connection refused"] in
  r.1 = Some (Api (OtherError "connection refused")) /\
  leftovers r.2 = [(ns, HOSTNETWORK_HEADLESS_SERVICE_NAME); (ns, PODNETWORK_HEADLESS_SERVICE_NAME)].
Proof. vm_compute. split; reflexivity. Qed.

(** The source node is asked for before the pod has been placed: it is recorded
    as the empty string. *)
Example source_node_of_a_pod_not_placed :
  let s := (CreateIperfHostNetworkBenchmarkPod demo_config (demo_sim [])).2 in
  (GetSourceNodeFromPod IPERF_CLIENT_HOSTNETWORK_NAME s).1 = Return "".
Proof. vm_compute. reflexivity. Qed.

(** ** Saved results *)

(** C32. A report that was saved is listed: if its JSON reads back, every result of the
    report is among the results of any later reading, under the report's time,
    and the results of before are still among them. *)
Theorem saved_results_listed {W} `{ObjectLaws W view} {CD : Codec} {GS : GoSort}
    report suffix json t w w' ctx results w'' :
  MarshalIndent report = Return json -> UnmarshalReport json = Some report ->
  ParseRFC3339 (br_Timestamp report) = Some t ->
  CreateBenchmarkResultConfigMap report suffix w = (None, w') ->
  getAllDestNodeResults ctx w' = (Return results, w'') ->
  (forall r, r ∈ br_Results report -> to_result t report r ∈ results) /\
  (forall ctx0 old w0, getAllDestNodeResults ctx0 w = (Return old, w0) -> old ⊆ results).
Proof.
  intros Hj Hu Ht Hc Hg. apply (getAll_eq (view := view)) in Hg as (cms & -> & Hcms).
  apply (save_adds (view := view) report suffix json) in Hc as (name & cm & Hnew & Hv & Hs); [|done].
  apply result_labels in Hs as (Hn & Hl & Hd). split.
  - intros r Hr. apply elem_of_concat_map. exists cm. split.
    + apply Hcms. split; [|done]. change (meta cm) with (cm_meta cm). rewrite Hn, Hv. apply lookup_insert_eq.
    + unfold report_results. rewrite Hn, prefix_append, Hd, Hu, Ht. apply list_elem_of_fmap. by exists r.
  - intros ctx0 old w0 Hold. apply (getAll_eq (view := view)) in Hold as (cms0 & -> & Hcms0).
    intros r (cm0 & [Hin Hm]%Hcms0 & Hr)%elem_of_concat_map. apply elem_of_concat_map. exists cm0. split; [|done].
    apply Hcms. split; [|done]. rewrite Hv, lookup_insert_ne; [done|]. intros E. rewrite <- E in Hin. congruence.
Qed.

Lemma saved_results_listed_witness :
  let saved := CreateBenchmarkResultConfigMap demo_report "host" (demo_sim []) in
  let read := getAllDestNodeResults Background saved.2 in
  exists results, read.1 = Return results /\
    to_result {| instant := 7; zone := UTC |} demo_report (demo_result "n2") ∈ results.
Proof.
  eexists. split; [vm_compute; reflexivity|].
  set (w1 := (CreateBenchmarkResultConfigMap demo_report "host" (demo_sim [])).2).
  refine (proj1 (saved_results_listed (view := sim_view) demo_report "host" "{report}"
    {| instant := 7; zone := UTC |} (demo_sim []) w1 Background _ (getAllDestNodeResults Background w1).2
    eq_refl eq_refl eq_refl _ _) (demo_result "n2") _); [vm_compute; reflexivity|vm_compute; reflexivity|left].
Defined.

(** ** The listing of the latest results *)

(** C29. With [latest] and without [today] the listing shows one row for every
    destination, mode, protocol and direction among the results that pass the
    filters, in the order of these four columns, each the row of a newest such
    result; a limit cuts the list after its first rows. *)
Theorem latest_listing_exact {W} {CS : Clientset W} {CD : Codec} {GS : GoSort} {SL : SortLaws} f ctx w results w1 :
  getAllDestNodeResults ctx w = (Return results, w1) -> Today f = false -> Latest f = true ->
  List.filter (matches_filter f) results <> [] ->
  exists listed rows w2,
    ListBenchmarksWithFilter ctx f w = Output (list_header :: rows) w2 /\
    Forall2 row_of (limit_rows f listed) rows /\
    StronglySorted (fun a b => grouped a b = true) listed /\
    (forall r, r ∈ listed -> r ∈ results /\ matches_filter f r = true) /\
    (forall r, r ∈ results -> matches_filter f r = true ->
       exists r', r' ∈ listed /\ latest_key r' = latest_key r /\ After (Timestamp r) (Timestamp r') = false).
Proof.
  intros Hg Ht Hl Hne. set (passing := List.filter (matches_filter f) results) in *.
  exists (sort_Sort grouped (first_of_key ∅ (sort_Sort newest_first passing))).
  destruct (latest_spec passing) as (Hs & Hin & Hall).
  destruct (rows_spec (arrange f passing) [list_header] w1) as (rows & w2 & Hrows & Hr).
  exists rows, w2. split; [|split; [|split; [exact Hs|split]]].
  - unfold ListBenchmarksWithFilter. rewrite bind_eq, Hg. cbn [fst snd].
    destruct results as [|r0 results']; [done|]. rewrite bind_eq, (apply_filters_eq f _ _ Ht). fold passing. cbn [fst snd].
    destruct passing as [|p0 passing']; [done|]. by rewrite bind_eq, Hrows.
  - unfold arrange in Hr. by rewrite Hl in Hr.
  - intros r Hr'%Hin. apply list_elem_of_In, filter_In in Hr' as [? ?]. by rewrite list_elem_of_In.
  - intros r Hr' Hm. apply Hall. apply list_elem_of_In, filter_In. by rewrite <- list_elem_of_In.
Qed.

Definition demo_filter : ListFilter :=
  {| Latest := true; Today := false; Mode := "host"; NodeName := "N2"; Limit := 0 |}.

Lemma latest_listing_exact_witness :
  let w := (CreateBenchmarkResultConfigMap demo_report "host" (demo_sim [])).2 in
  let results := [to_result {| instant := 7; zone := UTC |} demo_report (demo_result "n2")] in
  Today demo_filter = false /\ List.filter (matches_filter demo_filter) results <> [] /\
  exists listed rows w2,
    ListBenchmarksWithFilter Background demo_filter w = Output (list_header :: rows) w2 /\
    Forall2 row_of (limit_rows demo_filter listed) rows /\
    StronglySorted (fun a b => grouped a b = true) listed /\
    (forall r, r ∈ listed -> r ∈ results /\ matches_filter demo_filter r = true) /\
    (forall r, r ∈ results -> matches_filter demo_filter r = true ->
       exists r', r' ∈ listed /\ latest_key r' = latest_key r /\ After (Timestamp r) (Timestamp r') = false).
Proof.
  cbn zeta. set (w := (CreateBenchmarkResultConfigMap demo_report "host" (demo_sim [])).2).
  assert (List.filter (matches_filter demo_filter)
            [to_result {| instant := 7; zone := UTC |} demo_report (demo_result "n2")] <> []) as Hne by (vm_compute; discriminate).
  split; [reflexivity|]. split; [exact Hne|].
  apply (latest_listing_exact demo_filter Background w _ (getAllDestNodeResults Background w).2);
    [vm_compute; reflexivity|reflexivity|reflexivity|exact Hne].
Defined.

(** ** The intra-node pods and the summaries *)

(** The pods of the intra-node benchmark are placed on listed nodes that are
    schedulable and not excluded, each on the node of its name: any other pod there
    is afterwards was there when the first of them was created, after the deletion
    of the old ones and the sleep. Without an error at least one of them exists. *)
Theorem intra_pods_placed {W} `{ObjectLaws W view} config w e w' :
  CreateIntraNodeBenchmarkPods config w = (e, w') ->
  (exists err, e = Some (Errorf ("failed to list nodes: " +:+ ApiErrorString err))) \/
  exists ctx w0 w1 nodes, (ListNodes ctx w0).1 = Ok nodes /\
    let wc := (Sleep (2 * Second) (DeleteCollection KPod ctx ns intra_pods w1).2).2 in
    (forall key p, view w' KPod !! key = Some p -> view wc KPod !! key = Some p \/ placed config nodes key p) /\
    (e = None -> exists nd, nd ∈ nodes /\ eligible config nd /\ is_Some (view w' KPod !! intra_key nd)).
Proof.
  unfold CreateIntraNodeBenchmarkPods. rewrite bind_eq. set (ctx := (WithTimeout _ w).1). set (w0 := (WithTimeout _ w).2).
  rewrite bind_eq. destruct (ListNodes ctx w0) as [[nodes|err] w1] eqn:E; cbn [fst snd]; [|intros [= <- _]; left; eauto].
  intros Hr. right. exists ctx, w0, w1, nodes. rewrite E. split; [done|]. revert Hr. rewrite !bind_eq.
  set (wc := (Sleep _ _).2). set (tw := warn_unless_gone _ _ _). cbn zeta.
  destruct (intra_steps_spec (view := view) config ctx tw nodes wc) as [Hp Hn].
  destruct (foldM _ _ _ wc) as [[tw' n] w2]. cbn [fst snd] in Hp, Hn |- *.
  destruct (Z.eqb_spec n 0) as [->|Hn0]; [intros [= <- <-]; by split|].
  intros Hr%(f_equal snd). cbn [snd] in Hr. subst w'. unfold finish. rewrite bind_snd. cbn [ret snd].
  rewrite (printed_view (view := view) _ w2 KPod). split; [exact Hp|]. intros _. by apply Hn.
Qed.

(** Every node with a result has one summary, and none else has: its tests are
    counted, those of the host network and the others apart, its retransmits are
    added up, and its latest run is not before any of its results. The summaries
    are in the order of the nodes' names. *)
Theorem node_summaries_exact {GS : GoSort} {SL : SortLaws} results :
  StronglySorted (fun a b => String.ltb (ds_DestNode a) (ds_DestNode b) = true) (node_summaries results) /\
  (forall nd, nd ∈ node_summaries results ->
     of_node (ds_DestNode nd) results <> [] /\ summarises (of_node (ds_DestNode nd) results) nd) /\
  (forall r, r ∈ results -> exists nd, nd ∈ node_summaries results /\ ds_DestNode nd = DestNode r).
Proof.
  assert (forall nd, nd ∈ node_summaries results <-> node_data results !! ds_DestNode nd = Some nd) as Hin.
  { intros nd. unfold node_summaries. rewrite elem_of_sort, list_elem_of_fmap. split.
    - intros ([n nd'] & -> & Hl%elem_of_map_to_list). cbn. pose proof (node_data_spec results n) as Hs.
      rewrite Hl in Hs. by destruct Hs as [-> _].
    - intros Hl. exists (ds_DestNode nd, nd). split; [done|]. by apply elem_of_map_to_list. }
  split; [|split].
  - apply sort_increasing. rewrite <- list_fmap_compose.
    assert (forall l, (forall n nd, (n, nd) ∈ l -> ds_DestNode nd = n) -> (ds_DestNode ∘ snd) <$> l = l.*1) as Hk.
    { induction l as [|[n nd] l IH]; intros Hl; [done|]. cbn. f_equal; [apply Hl; left|]. apply IH. intros. apply Hl. by right. }
    rewrite Hk; [apply NoDup_fst_map_to_list|]. intros n nd Hl%elem_of_map_to_list.
    pose proof (node_data_spec results n) as Hs. rewrite Hl in Hs. by destruct Hs as [-> _].
  - intros nd Hnd%Hin. pose proof (node_data_spec results (ds_DestNode nd)) as Hs. rewrite Hnd in Hs. tauto.
  - intros r Hr. pose proof (node_data_spec results (DestNode r)) as Hs.
    destruct (node_data results !! DestNode r) as [nd|] eqn:E.
    + exists nd. destruct Hs as [Hn _]. split; [apply Hin; by rewrite Hn|done].
    + exfalso. apply list_elem_of_In in Hr. assert (In r (of_node (DestNode r) results)) as Hi; [|by rewrite Hs in Hi].
      apply filter_In. split; [done|apply String.eqb_refl].
Qed.

(** The listing's rows. *)
Example demo_listing :
  let w := (CreateBenchmarkResultConfigMap demo_report "host" (demo_sim [])).2 in
  sim_output (ListBenchmarksWithFilter Background demo_filter w).2 =
    [["[INFO] benchmark results saved to configmap 'iperf-result-host-0'"];
     [list_header; cells ["n2"; "host"; "TCP"; "UL"; "940.00 Mbps"; "1.00ms"; "-"; "-"; "3"; "0s"]]].
Proof. vm_compute. reflexivity. Qed.

(** The nodes to exclude are trimmed in Go and not by the script: with a space
    after a comma the client skips the node, its peers do not. *)
Example exclude_list_is_trimmed :
  let config := {| NumberOfConnections := 4; DurationSeconds := 10; ExcludeNodes := "n1, n2" |} in
  "n2" ∈ excluded_nodes config /\ "n2" ∉ Split "," (ExcludeNodes config).
Proof. split; [apply (bool_decide_unpack _); vm_compute; exact I|apply (bool_decide_unpack _); vm_compute; exact I]. Qed.

(** The warnings of the collection of the intra-node results stay in the buffer:
    when no log can be read, nothing is printed and no error is returned. *)
Example lost_warning :
  let pods := (CreateIntraNodeBenchmarkPods demo_config (demo_sim [])).2 in
  let s := upd (fun _ => [None; Some "connection refused"]) 0 [] (fmap (finished pods)) pods in
  let r := WaitForIntraNodeBenchmarkCompletion wait_fuel demo_config benchmarkTimeout s in
  r.1 = None /\ drop (length (sim_output s)) (sim_output r.2) =
    [["[INFO] waiting for intra-node benchmark pods to complete (timeout: 20m0s)..."];
     ["[INFO] all 1 intra-node benchmark pods completed"]].
Proof. vm_compute. split; reflexivity. Qed.

(** The average RTT of a node's summary is not an average: each further result
    weighs as much as all the earlier ones. *)
Example rtt_is_not_averaged :
  let r x := to_result {| instant := 7; zone := UTC |} demo_report
    {| it_Destination := "d"; it_DestNode := "n2"; it_Protocol := "tcp"; it_Direction := "UL";
       it_ThroughputBps := float64 1; it_Retransmits := 0; it_AvgCWND := float64 0;
       it_RTTMin := float64 0; it_RTTAvg := float64 x; it_RTTMax := float64 0;
       it_JitterMs := float64 0; it_PacketLossPct := float64 0 |} in
  (fun nd => Fixed2 (ds_AvgRTT nd)) <$> node_summaries [r 2; r 2; r 2; r 10] = ["6.00"].
Proof. vm_compute. reflexivity. Qed.
